(* ===== verification/_CoqProject ===== *)
-Q . S2P
Prelude.v
Memory.v
Platform.v
StubCode.v
ArtMethod.v
ArtMethodInit.v
Trampoline.v
StubRaces.v
TrampolinePool.v
Records.v
HookHelper.v
Slices.v
Vm.v
MirrorClass.v
ClassLinker.v
ClassInit.v
Instrumentation.v
Jit.v
ObjectCollections.v
Stack.v
Runtime.v
HookApi.v
Reflection.v
HookSpec.v
System.v
SystemInv.v
SystemRuntime.v
SystemClass.v
SystemApi.v
SystemHook.v
SystemSpec.v
SystemRaces.v
HookerDex.v
Invoke.v
Arena.v
ArenaSpec.v
DexFile.v
DexImages.v
Threads.v
LibraryInit.v
HideApi.v
MethodIds.v
BuildDex.v
Calls.v
CallsSpec.v
InvokeCalls.v
NativeScopes.v
BuildRaces.v
BuildImages.v
JniCalls.v
NativeEntry.v
JniRefs.v
JniArrays.v
JniObjectArrays.v
CollectionRefs.v
