(* ===== verification/Prelude.v ===== *)
(** * LSPlant verification library

    LSPlant hooks Java methods of the Android runtime: a hooked method's entry
    point is replaced by a stub that jumps to a generated hook method, a copy of
    the method (the backup) keeps its code, and a set of hooks on the runtime
    itself keeps the runtime from undoing this.  The library models the C++
    sources under [src/lsplant/src/main/jni] and proves what they rely on.

    ** The parts and the files that model them

    - [Prelude], [Memory]: words, bit fields, lists; memory as bytes.
    - [Platform] ([include/utils/type_traits.hpp], [common.cxx]): architectures,
      pointer width, API levels.  The architecture is a parameter [cur].
    - [ArtMethod], [ArtMethodInit] ([art/runtime/art_method.cxx]): the fields and
      flags of a method, written once against a class of stores and used twice,
      on bytes and on records; the offsets and flag values [Init] computes.
    - [StubCode]: the few instructions stubs are made of, decoded from bytes and
      run, for each architecture; [Trampoline] (the templates, [UpdateTrampoline],
      [WriteTrampoline] of [lsplant.cc]): the bytes of a stub, and the method that
      running them reaches ([trampoline_target]); [StubRaces]: a stub that is
      switched while a thread runs it.
    - [TrampolinePool] ([GenerateTrampolineFor]): concurrent allocation of stubs.
    - [Records] ([common.cxx]): the global tables of hooked, backup, deoptimized
      and moved methods, with their invariant [registry_ok].
    - [HookHelper] ([include/utils/hook_helper.hpp]): symbols and the handler that
      resolves and hooks them.
    - [Slices] ([art/base]): the strided arrays of a class's methods.
    - [Vm]: the state the runtime hooks share: methods, tables, code memory.
    - [MirrorClass] ([art/mirror/class.cxx]), [ClassLinker]
      ([art/runtime/class_linker.cxx]), [Instrumentation], [Jit]
      ([art/runtime/instrumentation.cxx], [jit/], [jni/]): the hooks on class
      initialization, native registration, code updates and compilation;
      [ClassInit] has the theorems about the first two.
    - [ObjectCollections] ([include/utils/jni_helper.hpp]): the lists and maps
      kept in Java arrays.
    - [Stack] ([art/runtime/stack.cxx]): hiding methods from stack walks.
    - [Runtime] ([art/runtime/runtime.cxx]): offset probes and the counter of
      [JavaDebuggableGuard].
    - [Reflection] ([reflection.cxx]): global references, [InitJNI], boxing.
    - [HookApi] ([lsplant.cc]): [HookMethod], [DoHook], [DoUnHook], [UnHook],
      [SetHookEnabled], [Deoptimize] and the smaller API functions; [HookSpec]
      has the theorems.
    - [System]: the parts above as one machine: a step is an API call or an event
      of the runtime that one of LSPlant's hooks sees; beside it the machine of an
      application without LSPlant.  [SystemInv] has the invariant and the
      relation between the two, [SystemRuntime], [SystemClass], [SystemApi] and
      [SystemHook] show that each step keeps them, [SystemSpec] has the theorems
      and [SystemRaces] the interleavings that break a hook.
    - [HookerDex] ([BuildDex], [VNativeHookerEntry]): the generated classes, and
      what their code does; [BuildDex]: the whole of the function, which gives a
      class to the runtime and loads it; [NativeScopes]: the scopes
      ([ScopedNonNativeTargetMethod]) of fast-native hookers; [NativeEntry]: their
      registered entry ([NativeHookerEntry]) and the union it reads its result from.
    - [Calls]: [System] together with [BuildDex] and the Java state [HookMethod]
      writes; a call of a method follows its stub and runs the generated code;
      [CallsSpec] has the theorem.  [BuildRaces]: two calls of [BuildDex] at once;
      [BuildImages]: calls one after the other, on the allocator.
    - [Invoke] ([InvokeSpecial] and the exceptions it throws); [InvokeCalls]: what it
      does to hooked methods in the machine of [Calls].
    - [Arena] ([art/base/arena_allocator.cxx]): arenas, their pool and the
      allocator; [ArenaSpec] has the theorems.
    - [DexFile] ([art/runtime/dex_file.cxx], the functions of [lsplant.cc] that
      open images); [DexImages]: its images on the allocator.
    - [Threads] ([art/runtime/thread.cxx], [thread_list.cxx],
      [gc/scoped_gc_critical_section.cxx], [handle.cxx], [art/mirror/unsafe.cxx]):
      the current thread, references, and the scopes that stop the world.
    - [LibraryInit] ([InitConfig], [InitNative], [Init]): all initializers, in the
      order of the source, on one state.
    - [HideApi] ([MakeMethodHidden], [MakeClassHidden], [MakeClassVisible]).
    - [MethodIds] ([art/runtime/art_method.cxx]): reflected methods, ids, names.
    - [JniCalls], [JniRefs], [JniArrays], [JniObjectArrays], [CollectionRefs]
      ([include/utils/jni_helper.hpp]): the wrappers of JNI calls with their types;
      scoped references, frames, monitors and strings; scopes of primitive arrays;
      of object arrays; and the references the collections own.

    ** How they interact

    The hook API writes methods through [ArtMethod], takes a stub address from
    the pool and fills it with [WriteTrampoline], and records the hook in the
    tables of [Records].  The runtime's hooks read those tables: each gets the
    original function as a parameter (a function on the state), runs it, and
    moves what it did to a hooked method over to the backup.  Functions in C++
    keep their names; a handler's state is passed explicitly; a function that
    may abort or run into unreachable code returns an option.  [BuildDex] composes
    the generated class, the images and a map of class loaders; [HideApi] the
    stack filter and the suspension scopes; [LibraryInit] the initializers of all
    components, each of which changes only the symbols it declares.  [System]
    composes the hook API with the hooks on the runtime: they share the methods
    and the tables of [Vm], and the steps come in any order.

    ** What the theorems show

    - Stubs: every architecture's stub, decoded and run, puts its hook in the
      method register and jumps through the entry-point field of the hook.  While
      [mmap] succeeds, calls are never given overlapping stubs; whatever the
      system answers, a waiting thread waits for one that can run and frees the lock.
    - Methods: the byte-level accesses implement the operations on records, at
      the offsets [Init] finds.
    - The system: in the runs of API calls and runtime events that [sys_step]
      allows, a method that is hooked keeps its stub, and the code the application
      would see is the code of the backup: the run is a run of the application's
      machine.  Runs left out: hooking, unhooking or deoptimizing a method while
      its class is being initialized, collecting the code cache after a method with
      a recorded movement was unhooked, and [MapBootImageMethods].  [SystemRaces] and
      [Jit] have theorems on what goes wrong: a hook is lost, an unhooked method
      is hooked again or loses its data, a deoptimized method loses its hook.
    - Calls: after such a run, a call of a hooked method calls the callback it was
      hooked with, on its object and with its boxed arguments, and returns the
      unboxed answer, unless the class of the method is being initialized;
      [SetHookEnabled(true)] makes calls run the method's own code, as a finding
      says; any other call runs the application's code.  [InvokeSpecial]
      reaches the callback of a hooked method and the code behind its backup.
    - Races: [StubRaces], [NativeScopes] and [BuildRaces] split what the source
      leaves without locks into accesses to memory; undisturbed they are the
      operations modelled elsewhere, and theorems show what two threads together do.
    - Hooks: installing, removing, switching and refusing, with what a refused hook
      leaves behind in Java; the invariant [api_inv] of every sequence of API calls.
    - Runtime: class initialization, native registration (the constructor of
      [Updater] saves whatever the runtime may change), instrumentation and JIT
      start-up leave trampolines in place and give new code to the backups; where
      they do not, a theorem shows the case.
    - Initialization: after a successful [InitNative] every component has what its
      initializer finds when it runs alone, and a sequence of [Init] calls runs the
      initializers once.
    - Memory and images: blocks of the allocator are disjoint, and its calls leave
      what was written to them; images stay intact but for their magic; hooker classes
      have names of their own and one class loader for each loader of the embedder
      that is not null, when they are built one at a time ([BuildRaces] has two).
    - JNI: wrappers return what the JNI function of the right kind answers, as the
      type that was asked for, and leave no exception;
      scopes, frames, arrays, loops over arrays and collections delete exactly the
      references they own; where they do not, the theorem says so.
    - Support code: collections, ids, slices, stack traces, hiding, the debuggable
      guard, generated hookers, the exceptions of [InvokeSpecial].

    ** Bounds and fuel

    Loops over arrays recurse on the number of rounds left, which the caller
    sets to the length ([find_null], [find_key], [last_non_null], [compact],
    [keep_frames]) or to the constant of the source (512 words and 4096 bytes in
    [Runtime]); theorems state that the searches succeed within it.  Addresses
    wrap at the pointer width of the architecture; the packed counter of the
    pool has 12 or 14 bits and its theorem bounds the number of threads, since
    failing [mmap] calls do make it overflow ([count_overflows_into_page]).  Loops
    over object arrays take fuel; any more than the length of the array is enough.
    Arena sizes and pointers wrap, and theorems bound what is asked for where it
    matters; [build_step] and [scope_step] leave room in their counters.  Sizes of Java arrays are not bounded.

    ** What is a parameter

    The runtime's own functions, JNI, the DEX builder and the operating system
    are not part of the repository: they are arguments, and what is assumed of
    them is a named hypothesis or definition ([intrinsic_frame],
    [interpreter_frame], [generated_methods], [stub_fresh], [answers_ok],
    [jni_ok] of [Invoke], [mmap_ok] and [malloc_ok] of [ArenaSpec], [reference_ok]
    of [Threads], [calls_typed], [fields_ok] and [exceptions_ok] of [JniCalls],
    [fresh_elements] of [JniArrays], [array_scope] of [JniObjectArrays], [ids_ok]
    of [MethodIds]; [interpreter_ok], [movement_ok], [rewrites], [writes_code] and
    [registers] of [System]: native registration gives code of the runtime to native
    methods that the call names, or of its class ([named] and [of_class] of
    [ClassInit]), found by name and signature as static or as instance method but not
    both ([one_kind]); [perform_ok] of [InvokeCalls]; [results_typed] of
    [NativeEntry]; [new_class] of [Calls]: a class the runtime loads and its methods
    are new), each met by a concrete function in a witness.

    ** What is not modelled

    Logging; the public headers and module interfaces, which declare what is
    modelled here; [docs/jni.h], a copy of the header of JNI; the tests.  The
    steps of [System] are atomic, except for class initialization; the JIT's
    [MapBootImageMethods] is not one of them, since what its last loop leaves
    depends on the order of a hash table ([map_boot_image_order_matters]): it has
    a theorem of its own.  The variadic arguments of a fast-native hooker are
    a list; the locks of the arena pool make its operations single steps;
    instruction caches and page protections, but for the result of [mprotect].
    Memory order is sequentially consistent in the two transition systems.  The
    hash tables are finite maps, in any order of iteration. *)

From Stdlib Require Import Btauto.
From stdpp Require Export base tactics option list numbers gmap sets relations.
From stdpp Require Export functions strings.
From Stdlib Require Export ZArith Lia.

#[global] Open Scope Z_scope.

(** ** Machine words *)

Declare Scope word_scope.
Delimit Scope word_scope with word.

(** [wrap w z]: the value of [z] kept in an unsigned [w]-bit integer. *)
Definition wrap (w z : Z) : Z := z mod 2 ^ w.

(** Unsigned [w]-bit addition, subtraction and multiplication. *)
Notation "a +[ w ] b" := (wrap w (a + b)) (at level 50, left associativity) : word_scope.
Notation "a -[ w ] b" := (wrap w (a - b)) (at level 50, left associativity) : word_scope.
Notation "a *[ w ] b" := (wrap w (a * b)) (at level 40, left associativity) : word_scope.

(** [flags & mask != 0], [flags |= mask] and [flags &= ~mask]. *)
Definition has_bits (flags mask : Z) : bool := negb (Z.land flags mask =? 0).
Definition set_bits (flags mask : Z) : Z := Z.lor flags mask.
Definition clear_bits (flags mask : Z) : Z := Z.ldiff flags mask.

(** [__builtin_align_up] and [__builtin_align_down] on an unsigned [w]-bit
    value, for a power of two [a]. *)
Definition align_down (x a : Z) : Z := Z.land x (Z.lnot (a - 1)).
Definition align_up (w x a : Z) : Z := align_down (wrap w (x + (a - 1))) a.

(** ** Bit-level automation *)

Create Rewrite HintDb lsp_bits.
Create HintDb lsp.

Lemma bool_if_same {A} (b : bool) (x : A) : (if b then x else x) = x.
Proof. by destruct b. Qed.

(** Reduces an equation between integers to one between their bits. *)
Ltac bitwise_eq :=
  apply Z.bits_inj'; intros ?i ?Hi;
  repeat (rewrite Z.lor_spec || rewrite Z.land_spec || rewrite Z.ldiff_spec
          || rewrite Z.lxor_spec || rewrite Z.bits_0);
  try btauto.

Section flag_words.
Implicit Types f a b : Z.

Lemma has_bits_set f a b :
  has_bits (set_bits f a) b = has_bits f b || has_bits a b.
Proof.
  unfold has_bits, set_bits. rewrite Z.land_lor_distr_l.
  destruct (Z.eqb_spec (Z.land f b) 0) as [->|Hf];
    destruct (Z.eqb_spec (Z.land a b) 0) as [->|Ha]; simpl; try done.
  - by rewrite Z.lor_0_l, (proj2 (Z.eqb_neq _ _)).
  - by rewrite Z.lor_0_r, (proj2 (Z.eqb_neq _ _)).
  - rewrite (proj2 (Z.eqb_neq _ _)); [done|]. by rewrite Z.lor_eq_0_iff; intros [].
Qed.

Lemma has_bits_clear_same f a : has_bits (clear_bits f a) a = false.
Proof.
  unfold has_bits, clear_bits. replace (Z.land (Z.ldiff f a) a) with 0; [done|].
  symmetry. bitwise_eq.
Qed.

Lemma has_bits_clear_other f a b :
  Z.land a b = 0 → has_bits (clear_bits f a) b = has_bits f b.
Proof.
  intros H. unfold has_bits, clear_bits. f_equal. f_equal.
  apply Z.bits_inj'; intros i Hi.
  assert (Z.testbit (Z.land a b) i = false) as Hz by by rewrite H, Z.bits_0.
  rewrite Z.land_spec in Hz. rewrite !Z.land_spec, Z.ldiff_spec.
  destruct (Z.testbit f i), (Z.testbit a i), (Z.testbit b i); done.
Qed.

Lemma set_bits_idemp f a : set_bits (set_bits f a) a = set_bits f a.
Proof. unfold set_bits. bitwise_eq. Qed.

Lemma clear_bits_idemp f a : clear_bits (clear_bits f a) a = clear_bits f a.
Proof. unfold clear_bits. bitwise_eq. Qed.

Lemma clear_set_bits f a : clear_bits (set_bits f a) a = clear_bits f a.
Proof. unfold clear_bits, set_bits. bitwise_eq. Qed.

Lemma has_bits_0_r f : has_bits f 0 = false.
Proof. unfold has_bits. by rewrite Z.land_0_r. Qed.

Lemma set_bits_0 f : set_bits f 0 = f.
Proof. unfold set_bits. apply Z.lor_0_r. Qed.

Lemma clear_bits_0 f : clear_bits f 0 = f.
Proof. unfold clear_bits. apply Z.ldiff_0_r. Qed.
End flag_words.

#[export] Hint Rewrite has_bits_set has_bits_clear_same has_bits_0_r set_bits_0
  clear_bits_0 set_bits_idemp clear_bits_idemp clear_set_bits : lsp_bits.
#[export] Hint Rewrite has_bits_clear_other using done : lsp_bits.

(** ** Words stay in range *)

Lemma wrap_range w z : 0 <= w → 0 <= wrap w z < 2 ^ w.
Proof. intros. apply Z.mod_pos_bound. by apply Z.pow_pos_nonneg. Qed.

Lemma wrap_small w z : 0 <= z < 2 ^ w → wrap w z = z.
Proof. apply Z.mod_small. Qed.

Lemma wrap_wrap w z : wrap w (wrap w z) = wrap w z.
Proof. unfold wrap. apply Zmod_mod. Qed.

Lemma wrap_add_l w a b : wrap w (wrap w a + b) = wrap w (a + b).
Proof. unfold wrap. apply Zplus_mod_idemp_l. Qed.

Lemma wrap_add_r w a b : wrap w (a + wrap w b) = wrap w (a + b).
Proof. unfold wrap. apply Zplus_mod_idemp_r. Qed.

Lemma wrap_sub_l w a b : wrap w (wrap w a - b) = wrap w (a - b).
Proof. unfold wrap. apply Zminus_mod_idemp_l. Qed.

Lemma align_down_mod x k : 0 <= k → align_down x (2 ^ k) = x - x mod 2 ^ k.
Proof.
  intros Hk. unfold align_down.
  replace (2 ^ k - 1) with (Z.ones k) by (rewrite Z.ones_equiv; lia).
  rewrite <-Z.ldiff_land, Z.ldiff_ones_r by done.
  rewrite Z.shiftl_mul_pow2, Z.shiftr_div_pow2 by done.
  pose proof (Z.div_mod x (2 ^ k)). lia.
Qed.

Lemma align_down_divide x k : 0 <= k → (2 ^ k | align_down x (2 ^ k)).
Proof.
  intros Hk. rewrite align_down_mod by done. exists (x / 2 ^ k).
  pose proof (Z.div_mod x (2 ^ k)). lia.
Qed.

Lemma align_up_spec w x k :
  0 <= k → 0 <= x → x + (2 ^ k - 1) < 2 ^ w →
  (2 ^ k | align_up w x (2 ^ k)) ∧ x <= align_up w x (2 ^ k) < x + 2 ^ k.
Proof.
  intros Hk Hx Hw. pose proof (Z.pow_pos_nonneg 2 k ltac:(lia) Hk).
  split; [by apply align_down_divide|].
  unfold align_up. rewrite align_down_mod, wrap_small by lia.
  pose proof (Z.mod_pos_bound (x + (2 ^ k - 1)) (2 ^ k)). lia.
Qed.

(** ** Lists *)

(** Number of elements satisfying a boolean predicate. *)
Fixpoint count_if {A} (f : A → bool) (l : list A) : Z :=
  match l with
  | [] => 0
  | x :: l => (if f x then 1 else 0) + count_if f l
  end.

Section count_if.
Context {A : Type} (f : A → bool).
Implicit Types l : list A.

Lemma count_if_nonneg l : 0 <= count_if f l.
Proof. induction l as [|x l IH]; simpl; [lia|]. destruct (f x); lia. Qed.

Lemma count_if_le_length l : count_if f l <= Z.of_nat (length l).
Proof. induction l as [|x l IH]; simpl; [lia|]. destruct (f x); lia. Qed.

Lemma count_if_insert l i x y :
  l !! i = Some x →
  count_if f (<[i:=y]> l) =
    count_if f l - (if f x then 1 else 0) + (if f y then 1 else 0).
Proof.
  revert i. induction l as [|z l IH]; intros [|i] Hi; simplify_eq/=; [lia|].
  rewrite IH by done. lia.
Qed.

Lemma count_if_lookup l i x : l !! i = Some x → f x = true → 1 <= count_if f l.
Proof.
  revert i. induction l as [|z l IH]; intros [|i] Hi Hx; simplify_eq/=.
  - rewrite Hx. pose proof (count_if_nonneg l). lia.
  - specialize (IH _ Hi Hx). destruct (f z); lia.
Qed.

Lemma count_if_zero l x : count_if f l = 0 → x ∈ l → f x = false.
Proof.
  intros H Hx. apply list_elem_of_lookup in Hx as [i Hi].
  destruct (f x) eqn:E; [|done]. pose proof (count_if_lookup l i x Hi E). lia.
Qed.

Lemma count_if_pos_inv l : 0 < count_if f l → ∃ i x, l !! i = Some x ∧ f x = true.
Proof.
  induction l as [|z l IH]; simpl; [lia|]. destruct (f z) eqn:E.
  - intros _. by exists 0%nat, z.
  - intros H. destruct IH as (i & x & ? & ?); [lia|]. by exists (S i), x.
Qed.
End count_if.

(** Sum of a measure over a list. *)
Fixpoint sum_map {A} (f : A → Z) (l : list A) : Z :=
  match l with
  | [] => 0
  | x :: l => f x + sum_map f l
  end.

Section sum_map.
Context {A : Type}.
Implicit Types (f g : A → Z) (l : list A).

Lemma sum_map_insert f l i x y :
  l !! i = Some x → sum_map f (<[i:=y]> l) = sum_map f l - f x + f y.
Proof.
  revert i. induction l as [|z l IH]; intros [|i] Hi; simplify_eq/=; [lia|].
  rewrite IH by done. lia.
Qed.

Lemma sum_map_mono f g l : (∀ x, f x <= g x) → sum_map f l <= sum_map g l.
Proof. intros H. induction l as [|x l IH]; simpl; [lia|]. specialize (H x). lia. Qed.

Lemma sum_map_bound f l k : (∀ x, f x <= k) → sum_map f l <= k * Z.of_nat (length l).
Proof. intros H. induction l as [|x l IH]; simpl; [lia|]. specialize (H x). lia. Qed.

Lemma sum_map_nonneg f l : (∀ x, 0 <= f x) → 0 <= sum_map f l.
Proof. intros H. induction l as [|x l IH]; simpl; [lia|]. specialize (H x). lia. Qed.
End sum_map.

(** Two different positions satisfying [f] count for two. *)
Lemma count_if_two {A} (f : A → bool) (l : list A) i j x y :
  i ≠ j → l !! i = Some x → l !! j = Some y → f x = true → f y = true →
  2 <= count_if f l.
Proof.
  revert i j. induction l as [|z l IH]; intros [|i] [|j] ? Hi Hj Hx Hy; simplify_eq/=.
  - rewrite Hx. pose proof (count_if_lookup f l j y Hj Hy). lia.
  - rewrite Hy. pose proof (count_if_lookup f l i x Hi Hx). lia.
  - assert (i ≠ j) by congruence. specialize (IH i j). destruct (f z);
      specialize (IH ltac:(done) Hi Hj Hx Hy); lia.
Qed.

(** The elements of a duplicate-free [flat_map] come from one position each. *)
Lemma NoDup_flat_map_lookup {A B} (f : A → list B) l i j x y b :
  NoDup (flat_map f l) → l !! i = Some x → l !! j = Some y → b ∈ f x → b ∈ f y → i = j.
Proof.
  assert (∀ l j y, l !! j = Some y → b ∈ f y → b ∈ flat_map f l) as Hin.
  { clear. induction l as [|z l IH]; intros [|j] y Hj Hb; simplify_eq/=;
      apply elem_of_app; eauto. }
  revert i j. induction l as [|z l IH]; intros [|i] [|j] Hnd Hi Hj Hx Hy; simplify_eq/=;
    apply NoDup_app in Hnd as (? & Hdis & ?); [done| | |f_equal; eauto].
  - destruct (Hdis b); eauto.
  - destruct (Hdis b); eauto.
Qed.

Lemma submseteq_NoDup {A} (l k : list A) : l ⊆+ k → NoDup k → NoDup l.
Proof. intros [k' ->]%submseteq_Permutation Hk. by apply NoDup_app in Hk as (? & _). Qed.

(** ** Transition systems *)

(** An inductive invariant of a step relation holds of every reachable state. *)
Lemma rtc_invariant {A} (R : relation A) (I : A → Prop) x y :
  (∀ a b, I a → R a b → I b) → I x → rtc R x y → I y.
Proof. intros Hstep Hx. induction 1; eauto. Qed.

(** ** Case analysis *)

(** Destructs the scrutinee of every [if] and [match] of the goal, then simplifies. *)
Ltac case_all :=
  repeat match goal with
  | |- context [if ?b then _ else _] => destruct b eqn:?; simplify_eq/=
  | |- context [match ?b with _ => _ end] => destruct b eqn:?; simplify_eq/=
  end.

(** [lia] with the equations of every [/] and [mod] of the context. *)
Ltac dlia := Z.div_mod_to_equations; lia.
