(* ===== verification/Memory.v ===== *)
(** * Byte-addressed memory

    The address space LSPlant reads and writes through [reinterpret_cast]: a
    total map from addresses to bytes, little-endian loads and stores of [n]
    bytes, [memcpy] and [memset], and the frame laws of loads over stores. *)

From S2P Require Import Prelude.

(** A byte per address. *)
Definition mem := Z → Z.

(** The [n] low bytes of [v], least significant first. *)
Fixpoint le_bytes (n : nat) (v : Z) : list Z :=
  match n with
  | O => []
  | S n => v mod 256 :: le_bytes n (v / 256)
  end.

(** The value of a little-endian byte string. *)
Fixpoint le_value (bs : list Z) : Z :=
  match bs with
  | [] => 0
  | b :: bs => b + 256 * le_value bs
  end.

(** Bytes are in range. *)
Definition is_byte (b : Z) : Prop := 0 <= b < 256.

Definition byte_at (m : mem) (a : Z) : Z := m a mod 256.

Definition read_bytes (m : mem) (a : Z) (n : nat) : list Z :=
  map (λ i, byte_at m (a + Z.of_nat i)) (seq 0 n).

Definition write_bytes (m : mem) (a : Z) (bs : list Z) : mem :=
  λ x, if (a <=? x) && (x <? a + Z.of_nat (length bs))
       then nth (Z.to_nat (x - a)) bs 0 else m x.

Definition load (m : mem) (n : nat) (a : Z) : Z := le_value (read_bytes m a n).
Definition store (m : mem) (n : nat) (a v : Z) : mem := write_bytes m a (le_bytes n v).
Definition memcpy (m : mem) (dst src : Z) (n : nat) : mem :=
  write_bytes m dst (read_bytes m src n).
Definition memset0 (m : mem) (a : Z) (n : nat) : mem := write_bytes m a (repeat 0 n).

(** Two address ranges do not overlap. *)
Definition disjoint_range (a : Z) (n : nat) (b : Z) (k : nat) : Prop :=
  a + Z.of_nat n <= b ∨ b + Z.of_nat k <= a.

#[global] Instance disjoint_range_dec a n b k : Decision (disjoint_range a n b k).
Proof. unfold disjoint_range. apply _. Defined.

(** ** Little-endian encoding *)

Lemma length_le_bytes n v : length (le_bytes n v) = n.
Proof. revert v. induction n as [|n IH]; intros v; simpl; [done|]. by rewrite IH. Qed.

Lemma le_bytes_range n v : Forall is_byte (le_bytes n v).
Proof.
  revert v. induction n as [|n IH]; intros v; simpl; constructor; [|done].
  unfold is_byte. dlia.
Qed.

Lemma le_value_bytes n v : le_value (le_bytes n v) = v mod 2 ^ (8 * Z.of_nat n).
Proof.
  revert v. induction n as [|n IH]; intros v; simpl.
  - by rewrite Z.mod_1_r.
  - rewrite IH. replace (8 * Z.of_nat (S n)) with (8 + 8 * Z.of_nat n) by lia.
    rewrite Z.pow_add_r by lia. change (2 ^ 8) with 256.
    rewrite Z.rem_mul_r by lia. done.
Qed.

Lemma le_bytes_value bs :
  Forall is_byte bs → le_bytes (length bs) (le_value bs) = bs.
Proof.
  induction 1 as [|b bs Hb _ IH]; simpl; [done|]. unfold is_byte in Hb.
  rewrite Z.mul_comm, Z.mod_add, Z.mod_small by lia.
  rewrite Z.div_add, Z.div_small, Z.add_0_l by lia. by rewrite IH.
Qed.

Lemma le_value_range bs :
  Forall is_byte bs → 0 <= le_value bs < 2 ^ (8 * Z.of_nat (length bs)).
Proof.
  induction 1 as [|b bs Hb _ IH]; simpl; [lia|]. unfold is_byte in Hb.
  replace (8 * Z.of_nat (S (length bs))) with (8 + 8 * Z.of_nat (length bs)) by lia.
  rewrite Z.pow_add_r by lia. change (2 ^ 8) with 256. lia.
Qed.

Lemma le_value_app bs1 bs2 :
  le_value (bs1 ++ bs2) = le_value bs1 + 2 ^ (8 * Z.of_nat (length bs1)) * le_value bs2.
Proof.
  induction bs1 as [|b bs1 IH]; simpl; [lia|]. rewrite IH.
  replace (8 * Z.of_nat (S (length bs1))) with (8 + 8 * Z.of_nat (length bs1)) by lia.
  rewrite Z.pow_add_r by lia. change (2 ^ 8) with 256. lia.
Qed.

(** ** Loads and stores *)

Lemma length_read_bytes m a n : length (read_bytes m a n) = n.
Proof. unfold read_bytes. by rewrite length_map, length_seq. Qed.

Lemma read_bytes_ext m1 m2 a1 a2 n :
  (∀ i : nat, (i < n)%nat → byte_at m1 (a1 + Z.of_nat i) = byte_at m2 (a2 + Z.of_nat i)) →
  read_bytes m1 a1 n = read_bytes m2 a2 n.
Proof.
  intros H. unfold read_bytes. apply map_ext_in. intros i Hi%in_seq. apply H. lia.
Qed.

Lemma read_bytes_range m a n : Forall is_byte (read_bytes m a n).
Proof.
  apply Forall_forall. intros b Hb. unfold read_bytes in Hb.
  apply list_elem_of_In, in_map_iff in Hb as (i & <- & _). unfold is_byte, byte_at. dlia.
Qed.

Lemma nth_read_bytes m a n (i : nat) :
  (i < n)%nat → nth i (read_bytes m a n) 0 = byte_at m (a + Z.of_nat i).
Proof.
  intros Hi. unfold read_bytes.
  rewrite nth_indep with (d' := byte_at m (a + Z.of_nat 0)) by (rewrite length_map, length_seq; lia).
  rewrite (map_nth (λ i, byte_at m (a + Z.of_nat i))). by rewrite seq_nth.
Qed.

Lemma write_bytes_out m a bs x :
  x < a ∨ a + Z.of_nat (length bs) <= x → write_bytes m a bs x = m x.
Proof.
  intros Hx. unfold write_bytes.
  destruct (Z.leb_spec a x), (Z.ltb_spec x (a + Z.of_nat (length bs))); simpl; done || lia.
Qed.

Lemma write_bytes_in m a bs (i : nat) :
  (i < length bs)%nat → write_bytes m a bs (a + Z.of_nat i) = nth i bs 0.
Proof.
  intros Hi. unfold write_bytes.
  destruct (Z.leb_spec a (a + Z.of_nat i)),
    (Z.ltb_spec (a + Z.of_nat i) (a + Z.of_nat (length bs))); simpl; try lia.
  f_equal. lia.
Qed.

Lemma read_write_same m a bs :
  Forall is_byte bs → read_bytes (write_bytes m a bs) a (length bs) = bs.
Proof.
  intros Hbs. apply nth_ext with (d := 0) (d' := 0); rewrite length_read_bytes; [done|].
  intros i Hi. rewrite nth_read_bytes by done. unfold byte_at.
  rewrite write_bytes_in by done.
  apply Z.mod_small. rewrite (Forall_nth _ 0) in Hbs. by apply Hbs.
Qed.

(** Part of a written byte string reads back. *)
Lemma read_written m a bs (o n : nat) :
  Forall is_byte bs → (o + n <= length bs)%nat →
  read_bytes (write_bytes m a bs) (a + Z.of_nat o) n = take n (drop o bs).
Proof.
  intros Hbs Hn. apply nth_ext with (d := 0) (d' := 0).
  { rewrite length_read_bytes, length_take, length_drop. lia. }
  rewrite length_read_bytes. intros i Hi. rewrite nth_read_bytes by done. unfold byte_at.
  rewrite <-Z.add_assoc, <-Nat2Z.inj_add, write_bytes_in by lia.
  rewrite !nth_lookup, lookup_take_lt, lookup_drop by lia.
  apply Z.mod_small. rewrite <-nth_lookup. rewrite (Forall_nth _ 0) in Hbs. apply Hbs. lia.
Qed.

Lemma read_write_disjoint m a bs b n :
  disjoint_range a (length bs) b n →
  read_bytes (write_bytes m a bs) b n = read_bytes m b n.
Proof.
  intros H. apply read_bytes_ext. intros i Hi. unfold byte_at. f_equal.
  apply write_bytes_out. unfold disjoint_range in H. lia.
Qed.

Lemma load_range m n a : 0 <= load m n a < 2 ^ (8 * Z.of_nat n).
Proof.
  unfold load. rewrite <-(length_read_bytes m a n) at 3.
  apply le_value_range, read_bytes_range.
Qed.

Lemma load_store_same m n a v : load (store m n a v) n a = v mod 2 ^ (8 * Z.of_nat n).
Proof.
  unfold load, store. rewrite <-(length_le_bytes n v) at 2.
  rewrite read_write_same by apply le_bytes_range. by rewrite le_value_bytes.
Qed.

Lemma load_store_disjoint m n a v k b :
  disjoint_range a n b k → load (store m n a v) k b = load m k b.
Proof.
  intros H. unfold load, store. by rewrite read_write_disjoint by (by rewrite length_le_bytes).
Qed.

(** A field of a [memcpy]'d object reads as the same field of the source. *)
Lemma load_memcpy m dst src n k o :
  0 <= o → o + Z.of_nat k <= Z.of_nat n →
  load (memcpy m dst src n) k (dst + o) = load m k (src + o).
Proof.
  intros Ho Hk. unfold load, memcpy. f_equal. apply read_bytes_ext. intros i Hi.
  unfold byte_at at 1.
  replace (dst + o + Z.of_nat i) with (dst + Z.of_nat (Z.to_nat (o + Z.of_nat i))) by lia.
  rewrite write_bytes_in by (rewrite length_read_bytes; lia).
  rewrite nth_read_bytes by lia. unfold byte_at. rewrite Zmod_mod. do 2 f_equal. lia.
Qed.

Lemma load_memcpy_disjoint m dst src n k a :
  disjoint_range dst n a k → load (memcpy m dst src n) k a = load m k a.
Proof.
  intros H. unfold load, memcpy. by rewrite read_write_disjoint by (by rewrite length_read_bytes).
Qed.

Create Rewrite HintDb lsp_mem.
#[export] Hint Rewrite length_le_bytes length_read_bytes : lsp_mem.

(** Parts of a byte string that is read. *)
Lemma take_read m a n k : (k <= n)%nat → take k (read_bytes m a n) = read_bytes m a k.
Proof.
  intros Hk. apply nth_ext with (d := 0) (d' := 0); rewrite length_take, !length_read_bytes; [lia|].
  intros i Hi. rewrite nth_lookup, lookup_take_lt, <-nth_lookup by lia.
  by rewrite !nth_read_bytes by lia.
Qed.

Lemma drop_read m a n k : drop k (read_bytes m a n) = read_bytes m (a + Z.of_nat k) (n - k).
Proof.
  apply nth_ext with (d := 0) (d' := 0); rewrite length_drop, !length_read_bytes; [lia|].
  intros i Hi. rewrite nth_lookup, lookup_drop, <-nth_lookup.
  rewrite !nth_read_bytes by lia. f_equal. lia.
Qed.
