(* ===== verification/Platform.v ===== *)
(** * Platform: architectures, pointer width, API levels

    [include/utils/type_traits.hpp] and the platform helpers of [common.cxx]. *)

From S2P Require Import Prelude.
From Stdlib Require Import Ascii String.

(** [enum class Arch]; the aliases [kCurrent] and [kLPCurrent] are the
    parameter [cur] of the definitions below. *)
Inductive Arch : Set :=
  | kUnknown | kArm64 | kArm | kX86 | kX64 | kRiscv64 | kLP32 | kLP64.

#[global] Instance Arch_eq_dec : EqDecision Arch.
Proof. solve_decision. Defined.

(** The five architectures the library is built for. *)
Definition supported : list Arch := [kArm64; kArm; kX86; kX64; kRiscv64].

(** [kLPCurrent]: the data model of the current architecture ([__LP64__]). *)
Definition kLPCurrent (cur : Arch) : Arch :=
  match cur with
  | kArm64 | kX64 | kRiscv64 => kLP64
  | _ => kLP32
  end.

(** [is_arch<kArch...>]: the current architecture or its data model is listed. *)
Fixpoint is_arch_v (cur : Arch) (archs : list Arch) : bool :=
  match archs with
  | [] => false
  | kArch :: kRest =>
      (bool_decide (kArch = cur) || bool_decide (kArch = kLPCurrent cur))
      || is_arch_v cur kRest
  end.

(** [PickLP(lp64, lp32)]. *)
Definition PickLP {A} (cur : Arch) (lp64 lp32 : A) : A :=
  if is_arch_v cur [kLP64] then lp64 else lp32.

(** [kPointerSize], and the width of [uintptr_t] in bits. *)
Definition kPointerSize (cur : Arch) : Z := PickLP cur 8 4.
Definition kPointerBits (cur : Arch) : Z := 8 * kPointerSize cur.

(** [RoundUpTo], [__builtin_align_up] on a [uintptr_t]-wide value. *)
Definition RoundUpTo (cur : Arch) (v size : Z) : Z := align_up (kPointerBits cur) v size.

(** ** API levels *)

Definition __ANDROID_API_L__ : Z := 21.
Definition __ANDROID_API_L_MR1__ : Z := 22.
Definition __ANDROID_API_M__ : Z := 23.
Definition __ANDROID_API_N__ : Z := 24.
Definition __ANDROID_API_O__ : Z := 26.
Definition __ANDROID_API_O_MR1__ : Z := 27.
Definition __ANDROID_API_P__ : Z := 28.
Definition __ANDROID_API_Q__ : Z := 29.
Definition __ANDROID_API_R__ : Z := 30.
Definition __ANDROID_API_S__ : Z := 31.
Definition __ANDROID_API_T__ : Z := 33.
Definition __ANDROID_API_U__ : Z := 34.

(** C's [atoi] on a property value without leading blanks: an optional sign
    and the longest run of digits, 0 when there is none. *)
Fixpoint digits (acc : Z) (s : string) : Z :=
  match s with
  | String c s =>
      let d := Z.of_nat (nat_of_ascii c) - 48 in
      if (0 <=? d) && (d <=? 9) then digits (10 * acc + d) s else acc
  | EmptyString => acc
  end.

Definition atoi (s : string) : Z :=
  match s with
  | String "-" s => - digits 0 s
  | String "+" s => digits 0 s
  | _ => digits 0 s
  end.

(** [GetAndroidApiLevel]: the release API level plus the preview level;
    [getprop] is [__system_property_get], which yields the empty string for a
    property that is not set. *)
Definition GetAndroidApiLevel (getprop : string → string) : Z :=
  let base := atoi (getprop "ro.build.version.sdk"%string) in
  base + atoi (getprop "ro.build.version.preview_sdk"%string).

(** ** The VMRuntime probe *)

(** What the lookups of [IsJavaDebuggable] return. *)
Record VMRuntimeProbe := {
  vm_runtime_class : bool;
  vm_get_runtime : bool;
  vm_is_java_debuggable : bool;
  vm_runtime : bool;
  vm_debuggable : bool;
}.

(** [IsJavaDebuggable], its cached body. *)
Definition IsJavaDebuggable (sdk_int : Z) (p : VMRuntimeProbe) : bool :=
  if sdk_int <? __ANDROID_API_P__ then false
  else if negb (vm_runtime_class p) then false
  else if negb (vm_get_runtime p) then false
  else if negb (vm_is_java_debuggable p) then false
  else if negb (vm_runtime p) then false
  else vm_debuggable p.

(** ** Lemmas *)

Lemma kPointerSize_cases cur : kPointerSize cur = 8 ∨ kPointerSize cur = 4.
Proof. destruct cur; (by left) || (by right). Qed.

Lemma kPointerBits_pos cur : 0 < kPointerBits cur.
Proof. by destruct cur. Qed.

#[export] Hint Resolve kPointerBits_pos : core.
