(* ===== verification/StubCode.v ===== *)
(** * The machine code of the stubs

    Bit fields, the instructions that the stubs of [lsplant.cc] are made of on
    each architecture, their decoding from the bytes of a stub, and their
    execution: from a stub's bytes, the method that the stub leaves in the
    argument register and the word of that method it jumps through.  The
    instruction formats are those of the architecture manuals. *)

From S2P Require Import Prelude Memory Platform.

(** ** Bit fields *)

(** Bits [lo .. lo + len - 1] of a word, read and replaced. *)
Definition get_field (w lo len : Z) : Z := Z.land (Z.shiftr w lo) (Z.ones len).
Definition set_field (w lo len v : Z) : Z :=
  Z.lor (Z.ldiff w (Z.shiftl (Z.ones len) lo)) (Z.shiftl (v mod 2 ^ len) lo).

(** A field of [len] bits read as a signed number. *)
Definition sext (len z : Z) : Z := if z <? 2 ^ (len - 1) then z else z - 2 ^ len.

Lemma testbit_ones_lt len i : 0 <= len → Z.testbit (Z.ones len) i = bool_decide (0 <= i < len).
Proof.
  intros Hlen. apply eq_true_iff_eq. rewrite bool_decide_eq_true.
  rewrite Z.testbit_ones by done. rewrite andb_true_iff, Z.leb_le, Z.ltb_lt. done.
Qed.

Lemma get_field_testbit w lo len i :
  0 <= len → 0 <= i → Z.testbit (get_field w lo len) i = bool_decide (i < len) && Z.testbit w (i + lo).
Proof.
  intros. unfold get_field. rewrite Z.land_spec, Z.shiftr_spec, testbit_ones_lt by done.
  rewrite andb_comm. f_equal. apply bool_decide_ext. lia.
Qed.

Lemma set_field_testbit w lo len v i :
  0 <= lo → 0 <= len → 0 <= i →
  Z.testbit (set_field w lo len v) i =
    if bool_decide (lo <= i < lo + len) then Z.testbit v (i - lo) else Z.testbit w i.
Proof.
  intros. unfold set_field.
  rewrite Z.lor_spec, Z.ldiff_spec, !Z.shiftl_spec, testbit_ones_lt by done.
  rewrite <-Z.land_ones, Z.land_spec, testbit_ones_lt by done.
  repeat case_bool_decide; try lia; simpl; rewrite ?andb_false_r, ?andb_true_r, ?orb_false_r; done.
Qed.

Lemma get_set_field_same w lo len v :
  0 <= lo → 0 <= len → get_field (set_field w lo len v) lo len = v mod 2 ^ len.
Proof.
  intros. apply Z.bits_inj'. intros i Hi.
  rewrite get_field_testbit, set_field_testbit by lia.
  rewrite <-Z.land_ones, Z.land_spec, testbit_ones_lt by done.
  repeat case_bool_decide; try lia; simpl; rewrite ?andb_false_r, ?andb_true_r; try done.
  f_equal; lia.
Qed.

Lemma get_set_field_other w lo len v lo' len' :
  0 <= lo → 0 <= len → 0 <= lo' → 0 <= len' → lo + len <= lo' ∨ lo' + len' <= lo →
  get_field (set_field w lo len v) lo' len' = get_field w lo' len'.
Proof.
  intros. apply Z.bits_inj'. intros i Hi. rewrite !get_field_testbit, set_field_testbit by lia.
  repeat case_bool_decide; try lia; done.
Qed.

Lemma set_field_range w lo len v k :
  0 <= lo → 0 <= len → lo + len <= k → 0 <= w < 2 ^ k → 0 <= set_field w lo len v < 2 ^ k.
Proof.
  intros ?? Hk Hw. replace (set_field w lo len v) with (set_field w lo len v mod 2 ^ k).
  { apply Z.mod_pos_bound. lia. }
  apply Z.bits_inj'. intros i Hi.
  rewrite <-Z.land_ones, Z.land_spec, testbit_ones_lt, set_field_testbit by lia.
  case_bool_decide; repeat case_bool_decide; try lia; rewrite ?andb_true_r, ?andb_false_r; try done.
  rewrite <-(Z.mod_small w (2 ^ k)), <-Z.land_ones, Z.land_spec, testbit_ones_lt by lia.
  case_bool_decide; [lia|]. by rewrite andb_false_r.
Qed.

(** ** Instructions *)

(** The instructions of the stubs.  [LoadCode rd o] loads the pointer-sized word
    that lies [o] bytes into the stub (a literal load, or the immediate operand
    of a move); [MoveZero] and [MoveKeep] are the A64 instructions [MOVZ] and
    [MOVK], kept as their words; [CodeAddress rd o] is the address [o] bytes
    into the stub; [LoadField rd rn off] loads the word at register [rn] plus
    [off]; the last two jump to a register and through a word in memory. *)
Inductive Insn : Type :=
  | LoadCode (rd o : Z)
  | MoveZero (rd w : Z)
  | MoveKeep (rd w : Z)
  | CodeAddress (rd o : Z)
  | LoadField (rd rn off : Z)
  | JumpReg (rn : Z)
  | LoadJump (rn off : Z).

(** The A64 move-wide instructions: [MOVZ] (opc 10) loads a shifted immediate,
    [MOVK] (opc 11) replaces 16 bits; the fields are those of
    [struct MoveWideImm]. *)
Definition exec_move_wide (acc w : Z) : Z :=
  let imm := get_field w 5 16 in
  let sh := 16 * get_field w 21 2 in
  if get_field w 23 8 =? 0xA5 then Z.shiftl imm sh
  else if get_field w 23 8 =? 0xE5 then set_field acc sh 16 imm
  else acc.

(** The [n] bytes at position [o] of a stub, as a number. *)
Definition fetch (bs : list Z) (n o : Z) : option Z :=
  if (0 <=? o) && (o + n <=? Z.of_nat (length bs))
  then Some (le_value (take (Z.to_nat n) (drop (Z.to_nat o) bs))) else None.

(** The top of the stack of [push] and [ret], as a register. *)
Definition stack_top : Z := 16.

(** A64: [LDR Xt, literal], [MOVZ]/[MOVK Xd], [LDUR Xt, [Xn, #imm9]], [RET Xn]. *)
Definition decode_arm64 (pc w : Z) : option Insn :=
  if get_field w 24 8 =? 0x58 then Some (LoadCode (get_field w 0 5) (pc + 4 * sext 19 (get_field w 5 19)))
  else if get_field w 23 9 =? 0x1A5 then Some (MoveZero (get_field w 0 5) w)
  else if get_field w 23 9 =? 0x1E5 then Some (MoveKeep (get_field w 0 5) w)
  else if (get_field w 21 11 =? 0x7C2) && (get_field w 10 2 =? 0) then
    Some (LoadField (get_field w 0 5) (get_field w 5 5) (sext 9 (get_field w 12 9)))
  else if (get_field w 10 22 =? 0x3597C0) && (get_field w 0 5 =? 0) then Some (JumpReg (get_field w 5 5))
  else None.

(** A32: [LDR rt, [rn, #imm12]], of the program counter (two instructions ahead)
    or into it. *)
Definition decode_arm (pc w : Z) : option Insn :=
  if get_field w 20 12 =? 0xE59 then
    let rn := get_field w 16 4 in
    let rt := get_field w 12 4 in
    let imm := get_field w 0 12 in
    if rn =? 15 then Some (LoadCode rt (pc + 8 + imm))
    else if rt =? 15 then Some (LoadJump rn imm)
    else Some (LoadField rt rn imm)
  else None.

(** RV64: [auipc rd, imm20], [ld rd, imm12(rs1)] and, in 16 bits, [c.jr rs1]. *)
Definition decode_riscv64 (pc w : Z) : option (Insn * Z) :=
  if (get_field w 0 7 =? 2) && (get_field w 12 4 =? 8) then Some (JumpReg (get_field w 7 5), 2)
  else if get_field w 0 7 =? 0x17 then
    Some (CodeAddress (get_field w 7 5) (pc + 4096 * sext 20 (get_field w 12 20)), 4)
  else if (get_field w 0 7 =? 3) && (get_field w 12 3 =? 3) then
    Some (LoadField (get_field w 7 5) (get_field w 15 5) (sext 12 (get_field w 20 12)), 4)
  else None.

(** x86 and x86-64: [mov eax, imm32] ([mov rdi, imm64] with the prefix byte),
    [push [eax+disp8]] ([push [rdi+disp8]]) and [ret]. *)
Definition decode_x86 (cur : Arch) (bs : list Z) (pc : Z) : option (Insn * Z) :=
  b0 ← fetch bs 1 pc;
  if b0 =? 0xC3 then Some (JumpReg stack_top, 1)
  else
    b1 ← fetch bs 1 (pc + 1);
    if (b0 =? 0xFF) && (get_field b1 3 5 =? 0xE) then
      b2 ← fetch bs 1 (pc + 2);
      Some (LoadField stack_top (get_field b1 0 3) (sext 8 b2), 3)
    else if is_arch_v cur [kX64] then
      if (b0 =? 0x48) && (get_field b1 3 5 =? 0x17) then Some (LoadCode (get_field b1 0 3) (pc + 2), 10) else None
    else if get_field b0 3 5 =? 0x17 then Some (LoadCode (get_field b0 0 3) (pc + 1), 5) else None.

(** The instruction at position [pc] of a stub, and its length. *)
Definition decode (cur : Arch) (bs : list Z) (pc : Z) : option (Insn * Z) :=
  match cur with
  | kArm64 => w ← fetch bs 4 pc; i ← decode_arm64 pc w; Some (i, 4)
  | kArm => w ← fetch bs 4 pc; i ← decode_arm pc w; Some (i, 4)
  | kRiscv64 =>
      h ← fetch bs 2 pc;
      if get_field h 0 2 =? 3 then w ← fetch bs 4 pc; decode_riscv64 pc w else decode_riscv64 pc h
  | kX86 | kX64 => decode_x86 cur bs pc
  | _ => None
  end.

(** ** Execution *)

(** What a register holds: a number, an address inside the stub (as its
    position), or the word that memory holds [off] bytes after [base]. *)
Inductive Contents : Type :=
  | Number (z : Z)
  | InCode (o : Z)
  | WordAt (base off : Z).

Inductive Outcome : Type :=
  | Next (regs : gmap Z Contents)
  | Jump (base off : Z).

Definition step (cur : Arch) (bs : list Z) (regs : gmap Z Contents) (i : Insn) : option Outcome :=
  match i with
  | LoadCode rd o => v ← fetch bs (kPointerSize cur) o; Some (Next (<[rd := Number v]> regs))
  | MoveZero rd w => Some (Next (<[rd := Number (exec_move_wide 0 w)]> regs))
  | MoveKeep rd w =>
      match regs !! rd with
      | Some (Number acc) => Some (Next (<[rd := Number (exec_move_wide acc w)]> regs))
      | _ => None
      end
  | CodeAddress rd o => Some (Next (<[rd := InCode o]> regs))
  | LoadField rd rn off =>
      match regs !! rn with
      | Some (Number v) => Some (Next (<[rd := WordAt v off]> regs))
      | Some (InCode o) => v ← fetch bs (kPointerSize cur) (o + off); Some (Next (<[rd := Number v]> regs))
      | _ => None
      end
  | JumpReg rn =>
      match regs !! rn with Some (WordAt base off) => Some (Jump base off) | _ => None end
  | LoadJump rn off =>
      match regs !! rn with Some (Number v) => Some (Jump v off) | _ => None end
  end.

(** The register in which compiled code receives the method it runs as. *)
Definition method_register (cur : Arch) : Z :=
  match cur with kX64 => 7 | kRiscv64 => 10 | _ => 0 end.

(** Running a stub from position [pc]: the number in the method register when it
    jumps, and the base and offset of the word it jumps through. *)
Fixpoint run_code (fuel : nat) (cur : Arch) (bs : list Z) (pc : Z) (regs : gmap Z Contents) :
    option (Z * (Z * Z)) :=
  match fuel with
  | O => None
  | S fuel =>
      '(i, len) ← decode cur bs pc;
      match step cur bs regs i with
      | Some (Next regs) => run_code fuel cur bs (pc + len) regs
      | Some (Jump base off) =>
          match regs !! method_register cur with
          | Some (Number method) => Some (method, (base, off))
          | _ => None
          end
      | None => None
      end
  end.

(** The longest stub, the self-contained one, has five instructions. *)
Definition run_stub (cur : Arch) (bs : list Z) : option (Z * (Z * Z)) := run_code 5 cur bs 0 ∅.

(** ** Move-wide instructions with a patched immediate *)

(** The fields of a patched instruction are those of its template but for the
    immediate. *)
Lemma exec_move_wide_patched acc w v :
  exec_move_wide acc (set_field w 5 16 v) =
    let imm := v mod 2 ^ 16 in
    let sh := 16 * get_field w 21 2 in
    if get_field w 23 8 =? 0xA5 then Z.shiftl imm sh
    else if get_field w 23 8 =? 0xE5 then set_field acc sh 16 imm
    else acc.
Proof.
  unfold exec_move_wide. rewrite get_set_field_same by lia.
  by rewrite !get_set_field_other by lia.
Qed.

Lemma decode_arm64_patched pc w v :
  (get_field w 23 9 =? 0x1A5) || (get_field w 23 9 =? 0x1E5) = true → get_field w 24 8 ≠ 0x58 →
  decode_arm64 pc (set_field w 5 16 v) =
    Some ((if get_field w 23 9 =? 0x1A5 then MoveZero else MoveKeep) (get_field w 0 5) (set_field w 5 16 v)).
Proof.
  intros Hw Hl. unfold decode_arm64. rewrite !(get_set_field_other _ _ _ _ 24), !(get_set_field_other _ _ _ _ 23),
    !(get_set_field_other _ _ _ _ 0) by lia.
  rewrite (proj2 (Z.eqb_neq _ _) Hl). by destruct (get_field w 23 9 =? 0x1A5), (get_field w 23 9 =? 0x1E5).
Qed.

(** ** Running decoded code *)

(** The instructions at [pc] are [insns], with their lengths. *)
Fixpoint decoded (cur : Arch) (bs : list Z) (pc : Z) (insns : list (Insn * Z)) : Prop :=
  match insns with
  | [] => True
  | (i, len) :: insns => decode cur bs pc = Some (i, len) ∧ decoded cur bs (pc + len) insns
  end.

(** Executing a list of instructions, the last of which jumps. *)
Fixpoint exec_insns (cur : Arch) (bs : list Z) (insns : list (Insn * Z)) (regs : gmap Z Contents) :
    option (Z * (Z * Z)) :=
  match insns with
  | [] => None
  | (i, _) :: insns =>
      match step cur bs regs i with
      | Some (Next regs) => exec_insns cur bs insns regs
      | Some (Jump base off) =>
          match regs !! method_register cur with
          | Some (Number method) => Some (method, (base, off))
          | _ => None
          end
      | None => None
      end
  end.

Lemma run_decoded cur bs insns : ∀ fuel pc regs r,
  decoded cur bs pc insns → exec_insns cur bs insns regs = Some r → (length insns <= fuel)%nat →
  run_code fuel cur bs pc regs = Some r.
Proof.
  induction insns as [|[i len] insns IH]; intros [|fuel] pc regs r; simpl; try done; [lia|].
  intros [-> Hd] He Hf. simpl. destruct (step cur bs regs i) as [[regs'|base off]|]; try done.
  apply IH; [done|done|lia].
Qed.

(** The five instructions of a self-contained stub. *)
Lemma exec_move_wide_stub cur bs w0 w1 w2 off lens :
  length lens = 5%nat → method_register cur = 0 →
  exec_insns cur bs
    (zip [MoveZero 0 w0; MoveKeep 0 w1; MoveKeep 0 w2; LoadField 17 0 off; JumpReg 17] lens) ∅ =
  let method := exec_move_wide (exec_move_wide (exec_move_wide 0 w0) w1) w2 in
  Some (method, (method, off)).
Proof.
  intros Hl Hr. do 6 (destruct lens as [|? lens]; try done). cbn [zip zip_with exec_insns step].
  rewrite Hr. by repeat (simplify_map_eq; cbn [exec_insns step]).
Qed.

(** The instructions that load the method from the stub's own bytes. *)
Definition literal_insns (cur : Arch) (off : Z) : list (Insn * Z) :=
  match cur with
  | kArm64 => [(LoadCode 0 12, 4); (LoadField 16 0 off, 4); (JumpReg 16, 4)]
  | kArm => [(LoadCode 0 8, 4); (LoadJump 0 off, 4)]
  | kX86 => [(LoadCode 0 1, 5); (LoadField stack_top 0 off, 3); (JumpReg stack_top, 1)]
  | kX64 => [(LoadCode 7 2, 10); (LoadField stack_top 7 off, 3); (JumpReg stack_top, 1)]
  | kRiscv64 =>
      [(CodeAddress 10 0, 4); (LoadField 10 10 14, 4); (LoadField 28 10 off, 4); (JumpReg 28, 2)]
  | _ => []
  end.

Lemma exec_literal_stub cur bs o off method :
  cur ∈ supported →
  match cur with kArm64 => 12 | kArm => 8 | kX86 => 1 | kX64 => 2 | kRiscv64 => 14 | _ => 0 end = o →
  fetch bs (kPointerSize cur) o = Some method →
  exec_insns cur bs (literal_insns cur off) ∅ = Some (method, (method, off)).
Proof.
  intros Hcur <- Hm. unfold supported in Hcur.
  repeat (apply elem_of_cons in Hcur as [->|Hcur];
    [cbn [literal_insns exec_insns step]; change (0 + 14) with 14; unfold stack_top, method_register;
     repeat (rewrite Hm || simplify_map_eq || cbn [literal_insns exec_insns step mbind option_bind]); done|]).
  set_solver.
Qed.
