(* ===== verification/ArtMethod.v ===== *)
(** * ART methods

    [art/runtime/art_method.cxx].  Section 1 is the object as LSPlant sees it:
    the five fields it reads or writes, and the interface of a store of such
    objects ([MethodStore]).  Section 2 writes the operations of class
    [ArtMethod] once, over that interface.  Section 3 gives the two stores:
    byte memory at the configured offsets, and a map from addresses to
    records; the laws of the interface hold of both, so every theorem proved
    against the interface is a theorem of the byte-level code.  Section 4 is
    [ArtMethod::Init]. *)

From S2P Require Import Prelude Memory Platform.

(** ** 1. Objects and stores *)

(** The fields of an [art::ArtMethod] that LSPlant accesses. *)
Record Method := mkMethod {
  access_flags : Z;
  data : Z;
  entry_point : Z;
  interpreter_entry_point : Z;
  declaring_class : Z;
}.

Definition with_access_flags (v : Z) (m : Method) : Method :=
  mkMethod v (data m) (entry_point m) (interpreter_entry_point m) (declaring_class m).
Definition with_data (v : Z) (m : Method) : Method :=
  mkMethod (access_flags m) v (entry_point m) (interpreter_entry_point m) (declaring_class m).
Definition with_entry_point (v : Z) (m : Method) : Method :=
  mkMethod (access_flags m) (data m) v (interpreter_entry_point m) (declaring_class m).
Definition with_interpreter_entry_point (v : Z) (m : Method) : Method :=
  mkMethod (access_flags m) (data m) (entry_point m) v (declaring_class m).

(** A store of methods at addresses: how an object reads, and the primitive
    writes of the class. *)
Class MethodStore (S : Type) := {
  view : S → Z → Method;
  SetAccessFlags : Z → Z → S → S;
  SetData : Z → Z → S → S;
  store_entry_point : Z → Z → S → S;
  store_interpreter_entry_point : Z → Z → S → S;
  CopyFrom : Z → Z → S → S;
}.

(** The static members that [ArtMethod::Init] computes. *)
Record Config := mkConfig {
  sdk_int : Z;
  art_method_field : bool;
  art_method_size : Z;
  entry_point_offset : Z;
  interpreter_entry_point_offset : Z;
  data_offset : Z;
  access_flags_offset : Z;
  declaring_class_offset : Z;
  kAccFastNative : Z;
  kAccPreCompiled : Z;
  kAccCompileDontBother : Z;
  kAccDefaultConflict : Z;
  kAccFastInterpreterToInterpreterInvoke : Z;
  kAccIntrinsic : Z;
  art_interpreter_to_compiled_code_bridge_ : Z;
  can_get_method_shorty : bool;
}.

Definition kAccPublic : Z := 0x0001.
Definition kAccPrivate : Z := 0x0002.
Definition kAccProtected : Z := 0x0004.
Definition kAccStatic : Z := 0x0008.
Definition kAccFinal : Z := 0x0010.
Definition kAccNative : Z := 0x0100.
Definition kAccAbstract : Z := 0x0400.
Definition kAccConstructor : Z := 0x00010000.

(** ** 2. Operations of class [ArtMethod] *)

Section operations.
Context {S : Type} `{MethodStore S} (c : Config).
(** [SetNotIntrinsic_], the runtime's own function, when it was resolved. *)
Context (SetNotIntrinsic_ : option (Z → S → S)).
Implicit Types (s : S) (this : Z).

Definition GetAccessFlags s this : Z := access_flags (view s this).
Definition GetEntryPoint s this : Z := entry_point (view s this).
Definition GetData s this : Z := data (view s this).
Definition GetDeclaringClass s this : Z := declaring_class (view s this).

Definition SetNonCompilable this s : S :=
  let flags := GetAccessFlags s this in
  let flags := set_bits flags (kAccCompileDontBother c) in
  let flags := clear_bits flags (kAccPreCompiled c) in
  SetAccessFlags this flags s.

Definition ClearFastInterpretFlag this s : S :=
  let flags := GetAccessFlags s this in
  SetAccessFlags this (clear_bits flags (kAccFastInterpreterToInterpreterInvoke c)) s.

Definition SetPrivate this s : S :=
  let flags := set_bits (GetAccessFlags s this) kAccPrivate in
  let flags := clear_bits flags kAccProtected in
  SetAccessFlags this (clear_bits flags kAccPublic) s.

Definition SetPublic this s : S :=
  let flags := set_bits (GetAccessFlags s this) kAccPublic in
  let flags := clear_bits flags kAccProtected in
  SetAccessFlags this (clear_bits flags kAccPrivate) s.

Definition SetProtected this s : S :=
  let flags := set_bits (GetAccessFlags s this) kAccProtected in
  let flags := clear_bits flags kAccPrivate in
  SetAccessFlags this (clear_bits flags kAccPublic) s.

Definition SetNonFinal this s : S :=
  SetAccessFlags this (clear_bits (GetAccessFlags s this) kAccFinal) s.
Definition SetNative this s : S :=
  SetAccessFlags this (set_bits (GetAccessFlags s this) kAccNative) s.
Definition SetNonNative this s : S :=
  SetAccessFlags this (clear_bits (GetAccessFlags s this) kAccNative) s.
Definition SetFastNative this s : S :=
  SetAccessFlags this (set_bits (GetAccessFlags s this) (kAccFastNative c)) s.
Definition SetNonFastNative this s : S :=
  SetAccessFlags this (clear_bits (GetAccessFlags s this) (kAccFastNative c)) s.
Definition SetConstructor this s : S :=
  SetAccessFlags this (set_bits (GetAccessFlags s this) kAccConstructor) s.
Definition SetNonConstructor this s : S :=
  SetAccessFlags this (clear_bits (GetAccessFlags s this) kAccConstructor) s.

Definition SetNonIntrinsic this s : S :=
  match SetNotIntrinsic_ with
  | Some f => f this s
  | None => SetAccessFlags this (clear_bits (GetAccessFlags s this) (kAccIntrinsic c)) s
  end.

Definition IsPrivate s this : bool := has_bits (GetAccessFlags s this) kAccPrivate.
Definition IsProtected s this : bool := has_bits (GetAccessFlags s this) kAccProtected.
Definition IsPublic s this : bool := has_bits (GetAccessFlags s this) kAccPublic.
Definition IsFinal s this : bool := has_bits (GetAccessFlags s this) kAccFinal.
Definition IsStatic s this : bool := has_bits (GetAccessFlags s this) kAccStatic.
Definition IsNative s this : bool := has_bits (GetAccessFlags s this) kAccNative.
Definition IsFastNative s this : bool :=
  has_bits (GetAccessFlags s this) (kAccFastNative c) && IsNative s this.
Definition IsAbstract s this : bool := has_bits (GetAccessFlags s this) kAccAbstract.
Definition IsConstructor s this : bool := has_bits (GetAccessFlags s this) kAccConstructor.

Definition SetEntryPoint this (entry : Z) s : S :=
  let s := store_entry_point this entry s in
  if interpreter_entry_point_offset c =? 0 then s
  else store_interpreter_entry_point this (art_interpreter_to_compiled_code_bridge_ c) s.

(** [GetInterfaceMethodIfProxy]: a null pointer is 0. *)
Definition GetInterfaceMethodIfProxy s this : Z :=
  if __ANDROID_API_P__ <=? sdk_int c then GetData s this else 0.

Definition BackupTo this backup s : S :=
  let s := SetNonCompilable this s in
  let s := CopyFrom backup this s in
  let s := ClearFastInterpretFlag this s in
  if negb (IsStatic s backup) then SetPrivate backup s else s.

(** A [Hooker] object: the original function and the method it is installed in. *)
Record NativeHooker := mkNativeHooker { function_ : Z; handle_ : Z }.

Definition NativeHook (replace_ : Z) this (hooker : NativeHooker) s :
    bool * NativeHooker * S :=
  if negb (IsNative s this) then (false, hooker, s)
  else
    let original := GetData s this in
    (true, mkNativeHooker original this, SetData this replace_ s).

Definition NativeUnhook (hooker : NativeHooker) s : bool * NativeHooker * S :=
  let method := handle_ hooker in
  if (method =? 0) || negb (IsNative s method) then (false, hooker, s)
  else (true, mkNativeHooker (function_ hooker) 0, SetData method (function_ hooker) s).
End operations.

(** ** 3. The two stores *)

(** A map from addresses to objects: the store the other components use. *)
Abbreviation Methods := (Z → Method).

#[global] Instance methods_store : MethodStore Methods := {|
  view h p := h p;
  SetAccessFlags p v h := alter (with_access_flags v) p h;
  SetData p v h := alter (with_data v) p h;
  store_entry_point p v h := alter (with_entry_point v) p h;
  store_interpreter_entry_point p v h := alter (with_interpreter_entry_point v) p h;
  CopyFrom p o h := <[p := h o]> h;
|}.

(** Byte memory, with the fields at the configured offsets. *)
Section bytes.
Context (cur : Arch) (c : Config).
Implicit Types (m : mem) (this : Z).

Definition ptr_bytes : nat := Z.to_nat (kPointerSize cur).
Definition method_bytes : nat := Z.to_nat (art_method_size c).

Definition read_method m this : Method := {|
  access_flags := load m 4 (this + access_flags_offset c);
  data := load m ptr_bytes (this + data_offset c);
  entry_point := load m ptr_bytes (this + entry_point_offset c);
  interpreter_entry_point :=
    if interpreter_entry_point_offset c =? 0 then 0
    else load m ptr_bytes (this + interpreter_entry_point_offset c);
  declaring_class := load m 4 (this + declaring_class_offset c);
|}.

Definition write_access_flags this v m : mem := store m 4 (this + access_flags_offset c) v.
Definition write_data this v m : mem := store m ptr_bytes (this + data_offset c) v.
Definition write_entry_point this v m : mem := store m ptr_bytes (this + entry_point_offset c) v.
Definition write_interpreter_entry_point this v m : mem :=
  store m ptr_bytes (this + interpreter_entry_point_offset c) v.
Definition copy_method this other m : mem := memcpy m this other method_bytes.

Definition bytes_store : MethodStore mem := {|
  view := read_method;
  SetAccessFlags := write_access_flags;
  SetData := write_data;
  store_entry_point := write_entry_point;
  store_interpreter_entry_point := write_interpreter_entry_point;
  CopyFrom := copy_method;
|}.

(** The fields lie inside the object and do not overlap. *)
Definition fields : list (Z * nat) :=
  [ (access_flags_offset c, 4%nat); (data_offset c, ptr_bytes);
    (entry_point_offset c, ptr_bytes); (declaring_class_offset c, 4%nat) ] ++
  (if interpreter_entry_point_offset c =? 0 then []
   else [ (interpreter_entry_point_offset c, ptr_bytes) ]).

Definition in_object (f : Z * nat) : Prop :=
  0 <= f.1 ∧ f.1 + Z.of_nat f.2 <= art_method_size c.
Definition apart (f g : Z * nat) : Prop := disjoint_range f.1 f.2 g.1 g.2.

Fixpoint pairwise_apart (l : list (Z * nat)) : Prop :=
  match l with
  | [] => True
  | f :: l => Forall (apart f) l ∧ pairwise_apart l
  end.

Definition layout_ok : Prop := Forall in_object fields ∧ pairwise_apart fields.

#[global] Instance pairwise_apart_dec l : Decision (pairwise_apart l).
Proof. induction l; simpl; unfold apart; apply _. Defined.
#[global] Instance layout_ok_dec : Decision layout_ok.
Proof. unfold layout_ok, in_object. apply _. Defined.
End bytes.

(** *** Refinement: the byte-level operations implement the object-level ones *)

(** A call of an operation of class [ArtMethod]. *)
Inductive Call : Type :=
  | CallSetAccessFlags (this flags : Z)
  | CallSetData (this v : Z)
  | CallSetEntryPoint (this v : Z)
  | CallCopyFrom (this other : Z)
  | CallSetNonCompilable (this : Z)
  | CallClearFastInterpretFlag (this : Z)
  | CallSetPrivate (this : Z)
  | CallSetPublic (this : Z)
  | CallSetProtected (this : Z)
  | CallSetNonFinal (this : Z)
  | CallSetNative (this : Z)
  | CallSetNonNative (this : Z)
  | CallSetFastNative (this : Z)
  | CallSetNonFastNative (this : Z)
  | CallSetConstructor (this : Z)
  | CallSetNonConstructor (this : Z)
  | CallSetNonIntrinsic (this : Z)
  | CallBackupTo (this backup : Z).

Definition run {S} (MS : MethodStore S) (c : Config) (o : Call) (s : S) : S :=
  match o with
  | CallSetAccessFlags this v => SetAccessFlags this v s
  | CallSetData this v => SetData this v s
  | CallSetEntryPoint this v => SetEntryPoint c this v s
  | CallCopyFrom this other => CopyFrom this other s
  | CallSetNonCompilable this => SetNonCompilable c this s
  | CallClearFastInterpretFlag this => ClearFastInterpretFlag c this s
  | CallSetPrivate this => SetPrivate this s
  | CallSetPublic this => SetPublic this s
  | CallSetProtected this => SetProtected this s
  | CallSetNonFinal this => SetNonFinal this s
  | CallSetNative this => SetNative this s
  | CallSetNonNative this => SetNonNative this s
  | CallSetFastNative this => SetFastNative c this s
  | CallSetNonFastNative this => SetNonFastNative c this s
  | CallSetConstructor this => SetConstructor this s
  | CallSetNonConstructor this => SetNonConstructor this s
  | CallSetNonIntrinsic this => SetNonIntrinsic c None this s
  | CallBackupTo this backup => BackupTo c this backup s
  end.

Definition u32 (v : Z) : Prop := 0 <= v < 2 ^ 32.

Lemma u32_set f a : u32 f → u32 a → u32 (set_bits f a).
Proof.
  unfold u32, set_bits. intros Hf Ha.
  replace (Z.lor f a) with (Z.lor f a mod 2 ^ 32); [apply Z.mod_pos_bound; lia|].
  rewrite <-Z.land_ones, Z.land_lor_distr_l, !Z.land_ones by lia.
  by rewrite !Z.mod_small.
Qed.

Lemma u32_clear f a : u32 f → u32 (clear_bits f a).
Proof.
  unfold u32, clear_bits. intros Hf.
  replace (Z.ldiff f a) with (Z.ldiff f a mod 2 ^ 32); [apply Z.mod_pos_bound; lia|].
  rewrite <-Z.land_ones by lia. transitivity (Z.ldiff (Z.land f (Z.ones 32)) a).
  - bitwise_eq.
  - by rewrite Z.land_ones, Z.mod_small.
Qed.

#[export] Hint Resolve u32_set u32_clear : lsp.

Lemma u32_consts :
  u32 kAccPublic ∧ u32 kAccPrivate ∧ u32 kAccProtected ∧ u32 kAccFinal ∧ u32 kAccNative ∧
  u32 kAccConstructor.
Proof. done. Qed.

Section refinement.
Context (cur : Arch) (c : Config) (known : Z → Prop).
Hypothesis layout : layout_ok cur c.
Hypothesis separated : ∀ p q, known p → known q → p ≠ q →
  disjoint_range p (method_bytes c) q (method_bytes c).
Hypothesis flags_u32 : u32 (kAccFastNative c) ∧ u32 (kAccCompileDontBother c).
Implicit Types (m : mem) (h : Methods).

Definition is_ptr (v : Z) : Prop := 0 <= v < 2 ^ kPointerBits cur.
Hypothesis bridge_ptr : is_ptr (art_interpreter_to_compiled_code_bridge_ c).

(** Byte memory [m] represents the object map [h]. *)
Definition represents m h : Prop := ∀ p, known p → read_method cur c m p = h p.

(** The arguments of a call are known methods and values that fit. *)
Definition call_ok (o : Call) : Prop :=
  match o with
  | CallSetAccessFlags this v => known this ∧ u32 v
  | CallSetData this v | CallSetEntryPoint this v => known this ∧ is_ptr v
  | CallCopyFrom this other | CallBackupTo this other => known this ∧ known other
  | CallSetNonCompilable this | CallClearFastInterpretFlag this | CallSetPrivate this
  | CallSetPublic this | CallSetProtected this | CallSetNonFinal this | CallSetNative this
  | CallSetNonNative this | CallSetFastNative this | CallSetNonFastNative this
  | CallSetConstructor this | CallSetNonConstructor this | CallSetNonIntrinsic this =>
      known this
  end.

Lemma pairwise_lookup l i j f g :
  pairwise_apart l → l !! i = Some f → l !! j = Some g → i ≠ j → apart f g.
Proof.
  revert i j. induction l as [|x l IH]; intros i j; [done|].
  intros [Hx Hl] Hi Hj Hij. rewrite Forall_lookup in Hx.
  destruct i as [|i], j as [|j]; simplify_eq/=; [by eapply Hx| |by eapply (IH i j); auto].
  specialize (Hx _ _ Hi). unfold apart, disjoint_range in *. lia.
Qed.

Lemma field_bounds i o n :
  fields cur c !! i = Some (o, n) → 0 <= o ∧ o + Z.of_nat n <= art_method_size c.
Proof.
  intros Hi. destruct layout as [Hin _]. rewrite Forall_lookup in Hin.
  apply (Hin _ _ Hi).
Qed.

Lemma load_other p q i j o n o' n' m v :
  known p → known q →
  fields cur c !! i = Some (o, n) → fields cur c !! j = Some (o', n') → (p = q → i ≠ j) →
  load (store m n (p + o) v) n' (q + o') = load m n' (q + o').
Proof.
  intros Hp Hq Hi Hj Hpq. apply load_store_disjoint.
  pose proof (field_bounds _ _ _ Hi). pose proof (field_bounds _ _ _ Hj).
  destruct (decide (p = q)) as [->|Hne].
  - destruct layout as [_ Hap].
    pose proof (pairwise_lookup _ _ _ _ _ Hap Hi Hj (Hpq eq_refl)) as Ha.
    unfold apart, disjoint_range, fst, snd in *. lia.
  - specialize (separated p q Hp Hq Hne). unfold disjoint_range, method_bytes in *. lia.
Qed.

Lemma load_copied p q o n i m :
  fields cur c !! i = Some (o, n) →
  load (copy_method c p q m) n (p + o) = load m n (q + o).
Proof.
  intros Hi. pose proof (field_bounds _ _ _ Hi).
  apply load_memcpy; unfold method_bytes; lia.
Qed.

Lemma load_not_copied p q r o n i m :
  known p → known r → p ≠ r → fields cur c !! i = Some (o, n) →
  load (copy_method c p q m) n (r + o) = load m n (r + o).
Proof.
  intros Hp Hr Hne Hi. pose proof (field_bounds _ _ _ Hi).
  apply load_memcpy_disjoint. specialize (separated p r Hp Hr Hne).
  unfold disjoint_range, method_bytes in *. lia.
Qed.

Lemma lookup_interpreter :
  interpreter_entry_point_offset c ≠ 0 →
  fields cur c !! 4%nat = Some (interpreter_entry_point_offset c, ptr_bytes cur).
Proof. intros H. unfold fields. by rewrite (proj2 (Z.eqb_neq _ _) H). Qed.

Lemma ptr_bytes_bits : 8 * Z.of_nat (ptr_bytes cur) = kPointerBits cur.
Proof. by destruct cur. Qed.

(** A field not written by a store of field [i] reads as before. *)
Ltac frame i :=
  first
  [ by eapply (load_other _ _ i 0%nat) | by eapply (load_other _ _ i 1%nat)
  | by eapply (load_other _ _ i 2%nat) | by eapply (load_other _ _ i 3%nat)
  | case_match; [done|]; eapply (load_other _ _ i 4%nat);
    try done; apply lookup_interpreter; lia ].

(** A store of field [i] of [p] represents the update of that field. *)
Ltac store_field i p :=
  let q := fresh "q" in
  intros Hr Hp Hv q Hq; destruct (decide (q = p)) as [->|Hne];
  [ rewrite fn_lookup_alter, <-Hr by done
  | rewrite fn_lookup_alter_ne, <-Hr by done ];
  unfold read_method, write_access_flags, write_data, write_entry_point;
  unfold with_access_flags, with_data, with_entry_point; simpl; f_equal; try frame i;
  rewrite load_store_same, ?ptr_bytes_bits; by apply Z.mod_small.

Lemma represents_SetAccessFlags m h p v :
  represents m h → known p → u32 v →
  represents (write_access_flags c p v m) (alter (with_access_flags v) p h).
Proof. store_field 0%nat p. Qed.

Lemma represents_SetData m h p v :
  represents m h → known p → is_ptr v →
  represents (write_data cur c p v m) (alter (with_data v) p h).
Proof. store_field 1%nat p. Qed.

Lemma represents_store_entry_point m h p v :
  represents m h → known p → is_ptr v →
  represents (write_entry_point cur c p v m) (alter (with_entry_point v) p h).
Proof. store_field 2%nat p. Qed.

Lemma represents_store_interpreter m h p v :
  interpreter_entry_point_offset c ≠ 0 →
  represents m h → known p → is_ptr v →
  represents (write_interpreter_entry_point cur c p v m)
    (alter (with_interpreter_entry_point v) p h).
Proof.
  intros Hi. pose proof (lookup_interpreter Hi) as Hl. apply Z.eqb_neq in Hi.
  intros Hr Hp Hv q Hq; destruct (decide (q = p)) as [->|Hne];
    [ rewrite fn_lookup_alter, <-Hr by done
    | rewrite fn_lookup_alter_ne, <-Hr by done ];
    unfold read_method, with_interpreter_entry_point; rewrite ?Hi; simpl; f_equal;
    try first [ by eapply (load_other _ _ 4%nat 0%nat) | by eapply (load_other _ _ 4%nat 1%nat)
              | by eapply (load_other _ _ 4%nat 2%nat) | by eapply (load_other _ _ 4%nat 3%nat)
              | by eapply (load_other _ _ 4%nat 4%nat) ].
  unfold write_interpreter_entry_point.
  rewrite load_store_same, ptr_bytes_bits. by apply Z.mod_small.
Qed.

Lemma represents_CopyFrom m h p o :
  represents m h → known p → known o →
  represents (copy_method c p o m) (<[p := h o]> h).
Proof.
  intros Hr Hp Ho q Hq. destruct (decide (q = p)) as [->|Hne].
  - rewrite fn_lookup_insert, <-Hr by done. unfold read_method. f_equal.
    + by apply (load_copied _ _ _ _ 0%nat).
    + by apply (load_copied _ _ _ _ 1%nat).
    + by apply (load_copied _ _ _ _ 2%nat).
    + case_match; [done|]. apply (load_copied _ _ _ _ 4%nat), lookup_interpreter; lia.
    + by apply (load_copied _ _ _ _ 3%nat).
  - rewrite fn_lookup_insert_ne, <-Hr by done. unfold read_method. f_equal.
    + by apply (load_not_copied _ _ _ _ _ 0%nat).
    + by apply (load_not_copied _ _ _ _ _ 1%nat).
    + by apply (load_not_copied _ _ _ _ _ 2%nat).
    + case_match; [done|].
      apply (load_not_copied _ _ _ _ _ 4%nat); try done. apply lookup_interpreter; lia.
    + by apply (load_not_copied _ _ _ _ _ 3%nat).
Qed.

Lemma represents_flags m h p : represents m h → known p → u32 (access_flags (h p)).
Proof. intros Hr Hp. rewrite <-Hr by done. apply load_range. Qed.

(** Writing flags computed from the current flags represents the same computation. *)
Lemma represents_update_flags m h p (f : Z → Z) :
  represents m h → known p → (∀ v, u32 v → u32 (f v)) →
  represents
    (write_access_flags c p (f (access_flags (read_method cur c m p))) m)
    (alter (with_access_flags (f (access_flags (h p)))) p h).
Proof.
  intros Hr Hp Hf. rewrite (Hr p Hp). apply represents_SetAccessFlags; [done..|].
  apply Hf. by eapply represents_flags.
Qed.

Lemma represents_SetEntryPoint m h p v :
  represents m h → known p → is_ptr v →
  represents (run (bytes_store cur c) c (CallSetEntryPoint p v) m)
    (run methods_store c (CallSetEntryPoint p v) h).
Proof.
  intros Hr Hp Hv. simpl. unfold SetEntryPoint.
  destruct (Z.eqb_spec (interpreter_entry_point_offset c) 0).
  - by apply represents_store_entry_point.
  - apply represents_store_interpreter; try done. by apply represents_store_entry_point.
Qed.

Ltac update_flags f := apply (represents_update_flags _ _ _ f); [done..|]; auto with lsp.

Lemma represents_flag_calls m h o :
  represents m h → call_ok o →
  match o with CallSetAccessFlags _ _ | CallSetData _ _ | CallSetEntryPoint _ _
  | CallCopyFrom _ _ | CallBackupTo _ _ => False | _ => True end →
  represents (run (bytes_store cur c) c o m) (run methods_store c o h).
Proof.
  pose proof u32_consts as (? & ? & ? & ? & ? & ?). destruct flags_u32.
  intros Hr Ho. destruct o as [| | | |p|p|p|p|p|p|p|p|p|p|p|p|p|]; try done; intros _; simpl.
  - update_flags (λ v, clear_bits (set_bits v (kAccCompileDontBother c)) (kAccPreCompiled c)).
  - update_flags (λ v, clear_bits v (kAccFastInterpreterToInterpreterInvoke c)).
  - update_flags (λ v, clear_bits (clear_bits (set_bits v kAccPrivate) kAccProtected) kAccPublic).
  - update_flags (λ v, clear_bits (clear_bits (set_bits v kAccPublic) kAccProtected) kAccPrivate).
  - update_flags (λ v, clear_bits (clear_bits (set_bits v kAccProtected) kAccPrivate) kAccPublic).
  - update_flags (λ v, clear_bits v kAccFinal).
  - update_flags (λ v, set_bits v kAccNative).
  - update_flags (λ v, clear_bits v kAccNative).
  - update_flags (λ v, set_bits v (kAccFastNative c)).
  - update_flags (λ v, clear_bits v (kAccFastNative c)).
  - update_flags (λ v, set_bits v kAccConstructor).
  - update_flags (λ v, clear_bits v kAccConstructor).
  - update_flags (λ v, clear_bits v (kAccIntrinsic c)).
Qed.

Lemma represents_BackupTo m h p b :
  represents m h → known p → known b →
  represents (run (bytes_store cur c) c (CallBackupTo p b) m)
    (run methods_store c (CallBackupTo p b) h).
Proof.
  intros Hr Hp Hb. unfold run, BackupTo. cbv zeta.
  assert (represents (ClearFastInterpretFlag (H:=bytes_store cur c) c p
            (CopyFrom (MethodStore:=bytes_store cur c) b p
               (SetNonCompilable (H:=bytes_store cur c) c p m)))
          (ClearFastInterpretFlag c p (CopyFrom b p (SetNonCompilable c p h)))) as Hc.
  { apply (represents_flag_calls _ _ (CallClearFastInterpretFlag p)); [|done..].
    apply represents_CopyFrom; [|done..].
    by apply (represents_flag_calls _ _ (CallSetNonCompilable p)). }
  revert Hc. generalize (ClearFastInterpretFlag c p (CopyFrom b p (SetNonCompilable c p h))).
  match goal with |- ∀ _, represents ?m' _ → _ => generalize m' end. intros m1 h1 Hc.
  assert (IsStatic (H:=bytes_store cur c) m1 b = IsStatic h1 b) as ->.
  { unfold IsStatic, GetAccessFlags. cbn [view bytes_store]. by rewrite (Hc b Hb). }
  case_match; [|done].
  by apply (represents_flag_calls _ _ (CallSetPrivate b)).
Qed.
End refinement.

(** [known] methods are laid out as the offsets say and do not overlap; the
    masks fit [uint32_t] and the bridge is a pointer. *)
Record method_layout (cur : Arch) (c : Config) (known : Z → Prop) : Prop := {
  ml_layout : layout_ok cur c;
  ml_separated p q : known p → known q → p ≠ q →
    disjoint_range p (method_bytes c) q (method_bytes c);
  ml_flags : u32 (kAccFastNative c) ∧ u32 (kAccCompileDontBother c);
  ml_bridge : is_ptr cur (art_interpreter_to_compiled_code_bridge_ c);
}.

Lemma run_refines cur c known m h o :
  method_layout cur c known → represents cur c known m h → call_ok cur known o →
  represents cur c known (run (bytes_store cur c) c o m) (run methods_store c o h).
Proof.
  intros [] Hr Ho. destruct o; try (by eapply represents_flag_calls);
    try destruct Ho; simpl.
  - by eapply represents_SetAccessFlags.
  - by eapply represents_SetData.
  - by eapply represents_SetEntryPoint.
  - by eapply represents_CopyFrom.
  - by eapply represents_BackupTo.
Qed.

(** C15: Simulation: on memory that represents an object map, every sequence of
    calls of [ArtMethod]'s operations, run on the bytes at the configured
    offsets, leaves memory that represents the object map the same calls
    compute on records. *)
Theorem byte_operations_refine_objects cur c known os m h :
  method_layout cur c known → represents cur c known m h → Forall (call_ok cur known) os →
  represents cur c known (fold_left (λ m o, run (bytes_store cur c) c o m) os m)
    (fold_left (λ h o, run methods_store c o h) os h).
Proof.
  intros Hl. revert m h. induction os as [|o os IH]; intros m h Hr Hos; [done|].
  inversion_clear Hos. simpl. apply IH; [by apply run_refines|done].
Qed.

(** A configuration of Android 14 on arm64: 32-byte methods. *)
Definition arm64_config : Config := {|
  sdk_int := 34; art_method_field := true; art_method_size := 32;
  entry_point_offset := 24; interpreter_entry_point_offset := 0; data_offset := 16;
  access_flags_offset := 4; declaring_class_offset := 0;
  kAccFastNative := 0x00080000; kAccPreCompiled := 0x00800000;
  kAccCompileDontBother := 0x02000000; kAccDefaultConflict := 0x01000000;
  kAccFastInterpreterToInterpreterInvoke := 0x40000000; kAccIntrinsic := 0x80000000;
  art_interpreter_to_compiled_code_bridge_ := 0; can_get_method_shorty := true;
|}.

Lemma byte_operations_refine_objects_witness :
  let known := λ p, p = 4096 ∨ p = 4128 in
  let os := [CallBackupTo 4096 4128; CallSetEntryPoint 4096 0x7000] in
  let m := store (λ _, 0) 4 4100 0x40800001 in
  represents kArm64 arm64_config known
    (fold_left (λ m o, run (bytes_store kArm64 arm64_config) arm64_config o m) os m)
    (fold_left (λ h o, run methods_store arm64_config o h) os (read_method kArm64 arm64_config m)).
Proof.
  intros known os m. apply (byte_operations_refine_objects kArm64 arm64_config known os m).
  - split.
    + apply (bool_decide_unpack _). vm_compute. done.
    + intros p q [-> | ->] [-> | ->] ?; try done;
        apply (bool_decide_unpack _); vm_compute; done.
    + done.
    + done.
  - done.
  - repeat constructor; simpl; unfold known; auto; by vm_compute.
Defined.
