(* ===== verification/ArtMethodInit.v ===== *)
(** * [ArtMethod::Init]: the layout of ART methods and the flag masks

    [art/runtime/art_method.cxx], [Init].  What the runtime answers (classes,
    fields, symbols, memory) is the record [InitEnv]; the result is the
    [Config] that every operation of [ArtMethod] uses. *)

From S2P Require Import Prelude Memory Platform ArtMethod.

(** What [Init] asks the Java environment, the symbol resolver and memory. *)
Record InitEnv := {
  find_ArtMethod_class : bool;               (* java/lang/reflect/ArtMethod *)
  find_artMethod_field : bool;               (* Executable.artMethod *)
  find_Throwable : bool;
  constructors : list Z;                     (* the ArtMethods of Throwable's constructors *)
  memory : mem;
  real_flags : Z;                            (* Executable.accessFlags of the first one *)
  unsafe_available : bool;                   (* Unsafe with objectFieldOffset *)
  object_field_offset : string → option Z;   (* None: no such field *)
  resolve_GetMethodShorty : bool;
  find_AbstractMethodError : bool;
  throws_AbstractMethodError : bool;         (* no exception, or an AbstractMethodError *)
  resolve_bridge : option Z;                 (* artInterpreterToCompiledCodeBridge *)
}.

Section Init.
Context (cur : Arch) (sdk : Z) (e : InitEnv).
Let pointer_size := kPointerSize cur.
Let bits := kPointerBits cur.

(** The aligned offsets the probe visits, in order. *)
Definition probe_offsets (size : Z) : list Z :=
  map (λ k, 4 * k) (seqZ 0 ((size + 3) / 4)).

(** The first aligned word of the object that equals the real flags; 0 when
    there is none. *)
Definition probe_access_flags (first size : Z) : Z :=
  match find (λ i, load (memory e) 4 (first + i) =? real_flags e) (probe_offsets size) with
  | Some i => i
  | None => 0
  end.

Definition get_offset_from_art_method (name : string) : Z :=
  match object_field_offset e name with Some o => o | None => 0 end.

(** Offsets: [(access_flags, declaring_class, entry_point, interpreter, data)]. *)
Definition init_offsets (first size : Z) : option (Z * Z * Z * Z * Z) :=
  let entry := wrap bits (size - pointer_size) in
  let data := wrap bits (entry - pointer_size) in
  if __ANDROID_API_M__ <=? sdk then
    let flags := probe_access_flags first size in
    let flags :=
      if flags =? 0 then (if sdk =? __ANDROID_API_M__ then 12 else 4) else flags in
    Some (flags, 0, entry, 0, data)
  else if unsafe_available e then
    let flags := get_offset_from_art_method "accessFlags"%string in
    let declaring := get_offset_from_art_method "declaringClass"%string in
    if sdk =? __ANDROID_API_L__ then
      Some (flags, declaring,
            get_offset_from_art_method "entryPointFromQuickCompiledCode"%string,
            get_offset_from_art_method "entryPointFromInterpreter"%string,
            get_offset_from_art_method "entryPointFromJni"%string)
    else Some (flags, declaring, entry, 0, data)
  else None.

Definition init_kAccPreCompiled : Z :=
  if sdk <? __ANDROID_API_R__ then 0
  else if __ANDROID_API_S__ <=? sdk then 0x00800000 else 0x00200000.
Definition init_kAccFastInterpreterToInterpreterInvoke : Z :=
  if sdk <? __ANDROID_API_Q__ then 0 else 0x40000000.
Definition init_kAccFastNative : Z := if sdk <? __ANDROID_API_O__ then 0 else 0x00080000.
Definition init_kAccIntrinsic : Z := if sdk <? __ANDROID_API_O__ then 0 else 0x80000000.
Definition init_kAccDefaultConflict : Z := 0x01000000.

(** On Android 8.0 the probe decides between the two encodings; before
    Android 7 the flag does not exist. *)
Definition init_kAccCompileDontBother : Z :=
  let v :=
    if (sdk =? __ANDROID_API_O__) && throws_AbstractMethodError e
    then init_kAccDefaultConflict else 0x02000000 in
  if sdk <? __ANDROID_API_N__ then 0 else v.

Definition Init : option Config :=
  if (sdk <? __ANDROID_API_M__) && negb (find_ArtMethod_class e) then None
  else if (__ANDROID_API_M__ <=? sdk) && negb (find_artMethod_field e) then None
  else if negb (find_Throwable e) then None
  else match constructors e with
  | first :: second :: _ =>
      let size := wrap bits (second - first) in
      match init_offsets first size with
      | None => None
      | Some (flags, declaring, entry, interpreter, data) =>
          if (sdk =? __ANDROID_API_O__) && negb (find_AbstractMethodError e) then None
          else
            let mk interpreter bridge :=
              mkConfig sdk (__ANDROID_API_M__ <=? sdk) size entry interpreter data flags
                declaring init_kAccFastNative init_kAccPreCompiled
                init_kAccCompileDontBother init_kAccDefaultConflict
                init_kAccFastInterpreterToInterpreterInvoke init_kAccIntrinsic
                bridge (resolve_GetMethodShorty e) in
            if sdk <=? __ANDROID_API_M__ then
              match resolve_bridge e with
              | None => None
              | Some bridge =>
                  Some (mk (if __ANDROID_API_L_MR1__ <=? sdk
                            then wrap bits (entry - 2 * pointer_size) else interpreter)
                           bridge)
              end
            else Some (mk interpreter 0)
      end
  | _ => None
  end.
End Init.

(** ** What [Init] establishes *)

(** The version-dependent masks: inside [uint32_t], above the 16 bits of the
    class-file flags, and no two share a bit. *)
Definition version_masks (c : Config) : list Z :=
  [kAccFastNative c; kAccPreCompiled c; kAccCompileDontBother c;
   kAccFastInterpreterToInterpreterInvoke c; kAccIntrinsic c].

Fixpoint pairwise_disjoint (l : list Z) : bool :=
  match l with
  | [] => true
  | a :: l => forallb (λ b, Z.land a b =? 0) l && pairwise_disjoint l
  end.

Definition masks_ok (c : Config) : bool :=
  forallb (λ a, (Z.land a 0x1FFFF =? 0) && (0 <=? a) && (a <? 2 ^ 32)) (version_masks c)
  && pairwise_disjoint (version_masks c).

Lemma Init_inv cur sdk e c :
  Init cur sdk e = Some c →
  ∃ first second rest flags declaring entry interpreter data interpreter' bridge,
    constructors e = first :: second :: rest ∧
    init_offsets cur sdk e first (wrap (kPointerBits cur) (second - first)) =
      Some (flags, declaring, entry, interpreter, data) ∧
    c = mkConfig sdk (__ANDROID_API_M__ <=? sdk) (wrap (kPointerBits cur) (second - first))
          entry interpreter' data flags declaring (init_kAccFastNative sdk)
          (init_kAccPreCompiled sdk) (init_kAccCompileDontBother sdk e)
          init_kAccDefaultConflict (init_kAccFastInterpreterToInterpreterInvoke sdk)
          (init_kAccIntrinsic sdk) bridge (resolve_GetMethodShorty e) ∧
    (__ANDROID_API_M__ < sdk → interpreter' = interpreter).
Proof.
  unfold Init. intros H.
  do 3 (case_match; [done|]).
  destruct (constructors e) as [|first [|second rest]]; [done..|].
  destruct (init_offsets _ _ _ _ _) as [[[[[flags declaring] entry] interpreter] data]|] eqn:Ho;
    [|done].
  case_match; [done|].
  destruct (Z.leb_spec sdk __ANDROID_API_M__).
  - destruct (resolve_bridge e); simplify_eq.
    eexists first, second, rest, flags, declaring, entry, interpreter, data, _, _.
    split_and!; [done..|lia].
  - simplify_eq.
    by eexists first, second, rest, flags, declaring, entry, interpreter, data, _, _.
Qed.

(** The masks of every API level are well formed. *)
Lemma Init_masks_ok cur sdk e c : Init cur sdk e = Some c → masks_ok c = true.
Proof.
  intros (?&?&?&?&?&?&?&?&?&?&_&_&->&_)%Init_inv.
  unfold masks_ok, version_masks; simpl.
  unfold init_kAccFastNative, init_kAccPreCompiled, init_kAccCompileDontBother,
    init_kAccFastInterpreterToInterpreterInvoke, init_kAccIntrinsic, init_kAccDefaultConflict.
  by repeat case_match.
Qed.

Lemma find_first {A} (f : A → bool) l x :
  find f l = Some x →
  ∃ l1 l2, l = l1 ++ x :: l2 ∧ f x = true ∧ Forall (λ y, f y = false) l1.
Proof.
  induction l as [|y l IH]; simpl; [done|]. destruct (f y) eqn:E.
  - intros [= ->]. by exists [], l.
  - intros (l1 & l2 & -> & ? & ?)%IH. exists (y :: l1), l2. by repeat constructor.
Qed.

Section probe.
Context (e : InitEnv) (first size f : Z).
Hypothesis f_aligned : (4 | f).
Hypothesis f_range : 0 < f < size.
Hypothesis f_flags : load (memory e) 4 (first + f) = real_flags e.

Lemma elem_of_probe_offsets i : i ∈ probe_offsets size ↔ (4 | i) ∧ 0 <= i ∧ i < size.
Proof.
  unfold probe_offsets. rewrite list_elem_of_fmap. split.
  - intros (k & -> & Hk%elem_of_seqZ). split; [by exists k; lia|].
    clear -Hk. dlia.
  - intros ([k ->] & ? & ?). exists k. rewrite elem_of_seqZ. split; [lia|]. dlia.
Qed.

(** The probe stops at or before an offset that holds the flags, and at it
    when no earlier word is equal to them. *)
Lemma probe_access_flags_spec :
  let i := probe_access_flags e first size in
  0 <= i <= f ∧ (4 | i) ∧
  ((∀ j, (4 | j) → 0 <= j < f → load (memory e) 4 (first + j) ≠ real_flags e) → i = f).
Proof.
  unfold probe_access_flags.
  assert (f ∈ probe_offsets size) as Hf by (apply elem_of_probe_offsets; auto with lia).
  destruct (find _ _) as [i|] eqn:Hfind.
  2: { pose proof (find_none _ _ Hfind f) as Hn. rewrite list_elem_of_In in Hf.
       specialize (Hn Hf). simpl in Hn. rewrite f_flags, Z.eqb_refl in Hn. done. }
  pose proof Hfind as (l1 & l2 & Hl & Hi & Hl1)%find_first.
  assert (i ∈ probe_offsets size) as (? & ? & ?)%elem_of_probe_offsets.
  { rewrite Hl. apply elem_of_app. right. constructor. }
  apply Z.eqb_eq in Hi.
  assert (i <= f).
  { destruct (Z.le_gt_cases i f) as [|Hlt]; [done|exfalso].
    assert (f ∈ l1) as Hin.
    { destruct f_aligned as [k ->]. apply list_elem_of_lookup. exists (Z.to_nat k).
      assert (Z.of_nat (length l1) * 4 = i) as Hlen.
      { assert (probe_offsets size !! length l1 = Some i) as Hlk
          by (by rewrite Hl, list_lookup_middle).
        unfold probe_offsets in Hlk. rewrite list_lookup_fmap, fmap_Some in Hlk.
        destruct Hlk as (? & [-> ?]%lookup_seqZ & ->). lia. }
      rewrite <-(lookup_app_l l1 (i :: l2)) by lia. rewrite <-Hl. unfold probe_offsets.
      rewrite list_lookup_fmap, lookup_seqZ_lt by dlia. simpl. f_equal. lia. }
    rewrite Forall_forall in Hl1. specialize (Hl1 _ Hin). simpl in Hl1.
    by rewrite f_flags, Z.eqb_refl in Hl1. }
  split_and!; [lia|lia|done|]. intros Hj.
  destruct (Z.eq_dec i f); [done|]. by destruct (Hj i); [|lia|].
Qed.
End probe.

(** C16: On Android 7 and above, when the objects have room for the class, the
    flags and the two pointers, and the flags field holds the flags that
    reflection reports: [Init] succeeds with a layout whose fields lie inside
    the object and do not overlap, data and entry point are the last two
    words, and the flags offset is the field's own offset whenever no earlier
    word of the first constructor happens to equal its flags. *)
Theorem Init_layout_ok cur sdk e first second rest f :
  __ANDROID_API_N__ <= sdk →
  find_artMethod_field e = true → find_Throwable e = true →
  (sdk = __ANDROID_API_O__ → find_AbstractMethodError e = true) →
  constructors e = first :: second :: rest →
  let size := second - first in
  let ptr := kPointerSize cur in
  8 + 2 * ptr <= size < 2 ^ kPointerBits cur →
  (4 | f) → 4 <= f → f + 4 <= size - 2 * ptr →
  load (memory e) 4 (first + f) = real_flags e →
  ∃ c, Init cur sdk e = Some c ∧ layout_ok cur c ∧ masks_ok c = true ∧
    art_method_size c = size ∧ entry_point_offset c = size - ptr ∧
    data_offset c = size - 2 * ptr ∧ interpreter_entry_point_offset c = 0 ∧
    declaring_class_offset c = 0 ∧
    ((∀ j, (4 | j) → 0 <= j < f → load (memory e) 4 (first + j) ≠ real_flags e) →
     access_flags_offset c = f).
Proof.
  intros Hsdk Hfield Hthr Hame Hctors size ptr Hsize Hf4 Hf Hfs Hflags.
  assert (0 < ptr) by (unfold ptr; by destruct (kPointerSize_cases cur) as [-> | ->]).
  destruct (probe_access_flags_spec e first size f) as (Hr & H4 & Hex); [done|lia|done|].
  set (fl := probe_access_flags e first size) in *.
  set (off := if fl =? 0 then 4 else fl).
  assert (4 <= off <= f ∧ (4 | off)) as [Hoff Hoff4].
  { unfold off. destruct (Z.eqb_spec fl 0); [split; [lia|by exists 1]|].
    split; [|done]. destruct H4 as [k ->]. lia. }
  assert (init_offsets cur sdk e first (wrap (kPointerBits cur) (second - first)) =
    Some (off, 0, size - ptr, 0, size - 2 * ptr)) as Hinit.
  { unfold init_offsets, __ANDROID_API_M__, __ANDROID_API_N__ in *.
    rewrite (proj2 (Z.leb_le _ _)) by lia. fold size ptr.
    rewrite (wrap_small _ size) by lia. fold fl.
    rewrite (proj2 (Z.eqb_neq sdk 23)) by lia. fold off.
    rewrite (wrap_small _ (size - ptr)), wrap_small by lia. do 2 f_equal. lia. }
  eexists. split; [|split_and!].
  { unfold Init. rewrite Hfield, Hthr, Hctors, !Bool.andb_false_r, Hinit.
    unfold __ANDROID_API_M__, __ANDROID_API_N__ in *.
    rewrite (proj2 (Z.ltb_ge _ _)), (proj2 (Z.leb_gt sdk 23)) by lia. simpl.
    rewrite wrap_small by (fold size; lia).
    destruct (Z.eqb_spec sdk __ANDROID_API_O__) as [->|]; [|done].
    by rewrite Hame. }
  - unfold layout_ok, fields; simpl.
    assert (Z.of_nat (ptr_bytes cur) = ptr) by (by destruct cur). fold size ptr.
    unfold in_object, apart, disjoint_range; simpl. fold size.
    split; [|split_and!]; repeat constructor; simpl; lia.
  - unfold masks_ok, version_masks; simpl.
    unfold init_kAccFastNative, init_kAccPreCompiled, init_kAccCompileDontBother,
      init_kAccFastInterpreterToInterpreterInvoke, init_kAccIntrinsic, init_kAccDefaultConflict.
    by repeat case_match.
  - done.
  - done.
  - done.
  - done.
  - done.
  - simpl. intros Hj. unfold off. rewrite (Hex Hj).
    destruct (Z.eqb_spec f 0); lia.
Qed.

(** Memory with the flags 0x10001 of a first constructor at 4096 + 4. *)
Definition example_env : InitEnv := {|
  find_ArtMethod_class := true; find_artMethod_field := true; find_Throwable := true;
  constructors := [4096; 4128]; memory := store (λ _, 0) 4 4100 0x10001;
  real_flags := 0x10001; unsafe_available := true; object_field_offset := λ _, None;
  resolve_GetMethodShorty := true; find_AbstractMethodError := true;
  throws_AbstractMethodError := true; resolve_bridge := None;
|}.

Lemma Init_layout_ok_witness :
  ∃ c, Init kArm64 34 example_env = Some c ∧ layout_ok kArm64 c ∧ masks_ok c = true ∧
    access_flags_offset c = 4.
Proof.
  destruct (Init_layout_ok kArm64 34 example_env 4096 4128 [] 4) as (c & ? & ? & ? & H).
  - done.
  - done.
  - done.
  - done.
  - done.
  - by vm_compute.
  - by exists 1.
  - done.
  - by vm_compute.
  - by vm_compute.
  - exists c. split_and!; [done..|]. apply H. intros j [k ->] Hj.
    assert (k = 0) as -> by lia. by vm_compute.
Defined.
