(* ===== verification/Trampoline.v ===== *)
(** * Trampolines

    The code stubs of [lsplant.cc]: the per-architecture templates,
    [UpdateTrampoline], which ORs the entry-point offset into them,
    [WriteTrampoline], which writes a stub that dispatches to a method, and
    the sequential [GenerateTrampolineFor].  What a stub dispatches to is found
    by decoding and running its bytes ([trampoline_target]). *)

From S2P Require Import Prelude Memory Platform StubCode.

(** ** Templates *)

(** [trampoline] before initialization, the bit position of the entry-point
    immediate and the byte position of the method pointer. *)
Definition trampoline_template (cur : Arch) : list Z :=
  match cur with
  | kArm64 => [0x60;0x00;0x00;0x58; 0x10;0x00;0x40;0xf8; 0x00;0x02;0x5f;0xd6;
               0xef;0xcd;0xab;0x90;0x78;0x56;0x34;0x12]
  | kArm => [0x00;0x00;0x9f;0xe5; 0x00;0xf0;0x90;0xe5; 0x78;0x56;0x34;0x12]
  | kX86 => [0xb8;0x78;0x56;0x34;0x12; 0xff;0x70;0x00; 0xc3]
  | kX64 => [0x48;0xbf;0xef;0xcd;0xab;0x90;0x78;0x56;0x34;0x12; 0xff;0x77;0x00; 0xc3]
  | kRiscv64 => [0x17;0x05;0x00;0x00; 0x03;0x35;0xe5;0x00; 0x03;0x3e;0x05;0x00; 0x02;0x8e;
                 0xef;0xcd;0xab;0x90;0x78;0x56;0x34;0x12]
  | _ => []
  end.

Definition trampoline_entry_point_offset (cur : Arch) : Z :=
  match cur with
  | kArm64 => 44 | kArm => 32 | kX86 => 56 | kX64 => 96 | kRiscv64 => 84 | _ => 0
  end.

Definition art_method_offset (cur : Arch) : Z :=
  match cur with
  | kArm64 => 12 | kArm => 8 | kX86 => 1 | kX64 => 2 | kRiscv64 => 14 | _ => 0
  end.

(** [data[i] |= v] on [uint8_t]. *)
Definition or_byte (data : list Z) (i : nat) (v : Z) : list Z :=
  alter (λ b, Z.lor b v mod 256) i data.

(** [UpdateTrampoline]; [imm] is a [uint8_t]. *)
Definition UpdateTrampoline (data : list Z) (imm_offset imm : Z) : list Z :=
  let i := Z.to_nat (imm_offset / 8) in
  let data := or_byte data i (Z.shiftl imm (imm_offset mod 8)) in
  or_byte data (i + 1) (Z.shiftr imm (8 - imm_offset mod 8)).

(** The initialized [trampoline], for the value of [GetEntryPointOffset()],
    which the call converts to [uint8_t]. *)
Definition trampoline (cur : Arch) (ep_offset : Z) : list Z :=
  UpdateTrampoline (trampoline_template cur) (trampoline_entry_point_offset cur)
    (ep_offset mod 256).

(** [kTrampolineSize]. *)
Definition kTrampolineSize (cur : Arch) : Z :=
  RoundUpTo cur (Z.of_nat (length (trampoline_template cur))) 2.

(** ** [WriteTrampoline] *)

Definition optimized_trampoline_template : list Z :=
  [0x80;0x46;0xc2;0xd2; 0x00;0xcf;0xaa;0xf2; 0x60;0x15;0x92;0xf2;
   0x11;0x00;0x40;0xf8; 0x20;0x02;0x5f;0xd6].

(** Instruction word [i] of a byte string, read and replaced. *)
Definition get_word (data : list Z) (i : nat) : Z := le_value (take 4 (drop (4 * i) data)).
Definition set_word (data : list Z) (i : nat) (w : Z) : list Z :=
  take (4 * i) data ++ le_bytes 4 w ++ drop (4 * i + 4) data.

(** [update_move_wide_imm]: [inst.imm = imm] in [struct MoveWideImm], where the
    16-bit [imm] starts at bit 5. *)
Definition update_move_wide_imm (data : list Z) (index : nat) (imm : Z) : list Z :=
  set_word data index (set_field (get_word data index) 5 16 imm).

Definition optimized_trampoline (ep_offset hook_addr : Z) : list Z :=
  let t := UpdateTrampoline optimized_trampoline_template 108 (ep_offset mod 256) in
  let t := update_move_wide_imm t 0 (Z.shiftr hook_addr 32) in
  let t := update_move_wide_imm t 1 (Z.land (Z.shiftr hook_addr 16) 0xFFFF) in
  update_move_wide_imm t 2 (Z.land hook_addr 0xFFFF).

(** [WriteTrampoline]: the memory after it and the returned entry slot; bit 0
    of the slot marks the self-contained arm64 form. *)
Definition WriteTrampoline (cur : Arch) (ep_offset : Z) (m : mem) (address hook : Z) : mem * Z :=
  if is_arch_v cur [kArm64] && (Z.shiftr hook 48 =? 0) then
    (write_bytes m address (optimized_trampoline ep_offset hook), address + 1)
  else
    let m := write_bytes m address (trampoline cur ep_offset) in
    let entry_slot := address + art_method_offset cur in
    (store m (Z.to_nat (kPointerSize cur)) entry_slot hook, entry_slot).

(** ** What a trampoline dispatches to *)

(** The bytes of the stub at [address]. *)
Definition stub_bytes (cur : Arch) (m : mem) (address : Z) : list Z :=
  read_bytes m address (Z.to_nat (kTrampolineSize cur)).

(** The method a stub at [address] passes control to: the one its instructions
    leave in the method register. *)
Definition trampoline_target (cur : Arch) (m : mem) (address : Z) : Z :=
  match run_stub cur (stub_bytes cur m address) with Some (method, _) => method | None => 0 end.

(** The immediate of the dispatch instruction as the processor reads it: signed
    in the 8 bits of x86, within the unsigned half of the other formats. *)
Definition dispatch_offset (cur : Arch) (ep : Z) : Z :=
  if is_arch_v cur [kX86; kX64] then sext 8 (ep mod 256) else ep mod 256.

(** A stub at [address] runs as [hook] and jumps through the word at [off]
    bytes from it. *)
Definition dispatches (cur : Arch) (m : mem) (address hook off : Z) : Prop :=
  run_stub cur (stub_bytes cur m address) = Some (hook, (hook, off)).

(** The instruction fields [UpdateTrampoline] fills: first bit and width. *)
Definition dispatch_field (cur : Arch) : Z * Z :=
  match cur with
  | kArm64 => (44, 9) | kArm => (32, 12) | kX86 => (56, 8) | kX64 => (96, 8)
  | kRiscv64 => (84, 12) | _ => (0, 0)
  end.

(** ** Instruction words of a byte string *)

Lemma length_set_word data i w :
  (4 * i + 4 <= length data)%nat → length (set_word data i w) = length data.
Proof.
  intros. unfold set_word. rewrite !length_app, length_take, length_le_bytes, length_drop. lia.
Qed.

Lemma get_set_word_same data i w :
  (4 * i + 4 <= length data)%nat → get_word (set_word data i w) i = wrap 32 w.
Proof.
  intros. unfold get_word, set_word.
  rewrite drop_app_length' by (rewrite length_take; lia).
  rewrite take_app_length' by (rewrite length_le_bytes; lia). apply le_value_bytes.
Qed.

Lemma get_set_word_other data i j w :
  (4 * i + 4 <= length data)%nat → (4 * j + 4 <= length data)%nat → i ≠ j →
  get_word (set_word data i w) j = get_word data j.
Proof.
  intros Hi Hj Hij. unfold get_word. f_equal. apply list_eq. intros k.
  destruct (decide (k < 4)%nat) as [Hk|Hk]; [|by rewrite !lookup_take_ge by lia].
  rewrite !lookup_take_lt, !lookup_drop by lia. unfold set_word.
  destruct (decide (j < i)%nat).
  - rewrite lookup_app_l by (rewrite length_take; lia). by rewrite lookup_take_lt by lia.
  - rewrite lookup_app_r by (rewrite length_take; lia). rewrite length_take.
    rewrite lookup_app_r by (rewrite length_le_bytes; lia).
    rewrite length_le_bytes, lookup_drop. f_equal. lia.
Qed.

Lemma load_written_word m a data j :
  Forall is_byte data → (4 * j + 4 <= length data)%nat →
  load (write_bytes m a data) 4 (a + 4 * Z.of_nat j) = get_word data j.
Proof.
  intros Hd Hj. unfold load, get_word.
  replace (a + 4 * Z.of_nat j) with (a + Z.of_nat (4 * j)) by lia.
  by rewrite read_written by done.
Qed.

Lemma set_word_bytes data i w : Forall is_byte data → Forall is_byte (set_word data i w).
Proof.
  intros. unfold set_word. repeat apply Forall_app_2;
    auto using Forall_take, Forall_drop, le_bytes_range.
Qed.

(** ** The self-contained arm64 stub *)

Lemma length_UpdateTrampoline data off imm : length (UpdateTrampoline data off imm) = length data.
Proof. unfold UpdateTrampoline, or_byte. by rewrite !length_alter. Qed.

Lemma or_byte_bytes data i v : Forall is_byte data → Forall is_byte (or_byte data i v).
Proof.
  intros H. apply Forall_alter; [done|]. intros. unfold is_byte. apply Z.mod_pos_bound. lia.
Qed.

Lemma UpdateTrampoline_bytes data off imm :
  Forall is_byte data → Forall is_byte (UpdateTrampoline data off imm).
Proof. intros. by do 2 apply or_byte_bytes. Qed.

Lemma is_bytes_dec data : forallb (λ b, (0 <=? b) && (b <? 256)) data = true → Forall is_byte data.
Proof.
  intros H. apply Forall_forall. intros b Hb.
  eapply forallb_forall in H; [|by apply list_elem_of_In].
  unfold is_byte. lia.
Qed.

Lemma template_bytes cur : Forall is_byte (trampoline_template cur).
Proof. apply is_bytes_dec. by destruct cur. Qed.

Lemma optimized_template_bytes : Forall is_byte optimized_trampoline_template.
Proof. by apply is_bytes_dec. Qed.

(** Bounds on positions in a string patched by [set_word]. *)
Ltac in_words := first [ lia | rewrite length_set_word; in_words ].

Section move_wide.
Context (ep hook : Z).
Let t0 := UpdateTrampoline optimized_trampoline_template 108 (ep mod 256).

Lemma optimized_bytes : Forall is_byte (optimized_trampoline ep hook).
Proof.
  unfold optimized_trampoline, update_move_wide_imm.
  auto using set_word_bytes, UpdateTrampoline_bytes, optimized_template_bytes.
Qed.

Lemma length_t0 : length t0 = 20%nat.
Proof. by unfold t0; rewrite length_UpdateTrampoline. Qed.

Lemma length_optimized : length (optimized_trampoline ep hook) = 20%nat.
Proof.
  unfold optimized_trampoline, update_move_wide_imm. fold t0.
  pose proof length_t0. by rewrite !length_set_word by in_words.
Qed.

(** The three move-wide instructions of the written stub. *)
Lemma optimized_words :
  get_word (optimized_trampoline ep hook) 0 =
    set_field 0xD2C24680 5 16 (Z.shiftr hook 32) ∧
  get_word (optimized_trampoline ep hook) 1 =
    set_field 0xF2AACF00 5 16 (Z.land (Z.shiftr hook 16) 0xFFFF) ∧
  get_word (optimized_trampoline ep hook) 2 =
    set_field 0xF2921560 5 16 (Z.land hook 0xFFFF).
Proof.
  pose proof length_t0 as Hl.
  assert (∀ w v, 0 <= w < 2 ^ 32 → wrap 32 (set_field w 5 16 v) = set_field w 5 16 v) as Hw.
  { intros. apply wrap_small, set_field_range; lia. }
  unfold optimized_trampoline, update_move_wide_imm. fold t0.
  assert (get_word t0 0 = 0xD2C24680 ∧ get_word t0 1 = 0xF2AACF00 ∧ get_word t0 2 = 0xF2921560)
    as (H0 & H1 & H2) by done.
  repeat split;
    repeat first [ rewrite get_set_word_other by in_words
                 | rewrite get_set_word_same by in_words ];
    rewrite ?H0, ?H1, ?H2; apply Hw; lia.
Qed.
End move_wide.

Lemma move_wide_value hook :
  0 <= hook < 2 ^ 48 →
  set_field (set_field (Z.shiftl (Z.shiftr hook 32 mod 2 ^ 16) 32) 16 16
    (Z.land (Z.shiftr hook 16) 0xFFFF mod 2 ^ 16)) 0 16 (Z.land hook 0xFFFF mod 2 ^ 16) = hook.
Proof.
  intros Hh. apply Z.bits_inj'. intros i Hi.
  change 0xFFFF with (Z.ones 16).
  rewrite !set_field_testbit, <-!Z.land_ones, Z.shiftl_spec by lia.
  repeat case_bool_decide; try lia.
  - rewrite !Z.land_spec, testbit_ones_lt, bool_decide_eq_true_2 by lia.
    rewrite !andb_true_r. f_equal. lia.
  - rewrite !Z.land_spec, testbit_ones_lt, bool_decide_eq_true_2, Z.shiftr_spec by lia.
    rewrite !andb_true_r. f_equal. lia.
  - destruct (decide (32 <= i)); [|lia].
    rewrite Z.land_spec, testbit_ones_lt, Z.shiftr_spec by lia.
    case_bool_decide; [rewrite andb_true_r; f_equal; lia|].
    rewrite andb_false_r, <-(Z.mod_small hook (2 ^ 48)), <-Z.land_ones, Z.land_spec by lia.
    rewrite testbit_ones_lt, bool_decide_eq_false_2 by lia. by rewrite andb_false_r.
Qed.

(** ** Dispatch *)

(** [WriteTrampoline] chooses the self-contained form. *)
Definition self_contained (cur : Arch) (hook : Z) : bool :=
  is_arch_v cur [kArm64] && (Z.shiftr hook 48 =? 0).

Lemma self_contained_inv cur hook :
  0 <= hook → self_contained cur hook = true → cur = kArm64 ∧ 0 <= hook < 2 ^ 48.
Proof.
  unfold self_contained. intros Hh [Hc Hs]%andb_true_iff. split; [by destruct cur|].
  apply Z.eqb_eq in Hs. rewrite Z.shiftr_div_pow2 in Hs by lia. dlia.
Qed.

Lemma length_trampoline cur ep : length (trampoline cur ep) = length (trampoline_template cur).
Proof. apply length_UpdateTrampoline. Qed.

Lemma pointer_mod cur p :
  0 <= p < 2 ^ kPointerBits cur →
  p mod 2 ^ (8 * Z.of_nat (Z.to_nat (kPointerSize cur))) = p.
Proof.
  unfold kPointerBits. intros Hp.
  rewrite Z2Nat.id by (destruct (kPointerSize_cases cur); lia). by apply Z.mod_small.
Qed.

Lemma stub_size cur :
  cur ∈ supported →
  Z.of_nat (length (trampoline_template cur)) <= kTrampolineSize cur ∧
  0 <= art_method_offset cur ∧
  art_method_offset cur + Z.of_nat (Z.to_nat (kPointerSize cur)) <=
    Z.of_nat (length (trampoline_template cur)).
Proof.
  unfold supported. intros Hcur.
  repeat (apply elem_of_cons in Hcur as [->|Hcur]; [by vm_compute|]). set_solver.
Qed.

Lemma WriteTrampoline_frame cur ep m address hook :
  cur ∈ supported → 0 <= hook < 2 ^ kPointerBits cur →
  ∀ x, x < address ∨ address + kTrampolineSize cur <= x →
  (WriteTrampoline cur ep m address hook).1 x = m x.
Proof.
  intros Hcur Hh x Hx. unfold WriteTrampoline. fold (self_contained cur hook).
  destruct (self_contained cur hook) eqn:Hs; simpl.
  - apply self_contained_inv in Hs as [-> _]; [|lia]. apply write_bytes_out.
    rewrite length_optimized. change (kTrampolineSize kArm64) with 20 in Hx. lia.
  - destruct (stub_size cur Hcur) as (? & ? & ?). unfold store.
    rewrite !write_bytes_out; [done|..].
    + rewrite length_trampoline. lia.
    + rewrite length_le_bytes. lia.
Qed.

Lemma WriteTrampoline_slot cur ep m address hook :
  0 <= hook < 2 ^ kPointerBits cur →
  let '(m', slot) := WriteTrampoline cur ep m address hook in
  if self_contained cur hook then slot = address + 1
  else slot = address + art_method_offset cur ∧
       load m' (Z.to_nat (kPointerSize cur)) slot = hook.
Proof.
  intros Hh. unfold WriteTrampoline. fold (self_contained cur hook).
  destruct (self_contained cur hook); [done|]. split; [done|].
  rewrite load_store_same. by apply pointer_mod.
Qed.

(** The form of the stub in memory, and the slot that belongs to it. *)
Definition is_self_contained (cur : Arch) (m : mem) (address : Z) : bool :=
  is_arch_v cur [kArm64] && (get_field (load m 4 address) 23 9 =? 0x1A5).
Definition stub_slot (cur : Arch) (m : mem) (address : Z) : Z :=
  if is_self_contained cur m address then address + 1 else address + art_method_offset cur.

Lemma template_form cur ep m address hook :
  is_self_contained cur
    (store (write_bytes m address (trampoline cur ep)) (Z.to_nat (kPointerSize cur))
       (address + art_method_offset cur) hook) address = false.
Proof.
  unfold is_self_contained. destruct (is_arch_v cur [kArm64]) eqn:Ha; [|done].
  assert (cur = kArm64) as -> by by destruct cur.
  rewrite load_store_disjoint by (right; simpl; lia).
  pose proof (load_written_word m address (trampoline kArm64 ep) 0) as Hw.
  change (4 * Z.of_nat 0) with 0 in Hw. rewrite Z.add_0_r in Hw. rewrite Hw; [done|..].
  - apply UpdateTrampoline_bytes, template_bytes.
  - rewrite length_trampoline. simpl. lia.
Qed.

Lemma optimized_form ep m address hook :
  is_self_contained kArm64 (write_bytes m address (optimized_trampoline ep hook)) address = true.
Proof.
  unfold is_self_contained. destruct (optimized_words ep hook) as (W0 & _).
  pose proof (load_written_word m address (optimized_trampoline ep hook) 0
    (optimized_bytes ep hook)) as Hw.
  change (4 * Z.of_nat 0) with 0 in Hw. rewrite Z.add_0_r in Hw.
  rewrite Hw, W0, get_set_field_other by (rewrite ?length_optimized; lia). done.
Qed.

(** The slot [WriteTrampoline] returns is the one of the form it wrote. *)
Lemma WriteTrampoline_stub_slot cur ep m address hook :
  0 <= hook < 2 ^ kPointerBits cur →
  let '(m', slot) := WriteTrampoline cur ep m address hook in slot = stub_slot cur m' address.
Proof.
  intros Hh. unfold WriteTrampoline, stub_slot. fold (self_contained cur hook).
  destruct (self_contained cur hook) eqn:Hs.
  - apply self_contained_inv in Hs as [-> _]; [|lia]. by rewrite optimized_form.
  - by rewrite template_form.
Qed.

Lemma seqZ_forallb (f : Z → bool) n z :
  forallb f (seqZ 0 n) = true → 0 <= z < n → f z = true.
Proof.
  intros Hf Hz. eapply forallb_forall in Hf; [done|].
  apply list_elem_of_In, elem_of_seqZ. lia.
Qed.

(** ** What a written stub does *)

Lemma seqZ_Forall (P : Z → Prop) n z : Forall P (seqZ 0 n) → 0 <= z < n → P z.
Proof. intros HP Hz. rewrite Forall_forall in HP. apply HP, elem_of_seqZ. lia. Qed.

Lemma length_stub_bytes cur m address :
  length (stub_bytes cur m address) = Z.to_nat (kTrampolineSize cur).
Proof. apply length_read_bytes. Qed.

(** The code around the literal of a stub is the template's, with [ep] in its
    dispatch instruction. *)
Definition template_code (cur : Arch) (ep : Z) (bs : list Z) : Prop :=
  let lit := Z.to_nat (art_method_offset cur) in
  let rest := (lit + Z.to_nat (kPointerSize cur))%nat in
  let code := trampoline cur ep in
  take lit bs = take lit code ∧ take (length code - rest) (drop rest bs) = drop rest code.

Definition literal (cur : Arch) (bs : list Z) : list Z :=
  take (Z.to_nat (kPointerSize cur)) (drop (Z.to_nat (art_method_offset cur)) bs).

Lemma trampoline_mod cur ep : trampoline cur (ep mod 256) = trampoline cur ep.
Proof. unfold trampoline. by rewrite Zmod_mod. Qed.

Lemma dispatch_offset_mod cur ep : dispatch_offset cur (ep mod 256) = dispatch_offset cur ep.
Proof. unfold dispatch_offset. by rewrite Zmod_mod. Qed.

(** A stub split at its literal. *)
Lemma template_code_split cur ep bs :
  cur ∈ supported → length bs = Z.to_nat (kTrampolineSize cur) → template_code cur ep bs →
  let lit := Z.to_nat (art_method_offset cur) in
  let rest := (lit + Z.to_nat (kPointerSize cur))%nat in
  ∃ pad, bs = take lit (trampoline cur ep) ++ literal cur bs ++ drop rest (trampoline cur ep) ++ pad ∧
    length (literal cur bs) = Z.to_nat (kPointerSize cur) ∧
    (length (trampoline_template cur) + length pad)%nat = Z.to_nat (kTrampolineSize cur).
Proof.
  intros Hcur Hl [H1 H2] lit rest. destruct (stub_size cur Hcur) as (? & ? & ?).
  exists (drop (length (trampoline cur ep) - rest) (drop rest bs)). unfold literal. fold lit. split_and!.
  - fold lit in H1, H2. fold rest in H2. rewrite <-H1, <-H2. rewrite (take_drop (length (trampoline cur ep) - rest)).
    unfold rest. rewrite <-drop_drop, take_drop. by rewrite take_drop.
  - rewrite length_take, length_drop. unfold lit. lia.
  - rewrite !length_drop, length_trampoline. unfold rest, lit. lia.
Qed.

Ltac split_bytes l := repeat (destruct l as [|? l]; try discriminate).

(** Every dispatch immediate decodes to itself. *)
Lemma template_decoded cur e bytes pad :
  cur ∈ supported → 0 <= e < 256 → length bytes = Z.to_nat (kPointerSize cur) →
  (length (trampoline_template cur) + length pad)%nat = Z.to_nat (kTrampolineSize cur) →
  let lit := Z.to_nat (art_method_offset cur) in
  let rest := (lit + Z.to_nat (kPointerSize cur))%nat in
  decoded cur (take lit (trampoline cur e) ++ bytes ++ drop rest (trampoline cur e) ++ pad) 0
    (literal_insns cur (dispatch_offset cur e)).
Proof.
  intros Hcur He Hl Hp lit rest. subst lit rest. revert e He. unfold supported in Hcur.
  repeat (apply elem_of_cons in Hcur as [->|Hcur];
    [ split_bytes bytes; vm_compute in Hp; split_bytes pad; clear Hl Hp; refine (λ e, seqZ_Forall (λ e, _) 256 e _);
      let l := eval vm_compute in (seqZ 0 256) in change (seqZ 0 256) with l;
      repeat (apply Forall_cons; split; [cbn [decoded literal_insns]; split_and!; by vm_compute|]);
      apply Forall_nil; done | ]).
  set_solver.
Qed.
(** A stub that loads its method runs as the method its literal holds. *)
Lemma template_runs cur ep bs :
  cur ∈ supported → length bs = Z.to_nat (kTrampolineSize cur) → template_code cur ep bs →
  run_stub cur bs = Some (le_value (literal cur bs), (le_value (literal cur bs), dispatch_offset cur ep)).
Proof.
  intros Hcur Hl Ht. destruct (template_code_split cur ep bs Hcur Hl Ht) as (pad & Hbs & Hlit & Hpad).
  pose proof (template_decoded cur (ep mod 256) (literal cur bs) pad Hcur
    ltac:(apply Z.mod_pos_bound; lia) Hlit Hpad) as Hd.
  rewrite trampoline_mod, dispatch_offset_mod in Hd. cbv zeta in Hd. rewrite <-Hbs in Hd.
  apply (run_decoded _ _ (literal_insns cur (dispatch_offset cur ep))); [done| |].
  - apply (exec_literal_stub _ _ (art_method_offset cur)); [done|by destruct cur|].
    destruct (stub_size cur Hcur) as (? & ? & ?). unfold fetch.
    rewrite (proj2 (andb_true_iff _ _)); [done|].
    rewrite !Z.leb_le, Hl. destruct (kPointerSize_cases cur); lia.
  - destruct cur; simpl; lia.
Qed.

Lemma template_code_memory cur ep m a :
  cur ∈ supported →
  let lit := Z.to_nat (art_method_offset cur) in
  let rest := (lit + Z.to_nat (kPointerSize cur))%nat in
  let code := trampoline cur ep in
  template_code cur ep (stub_bytes cur m a) ↔
    read_bytes m a lit = take lit code ∧
    read_bytes m (a + Z.of_nat rest) (length code - rest) = drop rest code.
Proof.
  intros Hcur lit rest code. destruct (stub_size cur Hcur) as (? & ? & ?).
  unfold template_code, stub_bytes. fold lit rest code.
  rewrite drop_read, !take_read; [done|..]; unfold code, rest, lit; rewrite ?length_trampoline; lia.
Qed.

Lemma literal_memory cur m a :
  cur ∈ supported →
  le_value (literal cur (stub_bytes cur m a)) =
    load m (Z.to_nat (kPointerSize cur)) (a + art_method_offset cur).
Proof.
  intros Hcur. destruct (stub_size cur Hcur) as (? & ? & ?).
  unfold literal, load, stub_bytes. rewrite drop_read, take_read by lia.
  by rewrite Z2Nat.id by done.
Qed.

(** The template is there once written, and a write to the literal keeps it. *)
Lemma template_code_written cur ep m a :
  cur ∈ supported →
  template_code cur ep (stub_bytes cur (write_bytes m a (trampoline cur ep)) a).
Proof.
  intros Hcur. destruct (stub_size cur Hcur) as (? & ? & ?). apply template_code_memory; [done|].
  assert (Forall is_byte (trampoline cur ep)) as Hb by apply UpdateTrampoline_bytes, template_bytes.
  pose proof (length_trampoline cur ep) as Hl. split.
  - rewrite <-(Z.add_0_r a) at 2. change 0 with (Z.of_nat 0). by rewrite read_written by (done || lia).
  - rewrite read_written by (done || lia). apply take_ge. rewrite length_drop. lia.
Qed.

Lemma template_code_store cur ep m a v :
  cur ∈ supported → template_code cur ep (stub_bytes cur m a) →
  template_code cur ep
    (stub_bytes cur (store m (Z.to_nat (kPointerSize cur)) (a + art_method_offset cur) v) a).
Proof.
  intros Hcur. rewrite !template_code_memory by done. intros [<- <-].
  destruct (stub_size cur Hcur) as (? & ? & ?). unfold store.
  rewrite !read_write_disjoint; [done|..]; unfold disjoint_range; rewrite length_le_bytes; lia.
Qed.

Lemma template_dispatches cur ep m a v :
  cur ∈ supported → 0 <= v < 2 ^ kPointerBits cur → template_code cur ep (stub_bytes cur m a) →
  dispatches cur (store m (Z.to_nat (kPointerSize cur)) (a + art_method_offset cur) v) a v
    (dispatch_offset cur ep).
Proof.
  intros Hcur Hv Ht. unfold dispatches.
  rewrite (template_runs _ ep); [|done|apply length_stub_bytes|by apply template_code_store].
  rewrite literal_memory, load_store_same by done. by rewrite pointer_mod.
Qed.

(** *** The self-contained form *)

Lemma fetch_word (bs : list Z) (i : nat) :
  (4 * i + 4 <= length bs)%nat → fetch bs 4 (4 * Z.of_nat i) = Some (get_word bs i).
Proof.
  intros Hi. unfold fetch, get_word. rewrite (proj2 (andb_true_iff _ _)).
  - do 3 f_equal. f_equal. lia.
  - rewrite !Z.leb_le. lia.
Qed.

(** The last two instructions, for every immediate. *)
Lemma optimized_tail e pc :
  0 <= e < 256 →
  let t := UpdateTrampoline optimized_trampoline_template 108 e in
  decode_arm64 pc (get_word t 3) = Some (LoadField 17 0 e) ∧
  decode_arm64 pc (get_word t 4) = Some (JumpReg 17).
Proof.
  revert e. refine (λ e, seqZ_Forall (λ e, _) 256 e _).
  let l := eval vm_compute in (seqZ 0 256) in change (seqZ 0 256) with l.
  repeat (apply Forall_cons; split; [by vm_compute|]). by apply Forall_nil.
Qed.

Lemma optimized_tail_words ep hook :
  get_word (optimized_trampoline ep hook) 3 =
    get_word (UpdateTrampoline optimized_trampoline_template 108 (ep mod 256)) 3 ∧
  get_word (optimized_trampoline ep hook) 4 =
    get_word (UpdateTrampoline optimized_trampoline_template 108 (ep mod 256)) 4.
Proof.
  pose proof (length_t0 ep) as Hl. unfold optimized_trampoline, update_move_wide_imm.
  split; by rewrite !get_set_word_other by in_words.
Qed.

(** Five instruction words of which the first three build a method. *)
Lemma move_wide_stub_runs bs ep hook w0 w1 w2 :
  length bs = 20%nat →
  get_word bs 0 = get_word (optimized_trampoline ep w0) 0 →
  get_word bs 1 = get_word (optimized_trampoline ep w1) 1 →
  get_word bs 2 = get_word (optimized_trampoline ep w2) 2 →
  get_word bs 3 = get_word (optimized_trampoline ep hook) 3 →
  get_word bs 4 = get_word (optimized_trampoline ep hook) 4 →
  let method := exec_move_wide (exec_move_wide (exec_move_wide 0 (get_word bs 0)) (get_word bs 1))
    (get_word bs 2) in
  run_stub kArm64 bs = Some (method, (method, dispatch_offset kArm64 ep)).
Proof.
  intros Hl E0 E1 E2 E3 E4. cbv zeta.
  pose proof (optimized_tail (ep mod 256) 12 ltac:(apply Z.mod_pos_bound; lia)) as [D3 _].
  pose proof (optimized_tail (ep mod 256) 16 ltac:(apply Z.mod_pos_bound; lia)) as [_ D4].
  destruct (optimized_tail_words ep hook) as [T3 T4].
  rewrite <-T3, <-E3 in D3. rewrite <-T4, <-E4 in D4.
  eapply run_decoded; [|by apply (exec_move_wide_stub _ _ _ _ _ _ [4; 4; 4; 4; 4])|simpl; lia].
  cbn [zip zip_with decoded decode]. pose proof (fetch_word bs) as Hf.
  change (0 + 4) with (4 * Z.of_nat 1). change (4 * Z.of_nat 1 + 4) with (4 * Z.of_nat 2).
  change (4 * Z.of_nat 2 + 4) with (4 * Z.of_nat 3). change (4 * Z.of_nat 3 + 4) with (4 * Z.of_nat 4).
  change (fetch bs 4 0) with (fetch bs 4 (4 * Z.of_nat 0)).
  rewrite !Hf by lia. cbn [mbind option_bind].
  destruct (optimized_words ep w0) as (W0 & _), (optimized_words ep w1) as (_ & W1 & _),
    (optimized_words ep w2) as (_ & _ & W2).
  rewrite W0 in E0. rewrite W1 in E1. rewrite W2 in E2. rewrite E0, E1, E2.
  rewrite !decode_arm64_patched by done. cbn [mbind option_bind].
  change (4 * Z.of_nat 3) with 12. change (4 * Z.of_nat 4) with 16. by rewrite D3, D4.
Qed.

Lemma optimized_dispatches ep m address hook :
  0 <= hook < 2 ^ 48 →
  dispatches kArm64 (write_bytes m address (optimized_trampoline ep hook)) address hook
    (dispatch_offset kArm64 ep).
Proof.
  intros Hh. unfold dispatches, stub_bytes. change (Z.to_nat (kTrampolineSize kArm64)) with 20%nat.
  rewrite <-(length_optimized ep hook). rewrite read_write_same by apply optimized_bytes.
  rewrite (move_wide_stub_runs _ ep hook hook hook hook) by (done || apply length_optimized).
  destruct (optimized_words ep hook) as (-> & -> & ->).
  rewrite !exec_move_wide_patched. simpl. by rewrite move_wide_value.
Qed.

(** *** Both forms *)

(** A written stub runs as its method, whose entry point it jumps through. *)
Lemma WriteTrampoline_runs cur ep m address hook :
  cur ∈ supported → 0 <= hook < 2 ^ kPointerBits cur →
  dispatches cur (WriteTrampoline cur ep m address hook).1 address hook (dispatch_offset cur ep).
Proof.
  intros Hcur Hh. unfold WriteTrampoline. fold (self_contained cur hook).
  destruct (self_contained cur hook) eqn:Hs.
  - apply self_contained_inv in Hs as [-> Hh']; [|lia]. by apply optimized_dispatches.
  - by apply template_dispatches, template_code_written.
Qed.

Lemma dispatches_target cur m address hook off :
  dispatches cur m address hook off → trampoline_target cur m address = hook.
Proof. unfold trampoline_target. by intros ->. Qed.

Lemma WriteTrampoline_target cur ep m address hook :
  cur ∈ supported → 0 <= hook < 2 ^ kPointerBits cur →
  trampoline_target cur (WriteTrampoline cur ep m address hook).1 address = hook.
Proof. intros. by eapply dispatches_target, WriteTrampoline_runs. Qed.

Lemma dispatch_offset_small cur ep : 0 <= ep < 128 → dispatch_offset cur ep = ep.
Proof.
  intros Hep. unfold dispatch_offset, sext. rewrite Z.mod_small by lia.
  destruct (is_arch_v _ _); [|done]. by rewrite (proj2 (Z.ltb_lt _ _)) by lia.
Qed.

(** What a stub does depends on its bytes only. *)
Lemma stub_bytes_ext cur m m' address :
  (∀ x, address <= x < address + kTrampolineSize cur → m' x = m x) →
  stub_bytes cur m' address = stub_bytes cur m address.
Proof.
  intros Hm. apply read_bytes_ext. intros i Hi. unfold byte_at. f_equal. apply Hm. lia.
Qed.

Lemma trampoline_target_ext cur m m' address :
  (∀ x, address <= x < address + kTrampolineSize cur → m' x = m x) →
  trampoline_target cur m' address = trampoline_target cur m address.
Proof. intros Hm. unfold trampoline_target. by rewrite (stub_bytes_ext cur m m'). Qed.

(** A stub of either form, with entry-point offset [ep]. *)
Definition stub_code (cur : Arch) (ep : Z) (m : mem) (address : Z) : Prop :=
  is_self_contained cur m address = true ∨ template_code cur ep (stub_bytes cur m address).

Lemma is_self_contained_ext cur m m' address :
  (∀ x, address <= x < address + kTrampolineSize cur → m' x = m x) →
  is_self_contained cur m' address = is_self_contained cur m address.
Proof.
  intros Hm. unfold is_self_contained. destruct (is_arch_v cur [kArm64]) eqn:Ha; [|done].
  assert (cur = kArm64) as -> by by destruct cur. f_equal. f_equal. f_equal.
  unfold load. f_equal. apply read_bytes_ext. intros i Hi. unfold byte_at. f_equal.
  apply Hm. change (kTrampolineSize kArm64) with 20. lia.
Qed.

Lemma stub_code_ext cur ep m m' address :
  (∀ x, address <= x < address + kTrampolineSize cur → m' x = m x) →
  stub_code cur ep m address → stub_code cur ep m' address.
Proof.
  intros Hm. unfold stub_code.
  by rewrite (is_self_contained_ext cur m m'), (stub_bytes_ext cur m m').
Qed.

Lemma WriteTrampoline_stub_code cur ep m address hook :
  cur ∈ supported → 0 <= hook < 2 ^ kPointerBits cur →
  stub_code cur ep (WriteTrampoline cur ep m address hook).1 address.
Proof.
  intros Hcur Hh. unfold WriteTrampoline, stub_code. fold (self_contained cur hook).
  destruct (self_contained cur hook) eqn:Hs.
  - apply self_contained_inv in Hs as [-> _]; [|lia]. left. apply optimized_form.
  - right. by apply template_code_store, template_code_written.
Qed.

(** Writing the literal of a stub that is not self-contained retargets it. *)
Lemma store_literal cur ep m address v :
  cur ∈ supported → 0 <= v < 2 ^ kPointerBits cur → stub_code cur ep m address →
  is_self_contained cur m address = false →
  let m' := store m (Z.to_nat (kPointerSize cur)) (address + art_method_offset cur) v in
  dispatches cur m' address v (dispatch_offset cur ep) ∧
  stub_code cur ep m' address ∧ is_self_contained cur m' address = false.
Proof.
  intros Hcur Hv [Hc|Hc] Hf m'; [congruence|].
  split; [by apply template_dispatches|]. split; [by right; apply template_code_store|].
  unfold is_self_contained in *. destruct (is_arch_v cur [kArm64]) eqn:Ha; [|done].
  assert (cur = kArm64) as -> by by destruct cur.
  unfold m'. by rewrite load_store_disjoint by (right; simpl; lia).
Qed.

(** C7: for an entry point at most 127 bytes into a method, a stub written for
    [hook], on every supported architecture and in both arm64 forms, decodes to
    instructions that put [hook] in the method register and jump through the
    word at [hook + ep], its entry point; nothing outside the stub's
    [kTrampolineSize] bytes changes, and the returned slot is the stub's
    address plus 1 for the self-contained form and the position of the literal,
    which then holds [hook], otherwise. *)
Theorem WriteTrampoline_dispatches cur ep m address hook :
  cur ∈ supported → 0 <= ep < 128 → 0 <= hook < 2 ^ kPointerBits cur →
  let '(m', slot) := WriteTrampoline cur ep m address hook in
  run_stub cur (stub_bytes cur m' address) = Some (hook, (hook, ep)) ∧
  (∀ x, x < address ∨ address + kTrampolineSize cur <= x → m' x = m x) ∧
  if self_contained cur hook then slot = address + 1
  else slot = address + art_method_offset cur ∧
       load m' (Z.to_nat (kPointerSize cur)) slot = hook.
Proof.
  intros Hcur Hep Hh. pose proof (WriteTrampoline_runs cur ep m address hook Hcur Hh) as Hr.
  rewrite (dispatch_offset_small cur ep Hep) in Hr.
  pose proof (WriteTrampoline_frame cur ep m address hook Hcur Hh).
  pose proof (WriteTrampoline_slot cur ep m address hook Hh).
  by destruct (WriteTrampoline cur ep m address hook).
Qed.

Example WriteTrampoline_dispatches_witness :
  kX86 ∈ supported ∧ 0 <= 0x1c < 128 ∧ 0 <= 0x71234567 < 2 ^ kPointerBits kX86 ∧
  let '(m', slot) := WriteTrampoline kX86 0x1c (λ _, 0) 0x5000 0x71234567 in
  run_stub kX86 (stub_bytes kX86 m' 0x5000) = Some (0x71234567, (0x71234567, 0x1c)).
Proof.
  split; [vm_compute; set_solver|]. split; [done|]. split; [done|].
  pose proof (WriteTrampoline_dispatches kX86 0x1c (λ _, 0) 0x5000 0x71234567
    ltac:(unfold supported; set_solver) ltac:(done) ltac:(done)) as H.
  revert H. destruct (WriteTrampoline _ _ _ _ _). by intros (? & _).
Defined.

(** Both forms and the other architectures, run. *)
Example stubs_run :
  map (λ '(cur, hook), run_stub cur (stub_bytes cur (WriteTrampoline cur 0x20 (λ _, 0) 0x5000 hook).1 0x5000))
    [(kArm64, 0x7123456789); (kArm64, 0x717123456789ABCD); (kArm, 0x71234567); (kX64, 0x7123456789);
     (kRiscv64, 0x7123456789)] =
  [Some (0x7123456789, (0x7123456789, 0x20)); Some (0x717123456789ABCD, (0x717123456789ABCD, 0x20));
   Some (0x71234567, (0x71234567, 0x20)); Some (0x7123456789, (0x7123456789, 0x20));
   Some (0x7123456789, (0x7123456789, 0x20))].
Proof. by vm_compute. Qed.

(** [UpdateTrampoline] leaves every bit of the template as it is but for
    the dispatch instruction's immediate, which becomes the entry-point offset:
    the stub loads the method's entry point and jumps to it.  The bound is the
    signed range of the narrowest immediate (8 bits on x86 and x86-64). *)
Theorem trampoline_immediate cur ep :
  cur ∈ supported → 0 <= ep < 128 →
  let '(off, width) := dispatch_field cur in
  le_value (trampoline cur ep) = set_field (le_value (trampoline_template cur)) off width ep.
Proof.
  intros Hcur Hep.
  assert (∀ c, c ∈ supported → forallb (λ ep,
    let '(off, width) := dispatch_field c in
    le_value (trampoline c ep) =? set_field (le_value (trampoline_template c)) off width ep)
    (seqZ 0 128) = true) as H.
  { clear. unfold supported. intros c Hc.
    repeat (apply elem_of_cons in Hc as [->|Hc]; [by vm_compute|]). set_solver. }
  pose proof (seqZ_forallb _ _ ep (H cur Hcur) Hep) as He.
  destruct (dispatch_field cur). by apply Z.eqb_eq.
Qed.

Example trampoline_immediate_witness :
  kX86 ∈ supported ∧ 0 <= 0x1c < 128 ∧
  le_value (trampoline kX86 0x1c) = set_field (le_value (trampoline_template kX86)) 56 8 0x1c.
Proof.
  split; [unfold supported; set_solver|]. split; [done|].
  apply (trampoline_immediate kX86 0x1c ltac:(unfold supported; set_solver) ltac:(done)).
Defined.
