(* ===== verification/StubRaces.v ===== *)
(** * Switching a stub while it runs

    [SetHookEnabled] of [lsplant.cc] writes a self-contained stub again over itself
    with no thread stopped, and a thread may be running it.  The writer copies word
    by word, the thread fetches the three instructions that build the address of the
    method one by one; the steps of the two come in any order. *)

From S2P Require Import Prelude Memory Platform StubCode Trampoline.

(** Part [k] of an address: its 16 bits from bit 16 * k on. *)
Definition part (hook k : Z) : Z := Z.shiftr hook (16 * k) mod 2 ^ 16.

Definition join (p2 p1 p0 : Z) : Z := p2 * 2 ^ 32 + p1 * 2 ^ 16 + p0.

Lemma part_range hook k : 0 <= part hook k < 2 ^ 16.
Proof. apply Z.mod_pos_bound. lia. Qed.

Lemma join_parts hook : 0 <= hook < 2 ^ 48 → join (part hook 2) (part hook 1) (part hook 0) = hook.
Proof.
  intros H. unfold join, part. rewrite !Z.shiftr_div_pow2 by lia.
  change (2 ^ (16 * 2)) with 4294967296. change (2 ^ (16 * 1)) with 65536. change (2 ^ (16 * 0)) with 1.
  change (2 ^ 48) with 281474976710656 in H.
  change (2 ^ 32) with 4294967296. change (2 ^ 16) with 65536. dlia.
Qed.

Lemma part_join p2 p1 p0 :
  0 <= p2 < 2 ^ 16 → 0 <= p1 < 2 ^ 16 → 0 <= p0 < 2 ^ 16 →
  part (join p2 p1 p0) 2 = p2 ∧ part (join p2 p1 p0) 1 = p1 ∧ part (join p2 p1 p0) 0 = p0.
Proof.
  intros H2 H1 H0. unfold part, join. rewrite !Z.shiftr_div_pow2 by lia.
  change (2 ^ (16 * 2)) with 4294967296. change (2 ^ (16 * 1)) with 65536. change (2 ^ (16 * 0)) with 1.
  change (2 ^ 32) with 4294967296. change (2 ^ 16) with 65536 in *. split_and!; dlia.
Qed.

Section switch.
Context (ep address : Z) (old new : Z).
Hypothesis (Hold : 0 <= old < 2 ^ 48) (Hnew : 0 <= new < 2 ^ 48).

(** The memory, the next word to write, the next instruction to fetch, and the
    address built so far. *)
Record SwitchState := mkSwitch { switch_memory : mem; next_word : nat; next_insn : nat; built : Z }.

Inductive Turn : Type := Write | Fetch.

Definition word_bytes (k : nat) : list Z := take 4 (drop (4 * k) (optimized_trampoline ep new)).

Definition switch_step (s : SwitchState) (t : Turn) : SwitchState :=
  match t with
  | Write =>
      if bool_decide (next_word s < 5)%nat then
        mkSwitch (write_bytes (switch_memory s) (address + 4 * Z.of_nat (next_word s)) (word_bytes (next_word s)))
          (S (next_word s)) (next_insn s) (built s)
      else s
  | Fetch =>
      if bool_decide (next_insn s < 3)%nat then
        mkSwitch (switch_memory s) (next_word s) (S (next_insn s))
          (exec_move_wide (built s) (load (switch_memory s) 4 (address + 4 * Z.of_nat (next_insn s))))
      else s
  end.

Definition run_switch (schedule : list Turn) (m : mem) : SwitchState :=
  foldl switch_step (mkSwitch (write_bytes m address (optimized_trampoline ep old)) 0 0 0) schedule.

(** The word of the stub a step sees. *)
Definition word_of (renewed : bool) (k : nat) : Z :=
  get_word (optimized_trampoline ep (if renewed then new else old)) k.

Lemma length_word_bytes k : (k < 5)%nat → length (word_bytes k) = 4%nat.
Proof. intros Hk. unfold word_bytes. rewrite length_take, length_drop, length_optimized. lia. Qed.

Lemma word_bytes_bytes k : Forall is_byte (word_bytes k).
Proof. apply Forall_take, Forall_drop, optimized_bytes. Qed.

(** Words that are written are new, the others old; the address that is built comes
    from words that were one or the other when they were fetched. *)
Record switch_ok (s : SwitchState) : Prop := {
  ok_words k : (k < 5)%nat →
    load (switch_memory s) 4 (address + 4 * Z.of_nat k) = word_of (bool_decide (k < next_word s)%nat) k;
  ok_built : ∃ renewed, length renewed = next_insn s ∧
    built s = foldl exec_move_wide 0 (imap (λ k b, word_of b k) renewed);
  ok_next : (next_insn s <= 3)%nat;
}.

Lemma switch_write s : switch_ok s → switch_ok (switch_step s Write).
Proof.
  intros [Hw Hb Hn]. unfold switch_step. case_bool_decide as Hlt; [|by split]. split; cbn [switch_memory next_word next_insn built]; try done.
  intros k Hk. unfold load. destruct (decide (k = next_word s)) as [->|Hne].
  - rewrite bool_decide_eq_true_2 by lia. rewrite <-(length_word_bytes (next_word s) Hlt) at 1.
    rewrite read_write_same by apply word_bytes_bytes. done.
  - rewrite read_write_disjoint by (unfold disjoint_range; rewrite length_word_bytes by done; lia).
    specialize (Hw k Hk). unfold load in Hw. rewrite Hw. f_equal. apply bool_decide_ext. lia.
Qed.

Lemma switch_fetch s : switch_ok s → switch_ok (switch_step s Fetch).
Proof.
  intros [Hw (renewed & Hl & Hb) Hn]. unfold switch_step. case_bool_decide as Hlt; [|by split; eauto].
  split; cbn [switch_memory next_word next_insn built]; [done| |lia].
  exists (renewed ++ [bool_decide (next_insn s < next_word s)%nat]). split; [rewrite length_app; simpl; lia|].
  rewrite imap_app, foldl_app, <-Hb. cbn [imap foldl compose].
  unfold compose. by rewrite Nat.add_0_r, Hl, Hw by lia.
Qed.

Lemma run_switch_ok schedule m : switch_ok (run_switch schedule m).
Proof.
  unfold run_switch. set (s0 := mkSwitch _ _ _ _).
  assert (switch_ok s0) as H.
  { split; unfold s0; cbn [switch_memory next_word next_insn built]; [|by exists []|lia]. intros k Hk. rewrite bool_decide_eq_false_2 by lia.
    apply load_written_word; [apply optimized_bytes|]. rewrite length_optimized. lia. }
  revert H. generalize s0. induction schedule as [|[] schedule IH]; intros s Hs; simpl; [done|..]; apply IH.
  - by apply switch_write.
  - by apply switch_fetch.
Qed.

(** Three words, each of the old or the new stub, build the parts of their methods. *)
Lemma fetched_parts (b2 b1 b0 : bool) :
  foldl exec_move_wide 0 [word_of b2 0; word_of b1 1; word_of b0 2] =
    join (part (if b2 then new else old) 2) (part (if b1 then new else old) 1) (part (if b0 then new else old) 0).
Proof.
  set (h2 := if b2 then new else old). set (h1 := if b1 then new else old). set (h0 := if b0 then new else old).
  set (j := join (part h2 2) (part h1 1) (part h0 0)).
  destruct (part_join (part h2 2) (part h1 1) (part h0 0) (part_range _ _) (part_range _ _) (part_range _ _)) as (E2 & E1 & E0).
  fold j in E2, E1, E0.
  assert (0 <= j < 2 ^ 48) as Hj.
  { unfold j, join. pose proof (part_range h2 2). pose proof (part_range h1 1). pose proof (part_range h0 0).
    change (2 ^ 48) with (2 ^ 16 * 2 ^ 32). change (2 ^ 32) with (2 ^ 16 * 2 ^ 16). lia. }
  rewrite <-(move_wide_value j Hj). unfold word_of. fold h2 h1 h0.
  destruct (optimized_words ep h2) as (W & _), (optimized_words ep h1) as (_ & W1 & _), (optimized_words ep h0) as (_ & _ & W0).
  rewrite W, W1, W0. cbn [foldl]. rewrite !exec_move_wide_patched.
  change 0xFFFF with (Z.ones 16). rewrite !Z.land_ones by lia. rewrite !Zmod_mod.
  unfold part in E2, E1, E0. change (16 * 2) with 32 in E2. change (16 * 1) with 16 in E1.
  rewrite !Z.shiftr_0_r in E0.
  rewrite E2, E1, E0. done.
Qed.

(** When all words are written the stub passes control to the new method. *)
Lemma switch_done s :
  switch_ok s → next_word s = 5%nat → trampoline_target kArm64 (switch_memory s) address = new.
Proof using Hnew.
  intros [Hw _ _] Hn.
  assert (∀ k : nat, (k < 5)%nat → load (switch_memory s) 4 (address + 4 * Z.of_nat k) = word_of true k) as Hr.
  { intros k Hk. rewrite Hw, Hn, bool_decide_eq_true_2 by lia. done. }
  pose proof (Hr 0%nat ltac:(lia)) as H0. pose proof (Hr 1%nat ltac:(lia)) as H1. pose proof (Hr 2%nat ltac:(lia)) as H2.
  pose proof (Hr 3%nat ltac:(lia)) as H3. pose proof (Hr 4%nat ltac:(lia)) as H4.
  set (bs := stub_bytes kArm64 (switch_memory s) address).
  assert (∀ k : nat, (k < 5)%nat → get_word bs k = load (switch_memory s) 4 (address + 4 * Z.of_nat k)) as Hg.
  { intros k Hk. unfold get_word, load, bs, stub_bytes. rewrite drop_read, take_read; [f_equal; f_equal; lia|].
    change (Z.to_nat (kTrampolineSize kArm64)) with 20%nat. lia. }
  eapply (dispatches_target _ _ _ _ (dispatch_offset kArm64 ep)). unfold dispatches. fold bs.
  rewrite (move_wide_stub_runs bs ep new new new new);
    [|apply length_stub_bytes|by rewrite Hg, ?H0, ?H1, ?H2, ?H3, ?H4 by lia..].
  rewrite !Hg, H0, H1, H2 by lia.
  pose proof (fetched_parts true true true) as E. cbn [foldl] in E.
  rewrite E, join_parts by done. done.
Qed.

Lemma parts_same h h' : Z.shiftr h 16 = Z.shiftr h' 16 → part h 2 = part h' 2 ∧ part h 1 = part h' 1.
Proof.
  intros E. unfold part. change (16 * 2) with (16 + 16). rewrite <-!Z.shiftr_shiftr by lia.
  change (16 * 1) with 16. by rewrite E.
Qed.

(** C9: while a self-contained stub is switched from one method to another, a thread
    that runs it passes control to an address each 16-bit part of which is the old
    or the new method's, whatever the order of the two threads' steps; so it
    reaches one of the two methods where their addresses differ in the last part
    only, as those of methods in the same 64 KiB do. *)
Theorem switched_dispatch schedule m :
  let s := run_switch schedule m in
  next_insn s = 3%nat →
  (∀ k, k ∈ [0; 1; 2] → part (built s) k = part old k ∨ part (built s) k = part new k) ∧
  (Z.shiftr old 16 = Z.shiftr new 16 → built s = old ∨ built s = new).
Proof using Hold Hnew.
  intros s Hs. destruct (run_switch_ok schedule m) as [Hw (renewed & Hl & Hb) _]. fold s in Hl, Hb. rewrite Hs in Hl.
  destruct renewed as [|b2 [|b1 [|b0 [|]]]]; try done.
  change (built s = foldl exec_move_wide 0 [word_of b2 0; word_of b1 1; word_of b0 2]) in Hb.
  rewrite fetched_parts in Hb. rewrite Hb. split.
  - intros k Hk. match type of Hb with _ = join ?p2 ?p1 ?p0 =>
      destruct (part_join p2 p1 p0 (part_range _ _) (part_range _ _) (part_range _ _)) as (E2 & E1 & E0) end.
    rewrite !elem_of_cons, elem_of_nil in Hk. destruct Hk as [->|[->|[->|[]]]]; [rewrite E0; destruct b0
      |rewrite E1; destruct b1|rewrite E2; destruct b2]; auto.
  - intros E. destruct (parts_same old new E) as [P2 P1]. destruct b0; [right|left].
    + etransitivity; [|by apply (join_parts new)]. f_equal; [by destruct b2|by destruct b1].
    + etransitivity; [|by apply (join_parts old)]. f_equal; [by destruct b2|by destruct b1].
Qed.

(** A fetch executes the word that is there. *)
Lemma fetch_built s :
  switch_ok s → (next_insn s < 3)%nat →
  built (switch_step s Fetch) =
    exec_move_wide (built s) (word_of (bool_decide (next_insn s < next_word s)%nat) (next_insn s)).
Proof.
  intros [Hw _ _] Hlt. unfold switch_step. rewrite bool_decide_eq_true_2 by done. cbn [built]. by rewrite Hw by lia.
Qed.

(** The thread has fetched two instructions when the stub is written. *)
Definition torn : list Turn := [Fetch; Fetch; Write; Write; Write; Write; Write; Fetch].

(** Where the methods lie on two sides of a 64 KiB boundary, the thread can pass
    control to an address that is neither of them. *)
Theorem switch_torn m :
  part old 1 ≠ part new 1 → part old 0 ≠ part new 0 →
  let s := run_switch torn m in
  next_insn s = 3%nat ∧ next_word s = 5%nat ∧ built s = join (part old 2) (part old 1) (part new 0) ∧
  built s ≠ old ∧ built s ≠ new.
Proof using Hold Hnew.
  intros H1 H0 s.
  assert (built s = join (part old 2) (part old 1) (part new 0)) as Hb.
  { rewrite <-(fetched_parts false false true). cbn [foldl].
    assert (∀ l n, next_insn (run_switch l m) = n → (n < 3)%nat → built (switch_step (run_switch l m) Fetch) =
      exec_move_wide (built (run_switch l m)) (word_of (bool_decide (n < next_word (run_switch l m))%nat) n)) as Hf.
    { intros l n <- Hn. apply fetch_built; [apply run_switch_ok|done]. }
    transitivity (exec_move_wide (built (run_switch [Fetch; Fetch] m)) (word_of true 2)).
    { exact (Hf [Fetch; Fetch; Write; Write; Write; Write; Write] 2%nat eq_refl ltac:(lia)). }
    f_equal. transitivity (exec_move_wide (built (run_switch [Fetch] m)) (word_of false 1)).
    { exact (Hf [Fetch] 1%nat eq_refl ltac:(lia)). }
    f_equal. exact (Hf [] 0%nat eq_refl ltac:(lia)). }
  split_and!; [done|done|done|..]; rewrite Hb; intros E;
    destruct (part_join (part old 2) (part old 1) (part new 0) (part_range _ _) (part_range _ _) (part_range _ _))
      as (E2 & E1 & E0); rewrite E in *; congruence.
Qed.
End switch.

(** ** Concrete methods *)

(** A hook and a backup that are neighbours, and ones on two sides of a boundary. *)
Example switched_dispatch_witness :
  built (run_switch 24 0x9000 0x7f001000 0x7f001030 torn (λ _, 0)) = 0x7f001030.
Proof.
  destruct (switched_dispatch 24 0x9000 0x7f001000 0x7f001030 ltac:(lia) ltac:(lia) torn (λ _, 0) eq_refl) as [_ [H|H]];
    [done|by vm_compute in H|exact H].
Defined.

Example switch_torn_witness : built (run_switch 24 0x9000 0x7f00fff0 0x7f010020 torn (λ _, 0)) = 0x7f000020.
Proof.
  destruct (switch_torn 24 0x9000 0x7f00fff0 0x7f010020 ltac:(lia) ltac:(lia) (λ _, 0) ltac:(by vm_compute)
    ltac:(by vm_compute)) as (_ & _ & H & _). rewrite H. reflexivity.
Defined.
