(* ===== verification/TrampolinePool.v ===== *)
(** * The trampoline pool

    [GenerateTrampolineFor] of [lsplant.cc] as a transition system: any number
    of threads call it at once, and each of its atomic operations
    ([fetch_add], [test_and_set], [wait], [mmap], the publishing [store],
    [clear], and the section under [trampoline_protect_lock]) is one step.
    The theorems: while [mmap] succeeds no two calls are given overlapping
    stubs and the packed counter does not overflow into the page address;
    whatever [mmap] and [mprotect] answer, a waiting thread waits for one that
    can run and frees the lock; repeated failures of [mmap] do make the
    counter overflow ([count_overflows_into_page]). *)

From S2P Require Import Prelude Memory Platform StubCode Trampoline.

(** ** [union Trampoline] *)

Section pool.
Context (cur : Arch) (ep_offset : Z) (kPageSize : Z).

(** The width of the count member in use: [count16k] or [count4k]. *)
Definition count_bits : Z := if kPageSize =? 16384 then 14 else 12.
Definition count_of (tl : Z) : Z := get_field tl 0 count_bits.
Definition with_count (tl v : Z) : Z := set_field tl 0 count_bits v.
Definition page_of (tl : Z) : Z := align_down tl kPageSize.

Definition kTrampolineNumPerPage : Z := kPageSize / kTrampolineSize cur.

(** ** The operating system *)

Inductive mmap_call : Type := MmapFile (fd offset : Z) | MmapAnonymous.

(** The answers one step may get: the descriptor of [open], the offset of
    [lseek], the address of [mmap] ([None] for [MAP_FAILED]), whether
    [mprotect] succeeds, and the hook a new call is made for. *)
Record Answers := {
  os_fd : Z;
  os_lseek : Z;
  os_mmap : mmap_call → option Z;
  os_mprotect : bool;
  next_hook : Z;
}.

(** The page a lock owner maps. *)
Definition MapPage (r : Answers) : option Z :=
  if 0 <? os_fd r then
    let offset := if 0 <? os_lseek r then align_down (os_lseek r) kPageSize else 0 in
    match os_mmap r (MmapFile (os_fd r) offset) with
    | Some address => Some address
    | None => os_mmap r MmapAnonymous
    end
  else os_mmap r MmapAnonymous.

(** ** Threads *)

(** Where a thread is in [GenerateTrampolineFor]. *)
Inductive Pc : Type :=
  | Idle
  | FetchAdd (hook : Z)
  | TestAndSet (hook : Z)
  | Waiting (hook : Z)
  | Mapping (hook : Z)
  | Publish (hook address : Z)
  | Unlock (hook : Z) (address : option Z)
  | Protect (hook address : Z).

(** [issued] lists the stub addresses given out, [mapped] the pages [mmap]
    returned, [returned] the hooks and results of the calls that ended, all
    newest first. *)
Record State := mkState {
  trampoline_pool : Z;
  trampoline_lock : bool;
  memory : mem;
  threads : list Pc;
  mapped : list Z;
  issued : list Z;
  returned : list (Z * option (Z * Z));
}.

Definition initial_state (m : mem) (n : nat) : State :=
  mkState 0 false m (repeat Idle n) [] [] [].

Definition goto (i : nat) (pc : Pc) (s : State) : State :=
  mkState (trampoline_pool s) (trampoline_lock s) (memory s) (<[i:=pc]> (threads s))
    (mapped s) (issued s) (returned s).
Definition set_pool (v : Z) (s : State) : State :=
  mkState v (trampoline_lock s) (memory s) (threads s) (mapped s) (issued s) (returned s).
Definition set_lock (v : bool) (s : State) : State :=
  mkState (trampoline_pool s) v (memory s) (threads s) (mapped s) (issued s) (returned s).
Definition set_memory (v : mem) (s : State) : State :=
  mkState (trampoline_pool s) (trampoline_lock s) v (threads s) (mapped s) (issued s) (returned s).
Definition add_mapped (p : Z) (s : State) : State :=
  mkState (trampoline_pool s) (trampoline_lock s) (memory s) (threads s) (p :: mapped s)
    (issued s) (returned s).
Definition issue (a : Z) (s : State) : State :=
  mkState (trampoline_pool s) (trampoline_lock s) (memory s) (threads s) (mapped s)
    (a :: issued s) (returned s).
Definition return_ (v : Z * option (Z * Z)) (s : State) : State :=
  mkState (trampoline_pool s) (trampoline_lock s) (memory s) (threads s) (mapped s)
    (issued s) (v :: returned s).

(** The next atomic operation of thread [i]; [None] when it has to wait. *)
Definition step (r : Answers) (i : nat) (s : State) : option State :=
  match threads s !! i with
  | None => None
  | Some Idle => Some (goto i (FetchAdd (next_hook r)) s)
  | Some (FetchAdd hook) =>
      let tl := trampoline_pool s in
      let s := set_pool (wrap (kPointerBits cur) (tl + 1)) s in
      let count := count_of tl in
      let address := page_of tl in
      if (address =? 0) || (kTrampolineNumPerPage <=? count) then
        Some (goto i (TestAndSet hook) s)
      else
        let address := address + count * kTrampolineSize cur in
        Some (goto i (Protect hook address) (issue address s))
  | Some (TestAndSet hook) =>
      if trampoline_lock s then Some (goto i (Waiting hook) s)
      else Some (goto i (Mapping hook) (set_lock true s))
  | Some (Waiting hook) =>
      if trampoline_lock s then None else Some (goto i (FetchAdd hook) s)
  | Some (Mapping hook) =>
      match MapPage r with
      | None => Some (goto i (Unlock hook None) s)
      | Some address => Some (goto i (Publish hook address) (add_mapped address s))
      end
  | Some (Publish hook address) =>
      Some (goto i (Unlock hook (Some address))
              (issue address (set_pool (with_count address 1) s)))
  | Some (Unlock hook result) =>
      let s := set_lock false s in
      match result with
      | None => Some (goto i Idle (return_ (hook, None) s))
      | Some address => Some (goto i (Protect hook address) s)
      end
  | Some (Protect hook address) =>
      if negb (page_of address =? 0) && negb (os_mprotect r) then
        Some (goto i Idle (return_ (hook, None) s))
      else
        let '(m, entry_slot) := WriteTrampoline cur ep_offset (memory s) address hook in
        Some (goto i Idle (return_ (hook, Some (address, entry_slot)) (set_memory m s)))
  end.

(** [mmap] returns a fresh page that is not the null page, and hooks are
    pointers. *)
Definition answers_ok (s : State) (r : Answers) : Prop :=
  (∀ call p, os_mmap r call = Some p →
    0 < p ∧ (kPageSize | p) ∧ p + kPageSize <= 2 ^ kPointerBits cur ∧ p ∉ mapped s) ∧
  0 <= next_hook r < 2 ^ kPointerBits cur.

(** One step of some thread. *)
Definition steps_to (s s' : State) : Prop :=
  ∃ r i, answers_ok s r ∧ step r i s = Some s'.

(** The count has room for one more [fetch_add]. *)
Definition room (s : State) : Prop := count_of (trampoline_pool s) + 1 < 2 ^ count_bits.

(** ** Stub addresses *)

(** The addresses a thread holds, and those that calls returned. *)
Definition held (pc : Pc) : list Z :=
  match pc with Unlock _ (Some a) | Protect _ a => [a] | _ => [] end.
Definition returned_address (r : Z * option (Z * Z)) : list Z :=
  match r.2 with Some (a, _) => [a] | None => [] end.
Definition live (s : State) : list Z :=
  flat_map held (threads s) ++ flat_map returned_address (returned s).

Definition pc_hook (pc : Pc) : option Z :=
  match pc with
  | Idle => None
  | FetchAdd h | TestAndSet h | Waiting h | Mapping h | Publish h _ | Unlock h _
  | Protect h _ => Some h
  end.

Definition owner (pc : Pc) : bool :=
  match pc with Mapping _ | Publish _ _ | Unlock _ _ => true | _ => false end.

(** ** Lemmas *)

Hypothesis cur_supported : cur ∈ supported.
Hypothesis page_size_4k_16k : kPageSize = 4096 ∨ kPageSize = 16384.

Abbreviation ts := (kTrampolineSize cur).
Abbreviation N := kTrampolineNumPerPage.

Lemma page_size_bits : kPageSize = 2 ^ count_bits ∧ 0 <= count_bits.
Proof. unfold count_bits. destruct page_size_4k_16k as [-> | ->]; done. Qed.

Lemma page_size_pos : 0 < kPageSize.
Proof. destruct page_size_4k_16k; lia. Qed.

Lemma stub_sizes : 8 < ts ∧ 0 < N ∧ N * ts <= kPageSize ∧ N < kPageSize.
Proof.
  unfold N. assert (ts ∈ [20; 12; 10; 14; 22]) as Hts.
  { unfold supported in cur_supported. revert cur_supported. generalize cur. clear.
    intros c Hc. repeat (apply elem_of_cons in Hc as [->|Hc]; [vm_compute; set_solver|]).
    set_solver. }
  repeat (apply elem_of_cons in Hts as [->|Hts];
    [destruct page_size_4k_16k as [-> | ->]; vm_compute; done|]).
  set_solver.
Qed.

Lemma count_of_mod tl : count_of tl = tl mod kPageSize.
Proof.
  unfold count_of, get_field. destruct page_size_bits as [-> ?].
  by rewrite Z.shiftr_0_r, Z.land_ones.
Qed.

Lemma page_of_mod tl : page_of tl = tl - tl mod kPageSize.
Proof. unfold page_of. destruct page_size_bits as [-> ?]. by apply align_down_mod. Qed.

Lemma with_count_1 p : (kPageSize | p) → with_count p 1 = p + 1.
Proof.
  intros [q ->]. unfold with_count, set_field. destruct page_size_bits as [Hp Hb].
  rewrite Z.shiftl_0_r, Z.ldiff_ones_r, Z.shiftl_0_r by done.
  rewrite (Z.mod_small 1) by (rewrite <-Hp; destruct page_size_4k_16k; lia).
  rewrite Z.shiftr_div_pow2, Z.shiftl_mul_pow2, <-Hp by done.
  rewrite Z.div_mul by (pose proof page_size_pos; lia).
  assert (Z.land (q * kPageSize) 1 = 0) as Hl.
  { rewrite Z.land_comm. change 1 with (Z.ones 1). rewrite Z.land_comm, Z.land_ones by lia.
    destruct page_size_4k_16k as [-> | ->]; dlia. }
  by rewrite Z.add_nocarry_lxor, Z.lxor_lor.
Qed.

(** An address [o] bytes into a page. *)
Lemma page_offset p o :
  (kPageSize | p) → 0 <= o < kPageSize → page_of (p + o) = p ∧ count_of (p + o) = o.
Proof.
  intros [q ->] Ho. rewrite page_of_mod, count_of_mod.
  rewrite Z.add_comm, Z.mod_add, Z.mod_small by lia. lia.
Qed.

Lemma page_count tl : tl = page_of tl + count_of tl ∧ 0 <= count_of tl < kPageSize.
Proof.
  rewrite page_of_mod, count_of_mod. pose proof page_size_pos.
  pose proof (Z.mod_pos_bound tl kPageSize). lia.
Qed.

Lemma page_of_divide tl : (kPageSize | page_of tl).
Proof.
  rewrite page_of_mod. exists (tl / kPageSize).
  pose proof page_size_pos. pose proof (Z.div_mod tl kPageSize). lia.
Qed.

Lemma stub_offset c : 0 <= c < N → 0 <= c * ts ∧ c * ts + ts <= kPageSize.
Proof. pose proof stub_sizes. nia. Qed.

(** *** The invariant *)

Definition on_pages (s : State) : Prop :=
  Forall (λ p, 0 < p ∧ (kPageSize | p) ∧ p + kPageSize <= 2 ^ kPointerBits cur) (mapped s).

(** A stub is at index [c] of a mapped page; on the pool's page its index has
    been counted. *)
Definition stub_ok (s : State) (a : Z) : Prop :=
  ∃ p c, p ∈ mapped s ∧ a = p + c * ts ∧ 0 <= c < N ∧
    (page_of (trampoline_pool s) = p → c < count_of (trampoline_pool s)).

Definition pool_page_ok (s : State) : Prop :=
  page_of (trampoline_pool s) = 0 ∨ page_of (trampoline_pool s) ∈ mapped s.

(** A page that is mapped but not published is nobody's yet. *)
Definition unpublished (s : State) (pc : Pc) : Prop :=
  match pc with
  | Publish _ p => p ∈ mapped s ∧ page_of (trampoline_pool s) ≠ p ∧
                   Forall (λ a, page_of a ≠ p) (issued s)
  | _ => True
  end.

Record pool_inv (s : State) : Prop := {
  inv_range : 0 <= trampoline_pool s;
  inv_pages : on_pages s;
  inv_pool : pool_page_ok s;
  inv_issued : Forall (stub_ok s) (issued s);
  inv_nodup : NoDup (issued s);
  inv_unpublished : Forall (unpublished s) (threads s);
  inv_owner : count_if owner (threads s) = if trampoline_lock s then 1 else 0;
  inv_live : live s ⊆+ issued s;
}.

Lemma page_ok s p :
  on_pages s → p ∈ mapped s →
  0 < p ∧ (kPageSize | p) ∧ p + kPageSize <= 2 ^ kPointerBits cur.
Proof. unfold on_pages. rewrite Forall_forall. auto. Qed.

Lemma stub_page s a : on_pages s → stub_ok s a → page_of a ∈ mapped s ∧
  ∃ c, a = page_of a + c * ts ∧ 0 <= c < N.
Proof.
  intros Hp (p & c & Hm & -> & Hc & _). destruct (page_ok s p Hp Hm) as (_ & Hd & _). pose proof (stub_offset c Hc).
  pose proof stub_sizes. destruct (page_offset p (c * ts) Hd) as [-> _]; [lia|]. eauto.
Qed.

(** Two different stubs do not overlap. *)
Lemma stubs_disjoint s a b :
  on_pages s → stub_ok s a → stub_ok s b → a ≠ b → a + ts <= b ∨ b + ts <= a.
Proof.
  intros Hp Ha Hb Hab. apply stub_page in Ha as (_ & c & Ea & Hc), Hb as (_ & d & Eb & Hd);
    [|done..].
  pose proof (stub_offset c Hc). pose proof (stub_offset d Hd).
  destruct (page_of_divide a) as [q Hq], (page_of_divide b) as [r Hr].
  rewrite Hq in Ea. rewrite Hr in Eb. pose proof stub_sizes.
  destruct (Z.lt_trichotomy q r) as [|[->|]].
  - left. nia.
  - destruct (Z.lt_trichotomy c d) as [|[->|]]; [left; nia|lia|right; nia].
  - right. nia.
Qed.

Lemma stub_in_memory s a : on_pages s → stub_ok s a → 0 < a ∧ a + ts <= 2 ^ kPointerBits cur.
Proof.
  intros Hp Ha. pose proof (stub_page s a Hp Ha) as (Hm & c & Ea & Hc).
  pose proof (page_ok s _ Hp Hm). pose proof (stub_offset c Hc). lia.
Qed.

(** *** Lists of threads *)

Lemma held_split (l : list Pc) i pc :
  l !! i = Some pc →
  ∃ rest, flat_map held l ≡ₚ held pc ++ rest ∧
    ∀ pc', flat_map held (<[i:=pc']> l) ≡ₚ held pc' ++ rest.
Proof.
  intros Hi. exists (flat_map held (take i l) ++ flat_map held (drop (S i) l)). split.
  - rewrite <-(take_drop_middle l i pc Hi) at 1. rewrite flat_map_app. simpl. solve_Permutation.
  - intros pc'. rewrite insert_take_drop by eauto using lookup_lt_Some.
    rewrite flat_map_app. simpl. solve_Permutation.
Qed.

(** What a step adds to the live addresses: at most the newly issued ones. *)
Lemma live_move s i pc pc' new extra pool' lock' m' pages' issued' :
  threads s !! i = Some pc →
  flat_map returned_address new ++ held pc' ⊆+ held pc ++ extra →
  live s ⊆+ issued s →
  live (mkState pool' lock' m' (<[i:=pc']> (threads s)) pages' issued' (new ++ returned s))
    ⊆+ extra ++ issued s.
Proof.
  intros Hi Hh Hl. transitivity (extra ++ live s); [|by apply submseteq_skips_l].
  destruct (held_split _ i pc Hi) as (rest & E & E'). unfold live. simpl.
  rewrite flat_map_app, E, E'.
  transitivity ((flat_map returned_address new ++ held pc') ++
    (rest ++ flat_map returned_address (returned s))).
  { apply Permutation_submseteq. solve_Permutation. }
  transitivity ((held pc ++ extra) ++ (rest ++ flat_map returned_address (returned s))).
  { by apply submseteq_skips_r. }
  apply Permutation_submseteq. solve_Permutation.
Qed.

(** *** Preservation *)

(** A step that issues nothing and leaves the pool alone. *)
Lemma inv_move s i pc pc' (lock' : bool) m' new :
  pool_inv s → threads s !! i = Some pc → unpublished s pc' →
  (if lock' then 1 else 0) =
    (if trampoline_lock s then 1 else 0) - (if owner pc then 1 else 0) +
    (if owner pc' then 1 else 0) →
  flat_map returned_address new ++ held pc' ⊆+ held pc →
  pool_inv (mkState (trampoline_pool s) lock' m' (<[i:=pc']> (threads s)) (mapped s) (issued s)
              (new ++ returned s)).
Proof.
  intros [] Hi Hu Ho Hh. split; simpl; try done.
  - by apply Forall_insert.
  - rewrite (count_if_insert _ _ _ _ _ Hi). lia.
  - apply (live_move s i pc pc' new []); [done| |done]. by rewrite app_nil_r.
Qed.

(** A step that gives out a stub. *)
Lemma inv_issue s i pc pc' a :
  pool_inv s → threads s !! i = Some pc → owner pc' = owner pc →
  held pc' ⊆+ held pc ++ [a] → match pc' with Publish _ _ => False | _ => True end →
  stub_ok s a → a ∉ issued s →
  Forall (λ q, ∀ h p, q = Publish h p → page_of a ≠ p) (threads s) →
  pool_inv (goto i pc' (issue a s)).
Proof.
  intros [] Hi Ho Hh Hpub Ha Hfresh Hq. split; simpl; try done.
  - by constructor.
  - by constructor.
  - apply Forall_insert; [|by destruct pc'].
    rewrite Forall_forall in Hq, inv_unpublished0 |- *. intros q Hin.
    specialize (inv_unpublished0 q Hin). specialize (Hq q Hin). destruct q; try done.
    destruct inv_unpublished0 as (? & ? & ?). split_and!; [done..|]. constructor; eauto.
  - rewrite (count_if_insert _ _ _ _ _ Hi), Ho. lia.
  - by apply (live_move s i pc pc' [] [a]).
Qed.

(** [fetch_add] while there is room counts one more stub of the same page. *)
Lemma tick_pool s :
  pool_inv s → room s →
  let v := wrap (kPointerBits cur) (trampoline_pool s + 1) in
  page_of v = page_of (trampoline_pool s) ∧ count_of v = count_of (trampoline_pool s) + 1.
Proof.
  intros [] Hr. unfold room in Hr. destruct page_size_bits as [Hps _]. rewrite <-Hps in Hr.
  destruct (page_count (trampoline_pool s)) as [Ep Hc]. pose proof page_size_pos.
  rewrite wrap_small.
  - replace (trampoline_pool s + 1) with
      (page_of (trampoline_pool s) + (count_of (trampoline_pool s) + 1)) by lia.
    apply page_offset; [apply page_of_divide|lia].
  - assert (page_of (trampoline_pool s) + kPageSize <= 2 ^ kPointerBits cur); [|lia].
    destruct inv_pool0 as [E|Hin]; [|by destruct (page_ok s _ inv_pages0 Hin) as (_ & _ & ?)].
    rewrite E. destruct page_size_4k_16k as [-> | ->]; destruct cur; vm_compute; done.
Qed.

Lemma inv_tick s :
  pool_inv s → room s →
  pool_inv (set_pool (wrap (kPointerBits cur) (trampoline_pool s + 1)) s).
Proof.
  intros Hs Hr. destruct (tick_pool s Hs Hr) as [Ep Ec]. destruct Hs. split; simpl; try done.
  - apply wrap_range. pose proof (kPointerBits_pos cur). lia.
  - unfold pool_page_ok. simpl. by rewrite Ep.
  - eapply Forall_impl; [done|]. intros a (p & c & ? & ? & ? & Hcount).
    exists p, c. simpl. rewrite Ep, Ec. split_and!; try done; try lia.
  - eapply Forall_impl; [done|]. intros [] Hu; try done. simpl in *. by rewrite Ep.
Qed.

(** Mapping a page. *)
Lemma inv_map s i h p :
  pool_inv s → threads s !! i = Some (Mapping h) →
  0 < p ∧ (kPageSize | p) ∧ p + kPageSize <= 2 ^ kPointerBits cur → p ∉ mapped s →
  pool_inv (goto i (Publish h p) (add_mapped p s)).
Proof.
  intros [] Hi Hp Hfresh. split; simpl; try done.
  - by constructor.
  - unfold pool_page_ok in *. simpl. destruct inv_pool0; [by left|right; by constructor].
  - eapply Forall_impl; [done|]. intros a (q & c & ? & ?). exists q, c. simpl.
    split; [by constructor|done].
  - apply Forall_insert.
    + eapply Forall_impl; [done|]. intros [] Hu; try done. simpl in *.
      destruct Hu as (? & ? & ?). split_and!; [by constructor|done..].
    + simpl. split_and!; [by constructor| |].
      * destruct inv_pool0 as [->|Hin]; [lia|congruence].
      * eapply Forall_impl; [done|]. intros a Ha E.
        pose proof (stub_page s a inv_pages0 Ha) as [Hin _]. congruence.
  - rewrite (count_if_insert _ _ _ _ _ Hi). simpl. lia.
  - by apply (live_move s i (Mapping h) (Publish h p) [] []).
Qed.

(** Publishing a page nothing was issued on. *)
Lemma inv_publish s p :
  pool_inv s → p ∈ mapped s → Forall (λ a, page_of a ≠ p) (issued s) →
  Forall (λ q, match q with Publish _ _ => False | _ => True end) (threads s) →
  pool_inv (set_pool (p + 1) s).
Proof.
  intros [] Hp Hno Hq. pose proof (page_ok s p inv_pages0 Hp) as (? & Hd & ?).
  destruct (page_offset p 1 Hd) as [Ep Ec]; [destruct page_size_4k_16k; lia|].
  split; simpl; try done.
  - lia.
  - right. simpl. by rewrite Ep.
  - rewrite Forall_forall in inv_issued0, Hno |- *. intros a Ha.
    pose proof (inv_issued0 a Ha) as Hok. destruct Hok as (q & c & Hqm & Ea & Hc & Hcount).
    exists q, c. simpl. split_and!; try done; try lia.
    intros E. rewrite Ep in E. subst q. destruct (Hno a Ha).
    pose proof (stub_offset c Hc). pose proof stub_sizes. subst a.
    destruct (page_offset p (c * ts) Hd) as [-> _]; [lia|done].
  - eapply Forall_impl; [done|]. by intros [].
Qed.

Lemma owner_unique s i j pc pc' :
  pool_inv s → threads s !! i = Some pc → threads s !! j = Some pc' →
  owner pc = true → owner pc' = true → i = j ∧ trampoline_lock s = true.
Proof.
  intros [] Hi Hj Ho Ho'. pose proof (count_if_lookup owner _ _ _ Hi Ho).
  destruct (trampoline_lock s); [|lia]. split; [|done].
  destruct (decide (i = j)) as [|Hij]; [done|].
  pose proof (count_if_two owner _ _ _ _ _ Hij Hi Hj Ho Ho'). lia.
Qed.

Lemma pool_inv_publish s i h p :
  pool_inv s → threads s !! i = Some (Publish h p) →
  pool_inv (goto i (Unlock h (Some p)) (issue p (set_pool (with_count p 1) s))).
Proof.
  intros Hs Hi. pose proof (inv_unpublished s Hs) as Hu. rewrite Forall_lookup in Hu.
  destruct (Hu _ _ Hi) as (Hp & _ & Hno).
  pose proof (page_ok s p (inv_pages s Hs) Hp) as (Hpos & Hd & _).
  destruct (page_offset p 0 Hd) as [E0 _]; [pose proof page_size_pos; lia|].
  rewrite Z.add_0_r in E0. rewrite with_count_1 by done.
  destruct (owner_unique s i i _ _ Hs Hi Hi) as [_ Hlock]; [done..|].
  pose proof (lookup_lt_Some _ _ _ Hi) as Hlt.
  set (s1 := goto i (Unlock h None) s).
  assert (pool_inv s1) as H1.
  { apply (inv_move s i (Publish h p) (Unlock h None) (trampoline_lock s) (memory s) []);
      try done. by rewrite Hlock. }
  assert (Forall (λ q, match q with Publish _ _ => False | _ => True end) (threads s1)) as Hq.
  { apply Forall_lookup. intros j q Hj. simpl in Hj. destruct q as [| | | | |h' p'| |]; try done.
    destruct (decide (i = j)) as [<-|Hij].
    - by rewrite list_lookup_insert_eq in Hj.
    - rewrite list_lookup_insert_ne in Hj by done.
      by destruct (owner_unique s i j _ _ Hs Hi Hj). }
  assert (pool_inv (set_pool (p + 1) s1)) as H2 by by apply inv_publish.
  replace (goto i (Unlock h (Some p)) (issue p (set_pool (p + 1) s)))
    with (goto i (Unlock h (Some p)) (issue p (set_pool (p + 1) s1)))
    by (unfold s1, goto; simpl; by rewrite list_insert_insert_eq).
  apply (inv_issue _ i (Unlock h None)); try done.
  - by apply list_lookup_insert_eq.
  - exists p, 0. simpl. pose proof stub_sizes.
    destruct (page_offset p 1 Hd) as [_ ->]; [lia|]. split_and!; try done; lia.
  - intros Hin. rewrite Forall_forall in Hno. by apply (Hno p Hin).
  - eapply Forall_impl; [done|]. by intros [] ? ? ?.
Qed.

Lemma pool_inv_take s i h :
  pool_inv s → room s → threads s !! i = Some (FetchAdd h) →
  page_of (trampoline_pool s) ≠ 0 → count_of (trampoline_pool s) < N →
  let a := page_of (trampoline_pool s) + count_of (trampoline_pool s) * ts in
  pool_inv (goto i (Protect h a)
    (issue a (set_pool (wrap (kPointerBits cur) (trampoline_pool s + 1)) s))).
Proof.
  intros Hs Hr Hi HP Hc a. pose proof (inv_tick s Hs Hr) as Ht.
  destruct (tick_pool s Hs Hr) as [Ep Ec].
  pose proof (page_count (trampoline_pool s)) as [_ Hc0].
  assert (page_of (trampoline_pool s) ∈ mapped s) as Hm by by destruct (inv_pool s Hs).
  assert (page_of a = page_of (trampoline_pool s)) as Ea.
  { apply page_offset; [apply page_of_divide|].
    pose proof (stub_offset (count_of (trampoline_pool s))). pose proof stub_sizes. lia. }
  apply (inv_issue _ i (FetchAdd h)); try done.
  - exists (page_of (trampoline_pool s)), (count_of (trampoline_pool s)). simpl.
    rewrite Ec. split_and!; try done; lia.
  - simpl. intros Hin. pose proof (inv_issued s Hs) as Hall. rewrite Forall_forall in Hall.
    destruct (Hall a Hin) as (q & c & Hq & Eq & Hc' & Hcount).
    pose proof (page_ok s q (inv_pages s Hs) Hq) as (_ & Hd & _).
    pose proof (stub_offset c Hc'). pose proof stub_sizes.
    destruct (page_offset q (c * ts) Hd) as [E _]; [lia|].
    assert (q = page_of (trampoline_pool s)) as -> by congruence.
    specialize (Hcount eq_refl). unfold a in Eq. nia.
  - simpl. eapply Forall_impl; [apply (inv_unpublished s Hs)|].
    intros q Hq ? ? ->. rewrite Ea. by destruct Hq as (_ & ? & _).
Qed.

Lemma pool_inv_step s s' :
  pool_inv s → room s → steps_to s s' → pool_inv s'.
Proof.
  intros Hs Hr (r & i & [Hmap _] & Hstep). unfold step in Hstep.
  destruct (threads s !! i) as [pc|] eqn:Hi; [|done].
  destruct pc as [|h|h|h|h|h p|h res|h a]; simplify_eq/=.
  - by apply (inv_move s i Idle _ (trampoline_lock s) (memory s) []); try done; simpl; lia.
  - destruct (_ || _) eqn:E; simplify_eq/=.
    + apply (inv_move (set_pool _ s) i (FetchAdd h) _ (trampoline_lock s) (memory s) []);
        try done; [by apply inv_tick|simpl; lia].
    + apply orb_false_iff in E as [?%Z.eqb_neq ?%Z.leb_gt]. by apply pool_inv_take.
  - destruct (trampoline_lock s) eqn:El; simplify_eq/=.
    + apply (inv_move s i (TestAndSet h) _ (trampoline_lock s) (memory s) []); try done.
      simpl; lia.
    + apply (inv_move s i (TestAndSet h) _ true (memory s) []); try done. by rewrite El.
  - destruct (trampoline_lock s) eqn:El; simplify_eq/=.
    apply (inv_move s i (Waiting h) _ (trampoline_lock s) (memory s) []); try done. simpl; lia.
  - destruct (owner_unique s i i _ _ Hs Hi Hi) as [_ Hl]; [done..|].
    destruct (MapPage r) as [p|] eqn:Ep; simplify_eq/=.
    + assert (∃ call, os_mmap r call = Some p) as [call Hcall].
      { unfold MapPage in Ep. repeat case_match; simplify_eq; eauto. }
      destruct (Hmap call p Hcall) as (? & ? & ? & ?). by eapply inv_map.
    + apply (inv_move s i (Mapping h) _ (trampoline_lock s) (memory s) []); try done.
      simpl; lia.
  - by apply pool_inv_publish.
  - destruct (owner_unique s i i _ _ Hs Hi Hi) as [_ Hl]; [done..|].
    destruct res as [a|]; simplify_eq/=.
    + apply (inv_move s i (Unlock h (Some a)) _ false (memory s) []); try done. by rewrite Hl.
    + apply (inv_move s i (Unlock h None) _ false (memory s) [(h, None)]); try done.
      by rewrite Hl.
  - case_match; simplify_eq/=.
    + apply (inv_move s i (Protect h a) _ (trampoline_lock s) (memory s) [(h, None)]); try done.
      * simpl; lia.
      * by apply submseteq_nil_l.
    + destruct (WriteTrampoline _ _ _ _ _) as [m slot]. simplify_eq/=.
      apply (inv_move s i (Protect h a) _ (trampoline_lock s) m [(h, Some (a, slot))]); try done.
      simpl; lia.
Qed.

(** *** Stubs stay intact *)

Definition hook_ok (pc : Pc) : Prop :=
  match pc_hook pc with Some h => 0 <= h < 2 ^ kPointerBits cur | None => True end.

(** A returned stub still dispatches to the hook it was made for. *)
Definition intact (m : mem) (r : Z * option (Z * Z)) : Prop :=
  match r.2 with Some (a, _) => trampoline_target cur m a = r.1 | None => True end.

Record stubs_inv (s : State) : Prop := {
  inv_hooks : Forall hook_ok (threads s);
  inv_intact : Forall (intact (memory s)) (returned s);
}.

Lemma live_NoDup s : pool_inv s → NoDup (live s).
Proof. intros []. by eapply submseteq_NoDup. Qed.

Lemma live_stub_ok s a : pool_inv s → a ∈ live s → stub_ok s a.
Proof.
  intros [] Ha. rewrite Forall_forall in inv_issued0. apply inv_issued0.
  by eapply elem_of_submseteq.
Qed.

Lemma elem_of_flat_map_lookup {A B} (f : A → list B) l i x b :
  l !! i = Some x → b ∈ f x → b ∈ flat_map f l.
Proof.
  revert i. induction l as [|z l IH]; intros [|i] Hi Hb; simplify_eq/=;
    apply elem_of_app; eauto.
Qed.

Lemma intact_write s i h a :
  pool_inv s → stubs_inv s → threads s !! i = Some (Protect h a) →
  Forall (intact (WriteTrampoline cur ep_offset (memory s) a h).1) (returned s).
Proof.
  intros Hs [Hh Hall] Hi. rewrite Forall_lookup in Hh. pose proof (Hh _ _ Hi) as Hhook.
  rewrite Forall_lookup in Hall |- *. intros j r Hj. specialize (Hall j r Hj).
  unfold intact in *. destruct (r.2) as [[b slot]|] eqn:Er; [|done].
  pose proof (WriteTrampoline_frame cur ep_offset (memory s) a h cur_supported Hhook) as Hframe.
  rewrite <-Hall. apply trampoline_target_ext. intros x Hx. apply Hframe.
  pose proof (live_NoDup s Hs) as Hnd. apply NoDup_app in Hnd as (_ & Hdis & _).
  assert (a ∈ flat_map held (threads s)) as Ha.
  { eapply elem_of_flat_map_lookup; [done|]. by apply list_elem_of_singleton. }
  assert (b ∈ flat_map returned_address (returned s)) as Hb.
  { eapply elem_of_flat_map_lookup; [done|]. unfold returned_address. rewrite Er.
    by apply list_elem_of_singleton. }
  assert (a ≠ b) as Hab by (intros ->; by apply (Hdis b)).
  destruct (stubs_disjoint s a b (inv_pages s Hs)); [..|done|lia|lia];
    apply live_stub_ok; try done; apply elem_of_app; auto.
Qed.

Lemma stubs_inv_step s s' :
  pool_inv s → stubs_inv s → steps_to s s' → stubs_inv s'.
Proof.
  intros Hs Hst (r & i & [_ Hhook] & Hstep). unfold step in Hstep.
  destruct (threads s !! i) as [pc|] eqn:Hi; [|done].
  pose proof Hst as [Hh Hall]. rewrite Forall_lookup in Hh.
  pose proof (Hh _ _ Hi) as Hpc. rewrite <-Forall_lookup in Hh.
  destruct pc as [|h|h|h|h|h p|h res|h a]; simplify_eq/=.
  1-7: repeat case_match; simplify_eq/=; split; simpl; try done;
    try (by apply Forall_insert); by constructor.
  case_match; simplify_eq/=.
  - split; simpl; [by apply Forall_insert|by constructor].
  - pose proof (intact_write s i h a Hs Hst Hi) as Hin.
    pose proof (WriteTrampoline_target cur ep_offset (memory s) a h cur_supported Hpc) as Ht.
    destruct (WriteTrampoline _ _ _ _ _) as [m slot]. simplify_eq/=.
    split; simpl; [by apply Forall_insert|by constructor].
Qed.

Lemma Forall_Idle (P : Pc → Prop) n : P Idle → Forall P (repeat Idle n).
Proof. intros HP. induction n; simpl; by constructor. Qed.

Lemma initial_inv m n : pool_inv (initial_state m n) ∧ stubs_inv (initial_state m n).
Proof.
  assert (flat_map held (repeat Idle n) = []) as Hheld by (induction n; done).
  assert (count_if owner (repeat Idle n) = 0) as Howner by (clear Hheld; induction n; simpl; lia).
  split; split; simpl; try done; try (by apply Forall_Idle); try (by constructor); try lia.
  - unfold live. simpl. by rewrite Hheld.
Qed.

(** *** The counter does not overflow

    While [mmap] succeeds, every thread adds at most twice to the counter of a
    page that has run out: once before the next page is published, and once
    more when it was already waiting. *)

Definition unlocking (pc : Pc) : bool := match pc with Unlock _ _ => true | _ => false end.
Definition some_unlocking (s : State) : bool := 0 <? count_if unlocking (threads s).

(** The additions a thread may still make before the counter is reset. *)
Definition pending (unlocking lock : bool) (pc : Pc) : Z :=
  match pc with
  | Idle | FetchAdd _ | Protect _ _ => if unlocking then 2 else 1
  | TestAndSet _ => if unlocking then 1 else 0
  | Waiting _ => if unlocking || negb lock then 1 else 0
  | Unlock _ _ => 1
  | Mapping _ | Publish _ _ => 0
  end.

Definition potential (s : State) : Z :=
  Z.max (count_of (trampoline_pool s)) N +
  sum_map (pending (some_unlocking s) (trampoline_lock s)) (threads s).

Definition not_failing (pc : Pc) : Prop := match pc with Unlock _ None => False | _ => True end.

Definition mmap_succeeds (r : Answers) : Prop := is_Some (os_mmap r MmapAnonymous).

Definition steps_mapping (s s' : State) : Prop :=
  ∃ r i, answers_ok s r ∧ mmap_succeeds r ∧ step r i s = Some s'.

Record counter_inv (n : nat) (s : State) : Prop := {
  inv_length : length (threads s) = n;
  inv_not_failing : Forall not_failing (threads s);
  inv_potential : potential s <= N + 2 * Z.of_nat n;
}.

Lemma pending_range u l pc : 0 <= pending u l pc <= 2.
Proof. destruct pc, u, l; simpl; lia. Qed.

Lemma counter_room n s :
  counter_inv n s → N + 2 * Z.of_nat n + 1 < 2 ^ count_bits → room s.
Proof.
  intros [] Hn. unfold room, potential in *.
  pose proof (sum_map_nonneg (pending (some_unlocking s) (trampoline_lock s)) (threads s)
    (λ x, proj1 (pending_range _ _ x))). lia.
Qed.

(** A step that leaves the lock, the set of unlocking threads and the excess alone. *)
Lemma potential_move s i pc pc' s' :
  threads s !! i = Some pc → threads s' = <[i:=pc']> (threads s) →
  trampoline_lock s' = trampoline_lock s → unlocking pc' = unlocking pc →
  Z.max (count_of (trampoline_pool s')) N +
    pending (some_unlocking s) (trampoline_lock s) pc' <=
  Z.max (count_of (trampoline_pool s)) N +
    pending (some_unlocking s) (trampoline_lock s) pc →
  potential s' <= potential s.
Proof.
  intros Hi Ht Hl Hu Hp. unfold potential.
  replace (some_unlocking s') with (some_unlocking s).
  - rewrite Ht, Hl, (sum_map_insert _ _ _ _ _ Hi). lia.
  - unfold some_unlocking. rewrite Ht, (count_if_insert _ _ _ _ _ Hi), Hu. f_equal. lia.
Qed.

(** A step that changes which phase the lock is in. *)
Lemma potential_phase s i pc pc' s' :
  threads s !! i = Some pc → threads s' = <[i:=pc']> (threads s) →
  trampoline_pool s' = trampoline_pool s →
  (∀ q, pending (some_unlocking s') (trampoline_lock s') q <=
        pending (some_unlocking s) (trampoline_lock s) q) →
  pending (some_unlocking s') (trampoline_lock s') pc' <=
    pending (some_unlocking s') (trampoline_lock s') pc →
  potential s' <= potential s.
Proof.
  intros Hi Ht Hl Hq Hp. unfold potential. rewrite Hl, Ht, (sum_map_insert _ _ _ _ _ Hi).
  pose proof (sum_map_mono _ _ (threads s) Hq). lia.
Qed.

Lemma MapPage_succeeds r : mmap_succeeds r → is_Some (MapPage r).
Proof. unfold mmap_succeeds, MapPage. intros Hr. repeat case_match; eauto. Qed.

(** A free lock has no unlocking thread; an owner is the only unlocking one. *)
Lemma unlocking_owner s :
  pool_inv s → count_if unlocking (threads s) <= count_if owner (threads s).
Proof.
  intros _. induction (threads s) as [|pc l IH]; simpl; [lia|].
  destruct pc; simpl; lia.
Qed.

Lemma unlocked_not_unlocking s :
  pool_inv s → trampoline_lock s = false → some_unlocking s = false.
Proof.
  intros Hs Hl. pose proof (unlocking_owner s Hs). destruct Hs. rewrite Hl in *.
  unfold some_unlocking. lia.
Qed.

(** *** The steps that change the counter or the lock *)

Lemma potential_fetch_add s i h :
  pool_inv s → room s → threads s !! i = Some (FetchAdd h) →
  let tl := trampoline_pool s in
  let s1 := set_pool (wrap (kPointerBits cur) (tl + 1)) s in
  potential (goto i (TestAndSet h) s1) <= potential s ∧
  (count_of tl < N → ∀ a, potential (goto i (Protect h a) (issue a s1)) <= potential s).
Proof.
  intros Hs Hroom Hi tl s1. pose proof (tick_pool s Hs Hroom) as [_ Ec]. split; [|intros Hlt a];
    (eapply potential_move; try done; [done..|]); cbn [goto set_pool issue trampoline_pool s1];
    unfold tl in *; rewrite Ec; simpl; case_match; lia.
Qed.

Lemma potential_taken s i h :
  pool_inv s → threads s !! i = Some (TestAndSet h) → trampoline_lock s = false →
  potential (goto i (Mapping h) (set_lock true s)) <= potential s.
Proof.
  intros Hs Hi El. pose proof (unlocked_not_unlocking s Hs El) as Hu.
  eapply potential_phase; try done.
  - intros q. rewrite El, Hu. unfold some_unlocking in Hu |- *. simpl.
    rewrite (count_if_insert _ _ _ _ _ Hi). simpl.
    replace (0 <? _) with false by lia. destruct q; simpl; lia.
  - unfold some_unlocking in Hu |- *. simpl. case_match; lia.
Qed.

Lemma potential_publish s i h p :
  pool_inv s → threads s !! i = Some (Publish h p) →
  potential (goto i (Unlock h (Some p)) (issue p (set_pool (with_count p 1) s))) <=
    N + 2 * Z.of_nat (length (threads s)).
Proof.
  intros Hs Hi. pose proof (inv_unpublished s Hs) as Hun. rewrite Forall_lookup in Hun.
  destruct (Hun _ _ Hi) as (Hp & _). pose proof (page_ok s p (inv_pages s Hs) Hp) as (_ & Hd & _).
  unfold potential. cbn [goto set_pool issue trampoline_pool]. rewrite with_count_1 by done.
  pose proof stub_sizes. destruct (page_offset p 1 Hd) as [_ ->]; [lia|].
  pose proof (sum_map_bound (pending (some_unlocking (goto i (Unlock h (Some p))
    (issue p (set_pool (p + 1) s)))) (trampoline_lock s)) (<[i:=Unlock h (Some p)]> (threads s)) 2
    (λ x, proj2 (pending_range _ _ x))) as Hb.
  rewrite length_insert in Hb. cbn [goto issue set_pool trampoline_lock threads] in *. lia.
Qed.

Lemma potential_unlock s i h a :
  pool_inv s → threads s !! i = Some (Unlock h (Some a)) →
  potential (goto i (Protect h a) (set_lock false s)) <= potential s.
Proof.
  intros Hs Hi. destruct (owner_unique s i i _ _ Hs Hi Hi) as [_ Hl]; [done..|].
  pose proof (unlocking_owner s Hs). pose proof (inv_owner s Hs) as Ho. rewrite Hl in Ho.
  pose proof (count_if_lookup unlocking _ _ _ Hi eq_refl).
  assert (some_unlocking s = true) as Hu by (unfold some_unlocking; lia).
  assert (some_unlocking (goto i (Protect h a) (set_lock false s)) = false) as Hu'.
  { unfold some_unlocking. simpl. rewrite (count_if_insert _ _ _ _ _ Hi). simpl. lia. }
  eapply (potential_phase s i (Unlock h (Some a)) (Protect h a)); try done.
  - intros q. rewrite Hu, Hu', Hl. destruct q; simpl; lia.
  - rewrite Hu'. simpl. lia.
Qed.

Lemma counter_inv_step n s s' :
  pool_inv s → room s → counter_inv n s → steps_mapping s s' → counter_inv n s'.
Proof.
  intros Hs Hroom [Hlen Hnf Hpot] (r & i & _ & Hmap & Hstep). unfold step in Hstep.
  destruct (threads s !! i) as [pc|] eqn:Hi; [|done].
  pose proof (MapPage_succeeds r Hmap) as [page Hpage]. rewrite Hpage in Hstep.
  assert (not_failing pc) as Hpc by (rewrite Forall_lookup in Hnf; eauto).
  assert (length (threads s') = n ∧ Forall not_failing (threads s')) as [Hlen' Hnf'].
  { destruct pc as [| | | | | |? []|]; repeat case_match; simplify_eq/=;
      rewrite length_insert; split; try done; by apply Forall_insert. }
  split; [done..|].
  destruct pc as [|h|h|h|h|h p|h res|h a]; simplify_eq/=.
  - etransitivity; [eapply potential_move; try done; simpl; lia|done].
  - destruct (potential_fetch_add s i h Hs Hroom Hi) as [H1 H2].
    destruct (_ || _) eqn:E; simplify_eq/=; [lia|].
    apply orb_false_iff in E as [_ ?%Z.leb_gt]. etransitivity; [by apply H2|done].
  - destruct (trampoline_lock s) eqn:El; simplify_eq/=.
    + etransitivity; [eapply potential_move; try done; simpl; rewrite El|done].
      destruct (some_unlocking s); simpl; lia.
    + etransitivity; [by apply potential_taken|done].
  - destruct (trampoline_lock s) eqn:El; simplify_eq/=.
    pose proof (unlocked_not_unlocking s Hs El) as Hu.
    etransitivity; [eapply potential_move; try done; simpl; rewrite El, Hu; simpl; lia|done].
  - etransitivity; [eapply potential_move; try done; simpl; lia|done].
  - by apply potential_publish.
  - destruct res as [a|]; [|done]. simplify_eq/=. etransitivity; [by apply potential_unlock|done].
  - case_match; simplify_eq/=.
    + etransitivity; [eapply potential_move; try done; simpl; lia|done].
    + destruct (WriteTrampoline _ _ _ _ _) as [m slot]. simplify_eq/=.
      etransitivity; [eapply (potential_move s i (Protect h a) Idle); try done; simpl; lia|done].
Qed.

Lemma counter_inv_initial m n : counter_inv n (initial_state m n).
Proof.
  split; simpl.
  - by rewrite repeat_length.
  - by apply Forall_Idle.
  - unfold potential. cbn [trampoline_pool threads initial_state].
    replace (count_of 0) with 0 by (by rewrite count_of_mod).
    pose proof (sum_map_bound (pending (some_unlocking (initial_state m n)) false) (repeat Idle n) 2
      (λ x, proj2 (pending_range _ _ x))) as Hb.
    rewrite repeat_length in Hb. pose proof stub_sizes.
    change (trampoline_lock (initial_state m n)) with false. lia.
Qed.

Lemma reachable_inv m n s :
  N + 2 * Z.of_nat n + 1 < 2 ^ count_bits →
  rtc steps_mapping (initial_state m n) s →
  pool_inv s ∧ stubs_inv s ∧ counter_inv n s.
Proof.
  intros Hn. destruct (initial_inv m n) as [].
  apply (rtc_invariant _ (λ s, pool_inv s ∧ stubs_inv s ∧ counter_inv n s)).
  - intros a b (Ha & Hst & Hc) Hab. pose proof (counter_room n a Hc Hn).
    assert (steps_to a b) by (destruct Hab as (r & i & ? & ? & ?); by exists r, i).
    split_and!; [by eapply pool_inv_step|by eapply stubs_inv_step|by eapply counter_inv_step].
  - split_and!; [done..|]. apply counter_inv_initial.
Qed.

Lemma reachable_owner_steps s r j pc :
  threads s !! j = Some pc → owner pc = true → is_Some (step r j s).
Proof. intros Hj Ho. unfold step. rewrite Hj. destruct pc; try done; repeat case_match; eauto. Qed.

(** *** One call by itself *)

Fixpoint run_thread (k : nat) (r : Answers) (i : nat) (s : State) : option State :=
  match k with
  | O => Some s
  | S k => match step r i s with Some s' => run_thread k r i s' | None => None end
  end.

Definition returns (r : Answers) (i : nat) (h : Z) (k : nat) (s : State) : Prop :=
  ∃ s' res, run_thread k r i s = Some s' ∧ threads s' !! i = Some Idle ∧
    trampoline_lock s' = false ∧ returned s' = (h, res) :: returned s ∧
    (os_mprotect r = true → is_Some (MapPage r) → is_Some res).

Lemma protect_returns r i h a s :
  threads s !! i = Some (Protect h a) → trampoline_lock s = false → returns r i h 1 s.
Proof.
  intros Hi Hl. pose proof (lookup_lt_Some _ _ _ Hi).
  unfold returns. cbn [run_thread]. unfold step. rewrite Hi.
  destruct (negb (page_of a =? 0) && negb (os_mprotect r)) eqn:E;
    [|destruct (WriteTrampoline _ _ _ _ _) as [m slot]]; eexists _, _;
    (split; [done|]); simpl; rewrite list_lookup_insert_eq by done; split_and!; try done; eauto.
  intros Hm. rewrite Hm in E. simpl in E. rewrite andb_false_r in E. discriminate.
Qed.

(** One step of thread [i] on the way to a return. *)
Lemma returns_step r i h k s s' :
  step r i s = Some s' → returned s' = returned s →
  returns r i h k s' → returns r i h (S k) s.
Proof.
  intros Hstep Hr (s'' & res & Hrun & H1 & H2 & H3 & H4).
  exists s'', res. cbn [run_thread]. rewrite Hstep. split_and!; try done. by rewrite H3, Hr.
Qed.

Lemma lookup_goto i pc s : (i < length (threads s))%nat → threads (goto i pc s) !! i = Some pc.
Proof. apply list_lookup_insert_eq. Qed.

Lemma mapping_returns r i h s :
  threads s !! i = Some (Mapping h) → ∃ k, (k <= 4)%nat ∧ returns r i h k s.
Proof.
  intros Hi. pose proof (lookup_lt_Some _ _ _ Hi) as Hlt.
  destruct (MapPage r) as [p|] eqn:Ep.
  - exists 4%nat. split; [lia|].
    eapply returns_step; [unfold step; by rewrite Hi, Ep|done|].
    eapply returns_step; [unfold step; by rewrite lookup_goto|done|].
    eapply returns_step;
      [unfold step; rewrite lookup_goto by (simpl; by rewrite length_insert); done|done|].
    eapply protect_returns; [|done].
    apply lookup_goto. simpl. by rewrite !length_insert.
  - exists 2%nat. split; [lia|].
    eapply returns_step; [unfold step; by rewrite Hi, Ep|done|].
    eexists _, None. cbn [run_thread]. unfold step. rewrite lookup_goto by done.
    split; [done|]. split; [apply lookup_goto; simpl; by rewrite length_insert|].
    split_and!; try done. rewrite Ep. by intros _ [].
Qed.

(** C39: a call that runs while no other thread holds the lock returns within
    six of its steps and leaves the lock free; it returns a stub unless
    [mmap] or [mprotect] failed. *)
Theorem call_returns r i h s :
  threads s !! i = Some (FetchAdd h) → trampoline_lock s = false →
  ∃ k, (k <= 6)%nat ∧ returns r i h k s.
Proof.
  intros Hi Hl. pose proof (lookup_lt_Some _ _ _ Hi) as Hlt.
  destruct ((page_of (trampoline_pool s) =? 0) ||
    (kTrampolineNumPerPage <=? count_of (trampoline_pool s))) eqn:Efull.
  - destruct (mapping_returns r i h (goto i (Mapping h) (set_lock true (goto i (TestAndSet h)
      (set_pool (wrap (kPointerBits cur) (trampoline_pool s + 1)) s))))) as (k & Hk & Hret).
    { apply lookup_goto. simpl. by rewrite length_insert. }
    exists (S (S k)). split; [lia|].
    eapply returns_step; [unfold step; by rewrite Hi, Efull|done|].
    eapply returns_step; [| |exact Hret]; [|done].
    unfold step. rewrite lookup_goto by done. simpl. by rewrite Hl.
  - exists 2%nat. split; [lia|].
    eapply returns_step; [unfold step; by rewrite Hi, Efull|done|].
    eapply protect_returns; [by apply lookup_goto|done].
Qed.

(** *** The lock, whatever the operating system answers *)

(** One step of some thread with any answers: [mmap] and [mprotect] may fail,
    and nothing bounds the threads or the counter. *)
Definition any_step (s s' : State) : Prop := ∃ r i, step r i s = Some s'.

(** The lock is held exactly while one thread owns it. *)
Definition lock_owned (s : State) : Prop :=
  count_if owner (threads s) = if trampoline_lock s then 1 else 0.

Lemma lock_owned_move s i pc pc' pool' (lock' : bool) m' pages' issued' returned' :
  lock_owned s → threads s !! i = Some pc →
  (if lock' then 1 else 0) =
    (if trampoline_lock s then 1 else 0) - (if owner pc then 1 else 0) +
    (if owner pc' then 1 else 0) →
  lock_owned (mkState pool' lock' m' (<[i:=pc']> (threads s)) pages' issued' returned').
Proof. unfold lock_owned. intros Ho Hi E. simpl. rewrite (count_if_insert _ _ _ _ _ Hi). lia. Qed.

Lemma owner_locked s i pc :
  lock_owned s → threads s !! i = Some pc → owner pc = true → trampoline_lock s = true.
Proof.
  unfold lock_owned. intros E Hi Ho. pose proof (count_if_lookup owner _ _ _ Hi Ho).
  destruct (trampoline_lock s); [done|lia].
Qed.

Lemma lock_owned_step s s' : lock_owned s → any_step s s' → lock_owned s'.
Proof.
  intros Hs (r & i & Hstep). unfold step in Hstep.
  destruct (threads s !! i) as [pc|] eqn:Hi; [|done].
  pose proof (owner_locked s i pc Hs Hi) as Hl.
  destruct pc; repeat case_match; simplify_eq/=;
    (eapply (lock_owned_move s); [done|done|]; simpl in *; rewrite ?Hl by done; try done;
     by destruct (trampoline_lock s)).
Qed.

Lemma lock_owned_initial m n : lock_owned (initial_state m n).
Proof. unfold lock_owned. simpl. by induction n. Qed.

Lemma reachable_lock_owned m n s : rtc any_step (initial_state m n) s → lock_owned s.
Proof.
  apply (rtc_invariant _ lock_owned); [apply lock_owned_step|apply lock_owned_initial].
Qed.

(** The owner [j] frees the lock within [k] steps of its own. *)
Definition frees (r : Answers) (j : nat) (k : nat) (s : State) : Prop :=
  ∃ s', run_thread k r j s = Some s' ∧ trampoline_lock s' = false.

Lemma frees_step r j k s s' : step r j s = Some s' → frees r j k s' → frees r j (S k) s.
Proof. intros Hstep (s'' & Hrun & Hl). exists s''. cbn [run_thread]. by rewrite Hstep. Qed.

Lemma unlock_frees r j h res s : threads s !! j = Some (Unlock h res) → frees r j 1 s.
Proof.
  intros Hj. unfold frees. cbn [run_thread]. unfold step. rewrite Hj. destruct res; by eexists.
Qed.

Lemma owner_frees r j pc s :
  threads s !! j = Some pc → owner pc = true → ∃ k, (k <= 3)%nat ∧ frees r j k s.
Proof.
  intros Hj Ho. pose proof (lookup_lt_Some _ _ _ Hj) as Hlt.
  destruct pc as [| | | |h|h p|h res|]; try done.
  - destruct (MapPage r) as [p|] eqn:Ep.
    + exists 3%nat. split; [lia|]. eapply frees_step; [unfold step; by rewrite Hj, Ep|].
      eapply frees_step; [unfold step; by rewrite lookup_goto|].
      eapply unlock_frees, lookup_goto. simpl. by rewrite length_insert.
    + exists 2%nat. split; [lia|]. eapply frees_step; [unfold step; by rewrite Hj, Ep|].
      by eapply unlock_frees, lookup_goto.
  - exists 2%nat. split; [lia|]. eapply frees_step; [unfold step; by rewrite Hj|].
    by eapply unlock_frees, lookup_goto.
  - exists 1%nat. split; [lia|]. by eapply unlock_frees.
Qed.

(** C35: no deadlock: any number of threads call [GenerateTrampolineFor], with
    any answers of the operating system, failing [mmap] and [mprotect] calls
    included; in every state they reach, a thread that cannot take its next
    step waits for the lock, and another thread owns it, can take its next step
    and frees the lock within three steps of its own, whatever the answers. *)
Theorem waiting_on_runnable_owner m n s r i pc :
  rtc any_step (initial_state m n) s →
  threads s !! i = Some pc → step r i s = None →
  trampoline_lock s = true ∧ (∃ h, pc = Waiting h) ∧
  ∃ j pc', j ≠ i ∧ threads s !! j = Some pc' ∧ owner pc' = true ∧
    ∀ r', is_Some (step r' j s) ∧ ∃ k, (k <= 3)%nat ∧ frees r' j k s.
Proof.
  intros Hreach Hi Hstep. apply reachable_lock_owned in Hreach as Hs.
  assert (trampoline_lock s = true ∧ ∃ h, pc = Waiting h) as [Hl [h ->]].
  { unfold step in Hstep. rewrite Hi in Hstep.
    destruct pc; repeat case_match; simplify_eq/=; eauto. }
  split_and!; [done|by eexists|]. unfold lock_owned in Hs. rewrite Hl in Hs.
  destruct (count_if_pos_inv owner (threads s)) as (j & pc' & Hj & Ho); [lia|].
  exists j, pc'. split_and!; [by intros ->; simplify_eq|done..|]. intros r'.
  split; [by eapply reachable_owner_steps|by eapply owner_frees].
Qed.

(** C8: [n] threads call [GenerateTrampolineFor] concurrently, in any
    interleaving of its atomic steps, [n] such that a page's stubs and two
    further additions per thread fit the count; while [mmap] succeeds, every
    stub a call returned lies in memory above the null page, still dispatches
    to the hook of its call, and shares no byte with the stub of another call. *)
Theorem returned_stubs_intact_and_disjoint m n s :
  N + 2 * Z.of_nat n + 1 < 2 ^ count_bits →
  rtc steps_mapping (initial_state m n) s →
  (∀ i h a slot, returned s !! i = Some (h, Some (a, slot)) →
     trampoline_target cur (memory s) a = h ∧ 0 < a ∧ a + ts <= 2 ^ kPointerBits cur) ∧
  (∀ i j h h' a a' slot slot', i ≠ j →
     returned s !! i = Some (h, Some (a, slot)) → returned s !! j = Some (h', Some (a', slot')) →
     a + ts <= a' ∨ a' + ts <= a).
Proof.
  intros Hn Hreach. destruct (reachable_inv m n s Hn Hreach) as (Hs & [_ Hint] & _).
  rewrite Forall_lookup in Hint.
  assert (∀ i h a slot, returned s !! i = Some (h, Some (a, slot)) → stub_ok s a) as Hok.
  { intros i h a slot Hi. apply live_stub_ok; [done|]. apply elem_of_app. right.
    eapply elem_of_flat_map_lookup; [done|]. by apply list_elem_of_singleton. }
  split.
  - intros i h a slot Hi. split; [apply (Hint _ _ Hi)|].
    apply (stub_in_memory s); [by destruct Hs|eauto].
  - intros i j h h' a a' slot slot' Hij Hi Hj.
    apply (stubs_disjoint s); [by destruct Hs|eauto..|]. intros ->. destruct Hij.
    pose proof (live_NoDup s Hs) as Hnd. apply NoDup_app in Hnd as (_ & _ & Hnd).
    by eapply (NoDup_flat_map_lookup returned_address _ i j _ _ a' Hnd Hi Hj);
      apply list_elem_of_singleton.
Qed.
End pool.

(** ** Concrete runs *)

Section replay.
Context (cur : Arch) (ep_offset kPageSize : Z).

(** A schedule: the page a step would map, the hook a call would have, and the
    thread that moves. *)
Definition answers (p h : Z) : Answers :=
  {| os_fd := 3; os_lseek := 0x5123; os_mmap := λ _, Some p; os_mprotect := true;
     next_hook := h |}.

Definition answers_check (p h : Z) (s : State) : bool :=
  (0 <? p) && (p mod kPageSize =? 0) && (p + kPageSize <=? 2 ^ kPointerBits cur) &&
  bool_decide (p ∉ mapped s) && (0 <=? h) && (h <? 2 ^ kPointerBits cur).

Fixpoint replay (l : list (Z * Z * nat)) (s : State) : option State :=
  match l with
  | [] => Some s
  | (p, h, i) :: l =>
      if answers_check p h s then
        match step cur ep_offset kPageSize (answers p h) i s with
        | Some s => replay l s
        | None => None
        end
      else None
  end.

Lemma answers_check_ok p h s :
  0 < kPageSize → answers_check p h s = true → answers_ok cur kPageSize s (answers p h).
Proof.
  unfold answers_check. intros Hps. rewrite !andb_true_iff, bool_decide_eq_true.
  intros [[[[[H1 H2] H3] H4] H5] H6]. split; simpl; [|lia].
  intros _ q [= <-]. split_and!; try done; try lia. apply Z.mod_divide; lia.
Qed.

Lemma replay_reaches l s s' :
  0 < kPageSize → replay l s = Some s' → rtc (steps_mapping cur ep_offset kPageSize) s s'.
Proof.
  intros Hps. revert s. induction l as [|[[p h] i] l IH]; intros s; simpl.
  - intros [= ->]. done.
  - destruct (answers_check p h s) eqn:Hc; [|done].
    destruct (step _ _ _ _ _ _) as [s1|] eqn:Hs; [|done]. intros Hl.
    eapply rtc_l; [|by apply IH]. exists (answers p h), i.
    split_and!; [by apply answers_check_ok|by eexists|done].
Qed.
End replay.

(** Two threads race for the first page: thread 1 waits while thread 0 maps it. *)
Definition race : list (Z * Z * nat) :=
  let p := 0x70000000 in let q := 0x71000000 in
  [(p, 0x1000, 0%nat); (p, 0x2000, 1%nat); (p, 0, 0%nat); (p, 0, 1%nat); (p, 0, 0%nat); (p, 0, 1%nat); (p, 0, 0%nat);
   (q, 0, 0%nat); (q, 0, 0%nat); (q, 0, 1%nat); (q, 0, 1%nat); (q, 0, 1%nat); (q, 0, 0%nat)].

Definition raced : option State := replay kArm64 0x20 4096 race (initial_state (λ _, 0) 2).

Lemma raced_returned :
  returned <$> raced = Some [(0x1000, Some (0x70000000, 0x70000001));
                             (0x2000, Some (0x70000014, 0x70000015))].
Proof. by vm_compute. Qed.

Lemma replay_reaches_or cur ep_offset kPageSize l s :
  0 < kPageSize →
  match replay cur ep_offset kPageSize l s with
  | Some s' => rtc (steps_mapping cur ep_offset kPageSize) s s'
  | None => True
  end.
Proof. intros. destruct (replay _ _ _ _ _) eqn:E; [|done]. by eapply replay_reaches. Qed.

Lemma raced_reaches :
  match raced with
  | Some s => rtc (steps_mapping kArm64 0x20 4096) (initial_state (λ _, 0) 2) s
  | None => True
  end.
Proof. apply (replay_reaches_or kArm64 0x20 4096 race). lia. Qed.

Example returned_stubs_witness :
  match raced with
  | Some s => trampoline_target kArm64 (memory s) 0x70000000 = 0x1000 ∧
              trampoline_target kArm64 (memory s) 0x70000014 = 0x2000
  | None => False
  end.
Proof.
  pose proof raced_returned as Hr. pose proof raced_reaches as E.
  destruct raced as [s|]; [|discriminate]. injection Hr as Hr.
  destruct (returned_stubs_intact_and_disjoint kArm64 0x20 4096 ltac:(unfold supported; by left)
    ltac:(by left) (λ _, 0) 2 s ltac:(by vm_compute) E) as [H _].
  split; [apply (H 0%nat _ _ 0x70000001)|apply (H 1%nat _ _ 0x70000015)]; by rewrite Hr.
Defined.

(** A schedule with an operating system that may fail: the page a step would
    map, if any, the hook a call would have, and the thread that moves. *)
Definition failing_answers (p : option Z) (h : Z) : Answers :=
  {| os_fd := 3; os_lseek := 0x5123; os_mmap := λ _, p; os_mprotect := true; next_hook := h |}.

Fixpoint replay_any cur ep_offset kPageSize (l : list (option Z * Z * nat)) (s : State) : option State :=
  match l with
  | [] => Some s
  | (p, h, i) :: l =>
      s ← step cur ep_offset kPageSize (failing_answers p h) i s;
      replay_any cur ep_offset kPageSize l s
  end.

Lemma replay_any_reaches cur ep_offset kPageSize l s :
  match replay_any cur ep_offset kPageSize l s with
  | Some s' => rtc (any_step cur ep_offset kPageSize) s s'
  | None => True
  end.
Proof.
  revert s. induction l as [|[[p h] i] l IH]; intros s; simpl; [done|].
  destruct (step _ _ _ _ _ _) as [s1|] eqn:Hs; [|done]. simpl.
  specialize (IH s1). destruct (replay_any _ _ _ _ _); [|done].
  eapply rtc_l; [by eexists _, _|done].
Qed.

(** Thread 0 fails to map the first page and returns; thread 1, which waited
    for it, tries again, but thread 2 takes the lock first. *)
Definition failing_race : list (option Z * Z * nat) :=
  [(None, 0x1000, 0%nat); (None, 0x2000, 1%nat); (None, 0x3000, 2%nat);
   (None, 0, 0%nat); (None, 0, 1%nat); (None, 0, 2%nat); (None, 0, 0%nat);
   (None, 0, 1%nat); (None, 0, 0%nat); (None, 0, 0%nat); (None, 0, 1%nat);
   (None, 0, 2%nat); (None, 0, 1%nat); (None, 0, 1%nat)].

Definition raced_waiting : option State :=
  replay_any kArm64 0x20 4096 failing_race (initial_state (λ _, 0) 3).

Lemma raced_waiting_state :
  (λ s, (threads s, returned s, step kArm64 0x20 4096 (answers 0 0) 1 s)) <$> raced_waiting =
    Some ([Idle; Waiting 0x2000; Mapping 0x3000], [(0x1000, None)], None).
Proof. by vm_compute. Qed.

Lemma raced_waiting_reaches :
  match raced_waiting with
  | Some s => rtc (any_step kArm64 0x20 4096) (initial_state (λ _, 0) 3) s
  | None => True
  end.
Proof. apply replay_any_reaches. Qed.

Example waiting_on_runnable_owner_witness :
  match raced_waiting with
  | Some s => ∃ j pc', j ≠ 1%nat ∧ threads s !! j = Some pc' ∧ owner pc' = true ∧
                ∀ r', is_Some (step kArm64 0x20 4096 r' j s) ∧
                  ∃ k, (k <= 3)%nat ∧ frees kArm64 0x20 4096 r' j k s
  | None => False
  end.
Proof.
  pose proof raced_waiting_state as Hr. pose proof raced_waiting_reaches as E.
  destruct raced_waiting as [s|]; [|discriminate]. injection Hr as Hi _ Hs.
  by apply (waiting_on_runnable_owner kArm64 0x20 4096 (λ _, 0) 3 s (answers 0 0) 1
    (Waiting 0x2000) E ltac:(by rewrite Hi) Hs).
Defined.

(** One thread calls again and again: the first call maps a page, [mmap]
    fails from then on. A call on the full page adds to its count, and when
    it reaches 4096 it has carried into the page. *)
Definition stub_calls : list (option Z * Z * nat) :=
  concat (repeat (repeat (None, 0x1000, 0%nat) 3) 203).
Definition failing_calls : list (option Z * Z * nat) :=
  concat (repeat (repeat (None, 0x1000, 0%nat) 5) 3892).
Definition overflow_schedule : list (option Z * Z * nat) :=
  repeat (Some 0x70000000, 0x1000, 0%nat) 7 ++ stub_calls ++ failing_calls ++
  repeat (None, 0x1000, 0%nat) 3.
Definition overflowed : option State :=
  replay_any kArm64 0x20 4096 overflow_schedule (initial_state (λ _, 0) 1).

(** So repeated failures of [mmap] end in a stub on the page behind the one
    that was mapped, which is not the pool's. *)
Theorem count_overflows_into_page :
  match overflowed with
  | Some s => rtc (any_step kArm64 0x20 4096) (initial_state (λ _, 0) 1) s ∧
      mapped s = [0x70000000] ∧ head (returned s) = Some (0x1000, Some (0x70001000, 0x70001001))
  | None => False
  end.
Proof.
  assert ((λ s, (mapped s, head (returned s))) <$> overflowed =
    Some ([0x70000000], Some (0x1000, Some (0x70001000, 0x70001001)))) as E by by vm_compute.
  revert E. unfold overflowed. generalize overflow_schedule. intros l E.
  pose proof (replay_any_reaches kArm64 0x20 4096 l (initial_state (λ _, 0) 1)) as Hr.
  destruct (replay_any _ _ _ _ _) as [s|]; [|discriminate]. by injection E as -> ->.
Qed.

Example call_returns_witness :
  threads (initial_state (λ _, 0) 1) !! 0%nat = Some Idle ∧
  ∃ k, (k <= 6)%nat ∧
    returns kArm64 0x20 4096 (answers 0x70000000 0) 0 0x1000 k
      (goto 0 (FetchAdd 0x1000) (initial_state (λ _, 0) 1)).
Proof. split; [done|]. by apply (call_returns kArm64 0x20 4096). Defined.
