(* ===== verification/Records.v ===== *)
(** * The hook registry

    The shared tables of [common.cxx]: hooked methods and their records, the
    reverse table of backups, per-class sets, deoptimized methods, proxies and
    pending JIT movements, with the operations on them.  The registry
    invariant says that the two hook tables are inverse to each other. *)

From S2P Require Import Prelude.

(** [struct HookRecord]. *)
Record HookRecord := mkHookRecord {
  hook : Z;
  backup : Z;
  method_entry_slot : Z;
  backup_method : Z;
  enabled : bool;
}.

(** The global tables.  Keys are addresses of methods ([ArtMethod]) and class
    definitions ([ClassDef]). *)
Record Registry := mkRegistry {
  hooked_methods_ : gmap Z HookRecord;
  backuped_methods_ : gmap Z Z;
  hooked_classes_ : gmap Z (gset Z);
  deoptimized_methods_ : gmap Z Z;
  deoptimized_classes_ : gmap Z (gset Z);
  backuped_proxy_methods_ : gset Z;
  jit_movements_ : list (Z * Z);
}.

Definition empty_registry : Registry := mkRegistry ∅ ∅ ∅ ∅ ∅ ∅ [].

Definition with_hooked f r := mkRegistry (f (hooked_methods_ r)) (backuped_methods_ r)
  (hooked_classes_ r) (deoptimized_methods_ r) (deoptimized_classes_ r)
  (backuped_proxy_methods_ r) (jit_movements_ r).
Definition with_backuped f r := mkRegistry (hooked_methods_ r) (f (backuped_methods_ r))
  (hooked_classes_ r) (deoptimized_methods_ r) (deoptimized_classes_ r)
  (backuped_proxy_methods_ r) (jit_movements_ r).
Definition with_hooked_classes f r := mkRegistry (hooked_methods_ r) (backuped_methods_ r)
  (f (hooked_classes_ r)) (deoptimized_methods_ r) (deoptimized_classes_ r)
  (backuped_proxy_methods_ r) (jit_movements_ r).
Definition with_deoptimized f r := mkRegistry (hooked_methods_ r) (backuped_methods_ r)
  (hooked_classes_ r) (f (deoptimized_methods_ r)) (deoptimized_classes_ r)
  (backuped_proxy_methods_ r) (jit_movements_ r).
Definition with_deoptimized_classes f r := mkRegistry (hooked_methods_ r) (backuped_methods_ r)
  (hooked_classes_ r) (deoptimized_methods_ r) (f (deoptimized_classes_ r))
  (backuped_proxy_methods_ r) (jit_movements_ r).
Definition with_proxies f r := mkRegistry (hooked_methods_ r) (backuped_methods_ r)
  (hooked_classes_ r) (deoptimized_methods_ r) (deoptimized_classes_ r)
  (f (backuped_proxy_methods_ r)) (jit_movements_ r).
Definition with_jit_movements f r := mkRegistry (hooked_methods_ r) (backuped_methods_ r)
  (hooked_classes_ r) (deoptimized_methods_ r) (deoptimized_classes_ r)
  (backuped_proxy_methods_ r) (f (jit_movements_ r)).

(** ** Map operations of the hash tables *)

(** [emplace] keeps an entry that is there. *)
Definition emplace {V} (k : Z) (v : V) (m : gmap Z V) : gmap Z V :=
  match m !! k with Some _ => m | None => <[k:=v]> m end.

(** Adds an element to the set of a class, which is created when absent
    ([lazy_emplace_l], and [operator[]] followed by [emplace]). *)
Definition add_to_class (class_def t : Z) (m : gmap Z (gset Z)) : gmap Z (gset Z) :=
  match m !! class_def with
  | Some s => <[class_def := s ∪ {[t]}]> m
  | None => <[class_def := {[t]}]> m
  end.

(** [erase_if] with the predicate of [UnHook]: removes the element, and the
    entry when its set is then empty. *)
Definition remove_from_class (class_def t : Z) (m : gmap Z (gset Z)) : gmap Z (gset Z) :=
  match m !! class_def with
  | Some s =>
      let s := s ∖ {[t]} in
      if decide (s = ∅) then delete class_def m else <[class_def := s]> m
  | None => m
  end.

(** ** Queries; a null pointer is 0 *)

Definition IsHooked (r : Registry) (art_method : Z) : Z :=
  match hooked_methods_ r !! art_method with Some found => backup found | None => 0 end.

Definition IsBackup (r : Registry) (art_method : Z) : Z :=
  match backuped_methods_ r !! art_method with Some found => found | None => 0 end.

Definition IsDeoptimized (r : Registry) (art_method : Z) : bool :=
  bool_decide (is_Some (deoptimized_methods_ r !! art_method)).

(** [GetJitMovements] hands over the list and leaves it empty. *)
Definition GetJitMovements (r : Registry) : list (Z * Z) * Registry :=
  (jit_movements_ r, with_jit_movements (λ _, []) r).

(** ** Updates *)

Definition RecordHooked (target hook backup class_def slot backup_method : Z)
    (r : Registry) : Registry :=
  let r := with_hooked_classes (add_to_class class_def target) r in
  let r := with_hooked (emplace target (mkHookRecord hook backup slot backup_method true)) r in
  with_backuped (emplace backup target) r.

Definition RecordDeoptimized (class_def art_method original_entry_point : Z)
    (r : Registry) : Registry :=
  let r := with_deoptimized_classes (add_to_class class_def art_method) r in
  with_deoptimized (emplace art_method original_entry_point) r.

Definition RecordJitMovement (target backup : Z) (r : Registry) : Registry :=
  with_jit_movements (λ l, l ++ [(target, backup)]) r.

(** What [UnHook] removes for a record found under [target]. *)
Definition ForgetHooked (target backup class_def : Z) (r : Registry) : Registry :=
  let r := with_hooked (delete target) r in
  let r := with_backuped (delete backup) r in
  let r := with_proxies (λ s, s ∖ {[backup]}) r in
  with_hooked_classes (remove_from_class class_def target) r.

(** ** The invariant *)

(** Membership in the per-class sets. *)
Definition in_class (m : gmap Z (gset Z)) (c t : Z) : Prop := ∃ s, m !! c = Some s ∧ t ∈ s.

(** Methods are at non-null addresses; the tables are inverse; a method is not
    both hooked and a backup; the class sets are nonempty, partition the hooked
    methods by class definition, and proxies are backups. *)
Record registry_ok (r : Registry) : Prop := {
  ok_nonnull t rec : hooked_methods_ r !! t = Some rec → t ≠ 0 ∧ backup rec ≠ 0;
  ok_backup t rec : hooked_methods_ r !! t = Some rec → backuped_methods_ r !! backup rec = Some t;
  ok_hooked b t : backuped_methods_ r !! b = Some t →
    ∃ rec, hooked_methods_ r !! t = Some rec ∧ backup rec = b;
  ok_apart t : is_Some (hooked_methods_ r !! t) → backuped_methods_ r !! t = None;
  ok_class t : is_Some (hooked_methods_ r !! t) ↔
    ∃ c, in_class (hooked_classes_ r) c t;
  ok_one_class c c' t : in_class (hooked_classes_ r) c t → in_class (hooked_classes_ r) c' t →
    c = c';
  ok_nonempty c s : hooked_classes_ r !! c = Some s → s ≠ ∅;
  ok_proxies b : b ∈ backuped_proxy_methods_ r → is_Some (backuped_methods_ r !! b);
}.

Lemma empty_registry_ok : registry_ok empty_registry.
Proof.
  split; unfold in_class; simpl; intros; try (by simplify_map_eq); try set_solver.
  split; [by intros []|]. by intros (c & s & Hc & _).
Qed.

(** ** Lemmas *)

Lemma emplace_absent {V} k (v : V) m : m !! k = None → emplace k v m = <[k:=v]> m.
Proof. unfold emplace. by intros ->. Qed.

Lemma emplace_present {V} k (v w : V) m : m !! k = Some w → emplace k v m = m.
Proof. unfold emplace. by intros ->. Qed.

Lemma lookup_emplace_same {V} k (v : V) m :
  emplace k v m !! k = Some (default v (m !! k)).
Proof.
  unfold emplace. destruct (m !! k) eqn:E; [by rewrite E|]. by rewrite lookup_insert_eq.
Qed.

Lemma lookup_emplace_other {V} k k' (v : V) m : k ≠ k' → emplace k v m !! k' = m !! k'.
Proof. unfold emplace. intros. destruct (m !! k); [done|]. by rewrite lookup_insert_ne. Qed.

Lemma in_class_some m c t s : m !! c = Some s → in_class m c t ↔ t ∈ s.
Proof. unfold in_class. intros ->. split; [by intros (? & [= ->] & ?)|eauto]. Qed.

Lemma in_class_none m c t : m !! c = None → in_class m c t ↔ False.
Proof. unfold in_class. intros ->. split; [by intros (? & ? & _)|done]. Qed.

Lemma in_class_add m c t c' t' :
  in_class (add_to_class c t m) c' t' ↔ in_class m c' t' ∨ (c' = c ∧ t' = t).
Proof.
  unfold add_to_class. destruct (m !! c) as [s|] eqn:E; destruct (decide (c' = c)) as [->|Hne].
  - rewrite (in_class_some _ _ _ (s ∪ {[t]})), (in_class_some m _ _ s) by
      (done || apply lookup_insert_eq). set_solver.
  - unfold in_class. rewrite lookup_insert_ne by done. naive_solver.
  - rewrite (in_class_some _ _ _ {[t]}), (in_class_none m) by (done || apply lookup_insert_eq).
    set_solver.
  - unfold in_class. rewrite lookup_insert_ne by done. naive_solver.
Qed.

Lemma in_class_remove m c t c' t' :
  in_class (remove_from_class c t m) c' t' ↔ in_class m c' t' ∧ (c' = c → t' ≠ t).
Proof.
  unfold remove_from_class. destruct (decide (c' = c)) as [->|Hne].
  - destruct (m !! c) as [s|] eqn:E; [|rewrite !in_class_none by done; naive_solver].
    rewrite (in_class_some m _ _ s) by done. case_decide as Hs.
    + rewrite in_class_none by apply lookup_delete_eq. set_solver.
    + rewrite (in_class_some _ _ _ (s ∖ {[t]})) by apply lookup_insert_eq. set_solver.
  - unfold in_class. destruct (m !! c) as [s|]; [case_decide|];
      rewrite ?lookup_delete_ne, ?lookup_insert_ne by done; naive_solver.
Qed.

Lemma add_to_class_nonempty m c t c' s :
  (∀ c s, m !! c = Some s → s ≠ ∅) → add_to_class c t m !! c' = Some s → s ≠ ∅.
Proof.
  unfold add_to_class. intros Hm. destruct (decide (c' = c)) as [->|Hne].
  - destruct (m !! c); rewrite lookup_insert_eq; intros [= <-]; set_solver.
  - destruct (m !! c); rewrite lookup_insert_ne by done; eauto.
Qed.

Lemma remove_from_class_nonempty m c t c' s :
  (∀ c s, m !! c = Some s → s ≠ ∅) → remove_from_class c t m !! c' = Some s → s ≠ ∅.
Proof.
  unfold remove_from_class. intros Hm. destruct (m !! c) as [s0|] eqn:E; [|eauto].
  case_decide as Hs; destruct (decide (c' = c)) as [->|Hne].
  - by rewrite lookup_delete_eq.
  - rewrite lookup_delete_ne by done. eauto.
  - rewrite lookup_insert_eq. intros [= <-]. done.
  - rewrite lookup_insert_ne by done. eauto.
Qed.

(** ** Preservation *)

Section preservation.
Context (r : Registry) (Hr : registry_ok r).

(** Recording a hook of a method that is neither hooked nor a backup, with a
    backup that is new. *)
Lemma RecordHooked_ok target hk bk c slot bm :
  target ≠ 0 → bk ≠ 0 → target ≠ bk →
  hooked_methods_ r !! target = None → backuped_methods_ r !! target = None →
  hooked_methods_ r !! bk = None → backuped_methods_ r !! bk = None →
  registry_ok (RecordHooked target hk bk c slot bm r).
Proof using Hr.
  intros Ht Hb Htb H1 H2 H3 H4. destruct Hr.
  unfold RecordHooked. split; simpl; rewrite ?emplace_absent by done.
  - intros t rec [[<- <-]|[? Hrec]]%lookup_insert_Some; [done|eauto].
  - intros t rec [[<- <-]|[Hne Hrec]]%lookup_insert_Some; simpl.
    { by rewrite lookup_insert_eq. }
    rewrite lookup_insert_ne; [eauto|]. intros E.
    pose proof (ok_backup0 _ _ Hrec) as Hb'. rewrite <-E in Hb'. congruence.
  - intros b t [[<- <-]|[Hne Hbt]]%lookup_insert_Some.
    { eexists. rewrite lookup_insert_eq. done. }
    destruct (ok_hooked0 _ _ Hbt) as (rec & Hrec & ?). exists rec.
    rewrite lookup_insert_ne by (intros <-; congruence). done.
  - intros t. rewrite lookup_insert_is_Some. intros [<-|[Hne Hrec]].
    + by rewrite lookup_insert_ne.
    + rewrite lookup_insert_ne; [auto|]. intros <-. rewrite H3 in Hrec. by destruct Hrec.
  - intros t. rewrite lookup_insert_is_Some. setoid_rewrite in_class_add.
    destruct (decide (t = target)) as [->|Hne]; [naive_solver|].
    rewrite ok_class0. naive_solver.
  - intros c1 c2 t. rewrite !in_class_add.
    assert (∀ c', in_class (hooked_classes_ r) c' target → False) as Hno.
    { intros c' Hc'. assert (is_Some (hooked_methods_ r !! target)) as [? ?]
        by (apply ok_class0; eauto). congruence. }
    naive_solver.
  - intros c' s. by apply add_to_class_nonempty.
  - intros b Hbp. rewrite lookup_insert_is_Some. destruct (decide (bk = b)); eauto.
Qed.

Lemma ForgetHooked_ok target rec c :
  hooked_methods_ r !! target = Some rec → in_class (hooked_classes_ r) c target →
  registry_ok (ForgetHooked target (backup rec) c r).
Proof using Hr.
  intros Hrec Hc. destruct Hr. unfold ForgetHooked. split; simpl.
  - intros t rec' [_ ?]%lookup_delete_Some. eauto.
  - intros t rec' [Hne Hrec']%lookup_delete_Some. rewrite lookup_delete_ne; [eauto|].
    intros E. pose proof (ok_backup0 _ _ Hrec) as E1. rewrite E in E1.
    rewrite (ok_backup0 _ _ Hrec') in E1. congruence.
  - intros b t [Hne Hbt]%lookup_delete_Some. destruct (ok_hooked0 _ _ Hbt) as (rec' & Hrec' & ?).
    exists rec'. rewrite lookup_delete_ne; [done|]. intros <-. congruence.
  - intros t [Hne Hs]%lookup_delete_is_Some. rewrite lookup_delete_None. auto.
  - intros t. rewrite lookup_delete_is_Some. setoid_rewrite in_class_remove. rewrite ok_class0.
    split.
    + intros [Hne [c' Hc']]. exists c'. split; [done|]. congruence.
    + intros (c' & Hc' & Hne). split; [|eauto]. intros <-.
      by apply (Hne (ok_one_class0 _ _ _ Hc' Hc)).
  - intros c1 c2 t. rewrite !in_class_remove. naive_solver.
  - intros c' s. by apply remove_from_class_nonempty.
  - intros b [Hb Hne]%elem_of_difference. rewrite lookup_delete_is_Some. set_solver.
Qed.

(** The other updates do not touch the hook tables. *)
Lemma RecordDeoptimized_ok c m e : registry_ok (RecordDeoptimized c m e r).
Proof using Hr. by destruct Hr. Qed.

Lemma RecordJitMovement_ok t b : registry_ok (RecordJitMovement t b r).
Proof using Hr. by destruct Hr. Qed.

Lemma GetJitMovements_ok : registry_ok (GetJitMovements r).2.
Proof using Hr. by destruct Hr. Qed.

(** [IsHooked] and [IsBackup] are inverse: a method has a backup exactly when
    the backup's target is the method. *)
Lemma IsHooked_IsBackup t b : t ≠ 0 → b ≠ 0 → IsHooked r t = b ↔ IsBackup r b = t.
Proof using Hr.
  intros Ht Hb. destruct Hr. unfold IsHooked, IsBackup. split.
  - intros E. destruct (hooked_methods_ r !! t) as [rec|] eqn:Hrec; [|done].
    subst b. by rewrite (ok_backup0 _ _ Hrec).
  - intros E. destruct (backuped_methods_ r !! b) as [t'|] eqn:Hbt; [|done].
    subst t'. by destruct (ok_hooked0 _ _ Hbt) as (rec & -> & ->).
Qed.

(** Two methods do not share a backup. *)
Lemma IsHooked_inj t t' : IsHooked r t = IsHooked r t' → IsHooked r t ≠ 0 → t = t'.
Proof using Hr.
  destruct Hr. unfold IsHooked.
  destruct (hooked_methods_ r !! t) as [rec|] eqn:E; [|done].
  destruct (hooked_methods_ r !! t') as [rec'|] eqn:E'; [|done].
  intros Heq _. pose proof (ok_backup0 _ _ E) as H1. rewrite Heq, (ok_backup0 _ _ E') in H1.
  congruence.
Qed.

Lemma IsHooked_null t : IsHooked r t = 0 ↔ hooked_methods_ r !! t = None.
Proof using Hr.
  destruct Hr. unfold IsHooked. destruct (hooked_methods_ r !! t) as [rec|] eqn:Hrec; [|done].
  destruct (ok_nonnull0 _ _ Hrec). done.
Qed.

Lemma IsBackup_null b : IsBackup r b = 0 ↔ backuped_methods_ r !! b = None.
Proof using Hr.
  destruct Hr. unfold IsBackup. destruct (backuped_methods_ r !! b) as [t|] eqn:Hbt; [|done].
  destruct (ok_hooked0 _ _ Hbt) as (rec & Hrec & _). by destruct (ok_nonnull0 _ _ Hrec).
Qed.
End preservation.

#[export] Hint Resolve RecordDeoptimized_ok RecordJitMovement_ok GetJitMovements_ok : lsp.
