(* ===== verification/HookHelper.v ===== *)
(** * Symbols and hook installation

    [include/utils/hook_helper.hpp]: the [HookHandler] every component's
    [Init] is written with.  The embedder's resolvers and inline hooker are
    parameters; the static [raw_function_] and [handle_] members of the
    symbols are the state [Syms]. *)

From S2P Require Import Prelude Platform.
From Stdlib Require Import Ascii String.

(** ** [FixedString] *)

Fixpoint gnu_hash_from (hash : Z) (s : string) : Z :=
  match s with
  | EmptyString => hash
  | String ch s =>
      (* hash += (hash << 5) + static_cast<uint8_t>(ch), on uint32_t *)
      let hash := wrap 32 (hash + wrap 32 (wrap 32 (Z.shiftl hash 5) + Z.of_nat (nat_of_ascii ch))) in
      gnu_hash_from hash s
  end.

Definition GetGnuHash (s : string) : Z := gnu_hash_from 5381 s.

Definition IsEmpty (s : string) : bool := String.eqb s "".

(** ** Symbols *)

(** What a symbol variable names: a function or field to look up, or a
    function to hook with a replacement. *)
Inductive Symbol : Type :=
  | Function (name sym : string)
  | Hooker (name sym : string) (replace_ : Z).

Definition symbol_name (t : Symbol) : string :=
  match t with Function n _ | Hooker n _ _ => n end.
Definition FixedStringOf (t : Symbol) : string :=
  match t with Function _ s | Hooker _ s _ => s end.

(** A hooker variable, with the address of its replacement. *)
Definition hooker (replace_of : string → Z) (name sym : string) : Symbol :=
  Hooker name sym (replace_of name).

(** The static members of the symbols, by variable name; absent is null. *)
Record Syms := mkSyms { raw_function_ : gmap string Z; handle_ : gmap string Z }.

Definition no_syms : Syms := mkSyms ∅ ∅.

Definition get_raw (s : Syms) (n : string) : Z := default 0 (raw_function_ s !! n).
Definition get_handle (s : Syms) (n : string) : Z := default 0 (handle_ s !! n).
Definition set_raw (n : string) (v : Z) (s : Syms) : Syms :=
  mkSyms (<[n:=v]> (raw_function_ s)) (handle_ s).
Definition set_handle (n : string) (v : Z) (s : Syms) : Syms :=
  mkSyms (raw_function_ s) (<[n:=v]> (handle_ s)).

(** [operator bool] of a symbol. *)
Definition symbol_set (t : Symbol) (s : Syms) : bool :=
  match t with
  | Function n _ => negb (get_raw s n =? 0)
  | Hooker n _ _ => negb (get_handle s n =? 0)
  end.

(** ** [struct InitInfo]: the embedder's functions *)

Record InitInfo := {
  inline_hooker : Z → Z → Z * Z;  (* original, replacement: handle and backup *)
  inline_unhooker : option (Z → bool);
  art_symbol_resolver : string → Z → Z;
  art_symbol_prefix_resolver : option (string → Z);
  dexfile_symbol_resolver : option (string → Z → Z);
}.

(** ** [struct HookHandler] *)

Module HookHandler.
Section handler.
Context (info_ : InitInfo).

Definition dlsym (Sym : string) (match_prefix : bool) : Z :=
  let m := art_symbol_resolver info_ Sym (GetGnuHash Sym) in
  if negb (m =? 0) then m
  else match match_prefix, art_symbol_prefix_resolver info_ with
       | true, Some resolve => resolve Sym
       | _, _ => 0
       end.

Definition dlsym_dexfile (Sym : string) : Z :=
  match dexfile_symbol_resolver info_ with
  | Some resolve => resolve Sym (GetGnuHash Sym)
  | None => 0
  end.

(** [hook]: the handle and, when the hooker ran, the value it stored in [*backup]. *)
Definition hook (original replace : Z) : Z * option Z :=
  if original =? 0 then (0, None)
  else let '(h, b) := inline_hooker info_ original replace in (h, Some b).

Definition store_backup (n : string) (b : option Z) (s : Syms) : Syms :=
  match b with Some v => set_raw n v s | None => s end.

(** The [handle] overloads: a function gets the resolved address, a hooker is
    installed at it; [handle_at] hooks a given function. *)
Definition handle_at (original : Z) (n : string) (replace : Z) (s : Syms) : bool * Syms :=
  let '(h, b) := hook original replace in
  let s := store_backup n b s in
  if negb (h =? 0) then (true, set_handle n h s) else (false, s).

Definition handle (t : Symbol) (match_prefix : bool) (s : Syms) : bool * Syms :=
  match t with
  | Function n sym =>
      let v := dlsym sym match_prefix in (negb (v =? 0), set_raw n v s)
  | Hooker n sym replace => handle_at (dlsym sym match_prefix) n replace s
  end.

Definition handle_dexfile (t : Symbol) (s : Syms) : bool * Syms :=
  let v := dlsym_dexfile (FixedStringOf t) in (negb (v =? 0), set_raw (symbol_name t) v s).

(** An argument of [operator()] and [all]: a symbol, one followed by the flag
    [match_prefix], or a function pointer followed by its hooker. *)
Inductive Arg : Type :=
  | One (t : Symbol)
  | Prefixed (t : Symbol) (match_prefix : bool)
  | At (function : Z) (t : Symbol).

Definition handle_arg (a : Arg) (s : Syms) : bool * Syms :=
  match a with
  | One t => handle t false s
  | Prefixed t p => handle t p s
  | At f (Hooker n _ r) => handle_at f n r s
  | At _ (Function _ _) => (false, s)
  end.

(** [operator()]: tries the arguments in order and stops at the first success. *)
Fixpoint any (args : list Arg) (s : Syms) : bool * Syms :=
  match args with
  | [] => (false, s)
  | a :: args =>
      let '(ok, s) := handle_arg a s in
      if ok then (true, s) else any args s
  end.

(** [all]: stops at the first failure. *)
Fixpoint all (args : list Arg) (s : Syms) : bool * Syms :=
  match args with
  | [] => (true, s)
  | a :: args =>
      let '(ok, s) := handle_arg a s in
      if ok then all args s else (false, s)
  end.

Fixpoint dexfile (args : list Symbol) (s : Syms) : bool * Syms :=
  match args with
  | [] => (false, s)
  | t :: args =>
      let '(ok, s) := handle_dexfile t s in
      if ok then (true, s) else dexfile args s
  end.

Definition unhook (t : Symbol) (s : Syms) : bool * Syms :=
  let n := symbol_name t in
  let h := get_handle s n in
  match inline_unhooker info_ with
  | Some f => if negb (h =? 0) && f h then (true, set_handle n 0 s) else (false, s)
  | None => (false, s)
  end.

(** ** Lemmas *)

(** The symbol variable an argument is about. *)
Definition arg_symbol (a : Arg) : Symbol := match a with One t | Prefixed t _ | At _ t => t end.

Lemma get_raw_set n v s n' : get_raw (set_raw n v s) n' = if String.eqb n n' then v else get_raw s n'.
Proof.
  unfold get_raw, set_raw. simpl. destruct (String.eqb_spec n n') as [->|Hne];
    [by rewrite lookup_insert_eq|by rewrite lookup_insert_ne].
Qed.

Lemma get_handle_set n v s n' :
  get_handle (set_handle n v s) n' = if String.eqb n n' then v else get_handle s n'.
Proof.
  unfold get_handle, set_handle. simpl. destruct (String.eqb_spec n n') as [->|Hne];
    [by rewrite lookup_insert_eq|by rewrite lookup_insert_ne].
Qed.

Lemma get_handle_store_backup n b s n' : get_handle (store_backup n b s) n' = get_handle s n'.
Proof. by destruct b. Qed.

Lemma get_raw_set_handle n v s n' : get_raw (set_handle n v s) n' = get_raw s n'.
Proof. done. Qed.

(** A successful [handle] sets the symbol it is given. *)
Lemma handle_arg_sets a s s' :
  handle_arg a s = (true, s') → symbol_set (arg_symbol a) s' = true.
Proof.
  assert (∀ f n r s s', handle_at f n r s = (true, s') → negb (get_handle s' n =? 0) = true)
    as Hat.
  { clear. intros f n r s s'. unfold handle_at. destruct (hook f r) as [h b].
    destruct (negb (h =? 0)) eqn:Hh; [|done]. intros [= <-].
    by rewrite get_handle_set, String.eqb_refl. }
  destruct a as [[n sym|n sym r]|[n sym|n sym r] p|f [n sym|n sym r]]; simpl; try done;
    try (by apply Hat); intros [= Hv <-]; by rewrite get_raw_set, String.eqb_refl.
Qed.

(** A [handle] touches only the symbol it is given. *)
Lemma handle_arg_frame a s n :
  n ≠ symbol_name (arg_symbol a) →
  get_raw (handle_arg a s).2 n = get_raw s n ∧ get_handle (handle_arg a s).2 n = get_handle s n.
Proof.
  assert (∀ f m r s, n ≠ m → get_raw (handle_at f m r s).2 n = get_raw s n ∧
    get_handle (handle_at f m r s).2 n = get_handle s n) as Hat.
  { clear. intros f m r s Hne. unfold handle_at. destruct (hook f r) as [h b].
    assert (String.eqb m n = false) as Hm by (apply String.eqb_neq; congruence).
    destruct (negb (h =? 0)), b; simpl;
      rewrite ?get_handle_set, ?get_raw_set_handle, ?get_raw_set, ?Hm; done. }
  intros Hne. destruct a as [[m sym|m sym r]|[m sym|m sym r] p|f [m sym|m sym r]]; simpl in *;
    try (by apply Hat); try done; rewrite get_raw_set;
    destruct (String.eqb_spec m n); congruence || done.
Qed.

Definition names (args : list Arg) : list string := map (λ a, symbol_name (arg_symbol a)) args.

Definition agree_off (l : list string) (s s' : Syms) : Prop :=
  ∀ n, n ∉ l → get_raw s' n = get_raw s n ∧ get_handle s' n = get_handle s n.

Lemma agree_off_weaken l l' s s' : (∀ n, n ∈ l → n ∈ l') → agree_off l s s' → agree_off l' s s'.
Proof. intros Hl H n Hn. apply H. eauto. Qed.

Lemma agree_off_trans l s1 s2 s3 : agree_off l s1 s2 → agree_off l s2 s3 → agree_off l s1 s3.
Proof. intros H1 H2 n Hn. destruct (H1 n Hn), (H2 n Hn). split; congruence. Qed.

Lemma agree_off_cons x l s1 s2 s3 :
  agree_off [x] s1 s2 → agree_off l s2 s3 → agree_off (x :: l) s1 s3.
Proof.
  intros H1 H2. apply (agree_off_trans _ s1 s2 s3).
  - eapply (agree_off_weaken [x]); [|done]. intros n. rewrite !elem_of_cons, elem_of_nil. naive_solver.
  - eapply (agree_off_weaken l); [|done]. intros n. rewrite elem_of_cons. by right.
Qed.

Lemma handle_arg_agree a s : agree_off [symbol_name (arg_symbol a)] s (handle_arg a s).2.
Proof. intros n Hn. apply handle_arg_frame. intros ->. by apply Hn, list_elem_of_singleton. Qed.

Lemma symbol_set_agree l t s s' :
  agree_off l s s' → symbol_name t ∉ l → symbol_set t s' = symbol_set t s.
Proof. intros H Hn. destruct (H _ Hn) as [Hr Hh]. destruct t; simpl in *; by rewrite ?Hr, ?Hh. Qed.

Lemma any_split args s b s' :
  any args s = (b, s') →
  if b then
    ∃ pre a post, args = pre ++ a :: post ∧ symbol_set (arg_symbol a) s' = true ∧
      (∃ s1, any pre s = (false, s1) ∧ handle_arg a s1 = (true, s')) ∧
      agree_off (names (pre ++ [a])) s s'
  else agree_off (names args) s s'.
Proof.
  revert s. induction args as [|a args IH]; intros s; simpl.
  { intros [= <- <-]. by intros n _. }
  pose proof (handle_arg_agree a s) as Ha. destruct (handle_arg a s) as [[] s1] eqn:E; simpl in Ha.
  - intros [= <- <-]. exists [], a, args. split_and!; [done|by eapply handle_arg_sets| |done].
    by exists s.
  - intros Hany. specialize (IH s1 Hany). destruct b.
    + destruct IH as (pre & a' & post & -> & Hset & (s2 & Hpre & Ha') & Hoff).
      exists (a :: pre), a', post. split_and!; [done|done| |].
      { exists s2. simpl. by rewrite E. }
      by eapply agree_off_cons.
    + by eapply agree_off_cons.
Qed.

(** [operator()] succeeds exactly on the first argument that can be
    resolved and hooked: that one is set, and the symbols after it are not
    touched; when it fails, every argument failed. *)
Theorem any_first_success args s :
  let '(b, s') := any args s in
  if b then
    ∃ pre a post, args = pre ++ a :: post ∧ symbol_set (arg_symbol a) s' = true ∧
      (∃ s1, any pre s = (false, s1) ∧ handle_arg a s1 = (true, s')) ∧
      agree_off (names (pre ++ [a])) s s'
  else agree_off (names args) s s'.
Proof. destruct (any args s) as [b s'] eqn:E. by apply any_split. Qed.

Lemma all_split args s b s' :
  NoDup (names args) → all args s = (b, s') →
  ∃ pre post, args = pre ++ post ∧ (if b then post = [] else post ≠ []) ∧
    Forall (λ a, symbol_set (arg_symbol a) s' = true) pre ∧ agree_off (names args) s s'.
Proof.
  revert s. induction args as [|a args IH]; intros s Hnd; simpl.
  { intros [= <- <-]. exists [], []. by repeat split. }
  apply NoDup_cons in Hnd as [Ha Hnd]. fold (names args) in *.
  pose proof (handle_arg_agree a s) as Hoff. destruct (handle_arg a s) as [[] s1] eqn:E; simpl in Hoff.
  - intros Hall. destruct (IH s1 Hnd Hall) as (pre & post & -> & Hb & Hset & Hoff').
    exists (a :: pre), post. split_and!; [done|done| |].
    + constructor; [|done]. rewrite (symbol_set_agree _ _ _ _ Hoff' Ha).
      by eapply handle_arg_sets.
    + by eapply agree_off_cons.
  - intros [= <- <-]. exists [], (a :: args). split_and!; [done|done|constructor|].
    eapply agree_off_weaken; [|done]. intros n. rewrite !elem_of_cons, elem_of_nil. naive_solver.
Qed.

(** [all] that succeeds leaves every argument's symbol set; one that fails
    leaves set the arguments before the one that failed. *)
Theorem all_sets args s :
  NoDup (names args) →
  let '(b, s') := all args s in
  ∃ pre post, args = pre ++ post ∧ (if b then post = [] else post ≠ []) ∧
    Forall (λ a, symbol_set (arg_symbol a) s' = true) pre ∧ agree_off (names args) s s'.
Proof. intros Hnd. destruct (all args s) as [b s'] eqn:E. by apply all_split. Qed.
End handler.

(** ** Frames of initializers *)

Section frames.
Context (info : InitInfo).
Implicit Types (s : Syms) (L : list string).

Lemma agree_off_refl L s : agree_off L s s.
Proof. by intros n _. Qed.

Lemma any_agree args s : agree_off (names args) s (any info args s).2.
Proof.
  destruct (any info args s) as [b s'] eqn:E. apply any_split in E. destruct b; [|done].
  destruct E as (pre & a & post & -> & _ & _ & Hoff). eapply agree_off_weaken; [|exact Hoff].
  intros n. unfold names. rewrite !map_app, !elem_of_app. simpl. rewrite ?elem_of_cons, ?elem_of_nil. tauto.
Qed.

Lemma all_agree args s : agree_off (names args) s (all info args s).2.
Proof.
  revert s. induction args as [|a args IH]; intros s; simpl; [apply agree_off_refl|].
  pose proof (handle_arg_agree info a s) as Ha. destruct (handle_arg info a s) as [[] s1]; simpl in *.
  - eapply agree_off_cons; [exact Ha|apply IH].
  - eapply agree_off_weaken; [|exact Ha]. intros n. rewrite !elem_of_cons, ?elem_of_nil. tauto.
Qed.

Lemma dexfile_agree args s : agree_off (map symbol_name args) s (dexfile info args s).2.
Proof.
  revert s. induction args as [|t args IH]; intros s; simpl; [apply agree_off_refl|].
  assert (agree_off [symbol_name t] s (set_raw (symbol_name t) (dlsym_dexfile info (FixedStringOf t)) s)) as Ha.
  { intros n Hn. rewrite get_raw_set. split; [|done]. destruct (String.eqb_spec (symbol_name t) n) as [Heq|]; [|done].
    destruct Hn. rewrite Heq. by left. }
  destruct (negb _); simpl.
  - eapply agree_off_weaken; [|exact Ha]. intros n. rewrite !elem_of_cons, ?elem_of_nil. tauto.
  - eapply agree_off_cons; [exact Ha|apply IH].
Qed.

Definition mem_name (n : string) L : bool := existsb (String.eqb n) L.

Lemma mem_name_spec n L : mem_name n L = true → n ∈ L.
Proof. intros (k & Hk & ->%String.eqb_eq)%existsb_exists. by apply list_elem_of_In. Qed.

(** The same, for a list that holds the names. *)
Definition names_in (l L : list string) : bool := forallb (λ n, mem_name n L) l.

Lemma agree_off_in l L s s' : names_in l L = true → agree_off l s s' → agree_off L s s'.
Proof.
  intros Hl. apply agree_off_weaken. unfold names_in in Hl. rewrite forallb_forall in Hl.
  intros n Hn%list_elem_of_In. by apply mem_name_spec, Hl.
Qed.

Lemma set_raw_agree L n v s : mem_name n L = true → agree_off L s (set_raw n v s).
Proof.
  intros Hn%mem_name_spec k Hk. rewrite get_raw_set. split; [|done].
  by destruct (String.eqb_spec n k) as [->|].
Qed.

(** Symbols that are not in the list keep their values. *)
Lemma agree_off_set L t s s' :
  agree_off L s s' → mem_name (symbol_name t) L = false → symbol_set t s' = symbol_set t s.
Proof.
  intros H Hn. apply (symbol_set_agree _ _ _ _ H). intros Hin.
  assert (mem_name (symbol_name t) L = true); [|congruence].
  apply existsb_exists. exists (symbol_name t). split; [by apply list_elem_of_In|apply String.eqb_refl].
Qed.

(** ** Initializers do not depend on the other symbols *)

(** The symbols of [L] have the same values. *)
Definition agree_on L s s' : Prop :=
  ∀ n, n ∈ L → get_raw s' n = get_raw s n ∧ get_handle s' n = get_handle s n.

(** From states that agree on [L], [f] gives the same result and states that
    agree on [L]. *)
Definition local_init {A} L (f : Syms → A * Syms) : Prop :=
  ∀ s s', agree_on L s s' → ∃ r t t', f s = (r, t) ∧ f s' = (r, t') ∧ agree_on L t t'.

Lemma agree_on_set_raw L n v s s' : agree_on L s s' → agree_on L (set_raw n v s) (set_raw n v s').
Proof. intros H k Hk. rewrite !get_raw_set. destruct (H k Hk) as [-> ?]. done. Qed.

Lemma agree_on_set_handle L n v s s' : agree_on L s s' → agree_on L (set_handle n v s) (set_handle n v s').
Proof. intros H k Hk. rewrite !get_handle_set. by destruct (H k Hk) as [? ->]. Qed.

Lemma handle_at_local L f n r : local_init L (handle_at info f n r).
Proof.
  intros s s' H. unfold handle_at. destruct (hook info f r) as [h b].
  assert (agree_on L (store_backup n b s) (store_backup n b s')) as Hb by (destruct b; [by apply agree_on_set_raw|done]).
  destruct (negb (h =? 0)); eexists _, _, _; (split_and!; [done|done|]); [by apply agree_on_set_handle|done].
Qed.

Lemma handle_arg_local L a : local_init L (handle_arg info a).
Proof.
  assert (∀ t p, local_init L (handle info t p)) as Ht.
  { intros [n sym|n sym r] p s s' H; [|by apply handle_at_local]. eexists _, _, _.
    split_and!; [done|done|by apply agree_on_set_raw]. }
  destruct a as [t|t p|f [n sym|n sym r]]; [apply Ht|apply Ht| |apply handle_at_local].
  intros s s' H. by eexists _, _, _.
Qed.

Lemma any_local L args : local_init L (any info args).
Proof.
  induction args as [|a args IH]; intros s s' H; [by eexists _, _, _|]. cbn [any].
  destruct (handle_arg_local L a s s' H) as (ok & t & t' & -> & -> & Ht).
  destruct ok; [by eexists _, _, _|by apply IH].
Qed.

Lemma all_local L args : local_init L (all info args).
Proof.
  induction args as [|a args IH]; intros s s' H; [by eexists _, _, _|]. cbn [all].
  destruct (handle_arg_local L a s s' H) as (ok & t & t' & -> & -> & Ht).
  destruct ok; [by apply IH|by eexists _, _, _].
Qed.
End frames.
End HookHandler.

(** Shows that an initializer changes no symbols but those of the list [L]: every
    resolution changes only its own names. *)
Ltac frame_fact L H :=
  let H' := fresh "Hframe" in
  pose proof H as H';
  apply (HookHandler.agree_off_in _ L) in H'; [|vm_compute; reflexivity].

(** The symbols [s] are not the result of a call that is still to be taken apart. *)
Ltac settled s :=
  lazymatch s with
  | context [HookHandler.any] => fail
  | context [HookHandler.all] => fail
  | context [HookHandler.dexfile] => fail
  | _ => idtac
  end.

Ltac frame_step L :=
  match goal with
  | |- context [HookHandler.any ?info ?args ?s] =>
      settled s; frame_fact L (HookHandler.any_agree info args s); destruct (HookHandler.any info args s) as [[] ?]
  | |- context [HookHandler.all ?info ?args ?s] =>
      settled s; frame_fact L (HookHandler.all_agree info args s); destruct (HookHandler.all info args s) as [[] ?]
  | |- context [HookHandler.dexfile ?info ?args ?s] =>
      settled s; frame_fact L (HookHandler.dexfile_agree info args s); destruct (HookHandler.dexfile info args s) as [[] ?]
  end.

Ltac frame_chain :=
  cbn [fst snd negb orb andb] in *;
  repeat match goal with
  | |- HookHandler.agree_off _ ?s ?s => apply HookHandler.agree_off_refl
  | H : HookHandler.agree_off ?L _ ?s |- HookHandler.agree_off ?L _ ?s =>
      eapply HookHandler.agree_off_trans; [|exact H]; clear H
  | |- HookHandler.agree_off _ _ (set_raw _ _ _) =>
      eapply HookHandler.agree_off_trans; [|by apply HookHandler.set_raw_agree]
  end.

(** Takes the calls of two runs of an initializer apart together. *)
Ltac local_step :=
  match goal with
  | H : HookHandler.agree_on ?L ?s ?s' |- context [HookHandler.any ?info ?args ?s] =>
      let r := fresh "ok" in let t := fresh "t" in let t' := fresh "t" in let H' := fresh "Hon" in
      destruct (HookHandler.any_local info L args s s' H) as (r & t & t' & -> & -> & H')
  | H : HookHandler.agree_on ?L ?s ?s' |- context [HookHandler.all ?info ?args ?s] =>
      let r := fresh "ok" in let t := fresh "t" in let t' := fresh "t" in let H' := fresh "Hon" in
      destruct (HookHandler.all_local info L args s s' H) as (r & t & t' & -> & -> & H')
  | |- context [if ?b then _ else _] => is_var b; destruct b
  | |- context [if negb ?b then _ else _] => is_var b; destruct b
  end.
Ltac local_init :=
  repeat (local_step; cbn [fst snd negb orb andb]);
  first [ by eexists _, _, _ | idtac ].

(** An embedder that resolves the symbols of a list, with hooks at every address. *)
Definition resolving (l : list string) : InitInfo := {|
  inline_hooker f _ := (f + 1, f + 2);
  inline_unhooker := Some (λ _, true);
  art_symbol_resolver s _ := if bool_decide (s ∈ l) then 0x1000 else 0;
  art_symbol_prefix_resolver := None;
  dexfile_symbol_resolver := None;
|}.

Example all_sets_witness :
  NoDup ["A"%string; "B"%string] ∧
  let '(b, s') := HookHandler.all (resolving ["_a"%string])
    [HookHandler.One (Function "A" "_a"); HookHandler.One (Function "B" "_b")] no_syms in
  ∃ pre post, [HookHandler.One (Function "A" "_a"); HookHandler.One (Function "B" "_b")] = pre ++ post ∧
    (if b then post = [] else post ≠ []).
Proof.
  assert (NoDup ["A"%string; "B"%string]) as Hnd by (apply NoDup_ListNoDup; repeat constructor;
    simpl; intuition discriminate).
  split; [done|].
  pose proof (HookHandler.all_sets (resolving ["_a"%string])
    [HookHandler.One (Function "A" "_a"); HookHandler.One (Function "B" "_b")] no_syms Hnd) as H.
  revert H. destruct (HookHandler.all _ _ _). intros (pre & post & ? & ? & _). eauto.
Defined.

(** ** The hash *)

(** The GNU hash as usually written: [h * 33 + c] on 32 bits. *)
Fixpoint gnu_hash_spec (h : Z) (s : string) : Z :=
  match s with
  | EmptyString => h
  | String c s => gnu_hash_spec ((h * 33 + Z.of_nat (nat_of_ascii c)) mod 2 ^ 32) s
  end.

Lemma gnu_hash_from_spec h s : gnu_hash_from h s = gnu_hash_spec h s.
Proof.
  revert h. induction s as [|c s IH]; intros h; simpl; [done|]. rewrite IH. f_equal.
  rewrite wrap_add_r, <-(wrap_add_r 32 h), wrap_add_l, wrap_add_r, Z.shiftl_mul_pow2 by lia.
  unfold wrap. f_equal. lia.
Qed.

(** [GetGnuHash] is the GNU symbol hash. *)
Lemma GetGnuHash_spec s : GetGnuHash s = gnu_hash_spec 5381 s.
Proof. apply gnu_hash_from_spec. Qed.
