(* ===== verification/Slices.v ===== *)
(** * Strided slices

    [art/base/stride_iterator.cxx] and [art/base/array_slice.cxx]: iteration
    over objects whose size is known at run time only.  Pointers are unsigned
    words of the platform's width; references are addresses. *)

From S2P Require Import Prelude Platform.

Section words.
Context (cur : Arch).
Abbreviation w := (kPointerBits cur).

(** Conversion of a word to [ptrdiff_t]. *)
Definition to_signed (z : Z) : Z :=
  let z := wrap w z in if z <? 2 ^ (w - 1) then z else z - 2 ^ w.

(** ** [StrideIterator] *)

End words.

Module StrideIterator.
Section ops.
Context (cur : Arch).
Abbreviation w := (kPointerBits cur).

Record t := mk { ptr_ : Z; stride_ : Z }.

Definition eqb (a b : t) : bool := ptr_ a =? ptr_ b.
Definition neqb (a b : t) : bool := negb (eqb a b).
Definition incr (a : t) : t := mk (wrap w (ptr_ a + stride_ a)) (stride_ a).
Definition decr (a : t) : t := mk (wrap w (ptr_ a - stride_ a)) (stride_ a).
Definition post_incr (a : t) : t * t := (a, incr a).
Definition post_decr (a : t) : t * t := (a, decr a).
Definition add (a : t) (delta : Z) : t :=
  mk (wrap w (ptr_ a + to_signed cur (stride_ a) * delta)) (stride_ a).
Definition sub (a : t) (delta : Z) : t :=
  mk (wrap w (ptr_ a - to_signed cur (stride_ a) * delta)) (stride_ a).
(** The difference divides as unsigned words. *)
Definition diff (a rhs : t) : Z := to_signed cur (wrap w (ptr_ a - ptr_ rhs) / stride_ a).
Definition deref (a : t) : Z := ptr_ a.
Definition at_ (a : t) (n : Z) : Z := deref (add a n).
Definition ltb (lhs rhs : t) : bool := ptr_ lhs <? ptr_ rhs.
Definition gtb (lhs rhs : t) : bool := ltb rhs lhs.
Definition leb (lhs rhs : t) : bool := negb (ltb rhs lhs).
Definition geb (lhs rhs : t) : bool := negb (ltb lhs rhs).
End ops.
End StrideIterator.

(** ** [ArraySlice] *)

Module ArraySlice.
Section ops.
Context (cur : Arch).
Abbreviation w := (kPointerBits cur).

Record t := mk { array_ : Z; size_ : Z; element_size_ : Z }.

Definition empty_slice : t := mk 0 0 0.
(** The length is kept in 32 bits. *)
Definition make (array length element_size : Z) : t := mk array (wrap 32 length) element_size.

Definition AtUnchecked (s : t) (index : Z) : Z :=
  wrap w (array_ s + wrap w (index * element_size_ s)).
Definition begin (s : t) : StrideIterator.t :=
  StrideIterator.mk (AtUnchecked s 0) (element_size_ s).
Definition end_ (s : t) : StrideIterator.t :=
  StrideIterator.mk (AtUnchecked s (size_ s)) (element_size_ s).
Definition size (s : t) : Z := size_ s.
Definition empty (s : t) : bool := size s =? 0.
Definition front (s : t) : Z := AtUnchecked s 0.
Definition back (s : t) : Z := AtUnchecked s (wrap w (size_ s - 1)).
Definition SubArray_from (s : t) (pos length : Z) : t :=
  make (AtUnchecked s pos) length (element_size_ s).
Definition SubArray (s : t) (pos : Z) : t := SubArray_from s pos (wrap w (size s - pos)).
Definition Contains (s : t) (element : Z) : bool :=
  (AtUnchecked s 0 <=? element) && (element <? AtUnchecked s (size_ s)) &&
  (wrap w (element - AtUnchecked s 0) mod element_size_ s =? 0).
Definition OffsetOf (s : t) (element : Z) : Z :=
  wrap w (element - AtUnchecked s 0) / element_size_ s.
End ops.
End ArraySlice.

Section slices.
Context (cur : Arch).
Abbreviation w := (kPointerBits cur).

(** A range-for loop: the addresses visited from an iterator up to [last];
    [None] when the fuel runs out first. *)
Fixpoint range_for (fuel : nat) (it last : StrideIterator.t) : option (list Z) :=
  if StrideIterator.neqb it last then
    match fuel with
    | O => None
    | S fuel =>
        match range_for fuel (StrideIterator.incr cur it) last with
        | Some l => Some (StrideIterator.deref it :: l)
        | None => None
        end
    end
  else Some [].

Definition visit_all (s : ArraySlice.t) : option (list Z) :=
  range_for (Z.to_nat (ArraySlice.size_ s)) (ArraySlice.begin cur s) (ArraySlice.end_ cur s).

(** A slice lies in the address space and its elements are not empty. *)
Record slice_ok (s : ArraySlice.t) : Prop := {
  slice_array : 0 <= ArraySlice.array_ s;
  slice_size : 0 <= ArraySlice.size_ s < 2 ^ 32;
  slice_element : 0 < ArraySlice.element_size_ s;
  slice_fits : ArraySlice.array_ s + ArraySlice.size_ s * ArraySlice.element_size_ s < 2 ^ w;
}.

(** Element [i] of a slice. *)
Definition element (s : ArraySlice.t) (i : Z) : Z :=
  ArraySlice.array_ s + i * ArraySlice.element_size_ s.

Lemma AtUnchecked_element s i :
  slice_ok s → 0 <= i <= ArraySlice.size_ s → ArraySlice.AtUnchecked cur s i = element s i.
Proof.
  intros [] Hi. unfold ArraySlice.AtUnchecked, element.
  assert (0 <= i * ArraySlice.element_size_ s <=
    ArraySlice.size_ s * ArraySlice.element_size_ s) by nia.
  rewrite !wrap_small; [done|lia|]. rewrite wrap_small; lia.
Qed.

Lemma range_for_elements s n i :
  slice_ok s → i + Z.of_nat n = ArraySlice.size_ s → 0 <= i →
  range_for n (StrideIterator.mk (element s i) (ArraySlice.element_size_ s)) (ArraySlice.end_ cur s)
    = Some (map (λ k, element s (i + Z.of_nat k)) (seq 0 n)).
Proof.
  intros Hs. pose proof Hs as [].
  assert (StrideIterator.ptr_ (ArraySlice.end_ cur s) = element s (ArraySlice.size_ s)) as He
    by (apply AtUnchecked_element; done || lia).
  revert i. generalize dependent (ArraySlice.end_ cur s). intros last He.
  induction n as [|n IH]; intros i Hn Hi; cbn [range_for];
    unfold StrideIterator.neqb, StrideIterator.eqb; rewrite He; simpl.
  - rewrite (proj2 (Z.eqb_eq _ _)); [done|]. f_equal. lia.
  - rewrite (proj2 (Z.eqb_neq _ _)) by (unfold element; nia). simpl.
    unfold StrideIterator.incr. simpl.
    replace (wrap w (element s i + ArraySlice.element_size_ s)) with (element s (i + 1)).
    2: { rewrite wrap_small; unfold element; nia. }
    rewrite IH by lia. unfold StrideIterator.deref. simpl. rewrite Z.add_0_r. f_equal. f_equal.
    rewrite <-seq_shift, map_map. apply map_ext. intros k. f_equal. lia.
Qed.

(** A loop over a slice terminates after exactly [size()] iterations and
    visits the address of each element once, in order. *)
Theorem visit_all_elements s :
  slice_ok s →
  visit_all s = Some (map (λ k, element s (Z.of_nat k)) (seq 0 (Z.to_nat (ArraySlice.size_ s)))).
Proof.
  intros Hs. unfold visit_all, ArraySlice.begin. pose proof Hs as [].
  rewrite AtUnchecked_element by (done || lia).
  rewrite range_for_elements by (done || lia). done.
Qed.

(** [Contains] holds exactly of the addresses of elements, and [OffsetOf]
    gives back the index of an element. *)
Theorem Contains_OffsetOf s a :
  slice_ok s → 0 <= a < 2 ^ w →
  (ArraySlice.Contains cur s a = true ↔ ∃ i, 0 <= i < ArraySlice.size_ s ∧ a = element s i) ∧
  (∀ i, 0 <= i < ArraySlice.size_ s → ArraySlice.OffsetOf cur s (element s i) = i).
Proof.
  intros Hs Ha. pose proof Hs as []. split.
  - unfold ArraySlice.Contains. rewrite !AtUnchecked_element by (done || lia).
    unfold element. rewrite !andb_true_iff, Z.leb_le, Z.ltb_lt, Z.eqb_eq, Z.mul_0_l, Z.add_0_r.
    split.
    + intros [[H1 H2] H3]. rewrite wrap_small in H3 by lia.
      apply Z.mod_divide in H3 as [i Hi]; [|lia]. exists i. nia.
    + intros (i & Hi & ->). rewrite wrap_small by nia. split; [nia|].
      replace (_ - _) with (i * ArraySlice.element_size_ s) by lia. apply Z.mod_mul. lia.
  - intros i Hi. unfold ArraySlice.OffsetOf. rewrite AtUnchecked_element by (done || lia).
    unfold element. rewrite wrap_small by nia.
    replace (_ - _) with (i * ArraySlice.element_size_ s) by lia. apply Z.div_mul. lia.
Qed.

(** Moving an iterator forward and taking the difference gives the distance
    back; for a distance of -1 the unsigned division gives another value. *)
Theorem diff_add p stride n :
  0 < stride < 2 ^ (w - 1) → 0 <= n → stride * n < 2 ^ (w - 1) →
  StrideIterator.diff cur (StrideIterator.add cur (StrideIterator.mk p stride) n)
    (StrideIterator.mk p stride) = n ∧
  (1 < stride → StrideIterator.diff cur (StrideIterator.add cur (StrideIterator.mk p stride) (-1))
    (StrideIterator.mk p stride) ≠ -1).
Proof.
  pose proof (kPointerBits_pos cur) as Hw.
  assert (2 ^ w = 2 * 2 ^ (w - 1)) as H2 by (rewrite <-Z.pow_succ_r by lia; f_equal; lia).
  pose proof (Z.pow_pos_nonneg 2 (w - 1) ltac:(lia) ltac:(lia)) as Hpos.
  intros Hs Hn Hsn. unfold StrideIterator.diff, StrideIterator.add. simpl.
  replace (to_signed cur stride) with stride.
  2: { unfold to_signed. rewrite wrap_small by lia. case_match; lia. }
  rewrite !wrap_sub_l. split.
  - replace (p + stride * n - p) with (n * stride) by lia.
    rewrite (wrap_small w (n * stride)) by nia. rewrite Z.div_mul by lia.
    unfold to_signed. rewrite wrap_small by nia. case_match; nia.
  - intros H1. replace (p + stride * -1 - p) with (- stride) by lia.
    assert (wrap w (- stride) = 2 ^ w - stride) as ->.
    { unfold wrap. rewrite Z.mod_opp_l_nz; rewrite ?Z.mod_small; lia. }
    assert (0 <= (2 ^ w - stride) / stride <= 2 ^ (w - 1) - 1) as Hd.
    { split; [apply Z.div_pos; lia|].
      assert ((2 ^ w - stride) / stride < 2 ^ (w - 1)); [|lia].
      apply Z.div_lt_upper_bound; nia. }
    unfold to_signed. rewrite wrap_small by lia. case_match; lia.
Qed.
End slices.

(** Four objects of 40 bytes at 0x1000. *)
Definition example_slice : ArraySlice.t := ArraySlice.make 0x1000 4 40.

Lemma example_slice_ok : slice_ok kArm64 example_slice.
Proof. split; vm_compute; by repeat split. Qed.

Example visit_all_elements_witness :
  slice_ok kArm64 example_slice ∧
  visit_all kArm64 example_slice = Some [0x1000; 0x1028; 0x1050; 0x1078].
Proof.
  split; [apply example_slice_ok|].
  etransitivity; [apply (visit_all_elements kArm64 example_slice example_slice_ok)|done].
Defined.

Example Contains_OffsetOf_witness :
  slice_ok kArm64 example_slice ∧ ArraySlice.OffsetOf kArm64 example_slice 0x1050 = 2.
Proof.
  split; [apply example_slice_ok|].
  apply (proj2 (Contains_OffsetOf kArm64 example_slice 0x1050 example_slice_ok ltac:(done)) 2).
  done.
Defined.

Example diff_add_witness :
  StrideIterator.diff kArm64 (StrideIterator.add kArm64 (StrideIterator.mk 0x1000 40) 3)
    (StrideIterator.mk 0x1000 40) = 3.
Proof. apply (diff_add kArm64 0x1000 40 3); done. Defined.
