(* ===== verification/Vm.v ===== *)
(** * The state shared by the runtime handlers

    The methods of the runtime, the registry, the entry points set aside
    during class initialization, the code memory and the internal method ids:
    one record, threaded through the handlers of [art/runtime], the class
    hooks of [art/mirror] and the API of [lsplant.cc]; with the lemmas on how
    the writes of [ArtMethod] act on the map of methods. *)

From S2P Require Import Prelude Memory Platform ArtMethod Records.

Record Vm := mkVm {
  methods : Methods;
  registry : Registry;
  backup_methods_ : gmap Z (gmap Z (gmap Z Z));  (* thread, class definition, method *)
  code : mem;
  stubs : list Z;                                 (* stubs handed out, newest first *)
  kInternalMethods : list Z;                      (* the method ids the library caches *)
}.

Definition on_methods (f : Methods → Methods) (v : Vm) : Vm :=
  mkVm (f (methods v)) (registry v) (backup_methods_ v) (code v) (stubs v) (kInternalMethods v).
Definition on_registry (f : Registry → Registry) (v : Vm) : Vm :=
  mkVm (methods v) (f (registry v)) (backup_methods_ v) (code v) (stubs v) (kInternalMethods v).
Definition on_backups (f : gmap Z (gmap Z (gmap Z Z)) → gmap Z (gmap Z (gmap Z Z))) (v : Vm) : Vm :=
  mkVm (methods v) (registry v) (f (backup_methods_ v)) (code v) (stubs v) (kInternalMethods v).
Definition on_code (f : mem → mem) (v : Vm) : Vm :=
  mkVm (methods v) (registry v) (backup_methods_ v) (f (code v)) (stubs v) (kInternalMethods v).
Definition on_stubs (f : list Z → list Z) (v : Vm) : Vm :=
  mkVm (methods v) (registry v) (backup_methods_ v) (code v) (f (stubs v)) (kInternalMethods v).
Definition on_internal (f : list Z → list Z) (v : Vm) : Vm :=
  mkVm (methods v) (registry v) (backup_methods_ v) (code v) (stubs v) (f (kInternalMethods v)).

Definition hooked (v : Vm) (t : Z) : Prop := is_Some (hooked_methods_ (registry v) !! t).
Definition entry_of (v : Vm) (t : Z) : Z := entry_point (methods v t).

(** ** Writes to the map of methods *)

Section writes.
Context (c : Config).
Implicit Types (h : Methods) (m t e : Z).

Lemma SetEntryPoint_other m e h t : t ≠ m → SetEntryPoint c m e h t = h t.
Proof.
  intros Hne. unfold SetEntryPoint. simpl.
  case_match; by rewrite !fn_lookup_alter_ne by done.
Qed.

Lemma SetEntryPoint_entry m e h : entry_point (SetEntryPoint c m e h m) = e.
Proof.
  unfold SetEntryPoint. simpl. case_match; by rewrite !fn_lookup_alter.
Qed.

Lemma SetEntryPoint_fields m e h t :
  let x := SetEntryPoint c m e h t in
  access_flags x = access_flags (h t) ∧ data x = data (h t) ∧
  declaring_class x = declaring_class (h t).
Proof.
  destruct (decide (t = m)) as [->|Hne]; [|by rewrite SetEntryPoint_other].
  unfold SetEntryPoint. simpl. case_match; by rewrite !fn_lookup_alter.
Qed.

Lemma SetData_other m e h t : t ≠ m → SetData m e h t = h t.
Proof. intros. simpl. by apply fn_lookup_alter_ne. Qed.

Lemma SetData_fields m e h t :
  let x := SetData m e h t in
  access_flags x = access_flags (h t) ∧ entry_point x = entry_point (h t) ∧
  declaring_class x = declaring_class (h t).
Proof.
  destruct (decide (t = m)) as [->|Hne]; [|by rewrite SetData_other].
  simpl. by rewrite fn_lookup_alter.
Qed.

Lemma SetData_data m e h : data (SetData m e h m) = e.
Proof. simpl. by rewrite fn_lookup_alter. Qed.

Lemma entry_SetEntryPoint m e h t :
  entry_point (SetEntryPoint c m e h t) = if decide (t = m) then e else entry_point (h t).
Proof.
  case_decide as Ht; [subst; apply SetEntryPoint_entry|by rewrite SetEntryPoint_other].
Qed.

Lemma SetAccessFlags_fields m f h t :
  let x := SetAccessFlags m f h t in
  access_flags x = (if decide (t = m) then f else access_flags (h t)) ∧ data x = data (h t) ∧
  entry_point x = entry_point (h t) ∧ interpreter_entry_point x = interpreter_entry_point (h t) ∧
  declaring_class x = declaring_class (h t).
Proof.
  simpl. case_decide as Ht; [subst; by rewrite fn_lookup_alter|by rewrite fn_lookup_alter_ne].
Qed.
End writes.

(** ** Hooks are kept *)

(** The registry's hook table and the entry points of hooked methods are the
    same before and after. *)
Record hooks_kept (v v' : Vm) : Prop := {
  kept_records : hooked_methods_ (registry v') = hooked_methods_ (registry v);
  kept_entries t : hooked v t → entry_of v' t = entry_of v t;
}.

#[global] Instance hooks_kept_refl : Reflexive hooks_kept.
Proof. by split. Qed.

#[global] Instance hooks_kept_trans : Transitive hooks_kept.
Proof.
  intros v1 v2 v3 [H1 E1] [H2 E2]. split; [congruence|].
  intros t Ht. rewrite E2, E1; [done|done|]. unfold hooked in *. by rewrite H1.
Qed.

(** A backup is not itself hooked. *)
Lemma backup_not_hooked v t :
  registry_ok (registry v) → hooked v t → ¬ hooked v (IsHooked (registry v) t).
Proof.
  intros Hr [rec Hrec] Hb. unfold IsHooked in Hb. unfold hooked in *. rewrite Hrec in Hb.
  pose proof (ok_apart _ Hr _ Hb) as Hn. pose proof (ok_backup _ Hr _ _ Hrec). congruence.
Qed.

Lemma hooked_IsHooked v t : registry_ok (registry v) → hooked v t ↔ IsHooked (registry v) t ≠ 0.
Proof.
  intros Hr. unfold hooked. rewrite (IsHooked_null _ Hr). destruct (_ !! t); split; naive_solver.
Qed.

(** ** A concrete state *)

(** Method 0x100, hooked with backup 0x200 and a trampoline at 0x9000; in the
    second state it was deoptimized first, when its entry point was 0x5000. *)
Definition hooked_vm (r : Registry) : Vm :=
  let original := mkMethod 0 0 0x5000 0 0 in
  let h : Methods := λ p, if p =? 0x100 then with_entry_point 0x9000 original else original in
  mkVm h (RecordHooked 0x100 0x300 0x200 0x10 0x9001 0x44 r) ∅ (λ _, 0) [] [].

Definition deoptimized_first : Registry := RecordDeoptimized 0x10 0x100 0x5000 empty_registry.

Lemma hooked_vm_ok : registry_ok (registry (hooked_vm empty_registry)).
Proof. apply RecordHooked_ok; [apply empty_registry_ok|done..]. Qed.

Lemma deoptimized_vm_ok : registry_ok (registry (hooked_vm deoptimized_first)).
Proof. apply RecordHooked_ok; [apply RecordDeoptimized_ok, empty_registry_ok|done..]. Qed.
