(* ===== verification/MirrorClass.v ===== *)
(** * Mirror classes

    [art/mirror/class.cxx]: the entry points of static hooked or deoptimized
    methods set aside when a class becomes initialized, the walk over the
    methods of a class, and [Class::Init]. *)

From S2P Require Import Prelude Memory Platform ArtMethod Records HookHelper Slices Vm.

(** ** Set-aside entry points *)

Section backups.
Implicit Types (h : Methods) (s : gset Z) (out : gmap Z Z).

(** The loop body of [BackupClassMethods]. *)
Definition backup_static h (out : gmap Z Z) (method : Z) : gmap Z Z :=
  if IsStatic h method then emplace method (GetEntryPoint h method) out else out.

(** [if_contains] of a class table, with the loop over its set. *)
Definition backup_class h (table : gmap Z (gset Z)) (class_def : Z) out : gmap Z Z :=
  match table !! class_def with
  | Some s => foldl (backup_static h) out (elements s)
  | None => out
  end.

Definition BackupClassMethods (class_def self : Z) (v : Vm) : Vm :=
  if class_def =? 0 then v
  else
    let out := backup_class (methods v) (hooked_classes_ (registry v)) class_def ∅ in
    let out := backup_class (methods v) (deoptimized_classes_ (registry v)) class_def out in
    if bool_decide (out = ∅) then v
    else on_backups (alter (emplace class_def out) self ∘ emplace self ∅) v.

(** [backup_methods_.erase] of the found entries of one class, dropping
    threads without entries. *)
Definition erase_class (class_def : Z) (m : gmap Z (gmap Z Z)) : option (gmap Z (gmap Z Z)) :=
  let m := delete class_def m in
  if bool_decide (m = ∅) then None else Some m.

(** [PopBackup]; [merge] keeps the entries already there. *)
Definition PopBackup (class_def self : Z) (v : Vm) : gmap Z Z * Vm :=
  let b := backup_methods_ v in
  if bool_decide (b = ∅) then (∅, v)
  else if negb (class_def =? 0) then
    (foldl (λ ms p, match p.2 !! class_def with Some found => ms ∪ found | None => ms end) ∅
       (map_to_list b),
     on_backups (omap (erase_class class_def)) v)
  else if negb (self =? 0) then
    match b !! self with
    | Some found => (foldl (λ ms p, ms ∪ p.2) ∅ (map_to_list found), on_backups (delete self) v)
    | None => (∅, v)
    end
  else (∅, v).
End backups.

(** The hooks of [Class::SetStatus] ([SetClassStatus_], [SetStatus_],
    [TrivialSetStatus_] and [ClassSetStatus_] differ in the types of their
    arguments only); [backup] is the runtime's function. *)
Definition SetStatus (initialized_status : Z) (backup : Vm → Vm) (class_def new_status self : Z)
    (v : Vm) : Vm :=
  let v := if new_status =? initialized_status then BackupClassMethods class_def self v else v in
  backup v.

(** [initialized_status] as [Init] sets it. *)
Definition initialized_status (sdk_int : Z) : Z :=
  if __ANDROID_API_R__ <=? sdk_int then 15
  else if __ANDROID_API_P__ <=? sdk_int then 14
  else if sdk_int =? __ANDROID_API_O_MR1__ then 11
  else 10.

(** ** Methods of a class in memory *)

Module Class.
Section memory.
Context (cur : Arch) (sdk_int : Z) (art_method_size : Z) (object_array_base_offset : Z).
(** The offsets [Init] computes; 0 when unknown. *)
Context (access_flags_offset methods_or_direct_methods_offset virtual_methods_offset : Z).
Implicit Types (m : mem) (this : Z).

Definition kAccClassIsProxy : Z := 0x00040000.
Abbreviation size_t_bytes := (Z.to_nat (kPointerSize cur)).

Definition GetAccessFlags m this : option Z :=
  if access_flags_offset =? 0 then None else Some (load m 4 (this + access_flags_offset)).

Definition IsProxyClass m this : option bool :=
  match GetAccessFlags m this with
  | None => None
  | Some access_flags => Some (has_bits access_flags kAccClassIsProxy)
  end.

(** The 64-bit pointer to the method array, cut to [uintptr_t]. *)
Definition methods_pointer m this offset : Z :=
  wrap (kPointerBits cur) (load m 8 (this + offset)).

Definition GetDeclaredMethods m this : ArraySlice.t :=
  let methods := methods_pointer m this methods_or_direct_methods_offset in
  ArraySlice.make (wrap (kPointerBits cur) (methods + kPointerSize cur))
    (load m size_t_bytes methods) art_method_size.

(** The methods [VisitMethodsForMOrLower] passes to the visitor. *)
Definition methods_for_M_or_lower m this offset : list Z :=
  if sdk_int =? __ANDROID_API_M__ then
    let methods := methods_pointer m this offset in
    let length := load m size_t_bytes methods in
    map (λ i, wrap (kPointerBits cur) (Z.of_nat i * art_method_size + methods + kPointerSize cur))
      (seq 0 (Z.to_nat length))
  else
    let base_offset := object_array_base_offset in
    let methods := load m 4 (this + offset) in
    let length := load m 4 (methods + base_offset - 4) in
    map (λ i, load m 4 (Z.of_nat i * 4 + base_offset)) (seq 0 (Z.to_nat length)).

(** A visitor is applied until it returns [true]. *)
Fixpoint visit {S} (visitor : Z → S → bool * S) (l : list Z) (s : S) : bool * S :=
  match l with
  | [] => (false, s)
  | method :: l =>
      let '(stop, s) := visitor method s in
      if stop then (true, s) else visit visitor l s
  end.

(** [VisitMethods]: whether the methods could be enumerated. *)
Definition VisitMethods {S} m this (visitor : Z → S → bool * S) (s : S) : bool * S :=
  if __ANDROID_API_N__ <=? sdk_int then
    if methods_or_direct_methods_offset =? 0 then (false, s)
    else
      let l := default [] (visit_all cur (GetDeclaredMethods m this)) in
      (true, (visit visitor l s).2)
  else if negb (methods_or_direct_methods_offset =? 0) && negb (virtual_methods_offset =? 0) then
    let '(stop, s) := visit visitor (methods_for_M_or_lower m this methods_or_direct_methods_offset) s in
    if stop then (true, s)
    else (true, (visit visitor (methods_for_M_or_lower m this virtual_methods_offset) s).2)
  else (false, s).

(** The static [VisitMethods] on a reflected class: falls back to reflection. *)
Definition VisitMethods_reflected {S} m (mirror_class : Z) (constructors methods : list Z)
    (visitor : Z → S → bool * S) (s : S) : S :=
  let '(done, s) := if mirror_class =? 0 then (false, s) else VisitMethods m mirror_class visitor s in
  if done then s
  else
    let '(stop, s) := visit visitor constructors s in
    if stop then s else (visit visitor methods s).2.
End memory.

(** ** [Class::Init] *)

Section init.
Context (info : InitInfo) (replace_of : string → Z) (sdk_int : Z).
(** [Unsafe] and its [ObjectFieldOffset] of a field of [java.lang.Class], 0 when
    the field does not exist. *)
Context (has_unsafe : bool) (object_array_base_offset : Z) (offset_of : string → Z).

Definition GetClassDef_ := Function "GetClassDef_" "_ZN3art6mirror5Class11GetClassDefEv".
Definition SetClassStatus_ := hooker replace_of "SetClassStatus_"
  "_ZN3art6mirror5Class9SetStatusENS_6HandleIS1_EENS_11ClassStatusEPNS_6ThreadE".
Definition SetStatus_ := hooker replace_of "SetStatus_"
  "_ZN3art6mirror5Class9SetStatusENS_6HandleIS1_EENS1_6StatusEPNS_6ThreadE".
Definition TrivialSetStatus_ := hooker replace_of "TrivialSetStatus_"
  "_ZN3art6mirror5Class9SetStatusENS_6HandleIS1_EENS1_6StatusEPNS_6ThreadE".
Definition ClassSetStatus_ := hooker replace_of "ClassSetStatus_"
  "_ZN3art6mirror5Class9SetStatusENS1_6StatusEPNS_6ThreadE".

(** The offsets: access flags, methods or direct methods, virtual methods. *)
Definition init_class_offsets : Z * Z * Z :=
  if negb has_unsafe then (0, 0, 0)
  else
    let flags := offset_of "accessFlags" in
    if __ANDROID_API_N__ <=? sdk_int then (flags, offset_of "methods", 0)
    else if object_array_base_offset =? 0 then (flags, 0, 0)
    else (flags, offset_of "directMethods", offset_of "virtualMethods").

Definition Init (s : Syms) : option (Z * (Z * Z * Z)) * Syms :=
  let '(ok, s) := HookHandler.any info [HookHandler.One GetClassDef_] s in
  if negb ok then (None, s)
  else
    let '(ok, s) :=
      if sdk_int <? __ANDROID_API_O__ then
        HookHandler.any info [HookHandler.One SetStatus_; HookHandler.One ClassSetStatus_] s
      else
        HookHandler.any info [HookHandler.One SetClassStatus_; HookHandler.One TrivialSetStatus_] s in
    if negb ok then (None, s)
    else (Some (initialized_status sdk_int, init_class_offsets), s).
End init.
End Class.

(** ** Lemmas *)

Lemma backup_static_lookup h l out t :
  foldl (backup_static h) out l !! t =
    match out !! t with
    | Some e => Some e
    | None => if bool_decide (t ∈ l) && IsStatic h t then Some (entry_point (h t)) else None
    end.
Proof.
  revert out. induction l as [|x l IH]; intros out; simpl.
  { by destruct (out !! t). }
  rewrite IH. unfold backup_static, GetEntryPoint. simpl.
  destruct (decide (t = x)) as [->|Hne].
  - destruct (IsStatic h x) eqn:Hs.
    + rewrite lookup_emplace_same. destruct (out !! x); simpl; [done|].
      by rewrite bool_decide_eq_true_2 by by left.
    + by rewrite !andb_false_r.
  - replace (bool_decide (t ∈ x :: l)) with (bool_decide (t ∈ l)).
    2: { apply bool_decide_ext. rewrite elem_of_cons. naive_solver. }
    destruct (IsStatic h x); [by rewrite lookup_emplace_other|done].
Qed.

(** What [BackupClassMethods] sets aside: the entry points of the static
    methods of the class that are hooked or deoptimized. *)
Definition set_aside (v : Vm) (class_def : Z) : gmap Z Z :=
  backup_class (methods v) (deoptimized_classes_ (registry v)) class_def
    (backup_class (methods v) (hooked_classes_ (registry v)) class_def ∅).

Lemma backup_class_lookup h table c out t :
  (∀ e, out !! t = Some e → e = entry_point (h t)) →
  (∀ e, backup_class h table c out !! t = Some e → e = entry_point (h t)) ∧
  (is_Some (backup_class h table c out !! t) ↔
     is_Some (out !! t) ∨ (in_class table c t ∧ IsStatic h t = true)).
Proof.
  intros Hout. unfold backup_class. destruct (table !! c) as [s|] eqn:E.
  - rewrite backup_static_lookup, (in_class_some _ _ _ s) by done.
    destruct (out !! t) as [e|] eqn:Eo; [naive_solver|].
    case_bool_decide as Ht; rewrite elem_of_elements in Ht; destruct (IsStatic h t); simpl;
      (split; [naive_solver|]); rewrite ?is_Some_alt; simpl; naive_solver.
  - rewrite in_class_none by done. split; [done|naive_solver].
Qed.

Lemma set_aside_lookup v c t :
  (∀ e, set_aside v c !! t = Some e → e = entry_of v t) ∧
  (is_Some (set_aside v c !! t) ↔
     (in_class (hooked_classes_ (registry v)) c t ∨
      in_class (deoptimized_classes_ (registry v)) c t) ∧ IsStatic (methods v) t = true).
Proof.
  unfold set_aside.
  destruct (backup_class_lookup (methods v) (hooked_classes_ (registry v)) c ∅ t) as [H1 H2].
  { intros e. by rewrite lookup_empty. }
  destruct (backup_class_lookup (methods v) (deoptimized_classes_ (registry v)) c _ t H1) as [H3 H4].
  split; [done|]. rewrite H4, H2, lookup_empty, is_Some_alt. naive_solver.
Qed.

(** Between class initializations nothing is set aside; what one sets aside is
    popped by class as well as by thread. *)
Lemma BackupClassMethods_from_empty v c self :
  backup_methods_ v = ∅ → c ≠ 0 →
  BackupClassMethods c self v =
    if bool_decide (set_aside v c = ∅) then v
    else on_backups (λ _, {[self := {[c := set_aside v c]}]}) v.
Proof.
  intros Hb Hc. unfold BackupClassMethods. rewrite (proj2 (Z.eqb_neq _ _) Hc).
  fold (set_aside v c). case_bool_decide; [done|].
  unfold on_backups. simpl. rewrite Hb. f_equal.
  unfold emplace at 2. rewrite lookup_empty. apply map_eq. intros i.
  destruct (decide (i = self)) as [->|Hne].
  - rewrite lookup_alter_eq, lookup_insert_eq, lookup_singleton_eq. simpl.
    unfold emplace. by rewrite lookup_empty.
  - rewrite lookup_alter_ne, lookup_insert_ne, lookup_singleton_ne by done. done.
Qed.

Lemma PopBackup_set_aside v c self (by_thread : bool) :
  backup_methods_ v = ∅ → c ≠ 0 → self ≠ 0 →
  PopBackup (if by_thread then 0 else c) self (BackupClassMethods c self v) = (set_aside v c, v).
Proof.
  intros Hb Hc Hs. rewrite BackupClassMethods_from_empty by done.
  case_bool_decide as He.
  - unfold PopBackup. rewrite Hb, He. done.
  - unfold PopBackup. simpl. rewrite bool_decide_eq_false_2 by apply map_non_empty_singleton.
    assert (on_backups (λ _, ∅) v = v) as Hv by (destruct v; simpl in *; by subst).
    destruct by_thread; simpl.
    + rewrite (proj2 (Z.eqb_neq _ _) Hs), lookup_singleton_eq. simpl.
      rewrite map_to_list_singleton. simpl. rewrite (left_id_L ∅ (∪)). f_equal.
      unfold on_backups. simpl. rewrite delete_singleton_eq. done.
    + rewrite (proj2 (Z.eqb_neq _ _) Hc), map_to_list_singleton. simpl.
      rewrite lookup_singleton_eq, (left_id_L ∅ (∪)). f_equal. rewrite <-Hv at 2.
      unfold on_backups. simpl. f_equal. apply map_eq. intros i. rewrite lookup_omap, lookup_empty.
      destruct (decide (i = self)) as [->|Hne]; [|by rewrite lookup_singleton_ne].
      rewrite lookup_singleton_eq. simpl. unfold erase_class. by rewrite delete_singleton_eq.
Qed.
