(* ===== verification/ClassLinker.v ===== *)
(** * The class linker

    [art/runtime/class_linker.cxx]: registration of native methods redirected
    to backups, the updater that protects hooked native methods while the
    runtime registers functions, the restoration of entry points after class
    initialization, deoptimization, and [ClassLinker::Init].  The runtime's
    own functions are parameters; what is assumed of them is stated where it
    is used. *)

From S2P Require Import Prelude Memory Platform ArtMethod Records HookHelper Vm MirrorClass.

Section class_linker.
Context (c : Config).
(** [art_quick_to_interpreter_bridge_] (0 when unresolved), and the runtime's
    [SetEntryPointsToInterpreter] when it was resolved. *)
Context (art_quick_to_interpreter_bridge_ : Z)
        (SetEntryPointsToInterpreter_ : option (Z → Methods → Methods)).
Implicit Types (v : Vm) (r : Registry) (method : Z).

(** ** Deoptimization *)

Definition CanSetEntryPointsToInterpreter : bool :=
  negb (art_quick_to_interpreter_bridge_ =? 0) ||
  match SetEntryPointsToInterpreter_ with Some _ => true | None => false end.

Definition SetEntryPointsToInterpreter (art_method : Z) (v : Vm) : bool * Vm :=
  if negb (art_quick_to_interpreter_bridge_ =? 0) then
    (true, on_methods (SetEntryPoint c art_method art_quick_to_interpreter_bridge_) v)
  else
    match SetEntryPointsToInterpreter_ with
    | Some f => (true, on_methods (f art_method) v)
    | None => (false, v)
    end.

(** ** Native methods *)

Definition MayGetBackup r method : Z :=
  let backup := IsHooked r method in
  if negb (backup =? 0) then backup else method.

(** The hooks of [RegisterNative] and [UnregisterNative] of every Android
    version: the runtime's function, called with the backup of a hooked method. *)
Definition RegisterNative {A R} (backup : Z → A → Vm → R * Vm) method (args : A) (v : Vm) : R * Vm :=
  backup (MayGetBackup (registry v) method) args v.

Definition ShouldUseInterpreterEntrypoint (backup : Z → Z → bool) v method quick_code : bool :=
  if negb (quick_code =? 0) && negb (IsHooked (registry v) method =? 0) then false
  else backup method quick_code.

(** [JNINativeMethod]; a null member is [None] or 0. *)
Record JNINativeMethod := { jni_name : option string; jni_signature : option string; fnPtr : Z }.

(** [methods_] of the updater: backup, data and entry point by method. *)
Abbreviation Saved := (gmap Z (Z * Z * Z)).

Definition save_method v method (saved : Saved) : Saved :=
  let backup := IsHooked (registry v) method in
  if (backup =? 0) || negb (IsNative (methods v) backup) then saved
  else <[method := (backup, GetData (methods v) method, GetEntryPoint (methods v) method)]> saved.

(** [GetMethodID] and [GetStaticMethodID] of the class, by [is_static]: the
    method found. *)
Context (lookup_method : bool → string → string → option Z).

(** The loop of the first constructor: the kind of method that was found last
    is looked up first.  The flag records whether a failed lookup left its
    [NoSuchMethodError] pending. *)
Fixpoint save_natives v (is_static pending : bool) (l : list JNINativeMethod) (saved : Saved)
    : Saved * bool :=
  match l with
  | [] => (saved, pending)
  | native_method :: l =>
      match jni_name native_method, jni_signature native_method, fnPtr native_method =? 0 with
      | Some name, Some signature, false =>
          match lookup_method is_static name signature with
          | Some method => save_natives v is_static pending l (save_method v method saved)
          | None =>
              let is_static := negb is_static in
              match lookup_method is_static name signature with
              | Some method => save_natives v is_static true l (save_method v method saved)
              | None => save_natives v is_static true l saved
              end
          end
      | _, _, _ => save_natives v is_static pending l saved
      end
  end.

Definition Updater_of_natives v (valid_args : bool) (l : list JNINativeMethod) : Saved * bool :=
  if negb valid_args || bool_decide (l = []) then (∅, false)
  else save_natives v true false l ∅.

(** The second constructor, over the methods of the class. *)
Definition Updater_of_class v (valid_args : bool) (class_methods : list Z) : Saved :=
  if negb valid_args then ∅
  else (Class.visit (λ method saved,
          (false, if negb (IsNative (methods v) method) then saved else save_method v method saved))
          class_methods ∅).2.

(** The destructor's loop body. *)
Definition restore_saved (h : Methods) (p : Z * (Z * Z * Z)) : Methods :=
  let '(method, (backup, data, entry_point)) := p in
  if (GetData h method =? data) && (GetEntryPoint h method =? entry_point) then h
  else
    let h := SetData backup (GetData h method) h in
    let h := SetEntryPoint c backup (GetEntryPoint h method) h in
    let h := SetData method data h in
    SetEntryPoint c method entry_point h.

Definition Updater_destroy (saved : Saved) (v : Vm) : Vm :=
  on_methods (λ h, foldl restore_saved h (map_to_list saved)) v.

(** The hooks of [RegisterNatives] and [UnregisterNatives]; [backup] is the
    JNI function. *)
Definition RegisterNativesJNIEnv {R} (backup : Vm → R * Vm) (valid_args : bool)
    (l : list JNINativeMethod) v : R * Vm :=
  let updater := (Updater_of_natives v valid_args l).1 in
  let '(result, v) := backup v in
  (result, Updater_destroy updater v).

Definition UnregisterNativesJNIEnv {R} (backup : Vm → R * Vm) (valid_args : bool)
    (class_methods : list Z) v : R * Vm :=
  let updater := Updater_of_class v valid_args class_methods in
  let '(result, v) := backup v in
  (result, Updater_destroy updater v).

(** ** Class initialization *)

(** The loop body of [RestoreBackup]. *)
Definition restore_one (v : Vm) (p : Z * Z) : Vm :=
  let '(art_method, old_trampoline) := p in
  let new_trampoline := GetEntryPoint (methods v) art_method in
  let v := on_methods (SetEntryPoint c art_method old_trampoline) v in
  let deoptimized := IsDeoptimized (registry v) art_method in
  let backup_method := IsHooked (registry v) art_method in
  if negb (backup_method =? 0) then
    if negb deoptimized && negb (new_trampoline =? old_trampoline) then
      on_methods (SetEntryPoint c backup_method new_trampoline) v
    else v
  else if deoptimized then
    if negb (new_trampoline =? art_quick_to_interpreter_bridge_) &&
       negb (IsNative (methods v) art_method) then
      (SetEntryPointsToInterpreter art_method v).2
    else v
  else v.

Definition RestoreBackup (class_def self : Z) (v : Vm) : Vm :=
  let '(ms, v) := PopBackup class_def self v in
  foldl restore_one v (map_to_list ms).

(** The hooks of [FixupStaticTrampolines] (by class) and of the
    visibly-initialized callbacks (by thread). *)
Definition FixupStaticTrampolines (backup : Vm → Vm) (class_def self : Z) (v : Vm) : Vm :=
  RestoreBackup class_def self (backup v).

Definition MarkVisiblyInitialized (backup : Vm → Vm) (self : Z) (v : Vm) : Vm :=
  RestoreBackup 0 self (backup v).
End class_linker.

(** ** [ClassLinker::Init] *)

Section init.
Context (cur : Arch) (info : InitInfo) (replace_of : string → Z) (sdk_int : Z).
(** The JNI table's functions, and what [GetOptimizedCodeFor] answers for the
    clone of [Object.equals]. *)
Context (RegisterNatives UnregisterNatives optimized_code : Z).
Abbreviation hooker := (hooker replace_of).

Definition ClassLinker_symbol (name : string) : Symbol :=
  match name with
  | "SetEntryPointsToInterpreter_" =>
      Function name "_ZN3art11ClassLinker27SetEntryPointsToInterpreterEPNS_9ArtMethodE"
  | "ShouldUseInterpreterEntrypoint_" =>
      hooker name "_ZN3art11ClassLinker30ShouldUseInterpreterEntrypointEPNS_9ArtMethodEPKv"
  | "art_quick_to_interpreter_bridge_" => Function name "art_quick_to_interpreter_bridge"
  | "GetOptimizedCodeFor_" =>
      Function name "_ZN3art15instrumentationL19GetOptimizedCodeForEPNS_9ArtMethodE"
  | "RegisterNativeThread_" =>
      hooker name "_ZN3art6mirror9ArtMethod14RegisterNativeEPNS_6ThreadEPKvb"
  | "UnregisterNativeThread_" =>
      hooker name "_ZN3art6mirror9ArtMethod16UnregisterNativeEPNS_6ThreadE"
  | "RegisterNativeFast_" => hooker name "_ZN3art9ArtMethod14RegisterNativeEPKvb"
  | "UnregisterNativeFast_" => hooker name "_ZN3art9ArtMethod16UnregisterNativeEv"
  | "RegisterNative_" => hooker name "_ZN3art9ArtMethod14RegisterNativeEPKv"
  | "UnregisterNative_" => hooker name "_ZN3art9ArtMethod16UnregisterNativeEv"
  | "RegisterNativeClassLinker_" =>
      hooker name "_ZN3art11ClassLinker14RegisterNativeEPNS_6ThreadEPNS_9ArtMethodEPKv"
  | "UnregisterNativeClassLinker_" =>
      hooker name "_ZN3art11ClassLinker16UnregisterNativeEPNS_6ThreadEPNS_9ArtMethodE"
  | "FixupStaticTrampolines_" =>
      hooker name "_ZN3art11ClassLinker22FixupStaticTrampolinesENS_6ObjPtrINS_6mirror5ClassEEE"
  | "FixupStaticTrampolinesWithThread_" =>
      hooker name
        "_ZN3art11ClassLinker22FixupStaticTrampolinesEPNS_6ThreadENS_6ObjPtrINS_6mirror5ClassEEE"
  | "FixupStaticTrampolinesRaw_" =>
      hooker name "_ZN3art11ClassLinker22FixupStaticTrampolinesEPNS_6mirror5ClassE"
  | "AdjustThreadVisibilityCounter_" =>
      hooker name (if is_arch_v cur [kLP32] then
        "_ZN3art11ClassLinker26VisiblyInitializedCallback29AdjustThreadVisibilityCounterEPNS_6ThreadEi"
      else
        "_ZN3art11ClassLinker26VisiblyInitializedCallback29AdjustThreadVisibilityCounterEPNS_6ThreadEl")
  | "MarkVisiblyInitialized_" =>
      hooker name
        "_ZN3art11ClassLinker26VisiblyInitializedCallback22MarkVisiblyInitializedEPNS_6ThreadE"
  | _ => hooker name ""
  end%string.

Abbreviation one n := (HookHandler.One (ClassLinker_symbol n)).
Abbreviation any := (HookHandler.any info).
Abbreviation all := (HookHandler.all info).

(** The pairs of registration hooks, tried in order. *)
Definition register_natives : list (list HookHandler.Arg) :=
  [ [one "RegisterNativeClassLinker_"; one "UnregisterNativeClassLinker_"];
    [one "RegisterNative_"; one "UnregisterNative_"];
    [one "RegisterNativeFast_"; one "UnregisterNativeFast_"];
    [one "RegisterNativeThread_"; one "UnregisterNativeThread_"];
    [HookHandler.At RegisterNatives (ClassLinker_symbol "RegisterNativesJNIEnv_");
     HookHandler.At UnregisterNatives (ClassLinker_symbol "UnregisterNativesJNIEnv_")] ]%string.

Fixpoint first_pair (l : list (list HookHandler.Arg)) (s : Syms) : bool * Syms :=
  match l with
  | [] => (false, s)
  | hooks :: l =>
      let '(ok, s) := all hooks s in
      if ok then (true, s) else first_pair l s
  end.

(** The fixup hooks; the first component tells that entry points may be
    updated behind the library's back. *)
Definition init_fixups (s : Syms) : bool * Syms :=
  let '(ok, s) :=
    if is_arch_v cur [kX86] then
      any [one "FixupStaticTrampolines_"; one "FixupStaticTrampolinesRaw_"] s
    else
      any [one "FixupStaticTrampolinesWithThread_"; one "FixupStaticTrampolines_";
           one "FixupStaticTrampolinesRaw_"] s in
  let may_update_entrypoint := negb ok in
  if negb (is_arch_v cur [kX86; kX64]) && (__ANDROID_API_R__ <=? sdk_int) then
    let '(ok, s) := any [one "AdjustThreadVisibilityCounter_"; one "MarkVisiblyInitialized_"] s in
    (if ok then false else may_update_entrypoint, s)
  else (may_update_entrypoint, s).

(** The interpreter bridge: resolved, or read from a cloned method. *)
Definition init_bridge (s : Syms) : Syms :=
  let '(ok, s) := any [one "art_quick_to_interpreter_bridge_"] s in
  if ok then s
  else if __ANDROID_API_T__ <=? sdk_int then
    let '(ok, s) := any [HookHandler.Prefixed (ClassLinker_symbol "GetOptimizedCodeFor_") true] s in
    if ok then set_raw "art_quick_to_interpreter_bridge_" optimized_code s else s
  else s.

Definition Init (s : Syms) : bool * Syms :=
  let s :=
    if (__ANDROID_API_N__ <=? sdk_int) && (sdk_int <? __ANDROID_API_T__)
    then (any [one "ShouldUseInterpreterEntrypoint_"] s).2 else s in
  let '(ok, s) := first_pair register_natives s in
  if negb ok then (false, s)
  else
    let s := (init_fixups s).2 in
    let '(found, s) :=
      if sdk_int <? __ANDROID_API_T__ then any [one "SetEntryPointsToInterpreter_"] s
      else (false, s) in
    if found then (true, s) else (true, init_bridge s).
End init.
