(* ===== verification/ClassInit.v ===== *)
(** * Hooks survive class initialization and native registration

    The theorems about [ClassLinker.v] and [MirrorClass.v]: whatever the
    runtime does to the entry points of a class it initializes, or to the
    native methods it registers, the entry points of hooked methods are the
    same afterwards and the new code reaches the backups.  For native
    registration the runtime may change any native method the call names; that
    the constructor of [Updater] saves those that are hooked is proved here. *)

From S2P Require Import Prelude Memory Platform ArtMethod Records Vm MirrorClass ClassLinker.

Section restore.
Context (c : Config) (bridge : Z) (interp : option (Z → Methods → Methods)).
Implicit Types (v : Vm) (t m old : Z).

(** The runtime's [SetEntryPointsToInterpreter] writes the method it is given. *)
Definition interpreter_frame : Prop :=
  ∀ f m h t, interp = Some f → t ≠ m → f m h t = h t.
Hypothesis frame : interpreter_frame.

Lemma SetEntryPointsToInterpreter_registry m v :
  registry (SetEntryPointsToInterpreter c bridge interp m v).2 = registry v.
Proof. unfold SetEntryPointsToInterpreter. repeat case_match; done. Qed.

Lemma SetEntryPointsToInterpreter_other m v t :
  t ≠ m → methods (SetEntryPointsToInterpreter c bridge interp m v).2 t = methods v t.
Proof.
  intros Hne. unfold SetEntryPointsToInterpreter. repeat case_match; simpl; try done.
  - by apply SetEntryPoint_other.
  - by eapply frame.
Qed.

Lemma restore_one_registry v p : registry (restore_one c bridge interp v p) = registry v.
Proof.
  destruct p as [m old]. unfold restore_one. repeat case_match; try done.
  by rewrite SetEntryPointsToInterpreter_registry.
Qed.

(** Re-deoptimization touches the method only. *)
Lemma restore_deoptimized_other (v : Vm) m old (b1 b2 : bool) t :
  t ≠ m →
  entry_point (methods (
    let v' := on_methods (SetEntryPoint c m old) v in
    if b1 then if b2 then (SetEntryPointsToInterpreter c bridge interp m v').2 else v' else v') t) =
  entry_point (methods v t).
Proof.
  intros Hne. destruct b1, b2; cbn zeta iota; rewrite ?SetEntryPointsToInterpreter_other by done;
    simpl; by rewrite SetEntryPoint_other.
Qed.

(** The loop body on a hooked method and on its backup. *)
Lemma restore_one_hooked v m old t :
  registry_ok (registry v) → hooked v t →
  entry_of (restore_one c bridge interp v (m, old)) t =
    if decide (t = m) then old else entry_of v t.
Proof.
  intros Hr Ht. unfold restore_one, entry_of, GetEntryPoint. simpl.
  destruct (Z.eqb_spec (IsHooked (registry v) m) 0) as [Hm|Hm]; simpl.
  - assert (t ≠ m) as Hne by (intros ->; by apply (hooked_IsHooked v m Hr)).
    rewrite decide_False by done.
    by apply restore_deoptimized_other.
  - assert (hooked v m) as Hhm by (by apply hooked_IsHooked).
    assert (t ≠ IsHooked (registry v) m) as Hne
      by (intros ->; by apply (backup_not_hooked v m Hr Hhm)).
    repeat case_match; simpl; rewrite ?(SetEntryPoint_other _ (IsHooked _ _)) by done;
      subst; rewrite ?SetEntryPoint_entry, ?SetEntryPoint_other by done; done.
Qed.

Lemma restore_one_backup v m old t :
  registry_ok (registry v) → hooked v t → IsHooked (registry v) t ≠ m →
  entry_of (restore_one c bridge interp v (m, old)) (IsHooked (registry v) t) =
    if decide (t = m ∧ IsDeoptimized (registry v) m = false ∧ entry_of v m ≠ old)
    then entry_of v m else entry_of v (IsHooked (registry v) t).
Proof.
  intros Hr Ht Hb. unfold restore_one, entry_of, GetEntryPoint. simpl.
  destruct (Z.eqb_spec (IsHooked (registry v) m) 0) as [Hm|Hm]; simpl.
  - assert (t ≠ m) as Hne by (intros ->; by apply (hooked_IsHooked v m Hr)).
    rewrite decide_False by naive_solver.
    by apply restore_deoptimized_other.
  - destruct (decide (t = m)) as [->|Hne].
    + destruct (IsDeoptimized (registry v) m); simpl.
      { rewrite decide_False by naive_solver. by rewrite SetEntryPoint_other. }
      destruct (Z.eqb_spec (entry_point (methods v m)) old); simpl.
      * rewrite decide_False by naive_solver. by rewrite SetEntryPoint_other.
      * rewrite decide_True by done. by rewrite SetEntryPoint_entry.
    + rewrite decide_False by naive_solver.
      assert (IsHooked (registry v) t ≠ IsHooked (registry v) m) as Hinj.
      { intros E. apply Hne. apply (IsHooked_inj _ Hr); [done|]. by apply hooked_IsHooked. }
      repeat case_match; simpl; rewrite ?(SetEntryPoint_other _ (IsHooked _ _)) by done;
        by rewrite SetEntryPoint_other.
Qed.

Lemma restore_all_registry l v : registry (foldl (restore_one c bridge interp) v l) = registry v.
Proof.
  revert v. induction l as [|p l IH]; intros v; [done|]. cbn [foldl].
  by rewrite IH, restore_one_registry.
Qed.

Lemma restore_all_hooked l v t :
  registry_ok (registry v) → hooked v t → NoDup l.*1 →
  entry_of (foldl (restore_one c bridge interp) v l) t =
    default (entry_of v t) (list_to_map (M:=gmap Z Z) l !! t).
Proof.
  revert v. induction l as [|[m old] l IH]; intros v Hr Ht Hnd; [done|]. cbn [foldl].
  apply NoDup_cons in Hnd as [Hm Hnd].
  rewrite IH; [|by rewrite restore_one_registry|unfold hooked in *; by rewrite restore_one_registry|done].
  rewrite restore_one_hooked by done. simpl.
  destruct (decide (t = m)) as [->|Hne].
  - rewrite lookup_insert_eq. simpl.
    rewrite (not_elem_of_list_to_map_1 l m) by done. done.
  - by rewrite lookup_insert_ne.
Qed.

Lemma restore_all_backup l v t :
  registry_ok (registry v) → hooked v t → NoDup l.*1 →
  IsHooked (registry v) t ∉ l.*1 →
  entry_of (foldl (restore_one c bridge interp) v l) (IsHooked (registry v) t) =
    match list_to_map (M:=gmap Z Z) l !! t with
    | Some old => if decide (IsDeoptimized (registry v) t = false ∧ entry_of v t ≠ old)
                  then entry_of v t else entry_of v (IsHooked (registry v) t)
    | None => entry_of v (IsHooked (registry v) t)
    end.
Proof.
  revert v. induction l as [|[m old] l IH]; intros v Hr Ht Hnd Hb; [done|]. cbn [foldl].
  apply NoDup_cons in Hnd as [Hm Hnd]. simpl in Hb. apply not_elem_of_cons in Hb as [Hbm Hb].
  pose proof (restore_one_registry v (m, old)) as Hreg.
  rewrite <-Hreg at 1. rewrite IH; rewrite ?Hreg; try done;
    [|unfold hooked in *; by rewrite Hreg].
  rewrite restore_one_hooked, restore_one_backup by done. simpl.
  destruct (decide (t = m)) as [->|Hne].
  - rewrite lookup_insert_eq, (not_elem_of_list_to_map_1 l m) by done.
    repeat case_decide; naive_solver.
  - rewrite lookup_insert_ne by done.
    rewrite (decide_False (P := t = m ∧ _)) by naive_solver. done.
Qed.
End restore.

(** ** A class becomes initialized *)

Section initialize.
Context (c : Config) (bridge : Z) (interp : option (Z → Methods → Methods)).
Hypothesis frame : interpreter_frame interp.

(** The sequence of hooks a class initialization goes through: its status is
    set, the runtime then rewrites entry points ([fixup]), and the fixup or the
    visibly-initialized hook restores what was set aside. *)
Definition InitializeClass (init_status : Z) (fixup : Methods → Methods) (by_thread : bool)
    (class_def self : Z) (v : Vm) : Vm :=
  let v := SetStatus init_status (λ v, v) class_def init_status self v in
  if by_thread then MarkVisiblyInitialized c bridge interp (on_methods fixup) self v
  else FixupStaticTrampolines c bridge interp (on_methods fixup) class_def self v.

(** [members] are the methods of the class: the registry has the hooked and
    deoptimized ones under its definition, backups belong to other classes, and
    the runtime rewrites entry points of static members only. *)
Record fixup_contract (v : Vm) (class_def : Z) (members : Z → Prop) (fixup : Methods → Methods)
    : Prop := {
  fixup_registered t : in_class (hooked_classes_ (registry v)) class_def t ∨
    in_class (deoptimized_classes_ (registry v)) class_def t → members t;
  fixup_hooked t : members t → hooked v t → in_class (hooked_classes_ (registry v)) class_def t;
  fixup_backups t : hooked v t → ¬ members (IsHooked (registry v) t);
  fixup_static t : ¬ (members t ∧ IsStatic (methods v) t = true) →
    entry_point (fixup (methods v) t) = entry_point (methods v t);
}.

Lemma InitializeClass_unfold init_status fixup by_thread class_def self v :
  backup_methods_ v = ∅ → class_def ≠ 0 → self ≠ 0 →
  InitializeClass init_status fixup by_thread class_def self v =
    foldl (restore_one c bridge interp) (on_methods fixup v) (map_to_list (set_aside v class_def)).
Proof.
  intros Hb Hc Hs. pose proof (PopBackup_set_aside v class_def self by_thread Hb Hc Hs) as Hpop.
  assert (∀ cd v', PopBackup cd self (on_methods fixup v') =
    let '(ms, w) := PopBackup cd self v' in (ms, on_methods fixup w)) as Hcomm.
  { intros cd v'. unfold PopBackup. simpl. repeat case_match; done. }
  unfold InitializeClass, SetStatus, MarkVisiblyInitialized, FixupStaticTrampolines, RestoreBackup.
  rewrite Z.eqb_refl. destruct by_thread; rewrite Hcomm, Hpop; done.
Qed.

Lemma foldl_restore_backups l v :
  backup_methods_ (foldl (restore_one c bridge interp) v l) = backup_methods_ v.
Proof.
  revert v. induction l as [|[m old] l IH]; intros v; [done|]. cbn [foldl]. rewrite IH.
  unfold restore_one, SetEntryPointsToInterpreter. simpl. repeat case_match; done.
Qed.

(** C10: when a class becomes initialized and the runtime replaces the entry
    points of its static methods, every hooked method still has the entry point
    it had (its trampoline), nothing stays set aside, and the code the runtime
    gave a hooked method that is not deoptimized becomes its backup's. *)
Theorem initialize_class_keeps_hooks init_status fixup by_thread class_def self v members :
  registry_ok (registry v) → backup_methods_ v = ∅ → class_def ≠ 0 → self ≠ 0 →
  fixup_contract v class_def members fixup →
  let v' := InitializeClass init_status fixup by_thread class_def self v in
  registry v' = registry v ∧ backup_methods_ v' = ∅ ∧
  ∀ t, hooked v t →
    entry_of v' t = entry_of v t ∧
    entry_of v' (IsHooked (registry v) t) =
      let code := entry_point (fixup (methods v) t) in
      if IsDeoptimized (registry v) t || (code =? entry_of v t)
      then entry_of v (IsHooked (registry v) t) else code.
Proof.
  intros Hr Hb Hc Hs [] v'. unfold v'. rewrite InitializeClass_unfold by done.
  split; [by rewrite restore_all_registry|]. split; [by rewrite foldl_restore_backups|].
  intros t Ht. pose proof (NoDup_fst_map_to_list (set_aside v class_def)) as Hnd.
  assert (¬ is_Some (set_aside v class_def !! IsHooked (registry v) t)) as Hnb.
  { intros Hin. apply set_aside_lookup in Hin as [Hin _].
    by apply (fixup_backups0 t Ht), fixup_registered0. }
  assert (entry_point (fixup (methods v) (IsHooked (registry v) t)) =
    entry_of v (IsHooked (registry v) t)) as Heb.
  { apply fixup_static0. intros [Hm _]. by apply (fixup_backups0 t Ht). }
  rewrite (restore_all_hooked c bridge interp frame _ (on_methods fixup v) t Hr Ht Hnd).
  assert (IsHooked (registry v) t ∉ (map_to_list (set_aside v class_def)).*1) as Hnotin.
  { intros Hin. apply list_elem_of_fmap in Hin as ([m e] & Heq & Hin).
    apply elem_of_map_to_list in Hin. simpl in Heq. subst m. apply Hnb. by eexists. }
  pose proof (restore_all_backup c bridge interp frame _ (on_methods fixup v) t Hr Ht Hnd Hnotin)
    as Hback. simpl in Hback. rewrite Hback, list_to_map_to_list.
  assert (∀ x, entry_of (on_methods fixup v) x = entry_point (fixup (methods v) x)) as Hof by done.
  rewrite !Hof, Heb.
  destruct (set_aside_lookup v class_def t) as [Hval Hdom].
  destruct (set_aside v class_def !! t) as [e|] eqn:E; simpl.
  - rewrite (Hval e eq_refl). split; [done|].
    destruct (IsDeoptimized (registry v) t),
      (Z.eqb_spec (entry_point (fixup (methods v) t)) (entry_of v t)) as [|];
      simpl; try done; match goal with |- context [decide ?P] => destruct (decide P) as [Hd|Hd] end; try done;
      first [ destruct Hd; congruence | destruct Hd; by split ].
  - assert (entry_point (fixup (methods v) t) = entry_of v t) as Hsame.
    { apply fixup_static0. intros [Hm Hst].
      assert (is_Some (None : option Z)) as [? ?]; [|done]. apply Hdom. split; [|done].
      left. by apply fixup_hooked0. }
    rewrite Hsame, Z.eqb_refl, orb_true_r. done.
Qed.
End initialize.

(** ** Native registration *)

Section natives.
Context (c : Config).
Implicit Types (v : Vm) (h : Methods) (t m : Z).

(** Data and entry point: what registering a native function changes. *)
Definition native_code h m : Z * Z := (data (h m), entry_point (h m)).

Definition saved_ok v (saved : gmap Z (Z * Z * Z)) : Prop :=
  ∀ m b d e, saved !! m = Some (b, d, e) →
    hooked v m ∧ b = IsHooked (registry v) m ∧ (d, e) = native_code (methods v) m.

Lemma save_method_ok v m saved :
  registry_ok (registry v) → saved_ok v saved → saved_ok v (save_method v m saved).
Proof.
  intros Hr Hok. unfold save_method. destruct (Z.eqb_spec (IsHooked (registry v) m) 0) as [|Hb];
    simpl; [done|]. destruct (negb _); [done|].
  intros m' b d e [[<- [= <- <- <-]]|[_ Hm]]%lookup_insert_Some; [|by apply Hok].
  split_and!; [by apply hooked_IsHooked|done|done].
Qed.

Lemma save_natives_ok lookup v is_static pending l saved :
  registry_ok (registry v) → saved_ok v saved →
  saved_ok v (save_natives lookup v is_static pending l saved).1.
Proof.
  intros Hr. revert is_static pending saved. induction l as [|n l IH]; intros is_static pending saved Hok;
    [done|]. simpl. repeat case_match; auto using save_method_ok.
Qed.

Lemma Updater_of_natives_ok lookup v valid l :
  registry_ok (registry v) → saved_ok v (Updater_of_natives lookup v valid l).1.
Proof.
  intros Hr. unfold Updater_of_natives. case_match; [|by apply save_natives_ok].
  intros m b d e. simpl. by rewrite lookup_empty.
Qed.

Lemma Updater_of_class_ok v valid l :
  registry_ok (registry v) → saved_ok v (Updater_of_class v valid l).
Proof.
  intros Hr. unfold Updater_of_class. destruct valid; simpl;
    [|intros m b d e; by rewrite lookup_empty].
  assert (∀ saved, saved_ok v saved → saved_ok v (Class.visit (λ method saved,
    (false, if negb (IsNative (methods v) method) then saved else save_method v method saved))
    l saved).2) as H.
  { induction l as [|m l IH]; intros saved Hok; [done|]. simpl. apply IH.
    case_match; [done|]. by apply save_method_ok. }
  apply H. intros m b d e. by rewrite lookup_empty.
Qed.

(** The destructor's loop body on a method that is no backup, and on a backup. *)
Lemma restore_saved_at h m b d e t :
  b ≠ m → t ≠ b →
  native_code (restore_saved c h (m, (b, d, e))) t = if decide (t = m) then (d, e) else native_code h t.
Proof.
  intros Hbm Htb. unfold restore_saved, native_code, GetData, GetEntryPoint. cbn [view methods_store].
  destruct (Z.eqb_spec (data (h m)) d), (Z.eqb_spec (entry_point (h m)) e); cbn [andb];
    case_decide; subst; try done.
  all: rewrite ?SetEntryPoint_entry; repeat first
    [ rewrite (proj1 (proj2 (SetEntryPoint_fields _ _ _ _ _))) | rewrite SetData_data
    | rewrite SetEntryPoint_other by done | rewrite SetData_other by done
    | rewrite (proj1 (proj2 (SetData_fields _ _ _ _))) ]; done.
Qed.

Lemma restore_saved_backup h m b d e :
  b ≠ m →
  native_code (restore_saved c h (m, (b, d, e))) b =
    if bool_decide (native_code h m = (d, e)) then native_code h b else native_code h m.
Proof.
  intros Hbm. unfold restore_saved, native_code, GetData, GetEntryPoint. cbn [view methods_store].
  destruct (Z.eqb_spec (data (h m)) d), (Z.eqb_spec (entry_point (h m)) e); cbn [andb];
    case_bool_decide; try congruence;
  repeat first
    [ rewrite SetEntryPoint_other by done | rewrite SetData_other by done
    | rewrite SetEntryPoint_entry | rewrite (proj1 (proj2 (SetEntryPoint_fields _ _ _ _ _)))
    | rewrite SetData_data | rewrite (proj1 (proj2 (SetData_fields _ _ _ _))) ]; done.
Qed.

Definition keys_ok v (l : list (Z * (Z * Z * Z))) : Prop :=
  Forall (λ p, hooked v p.1 ∧ p.2.1.1 = IsHooked (registry v) p.1) l.

Lemma backup_apart v t m :
  registry_ok (registry v) → hooked v t → hooked v m → IsHooked (registry v) m ≠ t.
Proof. intros Hr Ht Hm E. apply (backup_not_hooked v m Hr Hm). by rewrite E. Qed.

Lemma restore_list v l h t :
  registry_ok (registry v) → hooked v t → keys_ok v l → NoDup l.*1 →
  let look := list_to_map (M:=gmap Z (Z * Z * Z)) l !! t in
  native_code (foldl (restore_saved c) h l) t =
    match look with Some (_, d, e) => (d, e) | None => native_code h t end ∧
  native_code (foldl (restore_saved c) h l) (IsHooked (registry v) t) =
    match look with
    | Some (_, d, e) => if bool_decide (native_code h t = (d, e))
                        then native_code h (IsHooked (registry v) t) else native_code h t
    | None => native_code h (IsHooked (registry v) t)
    end.
Proof.
  intros Hr Ht. revert h. induction l as [|[m [[b d] e]] l IH]; intros h Hk Hnd; [done|].
  apply Forall_cons in Hk as [[Hm Hb] Hk]. simpl in Hm, Hb. subst b.
  apply NoDup_cons in Hnd as [Hnotin Hnd]. cbn [foldl list_to_map foldr fst snd].
  specialize (IH (restore_saved c h (m, (IsHooked (registry v) m, d, e))) Hk Hnd).
  cbv zeta in *. destruct IH as [IH1 IH2]. rewrite IH1, IH2. clear IH1 IH2.
  assert (IsHooked (registry v) m ≠ m) as Hbm by by apply backup_apart.
  assert (t ≠ IsHooked (registry v) m) as Htb by (intros E; by apply (backup_apart v t m)).
  rewrite !restore_saved_at by done.
  destruct (decide (t = m)) as [->|Hne].
  - change (list_to_map ((m, (IsHooked (registry v) m, d, e)) :: l))
      with (<[m:=(IsHooked (registry v) m, d, e)]> (list_to_map (M:=gmap Z (Z * Z * Z)) l)).
    rewrite lookup_insert_eq, (not_elem_of_list_to_map_1 l m) by done.
    by rewrite restore_saved_backup.
  - change (list_to_map ((m, (IsHooked (registry v) m, d, e)) :: l))
      with (<[m:=(IsHooked (registry v) m, d, e)]> (list_to_map (M:=gmap Z (Z * Z * Z)) l)).
    rewrite lookup_insert_ne by done.
    assert (IsHooked (registry v) t ≠ IsHooked (registry v) m) as Hinj.
    { intros E. apply Hne, (IsHooked_inj _ Hr); [done|]. by apply hooked_IsHooked. }
    assert (IsHooked (registry v) t ≠ m) as Hbt by by apply backup_apart.
    rewrite (restore_saved_at h m (IsHooked (registry v) m) d e (IsHooked (registry v) t)) by done.
    rewrite decide_False by done. done.
Qed.

(** *** What the runtime registers *)

(** The methods that a [RegisterNatives] call names: [GetMethodID] or
    [GetStaticMethodID] finds them by the name and signature of an entry that
    has a function. *)
Definition named (lookup : bool → string → string → option Z) (valid : bool)
    (l : list JNINativeMethod) (t : Z) : Prop :=
  valid = true ∧ ∃ n name signature is_static, n ∈ l ∧ jni_name n = Some name ∧
    jni_signature n = Some signature ∧ fnPtr n ≠ 0 ∧ lookup is_static name signature = Some t.

(** The methods of the class of an [UnregisterNatives] call. *)
Definition of_class (valid : bool) (class_methods : list Z) (t : Z) : Prop :=
  valid = true ∧ t ∈ class_methods.

(** A name and signature belong to a static or to an instance method. *)
Definition one_kind (lookup : bool → string → string → option Z) : Prop :=
  ∀ name signature is_static t, lookup is_static name signature = Some t →
    lookup (negb is_static) name signature = None.

(** The backup of a native method, a copy of it, is native. *)
Definition native_copies v : Prop :=
  ∀ t, hooked v t → IsNative (methods v) t = true → IsNative (methods v) (IsHooked (registry v) t) = true.

(** The runtime's call gives code to native methods among [reg], no backups. *)
Record registered v (reg : Z → Prop) (w : Vm) : Prop := {
  registered_only t : native_code (methods w) t ≠ native_code (methods v) t →
    reg t ∧ IsNative (methods v) t = true;
  registered_backups t : hooked v t → ¬ reg (IsHooked (registry v) t);
}.

(** After the call and the updater, from [v] over [w] to [v']: every hooked
    method has its own code back, and its backup the code the runtime gave it. *)
Definition propagated v w v' : Prop :=
  ∀ t, hooked v t →
    native_code (methods v') t = native_code (methods v) t ∧
    native_code (methods v') (IsHooked (registry v) t) =
      if bool_decide (native_code (methods w) t = native_code (methods v) t)
      then native_code (methods v) (IsHooked (registry v) t)
      else native_code (methods w) t.

(** *** What the updater saves *)

Lemma save_method_keeps v m saved t : is_Some (saved !! t) → is_Some (save_method v m saved !! t).
Proof.
  intros H. unfold save_method. destruct (_ || _); [done|].
  apply lookup_insert_is_Some. destruct (decide (m = t)); auto.
Qed.

Lemma save_method_saves v t saved :
  registry_ok (registry v) → hooked v t → IsNative (methods v) (IsHooked (registry v) t) = true →
  is_Some (save_method v t saved !! t).
Proof.
  intros Hr Ht Hn. unfold save_method. rewrite Hn. apply hooked_IsHooked in Ht; [|done].
  rewrite (proj2 (Z.eqb_neq _ _) Ht). simpl. rewrite lookup_insert_eq. by eexists.
Qed.

Lemma save_natives_keeps lookup v is_static pending l saved t :
  is_Some (saved !! t) → is_Some ((save_natives lookup v is_static pending l saved).1 !! t).
Proof.
  revert is_static pending saved. induction l as [|n l IH]; intros is_static pending saved H; [done|].
  simpl. repeat case_match; auto using save_method_keeps.
Qed.

Lemma save_natives_saves lookup v n name signature kind t l :
  registry_ok (registry v) → one_kind lookup → hooked v t →
  IsNative (methods v) (IsHooked (registry v) t) = true →
  n ∈ l → jni_name n = Some name → jni_signature n = Some signature → fnPtr n ≠ 0 →
  lookup kind name signature = Some t →
  ∀ is_static pending saved, is_Some ((save_natives lookup v is_static pending l saved).1 !! t).
Proof.
  intros Hr Hone Ht Hn Hin Hname Hsig Hfn Hlook. induction l as [|n' l IH]; [by apply elem_of_nil in Hin|].
  intros is_static pending saved. apply elem_of_cons in Hin as [<-|Hin];
    [|simpl; repeat case_match; by apply IH].
  cbn [save_natives]. rewrite Hname, Hsig, (proj2 (Z.eqb_neq _ _) Hfn).
  destruct (decide (kind = is_static)) as [->|Hne].
  - rewrite Hlook. by apply save_natives_keeps, save_method_saves.
  - assert (kind = negb is_static) as -> by by destruct kind, is_static.
    pose proof (Hone _ _ _ _ Hlook) as Hnone. rewrite negb_involutive in Hnone. rewrite Hnone. cbv zeta.
    rewrite Hlook. by apply save_natives_keeps, save_method_saves.
Qed.

Lemma Updater_of_natives_saves lookup v valid l t :
  registry_ok (registry v) → one_kind lookup → hooked v t →
  IsNative (methods v) (IsHooked (registry v) t) = true → named lookup valid l t →
  is_Some ((Updater_of_natives lookup v valid l).1 !! t).
Proof.
  intros Hr Hone Ht Hn (-> & n & name & signature & kind & Hin & H1 & H2 & H3 & H4).
  unfold Updater_of_natives. rewrite bool_decide_eq_false_2 by (intros ->; by apply elem_of_nil in Hin).
  by apply (save_natives_saves lookup v n name signature kind).
Qed.

Lemma visit_natives_keeps v l saved t :
  is_Some (saved !! t) → is_Some ((Class.visit (λ method saved,
    (false, if negb (IsNative (methods v) method) then saved else save_method v method saved)) l saved).2 !! t).
Proof.
  revert saved. induction l as [|m l IH]; intros saved H; [done|]. simpl. apply IH.
  case_match; auto using save_method_keeps.
Qed.

Lemma Updater_of_class_saves v valid l t :
  registry_ok (registry v) → hooked v t → IsNative (methods v) t = true →
  IsNative (methods v) (IsHooked (registry v) t) = true → of_class valid l t →
  is_Some (Updater_of_class v valid l !! t).
Proof.
  intros Hr Ht Hnt Hn [-> Hin]. unfold Updater_of_class. cbn [negb].
  generalize (∅ : gmap Z (Z * Z * Z)) as saved. induction l as [|m l IH]; intros saved; [by apply elem_of_nil in Hin|].
  cbn [Class.visit]. apply elem_of_cons in Hin as [<-|Hin]; [|by apply IH].
  rewrite Hnt. by apply visit_natives_keeps, save_method_saves.
Qed.

(** An updater that saved the hooked methods the runtime may change propagates. *)
Lemma Updater_destroy_propagated v saved reg w :
  registry_ok (registry v) → saved_ok v saved → registered v reg w →
  (∀ t, hooked v t → reg t → IsNative (methods v) t = true → is_Some (saved !! t)) →
  propagated v w (Updater_destroy c saved w).
Proof.
  intros Hr Hok [Honly Hback] Hsaved t Ht. unfold Updater_destroy. cbn [on_methods methods].
  assert (keys_ok v (map_to_list saved)) as Hk.
  { apply Forall_forall. intros [m [[b d] e]] Hin%elem_of_map_to_list. simpl.
    by destruct (Hok _ _ _ _ Hin) as (? & ? & _). }
  destruct (restore_list v (map_to_list saved) (methods w) t Hr Ht Hk
    (NoDup_fst_map_to_list saved)) as [-> ->]. rewrite list_to_map_to_list.
  assert (native_code (methods w) (IsHooked (registry v) t) =
    native_code (methods v) (IsHooked (registry v) t)) as ->.
  { apply dec_stable. intros [Hreg _]%Honly. by apply (Hback t Ht). }
  destruct (saved !! t) as [[[b d] e]|] eqn:E.
  - destruct (Hok _ _ _ _ E) as (_ & _ & ->). done.
  - assert (native_code (methods w) t = native_code (methods v) t) as ->.
    { apply dec_stable. intros [Hreg Hn]%Honly. destruct (Hsaved t Ht Hreg Hn). congruence. }
    by rewrite bool_decide_eq_true_2.
Qed.

(** C12: when an application registers or unregisters native functions through
    the JNI table, and the runtime gives code to native methods that the call
    names, or to those of its class, every hooked method has its own data and
    entry point back afterwards, the backup of one that was given code has that
    code, and the caller gets the runtime's answer. *)
Theorem updater_keeps_hooks {R} (backup : Vm → R * Vm) v :
  registry_ok (registry v) → native_copies v →
  (∀ lookup valid l, one_kind lookup → registered v (named lookup valid l) (backup v).2 →
     let '(result, v') := RegisterNativesJNIEnv c lookup backup valid l v in
     result = (backup v).1 ∧ propagated v (backup v).2 v') ∧
  (∀ valid class_methods, registered v (of_class valid class_methods) (backup v).2 →
     let '(result, v') := UnregisterNativesJNIEnv c backup valid class_methods v in
     result = (backup v).1 ∧ propagated v (backup v).2 v').
Proof.
  intros Hr Hn. unfold RegisterNativesJNIEnv, UnregisterNativesJNIEnv. cbv zeta.
  destruct (backup v) as [result w]. cbn [fst snd]. split.
  - intros lookup valid l Hone Hw. split; [done|].
    apply (Updater_destroy_propagated v _ (named lookup valid l)); [done|by apply Updater_of_natives_ok|done|].
    intros t Ht Hreg Hnt. apply Updater_of_natives_saves; auto.
  - intros valid l Hw. split; [done|].
    apply (Updater_destroy_propagated v _ (of_class valid l)); [done|by apply Updater_of_class_ok|done|].
    intros t Ht Hreg Hnt. apply Updater_of_class_saves; auto.
Qed.
End natives.

(** The methods array of a [RegisterNatives] call for one method. *)
Definition one_native (name signature : string) (fn : Z) : list JNINativeMethod :=
  [{| jni_name := Some name; jni_signature := Some signature; fnPtr := fn |}].

(** Registering natives through the JNI table with a class whose method is
    an instance method leaves the [NoSuchMethodError] of the first, static,
    lookup pending when the JNI function is called. *)
Theorem updater_leaves_exception lookup v name signature fn method :
  fn ≠ 0 → lookup true name signature = None → lookup false name signature = Some method →
  (Updater_of_natives lookup v true (one_native name signature fn)).2 = true.
Proof.
  intros Hfn H1 H2. unfold Updater_of_natives. simpl.
  by rewrite (proj2 (Z.eqb_neq _ _) Hfn), H1, H2.
Qed.

(** ** Concrete runs *)

(** Method 0x100 is static; its class definition is 0x10, and the runtime gives
    it code at 0x6000. *)
Definition static_vm : Vm :=
  on_methods (λ h, SetAccessFlags 0x100 kAccStatic h) (hooked_vm empty_registry).
Definition give_code (h : Methods) : Methods := SetEntryPoint arm64_config 0x100 0x6000 h.

Lemma static_vm_contract : fixup_contract static_vm 0x10 (λ t, t = 0x100) give_code.
Proof.
  assert (hooked_methods_ (registry static_vm) =
    {[0x100 := mkHookRecord 0x300 0x200 0x9001 0x44 true]}) as Hh by done.
  split.
  - intros t [(s & Hs & Ht)|(s & Hs & Ht)]; [|done].
    change (hooked_classes_ (registry static_vm)) with ({[0x10 := {[0x100]}]} : gmap Z (gset Z)) in Hs.
    rewrite lookup_singleton_eq in Hs. injection Hs as <-. by apply elem_of_singleton in Ht.
  - intros t -> _. exists {[0x100]}. by split; [|apply elem_of_singleton].
  - intros t [rec Ht]. rewrite Hh, lookup_singleton_Some in Ht. by destruct Ht as [<- _].
  - intros t Ht. unfold give_code. rewrite entry_SetEntryPoint.
    case_decide as Heq; [|done]. by destruct Ht; subst t.
Qed.

Example initialize_class_keeps_hooks_witness :
  let v' := InitializeClass arm64_config 0 None 15 give_code true 0x10 0x77 static_vm in
  entry_of v' 0x100 = 0x9000 ∧ entry_of v' 0x200 = 0x6000.
Proof.
  intros v'.
  destruct (initialize_class_keeps_hooks arm64_config 0 None ltac:(done) 15 give_code true
    0x10 0x77 static_vm (λ t, t = 0x100)) as (_ & _ & H).
  - apply hooked_vm_ok.
  - done.
  - done.
  - done.
  - apply static_vm_contract.
  - destruct (H 0x100 ltac:(by eexists)) as [H1 H2]. split; [exact H1|].
    etransitivity; [exact H2|]. unfold give_code. by rewrite SetEntryPoint_entry.
Defined.

(** Methods 0x100 and its backup 0x200 are native, and the runtime gives the
    first a function. *)
Definition native_vm : Vm :=
  on_methods (λ h, SetNative 0x100 (SetNative 0x200 h)) (hooked_vm empty_registry).
Definition register_one (v : Vm) : Z * Vm := (0, on_methods (SetData 0x100 0x7000) v).
Definition find_one (is_static : bool) (name signature : string) : option Z :=
  if negb is_static && String.eqb name "f" && String.eqb signature "()V" then Some 0x100 else None.

Lemma native_vm_hooked t : hooked native_vm t → t = 0x100.
Proof.
  intros [rec Ht]. change (hooked_methods_ (registry native_vm)) with
    ({[0x100 := mkHookRecord 0x300 0x200 0x9001 0x44 true]} : gmap Z HookRecord) in Ht.
  by apply lookup_singleton_Some in Ht as [<- _].
Qed.

Example updater_keeps_hooks_witness :
  let v' := (RegisterNativesJNIEnv arm64_config find_one register_one true (one_native "f" "()V" 0x7000) native_vm).2 in
  native_code (methods v') 0x100 = (0, 0x9000) ∧ native_code (methods v') 0x200 = (0x7000, 0x9000).
Proof.
  destruct (updater_keeps_hooks arm64_config register_one native_vm) as [H _].
  - apply hooked_vm_ok.
  - intros t -> %native_vm_hooked. done.
  - specialize (H find_one true (one_native "f" "()V" 0x7000)).
    destruct H as [_ H].
    + intros name signature [] t; unfold find_one; simpl; [done|]. by repeat case_match.
    + split.
      * intros t Ht. cbn [register_one snd on_methods methods] in Ht. destruct (decide (t = 0x100)) as [->|Hne].
        -- split; [|done]. split; [done|]. eexists _, "f"%string, "()V"%string, false. split; [by left|]. done.
        -- destruct Ht. unfold native_code. by rewrite SetData_other.
      * intros t ->%native_vm_hooked (_ & n & name & signature & is_static & _ & _ & _ & _ & Hl).
        unfold find_one in Hl. by repeat case_match.
    + destruct (H 0x100) as [H1 H2]; [by eexists|]. split; [exact H1|]. etransitivity; [exact H2|]. done.
Defined.

Example updater_leaves_exception_witness :
  (Updater_of_natives (λ is_static _ _, if is_static then None else Some 0x100) (hooked_vm empty_registry)
    true (one_native "f" "()V" 0x10)).2 = true.
Proof.
  by apply (updater_leaves_exception (λ is_static _ _, if is_static then None else Some 0x100)
    (hooked_vm empty_registry) "f" "()V" 0x10 0x100).
Defined.
