(* ===== verification/Instrumentation.v ===== *)
(** * Instrumentation

    [art/runtime/instrumentation.cxx]: the hooks on the runtime's updates of
    method code.  The runtime's functions are parameters. *)

From S2P Require Import Prelude Memory Platform ArtMethod Records HookHelper Vm.

Section instrumentation.
Context (c : Config).
Implicit Types (v : Vm) (method art_method quick_code new_code : Z).

Definition MaybeUseBackupMethod v art_method quick_code : Z :=
  let backup := IsHooked (registry v) art_method in
  if negb (backup =? 0) && negb (GetEntryPoint (methods v) art_method =? quick_code)
  then backup else art_method.

Definition UpdateMethodsCodeToInterpreterEntryPoint (backup : Z → Vm → Vm) art_method v : Vm :=
  if IsDeoptimized (registry v) art_method then v
  else backup (MaybeUseBackupMethod v art_method 0) v.

Definition InitializeMethodsCode (backup : Z → Z → Vm → Vm) art_method quick_code v : Vm :=
  if IsDeoptimized (registry v) art_method then v
  else backup (MaybeUseBackupMethod v art_method quick_code) quick_code v.

Definition ReinitializeMethodsCode (backup : Z → Vm → Vm) art_method v : Vm :=
  if IsDeoptimized (registry v) art_method then v
  else backup (MaybeUseBackupMethod v art_method 0) v.

Definition HandleMethodCodeUpdated method (old_code new_code : Z) v : Vm :=
  let deoptimized := IsDeoptimized (registry v) method in
  let backup := IsHooked (registry v) method in
  if negb (backup =? 0) then
    let v := on_methods (SetEntryPoint c method old_code) v in
    if negb deoptimized then on_methods (SetEntryPoint c backup new_code) v else v
  else if deoptimized then on_methods (SetEntryPoint c method old_code) v
  else v.

(** [UpdateMethodsCodeImpl_], [UpdateMethodsCode_] and
    [UpdateMethodsCodeWithProtableCode_]: the same body around runtime
    functions with different arguments. *)
Definition UpdateMethodsCode {A} (backup : Z → Z → A → Vm → Vm) method new_code (args : A) v : Vm :=
  let old_code := GetEntryPoint (methods v) method in
  let v := backup method new_code args v in
  if negb (old_code =? new_code) then HandleMethodCodeUpdated method old_code new_code v else v.

(** *** Init *)

Context (info : InitInfo) (replace_of : string → Z) (sdk_int : Z) (java_debuggable : bool).

Definition Instrumentation_symbol (name : string) : Symbol :=
  hooker replace_of name
  match name with
  | "UpdateMethodsCodeToInterpreterEntryPoint_" =>
      "_ZN3art15instrumentation15Instrumentation40UpdateMethodsCodeToInterpreterEntryPointEPNS_9ArtMethodE"
  | "InitializeMethodsCode_" =>
      "_ZN3art15instrumentation15Instrumentation21InitializeMethodsCodeEPNS_9ArtMethodEPKv"
  | "ReinitializeMethodsCode_" =>
      "_ZN3art15instrumentation15Instrumentation23ReinitializeMethodsCodeEPNS_9ArtMethodE"
  | "UpdateMethodsCodeImpl_" =>
      "_ZN3art15instrumentation15Instrumentation21UpdateMethodsCodeImplEPNS_9ArtMethodEPKv"
  | "UpdateMethodsCode_" =>
      "_ZN3art15instrumentation15Instrumentation17UpdateMethodsCodeEPNS_9ArtMethodEPKv"
  | _ =>
      "_ZN3art15instrumentation15Instrumentation17UpdateMethodsCodeEPNS_6mirror9ArtMethodEPKvS6_b"
  end%string.

Abbreviation one n := (HookHandler.One (Instrumentation_symbol n%string)).

Definition Init (s : Syms) : bool * Syms :=
  let s :=
    if __ANDROID_API_M__ <=? sdk_int
    then (HookHandler.any info [one "UpdateMethodsCodeImpl_"; one "UpdateMethodsCode_"] s).2
    else (HookHandler.any info [one "UpdateMethodsCodeWithProtableCode_"] s).2 in
  if negb java_debuggable then (true, s)
  else if __ANDROID_API_P__ <=? sdk_int then
    let '(ok, s) := HookHandler.any info
      [one "ReinitializeMethodsCode_"; one "InitializeMethodsCode_";
       one "UpdateMethodsCodeToInterpreterEntryPoint_"] s in
    if negb ok then (false, s) else (true, s)
  else (true, s).

(** ** Hooks survive code updates *)

(** The runtime installs [new_code] as the entry point of [method]. *)
Definition installs (backup : Vm → Vm) method new_code v : Prop :=
  registry (backup v) = registry v ∧ entry_of (backup v) method = new_code ∧
  ∀ t, t ≠ method → entry_of (backup v) t = entry_of v t.

(** C11: when the runtime updates the code of a method, hooked methods and
    deoptimized methods keep their entry point, the new code of a hooked method
    that is not deoptimized becomes its backup's, and a method that is neither
    gets the new code. *)
Theorem update_code_keeps_hooks {A} (backup : Z → Z → A → Vm → Vm) method new_code args v :
  registry_ok (registry v) → installs (backup method new_code args) method new_code v →
  let v' := UpdateMethodsCode backup method new_code args v in
  registry v' = registry v ∧
  (∀ t, hooked v t → entry_of v' t = entry_of v t) ∧
  (IsDeoptimized (registry v) method = true → entry_of v' method = entry_of v method) ∧
  (hooked v method → IsDeoptimized (registry v) method = false → entry_of v method ≠ new_code →
     entry_of v' (IsHooked (registry v) method) = new_code) ∧
  (¬ hooked v method → IsDeoptimized (registry v) method = false →
     entry_of v' method = new_code).
Proof.
  intros Hr (Hreg & Hm & Hother) v'. unfold v', UpdateMethodsCode, HandleMethodCodeUpdated.
  rewrite Hreg. unfold GetEntryPoint. cbn [view methods_store]. fold (entry_of v method).
  assert (∀ t, hooked v t → IsHooked (registry v) method ≠ 0 → t ≠ IsHooked (registry v) method) as Hb.
  { intros t Ht Hne ->. by apply (backup_not_hooked v method Hr); [apply hooked_IsHooked|]. }
  destruct (Z.eqb_spec (entry_of v method) new_code) as [Heq|Hne]; cbn [negb].
  { split_and!; try done; [|congruence..]. intros t _. destruct (decide (t = method)) as [->|]; [congruence|auto]. }
  pose proof (hooked_IsHooked v method Hr) as Hh.
  unfold entry_of. destruct (Z.eqb_spec (IsHooked (registry v) method) 0) as [E|E]; cbn [negb].
  - assert (∀ t, hooked v t → t ≠ method) as Htm by (intros t Ht ->; by apply Hh).
    destruct (IsDeoptimized (registry v) method) eqn:Ed; cbn [on_methods methods registry]; split_and!; try done.
    + intros t Ht. rewrite SetEntryPoint_other by auto. apply Hother. auto.
    + intros _. by rewrite SetEntryPoint_entry.
    + intros t Ht. apply Hother. auto.
    + intros Ht. by apply Hh in Ht.
  - assert (method ≠ IsHooked (registry v) method) as Hmb by (apply Hb; [by apply Hh|done]).
    destruct (IsDeoptimized (registry v) method) eqn:Ed; cbn [negb on_methods methods registry];
      split_and!; try done.
    + intros t Ht. rewrite entry_SetEntryPoint. case_decide; [by subst|by apply Hother].
    + intros _. by rewrite SetEntryPoint_entry.
    + intros t Ht. rewrite SetEntryPoint_other by auto. rewrite entry_SetEntryPoint.
      case_decide; [by subst|by apply Hother].
    + intros _ _ _. by rewrite SetEntryPoint_entry.
    + intros Hn. by destruct Hn; apply Hh.
Qed.

(** The code initializers of a debuggable runtime never reach a hooked
    method whose entry point is not the given code: they run on its backup. *)
Lemma initialize_code_on_backup (backup : Z → Z → Vm → Vm) method quick_code v :
  registry_ok (registry v) → hooked v method → entry_of v method ≠ quick_code →
  (∀ m q w t, t ≠ m → entry_of (backup m q w) t = entry_of w t) →
  (∀ m q w, registry (backup m q w) = registry w) →
  hooks_kept v (InitializeMethodsCode backup method quick_code v).
Proof.
  intros Hr Hh Hne Hframe Hreg. unfold InitializeMethodsCode, MaybeUseBackupMethod, GetEntryPoint.
  cbn [view methods_store]. fold (entry_of v method).
  destruct (IsDeoptimized (registry v) method); [done|].
  rewrite (proj2 (Z.eqb_neq _ _)) by (by apply hooked_IsHooked).
  rewrite (proj2 (Z.eqb_neq _ _) Hne). simpl. split; [by rewrite Hreg|].
  intros t Ht. apply Hframe. intros ->. by apply (backup_not_hooked v method Hr Hh).
Qed.
End instrumentation.

Example update_code_keeps_hooks_witness :
  let install m code (_ : unit) := on_methods (SetEntryPoint arm64_config m code) in
  let v' := UpdateMethodsCode arm64_config install 0x100 0x6000 tt (hooked_vm empty_registry) in
  entry_of v' 0x100 = 0x9000 ∧ entry_of v' 0x200 = 0x6000.
Proof.
  intros install v'.
  destruct (update_code_keeps_hooks arm64_config install 0x100 0x6000 tt (hooked_vm empty_registry))
    as (_ & Hkept & _ & Hnew & _).
  - apply hooked_vm_ok.
  - split_and!; [done|by apply SetEntryPoint_entry|].
    intros t Ht. unfold entry_of. simpl. by rewrite SetEntryPoint_other.
  - split; [apply Hkept; by eexists|]. apply Hnew; [by eexists|done|done].
Defined.

Example initialize_code_on_backup_witness :
  let install m code := on_methods (SetEntryPoint arm64_config m code) in
  hooks_kept (hooked_vm empty_registry)
    (InitializeMethodsCode install 0x100 0x6000 (hooked_vm empty_registry)).
Proof.
  intros install. apply (initialize_code_on_backup install 0x100 0x6000 (hooked_vm empty_registry)).
  - apply hooked_vm_ok.
  - by eexists.
  - done.
  - intros m q w t Ht. unfold entry_of. simpl. by rewrite SetEntryPoint_other.
  - done.
Defined.
