(* ===== verification/Jit.v ===== *)
(** * The JIT and JNI ids

    [art/runtime/jit/jit.cxx], [art/runtime/jit/jit_code_cache.cxx] and
    [art/runtime/jni/jni_id_manager.cxx].  The iteration order of the hash
    tables is a parameter: any order of their entries. *)

From S2P Require Import Prelude Memory Platform ArtMethod Records HookHelper Vm.

(** ** [Jit] *)

Inductive CompilationKind : Set := kOsr | kBaseline | kOptimized.

#[global] Instance CompilationKind_eq_dec : EqDecision CompilationKind.
Proof. solve_decision. Defined.

Definition EnqueueOptimizedCompilation {R} (backup : Z → Vm → R) (method : Z) (v : Vm) : R :=
  let target := IsBackup (registry v) method in
  backup (if negb (target =? 0) then target else method) v.

Definition AddCompileTask {R} (backup : Z → CompilationKind → bool → Vm → R) (method : Z)
    (compilation_kind : CompilationKind) (precompile : bool) (v : Vm) : R :=
  let b := IsHooked (registry v) method in
  let method :=
    if bool_decide (compilation_kind = kOptimized) && negb precompile && negb (b =? 0)
    then b else method in
  backup method compilation_kind precompile v.

Section map_boot_image.
Context (c : Config).
Implicit Types (v : Vm) (h : Methods) (method t : Z).

(** [methods]: the backup (0 for a deoptimized method), data and entry point. *)
Abbreviation Saved := (gmap Z (Z * Z * Z)).

(** Any enumerations of the tables. *)
Context (iterate_deoptimized : gmap Z Z → list (Z * Z))
        (iterate_hooked : gmap Z HookRecord → list (Z * HookRecord))
        (iterate_saved : Saved → list (Z * (Z * Z * Z))).

(** The first loop: methods run as if they were not deoptimized. *)
Definition undo_deoptimized (s : Methods * Saved) (p : Z * Z) : Methods * Saved :=
  let '(h, saved) := s in
  let '(method, original_entry_point) := p in
  (SetEntryPoint c method original_entry_point h,
   <[method := (0, GetData h method, GetEntryPoint h method)]> saved).

(** The second loop: hooked methods are shown with their backups' code. *)
Definition undo_hooked (s : Methods * Saved) (p : Z * HookRecord) : Methods * Saved :=
  let '(h, saved) := s in
  let '(method, record) := p in
  let backup_method := backup record in
  let saved := <[method := (backup_method, GetData h method, GetEntryPoint h method)]> saved in
  let h := SetData method (GetData h backup_method) h in
  (SetEntryPoint c method (GetEntryPoint h backup_method) h, saved).

(** The loop after the runtime's function. *)
Definition redo (v : Vm) (p : Z * (Z * Z * Z)) : Vm :=
  let '(method, (backup_method, data, entry_point)) := p in
  let h := methods v in
  if backup_method =? 0 then
    if negb (GetEntryPoint h method =? entry_point) then
      let v := on_registry (with_deoptimized <[method := GetEntryPoint h method]>) v in
      on_methods (SetEntryPoint c method entry_point) v
    else v
  else if (GetData h method =? GetData h backup_method) &&
          (GetEntryPoint h method =? GetEntryPoint h backup_method) then
    on_methods (λ h, SetEntryPoint c method entry_point (SetData method data h)) v
  else
    on_methods (λ h,
      let h := SetData backup_method (GetData h method) h in
      let h := SetEntryPoint c backup_method (GetEntryPoint h method) h in
      SetEntryPoint c method entry_point h) v.

Definition MapBootImageMethods (runtime : Methods → Methods) (v : Vm) : Vm :=
  let s := (methods v, ∅) in
  let s := foldl undo_deoptimized s (iterate_deoptimized (deoptimized_methods_ (registry v))) in
  let '(h, saved) := foldl undo_hooked s (iterate_hooked (hooked_methods_ (registry v))) in
  let v := on_methods (λ _, runtime h) v in
  foldl redo v (iterate_saved saved).

(** *** The trampolines are back *)

Hypothesis deoptimized_perm : ∀ m, iterate_deoptimized m ≡ₚ map_to_list m.
Hypothesis hooked_perm : ∀ m, iterate_hooked m ≡ₚ map_to_list m.
Hypothesis saved_perm : ∀ m, iterate_saved m ≡ₚ map_to_list m.

Lemma undo_deoptimized_entry l s t :
  NoDup l.*1 →
  entry_point ((foldl undo_deoptimized s l).1 t) =
    default (entry_point (s.1 t)) (list_to_map (M:=gmap Z Z) l !! t).
Proof.
  revert s. induction l as [|[m e] l IH]; intros [h saved] Hnd; [done|].
  apply NoDup_cons in Hnd as [Hm Hnd]. cbn [foldl].
  rewrite IH by done. simpl. destruct (decide (t = m)) as [->|Hne].
  - rewrite (not_elem_of_list_to_map_1 l m), lookup_insert_eq by done. simpl.
    by rewrite SetEntryPoint_entry.
  - by rewrite lookup_insert_ne, SetEntryPoint_other by done.
Qed.

(** What the second loop saves for a hooked method: its backup and the entry
    point it had before the loop. *)
Lemma undo_hooked_saved l s t :
  NoDup l.*1 →
  (foldl undo_hooked s l).2 !! t =
    match list_to_map (M:=gmap Z HookRecord) l !! t with
    | Some record => Some (backup record, data (s.1 t), entry_point (s.1 t))
    | None => s.2 !! t
    end.
Proof.
  revert s. induction l as [|[m rec] l IH]; intros [h saved] Hnd; [done|].
  apply NoDup_cons in Hnd as [Hm Hnd]. cbn [foldl].
  rewrite IH by done. unfold undo_hooked, GetData, GetEntryPoint. simpl. clear IH.
  destruct (decide (t = m)) as [->|Hne].
  - rewrite (not_elem_of_list_to_map_1 l m) by done. by rewrite !lookup_insert_eq.
  - rewrite !lookup_insert_ne by done. destruct (list_to_map l !! t) as [rec'|]; [|done].
    rewrite SetEntryPoint_other, fn_lookup_alter_ne by done. done.
Qed.

Lemma redo_hooked_registry v p : hooked_methods_ (registry (redo v p)) = hooked_methods_ (registry v).
Proof. destruct p as [m [[b d] e]]. unfold redo. repeat case_match; done. Qed.

(** The last loop on a method that is no backup of a saved one. *)
Lemma redo_entry l v t b d e :
  NoDup l.*1 → (t, (b, d, e)) ∈ l → b ≠ 0 →
  (∀ m b' d' e', (m, (b', d', e')) ∈ l → b' ≠ t) →
  entry_of (foldl redo v l) t = e.
Proof.
  assert (∀ l v, t ∉ l.*1 → (∀ m b' d' e', (m, (b', d', e')) ∈ l → b' ≠ t) →
    entry_of (foldl redo v l) t = entry_of v t) as Hskip.
  { clear. induction l as [|[m [[b d] e]] l IH]; intros v Ht Hb; [done|].
    simpl in Ht. apply not_elem_of_cons in Ht as [Hm Ht]. cbn [foldl].
    rewrite IH; [|done|intros; eapply Hb; by right].
    assert (t ≠ b) as Htb by (intros ->; eapply (Hb m); [by left|done]).
    unfold redo, entry_of. destruct (b =? 0); [|destruct (_ && _)]; repeat case_match; try done;
      simpl; rewrite ?SetEntryPoint_other by done; simpl; rewrite ?fn_lookup_alter_ne by done; done. }
  revert v. induction l as [|[m [[b' d'] e']] l IH]; intros v Hnd Hin Hb Hbs; [by inversion Hin|].
  apply NoDup_cons in Hnd as [Hm Hnd]. cbn [foldl].
  apply elem_of_cons in Hin as [Heq|Hin].
  - injection Heq as <- <- <- <-. rewrite Hskip; [|done|intros; eapply Hbs; by right].
    unfold redo, entry_of. rewrite (proj2 (Z.eqb_neq _ _) Hb).
    destruct (_ && _); simpl; by rewrite SetEntryPoint_entry.
  - apply IH; try done. intros. eapply Hbs. by right.
Qed.

Lemma enumeration_map {V} (iterate : gmap Z V → list (Z * V)) m :
  iterate m ≡ₚ map_to_list m → NoDup (iterate m).*1 ∧ list_to_map (M:=gmap Z V) (iterate m) = m.
Proof.
  intros Hp. assert (NoDup (iterate m).*1) as Hnd by (rewrite Hp; apply NoDup_fst_map_to_list).
  split; [done|]. rewrite <-(list_to_map_to_list (M:=gmap Z) m) at 2.
  by apply list_to_map_proper.
Qed.

(** Nothing is saved under a hooked method's name as the backup of another. *)
Lemma saved_backups s l v t :
  registry_ok (registry v) → hooked v t → NoDup l.*1 →
  list_to_map (M:=gmap Z HookRecord) l = hooked_methods_ (registry v) →
  (∀ m b d e, s.2 !! m = Some (b, d, e) → b = 0) →
  ∀ m b d e, (foldl undo_hooked s l).2 !! m = Some (b, d, e) → b ≠ t.
Proof.
  intros Hr Ht Hnd Hl Hs m b d e. rewrite (undo_hooked_saved l s m Hnd), Hl.
  destruct (hooked_methods_ (registry v) !! m) as [rec|] eqn:Hrec.
  - intros [= <- _ _] E. pose proof (ok_backup _ Hr _ _ Hrec) as Hbk.
    rewrite E in Hbk. by rewrite (ok_apart _ Hr t Ht) in Hbk.
  - intros ->%Hs <-. destruct Ht as [rec' Hrec']. by destruct (ok_nonnull _ Hr _ _ Hrec').
Qed.

Lemma undo_deoptimized_null l s :
  (∀ m b d e, s.2 !! m = Some (b, d, e) → b = 0) →
  ∀ m b d e, (foldl undo_deoptimized s l).2 !! m = Some (b, d, e) → b = 0.
Proof.
  revert s. induction l as [|[m e] l IH]; intros [h saved] Hs m' b' d' e'; [apply Hs|].
  apply IH. simpl. intros m2 b2 d2 e2 [[_ [= <- _ _]]|[_ H]]%lookup_insert_Some; [done|].
  by eapply Hs.
Qed.

(** The entry point a hooked method ends up with. *)
Lemma map_boot_image_entry runtime v t :
  registry_ok (registry v) → hooked v t →
  entry_of (MapBootImageMethods runtime v) t =
    default (entry_of v t) (deoptimized_methods_ (registry v) !! t).
Proof using deoptimized_perm hooked_perm saved_perm.
  intros Hr Ht. unfold MapBootImageMethods.
  destruct (enumeration_map iterate_deoptimized _ (deoptimized_perm (deoptimized_methods_ (registry v))))
    as [Hndd Hld].
  destruct (enumeration_map iterate_hooked _ (hooked_perm (hooked_methods_ (registry v))))
    as [Hndh Hlh].
  revert Hndd Hld Hndh Hlh. generalize (iterate_deoptimized (deoptimized_methods_ (registry v))) as ld.
  generalize (iterate_hooked (hooked_methods_ (registry v))) as lh. intros lh ld Hndd Hld Hndh Hlh.
  pose proof (undo_deoptimized_entry ld (methods v, ∅) t Hndd) as He. rewrite Hld in He. simpl in He.
  assert (∀ m b d e, (foldl undo_deoptimized (methods v, ∅) ld).2 !! m = Some (b, d, e) → b = 0) as Hz.
  { apply undo_deoptimized_null. intros ? ? ? ?; simpl; by rewrite lookup_empty. }
  revert He Hz. generalize (foldl undo_deoptimized (methods v, ∅) ld) as s0. intros s0 He Hz.
  pose proof (undo_hooked_saved lh s0 t Hndh) as Hsaved. rewrite Hlh in Hsaved.
  pose proof (saved_backups s0 lh v t Hr Ht Hndh Hlh Hz) as Hbacks.
  destruct (foldl undo_hooked s0 lh) as [h saved]. simpl in Hsaved, Hbacks.
  destruct Ht as [rec Hrec]. rewrite Hrec in Hsaved.
  rewrite (redo_entry _ _ t (backup rec) (data (s0.1 t)) (entry_point (s0.1 t))); [done|..].
  - rewrite saved_perm. apply NoDup_fst_map_to_list.
  - rewrite saved_perm. by apply elem_of_map_to_list.
  - by destruct (ok_nonnull _ Hr _ _ Hrec).
  - intros m b' d' e'. rewrite saved_perm. intros Hin%elem_of_map_to_list. by eapply Hbacks.
Qed.

(** C13: the hook of [MapBootImageMethods] shows the runtime the original code and,
    whatever the runtime then does to the methods, gives every hooked method that is
    not recorded as deoptimized its trampoline back, in whatever order the three
    tables are enumerated. A hooked method that is also recorded as deoptimized
    loses it ([map_boot_image_loses_hook]), and what its backup gets does depend on
    the order ([map_boot_image_order_matters]). *)
Theorem map_boot_image_keeps_hooks runtime v t :
  registry_ok (registry v) → hooked v t → IsDeoptimized (registry v) t = false →
  entry_of (MapBootImageMethods runtime v) t = entry_of v t.
Proof using deoptimized_perm hooked_perm saved_perm.
  intros Hr Ht Hd. rewrite map_boot_image_entry by done.
  unfold IsDeoptimized in Hd. apply bool_decide_eq_false, eq_None_not_Some in Hd. by rewrite Hd.
Qed.

(** A method that was deoptimized and is hooked loses its trampoline when
    boot image methods are mapped: it ends with the entry point that was
    recorded when it was deoptimized. *)
Theorem map_boot_image_loses_hook runtime v t original_entry_point :
  registry_ok (registry v) → hooked v t →
  deoptimized_methods_ (registry v) !! t = Some original_entry_point →
  entry_of (MapBootImageMethods runtime v) t = original_entry_point.
Proof using deoptimized_perm hooked_perm saved_perm.
  intros Hr Ht Hd. rewrite map_boot_image_entry by done. by rewrite Hd.
Qed.
End map_boot_image.

(** The last loop compares a method with its backup while some backups are
    already restored and others are not: with the backup restored first, a
    method the runtime did not touch gives its backup the entry point that was
    recorded when the method was hooked, and what the backup was given since is
    lost; in the other order nothing changes. *)
Theorem map_boot_image_order_matters :
  let v := on_methods (SetEntryPoint arm64_config 0x200 0x6000)
    (on_registry (RecordDeoptimized 0x20 0x200 0x5000) (hooked_vm empty_registry)) in
  let run saved := MapBootImageMethods arm64_config map_to_list map_to_list saved (λ h, h) v in
  let backup_first : gmap Z (Z * Z * Z) → list (Z * (Z * Z * Z)) := map_to_list in
  let backup_last m := reverse (map_to_list m) in
  (∀ m, backup_last m ≡ₚ map_to_list m) ∧
  entry_of v 0x200 = 0x6000 ∧ entry_of (run backup_last) 0x200 = 0x6000 ∧
  entry_of (run backup_first) 0x200 = 0x5000.
Proof. cbv zeta. split_and!; [intros m; apply reverse_Permutation|by vm_compute..]. Qed.

(** ** [JitCodeCache] *)

Section code_cache.
(** The runtime's [MoveObsoleteMethod], when it was resolved. *)
Context (MoveObsoleteMethod_ : option (Z → Z → Methods → Methods)).

Definition move_obsolete (h : Methods) (p : Z * Z) : Methods :=
  let '(target, backup) := p in
  match MoveObsoleteMethod_ with
  | Some f => f target backup h
  | None =>
      let h := SetData backup (GetData h backup) h in
      SetData target 0 h
  end.

Definition MoveObsoleteMethods (v : Vm) : Vm :=
  let '(movements, r) := GetJitMovements (registry v) in
  on_methods (λ h, foldl move_obsolete h movements) (on_registry (λ _, r) v).

(** The hooks of [GarbageCollectCache] and [DoCollection]. *)
Definition GarbageCollectCache (backup : Vm → Vm) (v : Vm) : Vm := backup (MoveObsoleteMethods v).

(** Before a code cache collection every recorded movement is made once:
    the list is handed over and left empty, no entry point changes, and, where
    the runtime has no function for it, the target's data is dropped while the
    backup keeps its own. *)
Theorem MoveObsoleteMethods_spec v :
  (∀ f target backup h t, MoveObsoleteMethod_ = Some f →
     entry_point (f target backup h t) = entry_point (h t)) →
  let v' := MoveObsoleteMethods v in
  jit_movements_ (registry v') = [] ∧ hooks_kept v v' ∧
  (MoveObsoleteMethod_ = None → ∀ t,
     data (methods v' t) =
       if bool_decide (t ∈ (jit_movements_ (registry v)).*1) then 0 else data (methods v t)).
Proof.
  intros Hf v'. unfold v', MoveObsoleteMethods, GetJitMovements. simpl.
  split; [done|]. split.
  - split; [done|]. intros t _. unfold entry_of. simpl. generalize (methods v) as h.
    induction (jit_movements_ (registry v)) as [|[m b] l IH]; intros h; [done|]. cbn [foldl].
    rewrite IH. unfold move_obsolete. destruct MoveObsoleteMethod_ as [f|] eqn:E; [by eapply Hf|].
    by rewrite !(proj1 (proj2 (SetData_fields _ _ _ _))).
  - intros Hnone t. generalize (methods v) as h.
    induction (jit_movements_ (registry v)) as [|[m b] l IH]; intros h; [done|]. cbn [foldl].
    rewrite IH. unfold move_obsolete. rewrite Hnone. cbn [fmap list_fmap fst].
    assert (∀ x, data (SetData b (GetData h b) h x) = data (h x)) as Hself.
    { intros x. destruct (decide (x = b)) as [->|]; [by rewrite SetData_data|by rewrite SetData_other]. }
    destruct (decide (t = m)) as [->|Hne].
    + rewrite SetData_data, (bool_decide_eq_true_2 (m ∈ m :: _)) by by left. by case_match.
    + rewrite SetData_other, Hself by done.
      rewrite (bool_decide_ext (t ∈ m :: l.*1) (t ∈ l.*1)); [done|].
      rewrite elem_of_cons. naive_solver.
Qed.
End code_cache.

(** ** [JniIdManager] *)

Section ids.
Context (cur : Arch).

Definition EncodeGenericId (backup : Z → Z) (v : Vm) (method : Z) : Z :=
  let target := IsBackup (registry v) method in
  backup (if negb (target =? 0) then target else method).

Definition DecodeMethodId (DecodeMethodId_ : option (Z → Z)) (method : Z) : Z :=
  match DecodeMethodId_ with Some f => f method | None => 0 end.

Definition IsIndexId (val : Z) : bool :=
  (val =? 0) || negb (Z.land val (kPointerSize cur - 1) =? 0).
End ids.

(** A backup has the generic id of the method it backs up, so an id the
    runtime hands out for either denotes the hooked method. *)
Lemma EncodeGenericId_backup backup v t :
  registry_ok (registry v) → hooked v t →
  EncodeGenericId backup v (IsHooked (registry v) t) = backup t ∧
  EncodeGenericId backup v t = backup t.
Proof.
  intros Hr Ht. unfold EncodeGenericId.
  assert (t ≠ 0) as Ht0 by (destruct Ht as [rec Hrec]; by destruct (ok_nonnull _ Hr _ _ Hrec)).
  assert (IsHooked (registry v) t ≠ 0) as Hb by by apply hooked_IsHooked.
  rewrite (proj1 (IsHooked_IsBackup _ Hr t _ Ht0 Hb) eq_refl).
  rewrite (proj2 (Z.eqb_neq _ _) Ht0). split; [done|].
  by rewrite (proj2 (IsBackup_null _ Hr t) (ok_apart _ Hr t Ht)).
Qed.

(** ** Init of the three classes *)

Section init.
Context (info : InitInfo) (replace_of : string → Z) (sdk_int : Z) (java_debuggable : bool).

Definition Jit_symbol (name : string) : Symbol :=
  match name with
  | "EnqueueOptimizedCompilation_" =>
      hooker replace_of name "_ZN3art3jit3Jit27EnqueueOptimizedCompilationEPNS_9ArtMethodEPNS_6ThreadE"
  | "AddCompileTask_" => hooker replace_of name
      "_ZN3art3jit3Jit14AddCompileTaskEPNS_6ThreadEPNS_9ArtMethodENS_15CompilationKindEb"
  | "MapBootImageMethods_" => hooker replace_of name "_ZN3art3jit3Jit19MapBootImageMethodsEv"
  | "MoveObsoleteMethod_" =>
      Function name "_ZN3art3jit12JitCodeCache18MoveObsoleteMethodEPNS_9ArtMethodES3_"
  | "GarbageCollectCache_" =>
      hooker replace_of name "_ZN3art3jit12JitCodeCache19GarbageCollectCacheEPNS_6ThreadE"
  | "DoCollection_" => hooker replace_of name "_ZN3art3jit12JitCodeCache12DoCollectionEPNS_6ThreadE"
  | "EncodeGenericId_" => hooker replace_of name
      "_ZN3art3jni12JniIdManager15EncodeGenericIdINS_9ArtMethodEEEmNS_16ReflectiveHandleIT_EE"
  | _ => Function name "_ZN3art3jni12JniIdManager14DecodeMethodIdEP10_jmethodID"
  end%string.

Abbreviation one n := (HookHandler.One (Jit_symbol n%string)).
Abbreviation any := (HookHandler.any info).

Definition Jit_Init (s : Syms) : bool * Syms :=
  let s :=
    if sdk_int <=? __ANDROID_API_U__ then
      let s := (any [one "EnqueueOptimizedCompilation_"] s).2 in
      (any [one "AddCompileTask_"] s).2
    else s in
  let s := if __ANDROID_API_R__ <=? sdk_int then (any [one "MapBootImageMethods_"] s).2 else s in
  (true, s).

Definition JitCodeCache_Init (s : Syms) : bool * Syms :=
  let '(ok, s) :=
    if __ANDROID_API_O__ <=? sdk_int then any [one "MoveObsoleteMethod_"] s else (true, s) in
  if negb ok then (false, s)
  else if __ANDROID_API_N__ <=? sdk_int then
    any [one "GarbageCollectCache_"; one "DoCollection_"] s
  else (true, s).

Definition JniIdManager_Init (s : Syms) : bool * Syms :=
  if __ANDROID_API_R__ <=? sdk_int then
    let s := (any [one "DecodeMethodId_"] s).2 in
    if java_debuggable then (true, (any [one "EncodeGenericId_"] s).2) else (true, s)
  else (true, s).
End init.

(** ** A concrete state *)

Section example.

Example map_boot_image_keeps_hooks_witness :
  entry_of (MapBootImageMethods arm64_config map_to_list map_to_list map_to_list id
    (hooked_vm empty_registry)) 0x100 = 0x9000.
Proof.
  apply (map_boot_image_keeps_hooks arm64_config map_to_list map_to_list map_to_list
    (λ _, reflexivity _) (λ _, reflexivity _) (λ _, reflexivity _) id (hooked_vm empty_registry));
    [apply hooked_vm_ok|by eexists|done].
Defined.

Example map_boot_image_loses_hook_witness :
  entry_of (hooked_vm deoptimized_first) 0x100 = 0x9000 ∧
  entry_of (MapBootImageMethods arm64_config map_to_list map_to_list map_to_list id
    (hooked_vm deoptimized_first)) 0x100 = 0x5000.
Proof.
  split; [done|].
  apply (map_boot_image_loses_hook arm64_config map_to_list map_to_list map_to_list
    (λ _, reflexivity _) (λ _, reflexivity _) (λ _, reflexivity _) id (hooked_vm deoptimized_first));
    [apply deoptimized_vm_ok|by eexists|done].
Defined.

Example MoveObsoleteMethods_witness :
  let v := hooked_vm (RecordJitMovement 0x100 0x200 empty_registry) in
  jit_movements_ (registry (MoveObsoleteMethods None v)) = [] ∧
  hooks_kept v (MoveObsoleteMethods None v).
Proof.
  intros v. by destruct (MoveObsoleteMethods_spec None v ltac:(done)) as (? & ? & _).
Defined.

Example EncodeGenericId_backup_witness :
  EncodeGenericId id (hooked_vm empty_registry) 0x200 = 0x100.
Proof.
  apply (EncodeGenericId_backup id (hooked_vm empty_registry) 0x100);
    [apply hooked_vm_ok|by eexists].
Defined.
End example.
