(* ===== verification/ObjectCollections.v ===== *)
(** * Object lists and maps

    [JBasicObjectList] and [JBasicObjectMap] of [include/utils/jni_helper.hpp]:
    collections kept in Java [Object[]] arrays.  Objects are identified by
    positive numbers, 0 is null, [IsSameObject] is equality.  Global and local
    references of the arrays are not modelled; an array is its elements.  A
    result [None] is the [std::unreachable()] after a search loop. *)

From S2P Require Import Prelude.

(** ** Java arrays *)

Definition NewObjectArray (n : Z) : list Z := replicate (Z.to_nat n) 0.
Definition GetObjectArrayElement (a : list Z) (i : Z) : Z := default 0 (a !! Z.to_nat i).
Definition SetObjectArrayElement (a : list Z) (i v : Z) : list Z := <[Z.to_nat i := v]> a.
Definition arraycopy (src dest : list Z) (len : Z) : list Z :=
  take (Z.to_nat len) src ++ drop (Z.to_nat len) dest.

#[global] Arguments NewObjectArray : simpl never.
#[global] Arguments GetObjectArrayElement : simpl never.
#[global] Arguments SetObjectArrayElement : simpl never.
#[global] Arguments arraycopy : simpl never.

(** The loop that looks for a null element from [cursor_] on, around the array:
    [n] rounds are left, round [i] is next. *)
Fixpoint find_null (n : nat) (i : Z) (a : list Z) (start length : Z) : option Z :=
  match n with
  | O => None
  | S n =>
      let idx := (start + i) mod length in
      if GetObjectArrayElement a idx =? 0 then Some idx else find_null n (i + 1) a start length
  end.

(** How much a full collection grows. *)
Definition growth_of (length : Z) : Z := if length =? 0 then 16 else Z.min length 128.

(** ** [JBasicObjectList] *)

Module ObjectList.
Record t := mk { array_ : option (list Z); cursor_ : Z; available_ : Z; length_ : Z }.

Definition empty : t := mk None 0 0 0.
Definition elements (l : t) : list Z := match array_ l with None => [] | Some a => a end.

Definition size (l : t) : Z := length_ l - available_ l.
Definition capacity (l : t) : Z := length_ l.

Definition allocate_array (n : Z) : t := mk (Some (NewObjectArray n)) 0 n n.

Definition grow_to (new_length : Z) (l : t) : t :=
  match array_ l with
  | None => allocate_array new_length
  | Some a =>
      mk (Some (arraycopy a (NewObjectArray new_length) (length_ l))) (cursor_ l)
        (available_ l + (new_length - length_ l)) new_length
  end.

Definition reserve (new_capacity : Z) (l : t) : t :=
  if new_capacity <=? length_ l then l else grow_to new_capacity l.

Definition add (obj : Z) (l : t) : option (Z * t) :=
  if obj =? 0 then Some (-1, l)
  else
    let l := if available_ l =? 0 then grow_to (length_ l + growth_of (length_ l)) l else l in
    match find_null (Z.to_nat (length_ l)) 0 (elements l) (cursor_ l) (length_ l) with
    | None => None
    | Some idx =>
        Some (idx, mk (Some (SetObjectArrayElement (elements l) idx obj))
          ((idx + 1) mod length_ l) (available_ l - 1) (length_ l))
    end.

Definition get (index : Z) (l : t) : Z :=
  if (index <? 0) || (length_ l <=? index) then 0 else GetObjectArrayElement (elements l) index.

Definition update (index obj : Z) (l : t) : t :=
  if (index <? 0) || (length_ l <=? index) then l
  else mk (Some (SetObjectArrayElement (elements l) index obj)) (cursor_ l) (available_ l) (length_ l).

Definition remove (index : Z) (l : t) : t :=
  if (index <? 0) || (length_ l <=? index) then l
  else mk (Some (SetObjectArrayElement (elements l) index 0)) index (available_ l + 1) (length_ l).

(** The loop of [finalize]: the greatest index below [n] of an object. *)
Fixpoint last_non_null (n : nat) (a : list Z) : Z :=
  match n with
  | O => -1
  | S n => if GetObjectArrayElement a (Z.of_nat n) =? 0 then last_non_null n a else Z.of_nat n
  end.

Definition finalize (l : t) : t :=
  match array_ l with
  | None => l
  | Some a =>
      if (length_ l =? 0) || (available_ l =? 0) then l
      else
        let new_length := last_non_null (Z.to_nat (length_ l)) a + 1 in
        if new_length =? length_ l then l
        else
          let new_array := NewObjectArray new_length in
          let new_array := if 0 <? new_length then arraycopy a new_array new_length else new_array in
          mk (Some new_array) (if new_length =? 0 then 0 else new_length - 1) 0 new_length
  end.

Definition clear (l : t) : t :=
  match array_ l with
  | None => l
  | Some a => mk (Some (map (λ _, 0) a)) 0 (length_ l) (length_ l)
  end.

Definition recycle (l : t) : t := empty.
End ObjectList.

(** ** [JBasicObjectMap] *)

Module ObjectMap.
Record t := mk {
  arrays_ : option (list Z * list Z);       (* keys_, values_ *)
  cursor_ : Z;
  available_ : Z;
  length_ : Z;
}.

Definition empty : t := mk None 0 0 0.
Definition keys_ (m : t) : list Z := match arrays_ m with None => [] | Some a => a.1 end.
Definition values_ (m : t) : list Z := match arrays_ m with None => [] | Some a => a.2 end.

Definition size (m : t) : Z := length_ m - available_ m.
Definition capacity (m : t) : Z := length_ m.

Definition allocate_arrays (n : Z) : t := mk (Some (NewObjectArray n, NewObjectArray n)) 0 n n.

Definition grow_to (new_length : Z) (m : t) : t :=
  match arrays_ m with
  | None => allocate_arrays new_length
  | Some (keys, values) =>
      mk (Some (arraycopy keys (NewObjectArray new_length) (length_ m),
                arraycopy values (NewObjectArray new_length) (length_ m)))
        (cursor_ m) (available_ m + (new_length - length_ m)) new_length
  end.

Definition reserve (new_capacity : Z) (m : t) : t :=
  if new_capacity <=? length_ m then m else grow_to new_capacity m.

(** The loop that looks for a key: [n] rounds are left from index [i] on. *)
Fixpoint find_key (n : nat) (i : Z) (keys : list Z) (key : Z) : option Z :=
  match n with
  | O => None
  | S n =>
      let current_key := GetObjectArrayElement keys i in
      if current_key =? 0 then find_key n (i + 1) keys key
      else if current_key =? key then Some i
      else find_key n (i + 1) keys key
  end.

Definition with_arrays (keys values : list Z) (m : t) : t :=
  mk (Some (keys, values)) (cursor_ m) (available_ m) (length_ m).

Definition add (key value : Z) (m : t) : option (bool * t) :=
  if key =? 0 then Some (false, m)
  else match find_key (Z.to_nat (length_ m)) 0 (keys_ m) key with
  | Some i => Some (true, with_arrays (keys_ m) (SetObjectArrayElement (values_ m) i value) m)
  | None =>
      let m := if available_ m =? 0 then grow_to (length_ m + growth_of (length_ m)) m else m in
      match find_null (Z.to_nat (length_ m)) 0 (keys_ m) (cursor_ m) (length_ m) with
      | None => None
      | Some idx =>
          Some (true, mk (Some (SetObjectArrayElement (keys_ m) idx key,
                                SetObjectArrayElement (values_ m) idx value))
            ((idx + 1) mod length_ m) (available_ m - 1) (length_ m))
      end
  end.

Definition get (key : Z) (m : t) : Z :=
  if key =? 0 then 0
  else match arrays_ m with
  | None => 0
  | Some (keys, values) =>
      match find_key (Z.to_nat (length_ m)) 0 keys key with
      | None => 0
      | Some i => GetObjectArrayElement values i
      end
  end.

Definition remove (key : Z) (m : t) : t :=
  if key =? 0 then m
  else match arrays_ m with
  | None => m
  | Some (keys, values) =>
      match find_key (Z.to_nat (length_ m)) 0 keys key with
      | None => m
      | Some i =>
          mk (Some (SetObjectArrayElement keys i 0, SetObjectArrayElement values i 0)) i
            (available_ m + 1) (length_ m)
      end
  end.

Definition clear (m : t) : t :=
  match arrays_ m with
  | None => m
  | Some (keys, values) =>
      mk (Some (map (λ _, 0) keys, map (λ _, 0) values)) 0 (length_ m) (length_ m)
  end.

(** The copying loop of [finalize]: [n] rounds are left from index [i] on;
    [dest_idx] is the next index of the new arrays. *)
Fixpoint compact (n : nat) (i dest_idx : Z) (keys values new_keys new_values : list Z)
    : list Z * list Z :=
  match n with
  | O => (new_keys, new_values)
  | S n =>
      let k := GetObjectArrayElement keys i in
      if k =? 0 then compact n (i + 1) dest_idx keys values new_keys new_values
      else
        compact n (i + 1) (dest_idx + 1) keys values
          (SetObjectArrayElement new_keys dest_idx k)
          (SetObjectArrayElement new_values dest_idx (GetObjectArrayElement values i))
  end.

Definition finalize (m : t) : t :=
  match arrays_ m with
  | None => m
  | Some (keys, values) =>
      if (length_ m =? 0) || (available_ m =? 0) then m
      else
        let real_count := length_ m - available_ m in
        if real_count =? 0 then clear m
        else if real_count =? length_ m then m
        else
          let arrays := compact (Z.to_nat (length_ m)) 0 0 keys values
            (NewObjectArray real_count) (NewObjectArray real_count) in
          mk (Some arrays) 0 0 real_count
  end.

Definition recycle (m : t) : t := empty.
End ObjectMap.

(** ** Lemmas on arrays *)

(** The number of null elements. *)
Definition nulls (a : list Z) : Z := Z.of_nat (sum_list_with (λ x : Z, if x =? 0 then 1%nat else 0%nat) a).

Lemma nulls_nonneg a : 0 <= nulls a.
Proof. unfold nulls. lia. Qed.

Lemma nulls_app a b : nulls (a ++ b) = nulls a + nulls b.
Proof. unfold nulls. rewrite sum_list_with_app. lia. Qed.

Lemma nulls_replicate n : nulls (replicate n 0) = Z.of_nat n.
Proof. unfold nulls. induction n; simpl in *; lia. Qed.

Lemma nulls_insert a i x v :
  a !! i = Some x →
  nulls (<[i := v]> a) = nulls a - (if x =? 0 then 1 else 0) + (if v =? 0 then 1 else 0).
Proof.
  unfold nulls. revert i. induction a as [|y a IH]; intros [|i] Hi; simplify_eq/=.
  - destruct (x =? 0), (v =? 0); lia.
  - specialize (IH i Hi). destruct (y =? 0), (x =? 0), (v =? 0); lia.
Qed.

Lemma nulls_all a : nulls a <= Z.of_nat (length a).
Proof. unfold nulls. induction a as [|y a IH]; simpl in *; [lia|]. destruct (y =? 0); lia. Qed.

(** Every element is an object when none is null. *)
Lemma nulls_pos a : 0 < nulls a → ∃ i : nat, a !! i = Some 0.
Proof.
  unfold nulls. induction a as [|y a IH]; simpl; [lia|]. destruct (Z.eqb_spec y 0) as [->|]; intros H.
  - by exists 0%nat.
  - destruct IH as [i Hi]; [lia|]. by exists (S i).
Qed.

Lemma Get_Set a i v j :
  0 <= i < Z.of_nat (length a) → 0 <= j →
  GetObjectArrayElement (SetObjectArrayElement a i v) j =
    if decide (j = i) then v else GetObjectArrayElement a j.
Proof.
  intros Hi Hj. unfold GetObjectArrayElement, SetObjectArrayElement. case_decide as E.
  - subst. by rewrite list_lookup_insert_eq by lia.
  - by rewrite list_lookup_insert_ne by lia.
Qed.

Lemma Get_lookup a i :
  0 <= i < Z.of_nat (length a) → a !! Z.to_nat i = Some (GetObjectArrayElement a i).
Proof.
  intros Hi. unfold GetObjectArrayElement.
  destruct (lookup_lt_is_Some_2 a (Z.to_nat i)) as [x ->]; [lia|done].
Qed.

Lemma length_Set a i v : length (SetObjectArrayElement a i v) = length a.
Proof. apply length_insert. Qed.

Lemma length_New n : 0 <= n → Z.of_nat (length (NewObjectArray n)) = n.
Proof. intros. unfold NewObjectArray. rewrite length_replicate. lia. Qed.

Lemma Get_New n i : GetObjectArrayElement (NewObjectArray n) i = 0.
Proof.
  unfold GetObjectArrayElement, NewObjectArray.
  destruct (replicate _ _ !! _) eqn:E; [|done]. by apply lookup_replicate in E as [-> _].
Qed.

(** Copying an array into a larger one of nulls. *)
Lemma arraycopy_larger a n :
  Z.of_nat (length a) <= n → arraycopy a (NewObjectArray n) (Z.of_nat (length a)) =
    a ++ replicate (Z.to_nat n - length a) 0.
Proof.
  intros Hn. unfold arraycopy, NewObjectArray. rewrite Nat2Z.id, drop_replicate.
  by rewrite take_ge by lia.
Qed.

(** Copying a part of an array. *)
Lemma arraycopy_prefix a n :
  0 <= n → arraycopy a (NewObjectArray n) n = take (Z.to_nat n) a.
Proof.
  intros Hn. unfold arraycopy, NewObjectArray. rewrite drop_replicate, Nat.sub_diag.
  apply app_nil_r.
Qed.

Lemma Get_app_nulls a n i : GetObjectArrayElement (a ++ replicate n 0) i = GetObjectArrayElement a i.
Proof.
  unfold GetObjectArrayElement. destruct (decide (Z.to_nat i < length a)%nat) as [Hi|Hi].
  - by rewrite lookup_app_l.
  - rewrite lookup_app_r, (lookup_ge_None_2 a) by lia.
    destruct (replicate _ _ !! _) eqn:E; [|done]. by apply lookup_replicate in E as [-> _].
Qed.

Lemma find_null_None n i a start length k :
  find_null n i a start length = None → i <= k < i + Z.of_nat n →
  GetObjectArrayElement a ((start + k) mod length) ≠ 0.
Proof.
  revert i. induction n as [|n IH]; intros i Hf Hk; [lia|]. simpl in Hf.
  destruct (Z.eqb_spec (GetObjectArrayElement a ((start + i) mod length)) 0); [done|].
  destruct (decide (k = i)) as [->|]; [done|]. apply (IH (i + 1)); [done|lia].
Qed.

Lemma find_null_Some n i a start length idx :
  0 < length → find_null n i a start length = Some idx →
  0 <= idx < length ∧ GetObjectArrayElement a idx = 0.
Proof.
  intros Hl. revert i. induction n as [|n IH]; intros i Hf; [done|]. simpl in Hf.
  destruct (Z.eqb_spec (GetObjectArrayElement a ((start + i) mod length)) 0); [|eauto].
  simplify_eq. split; [apply Z.mod_pos_bound; lia|done].
Qed.

(** The search finds a null element when there is one. *)
Lemma find_null_total a start :
  0 < nulls a →
  ∃ idx, find_null (length a) 0 a start (Z.of_nat (length a)) = Some idx ∧
    0 <= idx < Z.of_nat (length a) ∧ GetObjectArrayElement a idx = 0.
Proof.
  intros Hn. destruct (nulls_pos a Hn) as [i Hi].
  assert (i < length a)%nat as Hlt by by eapply lookup_lt_Some.
  destruct (find_null (length a) 0 a start (Z.of_nat (length a))) as [idx|] eqn:Hf.
  - exists idx. split; [done|]. eapply find_null_Some; [lia|done].
  - exfalso. set (L := Z.of_nat (length a)) in *.
    apply (find_null_None _ _ _ _ _ ((Z.of_nat i - start) mod L)) in Hf.
    + apply Hf. rewrite Zplus_mod_idemp_r. replace (start + (Z.of_nat i - start)) with (Z.of_nat i) by lia.
      rewrite Z.mod_small by lia. unfold GetObjectArrayElement. by rewrite Nat2Z.id, Hi.
    + pose proof (Z.mod_pos_bound (Z.of_nat i - start) L). lia.
Qed.

Lemma no_nulls_Get a i :
  nulls a = 0 → 0 <= i < Z.of_nat (length a) → GetObjectArrayElement a i ≠ 0.
Proof.
  intros Hz Hi E. pose proof (Get_lookup a i Hi) as Hk. rewrite E in Hk.
  pose proof (nulls_insert _ _ _ 1 Hk) as Hins. simpl in Hins.
  pose proof (nulls_nonneg (<[Z.to_nat i:=1]> a)). lia.
Qed.

Lemma no_nulls_find a n start :
  a ≠ [] → nulls a = 0 → find_null n 0 a start (Z.of_nat (length a)) = None.
Proof.
  intros Ha Hz. destruct (find_null _ _ _ _ _) as [k|] eqn:Hk; [|done]. exfalso.
  assert (length a ≠ 0%nat) by by rewrite length_zero_iff_nil.
  apply find_null_Some in Hk as [Hk1 Hk2]; [|lia]. by apply no_nulls_Get in Hk2.
Qed.

Lemma growth_of_pos n : 0 <= n → 0 < growth_of n.
Proof. intros. unfold growth_of. destruct (Z.eqb_spec n 0); lia. Qed.

(** ** Lists *)

Section lists.
Import ObjectList.
Implicit Types (l : ObjectList.t).

(** What holds of every list that was not misused: the free slots counted are
    there. *)
Record list_ok l : Prop := {
  lok_length : Z.of_nat (length (elements l)) = length_ l;
  lok_available : 0 <= available_ l <= nulls (elements l);
  lok_cursor : 0 <= cursor_ l;
}.

Lemma elements_mk a c av n : elements (mk (Some a) c av n) = a.
Proof. done. Qed.

Lemma empty_list_ok : list_ok empty.
Proof. by split. Qed.

Lemma get_in_range l j :
  get j l = if decide (0 <= j < length_ l) then GetObjectArrayElement (elements l) j else 0.
Proof.
  unfold get. destruct (Z.ltb_spec j 0), (Z.leb_spec (length_ l) j); simpl; case_decide; lia || done.
Qed.

Lemma get_element l j : list_ok l → 0 <= j → get j l = GetObjectArrayElement (elements l) j.
Proof.
  intros [Hl _ _] Hj. rewrite get_in_range. case_decide; [done|].
  unfold GetObjectArrayElement. rewrite lookup_ge_None_2; [done|]. lia.
Qed.

Lemma get_negative l j : j < 0 → get j l = 0.
Proof. intros. rewrite get_in_range. case_decide; [lia|done]. Qed.

(** Lists with the same objects at the same places. *)
Lemma get_ext l l' :
  list_ok l → list_ok l' →
  (∀ j, 0 <= j → GetObjectArrayElement (elements l') j = GetObjectArrayElement (elements l) j) →
  ∀ j, get j l' = get j l.
Proof.
  intros Hl Hl' He j. destruct (decide (0 <= j)).
  - rewrite !get_element by done. auto.
  - rewrite !get_negative by lia. done.
Qed.

Lemma elements_grow_to l n :
  list_ok l → length_ l <= n →
  elements (grow_to n l) = elements l ++ replicate (Z.to_nat n - length (elements l)) 0.
Proof.
  intros [Hl Ha Hc] Hn. unfold grow_to. destruct (array_ l) as [a|] eqn:E; unfold elements in *;
    rewrite E in *; simpl in *.
  - rewrite <-Hl. apply arraycopy_larger. lia.
  - unfold NewObjectArray. by rewrite Nat.sub_0_r.
Qed.

Lemma grow_to_counts l n :
  list_ok l → length_ (grow_to n l) = n ∧ available_ (grow_to n l) = available_ l + (n - length_ l) ∧
  (cursor_ (grow_to n l) = cursor_ l ∨ cursor_ (grow_to n l) = 0).
Proof.
  intros [Hl Ha _]. unfold grow_to. destruct (array_ l) as [a|] eqn:E; simpl; [auto|].
  unfold elements in *. rewrite E in *. simpl in *. split_and!; [done| |by right].
  unfold nulls in Ha. simpl in Ha. lia.
Qed.

Lemma grow_to_ok l n :
  list_ok l → length_ l <= n → list_ok (grow_to n l) ∧ ∀ j, get j (grow_to n l) = get j l.
Proof.
  intros Hl Hn. pose proof Hl as [Hlen Ha Hc].
  destruct (grow_to_counts l n Hl) as (H1 & H2 & H3).
  assert (list_ok (grow_to n l)) as Hok.
  { split; rewrite ?(elements_grow_to l n Hl Hn), ?H1, ?H2.
    - rewrite length_app, length_replicate. lia.
    - rewrite nulls_app, nulls_replicate. lia.
    - destruct H3 as [-> | ->]; lia. }
  split; [done|]. apply get_ext; [done..|]. intros j _.
  rewrite (elements_grow_to l n Hl Hn). apply Get_app_nulls.
Qed.

(** A list with a free slot in store for [add]. *)
Definition with_space l : ObjectList.t :=
  if available_ l =? 0 then grow_to (length_ l + growth_of (length_ l)) l else l.

Lemma with_space_ok l :
  list_ok l → list_ok (with_space l) ∧ 0 < available_ (with_space l) ∧
  size (with_space l) = size l ∧ ∀ j, get j (with_space l) = get j l.
Proof.
  intros Hl. pose proof Hl as [Hlen Ha Hc]. pose proof (growth_of_pos (length_ l)). unfold with_space.
  destruct (Z.eqb_spec (available_ l) 0); [|split_and!; [done|lia|done|done]].
  destruct (grow_to_ok l (length_ l + growth_of (length_ l)) Hl) as [Hok Hg]; [lia|].
  destruct (grow_to_counts l (length_ l + growth_of (length_ l)) Hl) as (H1 & H2 & _).
  unfold size. rewrite H1, H2. split_and!; [done|lia|lia|done].
Qed.

(** The slot [add] finds. *)
Lemma list_new_slot obj l :
  list_ok l → obj ≠ 0 →
  ∃ idx l', add obj l = Some (idx, l') ∧ list_ok l' ∧ 0 <= idx ∧ get idx l = 0 ∧ size l' = size l + 1 ∧
    ∀ j, get j l' = if decide (j = idx) then obj else get j l.
Proof.
  intros Hl Hobj. unfold add. rewrite (proj2 (Z.eqb_neq obj 0)) by done. fold (with_space l).
  destruct (with_space_ok l Hl) as (Hok & Hpos & Hsize & Hget). revert Hok Hpos Hsize Hget.
  generalize (with_space l). intros s Hok Hpos Hsize Hget. pose proof Hok as [Hlen Ha Hc].
  destruct (find_null_total (elements s) (cursor_ s)) as (idx & Hf & Hidx & Hnull); [lia|].
  rewrite <-Hlen, Nat2Z.id, Hf. eexists idx, _. split; [done|].
  pose proof (Get_lookup _ _ Hidx) as Hlook. rewrite Hnull in Hlook.
  assert (list_ok (mk (Some (SetObjectArrayElement (elements s) idx obj))
    ((idx + 1) mod Z.of_nat (length (elements s))) (available_ s - 1)
    (Z.of_nat (length (elements s))))) as Hok'.
  { split; rewrite ?elements_mk; simpl.
    - by rewrite length_Set.
    - unfold SetObjectArrayElement. rewrite (nulls_insert _ _ 0 obj Hlook).
      simpl. rewrite (proj2 (Z.eqb_neq obj 0)) by done. lia.
    - apply Z.mod_pos_bound. lia. }
  split_and!; [done|lia| | |].
  - rewrite <-Hget, get_element by (done || lia). done.
  - rewrite <-Hsize. unfold size. simpl. lia.
  - intros j. destruct (decide (0 <= j)).
    + rewrite get_element by done. rewrite elements_mk, Get_Set by lia.
      case_decide; [done|]. by rewrite <-Hget, get_element.
    + rewrite get_negative by lia. case_decide; [lia|]. by rewrite get_negative by lia.
Qed.

(** Adding an object always finds a slot: it goes to an index that was free,
    every other index keeps its object, and the size grows by one. *)
Theorem list_add obj l :
  list_ok l → obj ≠ 0 →
  ∃ idx l', add obj l = Some (idx, l') ∧ list_ok l' ∧ get idx l = 0 ∧ size l' = size l + 1 ∧
    ∀ j, get j l' = if decide (j = idx) then obj else get j l.
Proof.
  intros Hl Hobj. destruct (list_new_slot obj l Hl Hobj) as (idx & l' & ? & ? & _ & ? & ? & ?).
  by exists idx, l'.
Qed.

(** Removing an object: the index is free, the others are as before. *)
Lemma remove_ok i l :
  list_ok l → get i l ≠ 0 →
  list_ok (remove i l) ∧ size (remove i l) = size l - 1 ∧
  ∀ j, get j (remove i l) = if decide (j = i) then 0 else get j l.
Proof.
  intros Hl Hi. pose proof Hl as [Hlen Ha Hc]. rewrite get_in_range in Hi. case_decide as Hr; [|done].
  unfold remove. rewrite (proj2 (Z.ltb_ge i 0)), (proj2 (Z.leb_gt (length_ l) i)) by lia. simpl.
  pose proof (Get_lookup (elements l) i ltac:(lia)) as Hlook.
  assert (list_ok (mk (Some (SetObjectArrayElement (elements l) i 0)) i (available_ l + 1) (length_ l)))
    as Hok.
  { split; rewrite ?elements_mk; simpl; [by rewrite length_Set| |lia]. unfold SetObjectArrayElement.
    rewrite (nulls_insert _ _ _ 0 Hlook), (proj2 (Z.eqb_neq _ 0)) by done. simpl. lia. }
  split_and!; [done|unfold size; simpl; lia|]. intros j. destruct (decide (0 <= j)).
  - rewrite get_element by done. rewrite elements_mk, Get_Set by lia. case_decide; [done|by rewrite get_element].
  - rewrite !get_negative by lia. by case_decide.
Qed.

(** Replacing an object by another. *)
Lemma update_ok i obj l :
  list_ok l → get i l ≠ 0 → obj ≠ 0 →
  list_ok (update i obj l) ∧ ∀ j, get j (update i obj l) = if decide (j = i) then obj else get j l.
Proof.
  intros Hl Hi Hobj. pose proof Hl as [Hlen Ha Hc]. rewrite get_in_range in Hi. case_decide as Hr; [|done].
  unfold update. rewrite (proj2 (Z.ltb_ge i 0)), (proj2 (Z.leb_gt (length_ l) i)) by lia. simpl.
  pose proof (Get_lookup (elements l) i ltac:(lia)) as Hlook.
  assert (list_ok (mk (Some (SetObjectArrayElement (elements l) i obj)) (cursor_ l) (available_ l) (length_ l)))
    as Hok.
  { split; rewrite ?elements_mk; simpl; [by rewrite length_Set| |lia]. unfold SetObjectArrayElement.
    rewrite (nulls_insert _ _ _ obj Hlook), !(proj2 (Z.eqb_neq _ 0)) by done. lia. }
  split; [done|]. intros j. destruct (decide (0 <= j)).
  - rewrite get_element by done. rewrite elements_mk, Get_Set by lia. case_decide; [done|by rewrite get_element].
  - rewrite !get_negative by lia. case_decide; [lia|done].
Qed.

Lemma last_non_null_spec n a :
  let r := last_non_null n a in
  -1 <= r < Z.of_nat n ∧ (∀ j, r < j < Z.of_nat n → GetObjectArrayElement a j = 0) ∧
  (0 <= r → GetObjectArrayElement a r ≠ 0).
Proof.
  induction n as [|n IH]; simpl.
  - split_and!; lia.
  - destruct (Z.eqb_spec (GetObjectArrayElement a (Z.of_nat n)) 0) as [E|E].
    + destruct IH as (H1 & H2 & H3). split_and!; [lia|lia| |done]. intros j Hj.
      destruct (decide (j = Z.of_nat n)) as [->|]; [done|]. apply H2. lia.
    + split_and!; [lia|lia| |done]. intros j Hj. lia.
Qed.

Lemma Get_take a n j :
  0 <= j → (∀ k, n <= k < Z.of_nat (length a) → GetObjectArrayElement a k = 0) →
  GetObjectArrayElement (take (Z.to_nat n) a) j = GetObjectArrayElement a j.
Proof.
  intros Hj Hz. destruct (decide (Z.to_nat j < Z.to_nat n)%nat) as [Hlt|Hge].
  - unfold GetObjectArrayElement. by rewrite lookup_take_lt.
  - unfold GetObjectArrayElement at 1. rewrite lookup_take_ge by lia. simpl.
    destruct (decide (j < Z.of_nat (length a))); [rewrite Hz; [done|lia]|].
    unfold GetObjectArrayElement. rewrite lookup_ge_None_2; [done|lia].
Qed.

(** [finalize] keeps every object at its index, and no slot of the list is
    counted as free any more when it drops the free slots of the end. *)
Lemma list_finalize l :
  list_ok l →
  list_ok (finalize l) ∧ length_ (finalize l) <= length_ l ∧
  (length_ (finalize l) < length_ l → available_ (finalize l) = 0) ∧
  ∀ j, get j (finalize l) = get j l.
Proof.
  intros Hl. pose proof Hl as [Hlen Ha Hc]. unfold finalize.
  destruct (array_ l) as [a|] eqn:Ea; [|by split_and!; [done|lia|lia|]].
  assert (elements l = a) as Hel by (unfold elements; by rewrite Ea). rewrite Hel in *.
  destruct ((length_ l =? 0) || (available_ l =? 0)); [by split_and!; [done|lia|lia|]|].
  rewrite <-Hlen, Nat2Z.id. destruct (last_non_null_spec (length a) a) as (Hr & Hz & _).
  set (r := last_non_null (length a) a) in *. rewrite Hlen.
  destruct (Z.eqb_spec (r + 1) (length_ l)); [by split_and!; [done|lia|lia|]|].
  assert ((if 0 <? r + 1 then arraycopy a (NewObjectArray (r + 1)) (r + 1) else NewObjectArray (r + 1)) =
    take (Z.to_nat (r + 1)) a) as Harr.
  { destruct (Z.ltb_spec 0 (r + 1)); [apply arraycopy_prefix; lia|].
    by replace (r + 1) with 0 by lia. }
  rewrite Harr.
  assert (list_ok (mk (Some (take (Z.to_nat (r + 1)) a)) (if r + 1 =? 0 then 0 else r + 1 - 1) 0 (r + 1)))
    as Hok.
  { split; rewrite ?elements_mk; simpl.
    - rewrite length_take. lia.
    - split; [done|apply nulls_nonneg].
    - destruct (Z.eqb_spec (r + 1) 0); lia. }
  split_and!; [done|simpl; lia|done|]. apply get_ext; [done..|]. intros j Hj.
  rewrite elements_mk, Hel. apply Get_take; [done|]. intros k Hk. apply Hz. lia.
Qed.

(** Removing the same index twice from a full list makes the second of two
    [add]s reach [std::unreachable()]. *)
Theorem list_double_remove l i x y :
  list_ok l → nulls (elements l) = 0 → 0 <= i < length_ l → x ≠ 0 → y ≠ 0 →
  ∃ idx l', add x (remove i (remove i l)) = Some (idx, l') ∧ add y l' = None.
Proof.
  intros Hl Hz Hi Hx Hy. pose proof Hl as [Hlen Ha Hc]. assert (available_ l = 0) as Hav by lia.
  unfold remove at 2. rewrite (proj2 (Z.ltb_ge i 0)), (proj2 (Z.leb_gt (length_ l) i)) by lia. simpl.
  unfold remove. simpl. rewrite (proj2 (Z.ltb_ge i 0)), (proj2 (Z.leb_gt (length_ l) i)) by lia. simpl.
  rewrite !elements_mk. set (b := SetObjectArrayElement (SetObjectArrayElement (elements l) i 0) i 0).
  assert (Z.of_nat (length b) = length_ l) as Hb by (unfold b; by rewrite !length_Set).
  assert (nulls b = 1) as Hn.
  { unfold b, SetObjectArrayElement. rewrite list_insert_insert_eq, (nulls_insert _ _ _ 0
      (Get_lookup (elements l) i ltac:(lia))), Hz.
    rewrite (proj2 (Z.eqb_neq _ 0)) by (apply no_nulls_Get; [done|lia]). simpl. lia. }
  unfold add at 1. rewrite (proj2 (Z.eqb_neq x 0)), Hav by done. simpl.
  rewrite elements_mk. destruct (find_null_total b i) as (idx & Hf & Hidx & Hnull); [lia|].
  rewrite <-Hb, Nat2Z.id, Hf. eexists _, _. split; [done|].
  unfold add. rewrite (proj2 (Z.eqb_neq y 0)) by done. simpl. rewrite elements_mk.
  pose proof (Get_lookup _ _ Hidx) as Hlook. rewrite Hnull in Hlook.
  set (b' := SetObjectArrayElement b idx x).
  assert (nulls b' = 0) as Hn'.
  { unfold b', SetObjectArrayElement. rewrite (nulls_insert _ _ _ x Hlook), Hn.
    simpl. rewrite (proj2 (Z.eqb_neq x 0)) by done. lia. }
  rewrite Nat2Z.id. replace (length b) with (length b') by (unfold b'; by rewrite length_Set).
  rewrite no_nulls_find; [done| |done].
  intros E. apply (f_equal length) in E. unfold b' in E. rewrite length_Set in E. simpl in E. lia.
Qed.
(** *** A list that was only added to *)

(** The list of capacity [cap] that [L] was added to. *)
Definition filled (L : list Z) (cap : Z) : ObjectList.t :=
  mk (Some (L ++ replicate (Z.to_nat cap - length L) 0)) (Z.of_nat (length L) mod cap)
    (cap - Z.of_nat (length L)) cap.

Lemma reserve_filled n : 0 < n → reserve n empty = filled [] n.
Proof.
  intros Hn. unfold reserve. rewrite (proj2 (Z.leb_gt n (length_ empty))) by done.
  unfold filled. simpl. by rewrite Nat.sub_0_r, Z.sub_0_r, Zmod_0_l.
Qed.

Lemma add_filled obj L cap :
  obj ≠ 0 → Z.of_nat (length L) < cap → add obj (filled L cap) = Some (Z.of_nat (length L), filled (L ++ [obj]) cap).
Proof.
  intros Hobj Hcap. unfold add, filled. rewrite (proj2 (Z.eqb_neq obj 0)) by done. cbn [available_ length_ cursor_].
  rewrite (proj2 (Z.eqb_neq _ 0)) by lia. cbn [available_ length_ cursor_]. rewrite elements_mk.
  replace (Z.to_nat cap - length L)%nat with (S (Z.to_nat cap - length (L ++ [obj]))) by
    (rewrite length_app; simpl; lia).
  replace (Z.to_nat cap) with (S (Z.to_nat cap - 1)) at 1 by lia. cbn [find_null replicate].
  rewrite (Z.mod_small (Z.of_nat (length L)) cap), Z.add_0_r, (Z.mod_small (Z.of_nat (length L)) cap) by lia.
  assert (GetObjectArrayElement (L ++ 0 :: replicate (Z.to_nat cap - length (L ++ [obj])) 0)
    (Z.of_nat (length L)) = 0) as -> by (unfold GetObjectArrayElement; by rewrite Nat2Z.id, list_lookup_middle).
  cbn [Z.eqb]. do 2 f_equal. unfold SetObjectArrayElement.
  rewrite Nat2Z.id, insert_app_r_alt, Nat.sub_diag by lia. rewrite length_app. simpl. f_equal.
  - by rewrite <-app_assoc.
  - f_equal. lia.
  - lia.
Qed.

Lemma update_filled v x L cap :
  Z.of_nat (length (x :: L)) <= cap → update 0 v (filled (x :: L) cap) = filled (v :: L) cap.
Proof.
  intros Hcap. unfold update. simpl in Hcap.
  rewrite (proj2 (Z.leb_gt (length_ (filled (x :: L) cap)) 0)) by (simpl; lia). done.
Qed.

(** [finalize] leaves what was added. *)
Lemma finalize_filled L cap :
  Forall (λ x, x ≠ 0) L → L ≠ [] → Z.of_nat (length L) <= cap → elements (finalize (filled L cap)) = L.
Proof.
  intros HL Hne Hcap. rewrite Forall_lookup in HL.
  assert (0 < length L)%nat by (destruct L; simpl; done || lia).
  unfold finalize, filled. cbn [array_ length_ available_].
  rewrite (proj2 (Z.eqb_neq cap 0)) by lia. cbn [orb].
  destruct (Z.eqb_spec (cap - Z.of_nat (length L)) 0) as [E|E].
  { rewrite elements_mk. replace (Z.to_nat cap - length L)%nat with 0%nat by lia. apply app_nil_r. }
  set (a := L ++ _). destruct (last_non_null_spec (Z.to_nat cap) a) as (Hr & Hz & Hnz).
  assert (last_non_null (Z.to_nat cap) a = Z.of_nat (length L) - 1) as ->.
  { set (k := last_non_null _ _) in *. destruct (decide (k < Z.of_nat (length L) - 1)) as [Hlt|].
    - exfalso. specialize (Hz (Z.of_nat (length L) - 1) ltac:(lia)). unfold a in Hz.
      rewrite Get_app_nulls in Hz. eapply HL; [|exact Hz]. apply Get_lookup. lia.
    - destruct (decide (k = Z.of_nat (length L) - 1)); [done|]. exfalso.
      apply (Hnz ltac:(lia)). unfold a. rewrite Get_app_nulls. unfold GetObjectArrayElement.
      rewrite lookup_ge_None_2; [done|lia]. }
  rewrite (proj2 (Z.eqb_neq _ cap)) by lia. rewrite (proj2 (Z.ltb_lt 0 _)) by lia. rewrite elements_mk.
  rewrite arraycopy_prefix by lia. unfold a. rewrite take_app_le by lia. rewrite take_ge; [done|lia].
Qed.
End lists.

(** ** Maps *)

Section maps.
Import ObjectMap.
Implicit Types (m : ObjectMap.t).
Abbreviation elt := GetObjectArrayElement.

Record map_ok m : Prop := {
  mok_keys : Z.of_nat (length (keys_ m)) = length_ m;
  mok_values : length (values_ m) = length (keys_ m);
  mok_available : available_ m = nulls (keys_ m);
  mok_cursor : 0 <= cursor_ m;
  mok_distinct (i j : nat) k : k ≠ 0 → keys_ m !! i = Some k → keys_ m !! j = Some k → i = j;
}.

Lemma empty_map_ok : map_ok empty.
Proof. by split. Qed.

Lemma keys_mk ks vs c av n : keys_ (mk (Some (ks, vs)) c av n) = ks.
Proof. done. Qed.
Lemma values_mk ks vs c av n : values_ (mk (Some (ks, vs)) c av n) = vs.
Proof. done. Qed.

Lemma find_key_Some n i keys key r :
  find_key n i keys key = Some r → i <= r < i + Z.of_nat n ∧ elt keys r = key.
Proof.
  revert i. induction n as [|n IH]; intros i; simpl; [done|].
  destruct (Z.eqb_spec (elt keys i) 0); [intros H%IH; split; [lia|tauto]|].
  destruct (Z.eqb_spec (elt keys i) key); [|intros H%IH; split; [lia|tauto]].
  intros [= <-]. split; [lia|done].
Qed.

Lemma find_key_None n i keys key j :
  key ≠ 0 → find_key n i keys key = None → i <= j < i + Z.of_nat n → elt keys j ≠ key.
Proof.
  intros Hk. revert i. induction n as [|n IH]; intros i; simpl; [lia|].
  destruct (Z.eqb_spec (elt keys i) 0), (Z.eqb_spec (elt keys i) key); intros H Hj; try done;
    destruct (decide (j = i)) as [->|]; try congruence; apply (IH (i + 1)); done || lia.
Qed.

Lemma distinct_at m i j :
  map_ok m → 0 <= i < length_ m → 0 <= j < length_ m →
  elt (keys_ m) i = elt (keys_ m) j → elt (keys_ m) i ≠ 0 → i = j.
Proof.
  intros [Hk _ _ _ Hd] Hi Hj E Hz.
  pose proof (Get_lookup (keys_ m) i ltac:(lia)) as Li.
  pose proof (Get_lookup (keys_ m) j ltac:(lia)) as Lj. rewrite <-E in Lj.
  pose proof (Hd _ _ _ Hz Li Lj). lia.
Qed.

Lemma get_at m key i :
  map_ok m → key ≠ 0 → 0 <= i < length_ m → elt (keys_ m) i = key → get key m = elt (values_ m) i.
Proof.
  intros Hm Hk Hi E. unfold get. rewrite (proj2 (Z.eqb_neq key 0)) by done.
  pose proof (mok_keys _ Hm) as Hl. unfold keys_, values_ in *.
  destruct (arrays_ m) as [[ks vs]|] eqn:Ea; simpl in *; [|lia].
  destruct (find_key _ _ _ _) as [r|] eqn:Hf.
  - apply find_key_Some in Hf as [Hr Er]. f_equal.
    apply (distinct_at m); [done|lia|lia| |]; unfold keys_; rewrite Ea; simpl; congruence.
  - exfalso. apply (find_key_None _ _ _ _ i Hk Hf); [lia|done].
Qed.

Lemma get_none m key :
  map_ok m → (∀ i, 0 <= i < length_ m → elt (keys_ m) i ≠ key) → get key m = 0.
Proof.
  intros Hm Hn. unfold get. destruct (key =? 0); [done|]. pose proof (mok_keys _ Hm) as Hl.
  unfold keys_ in *. destruct (arrays_ m) as [[ks vs]|] eqn:Ea; [|done]. simpl in *.
  destruct (find_key _ _ _ _) as [r|] eqn:Hf; [|done].
  apply find_key_Some in Hf as [Hr Er]. exfalso. apply (Hn r); [lia|done].
Qed.

(** Whether a key is bound, and where. *)
Lemma bound_dec m key :
  (∃ i, 0 <= i < length_ m ∧ elt (keys_ m) i = key) ∨
  (∀ i, 0 <= i < length_ m → elt (keys_ m) i ≠ key).
Proof.
  destruct (decide (Exists (λ i, elt (keys_ m) i = key) (seqZ 0 (length_ m)))) as [H|H].
  - apply Exists_exists in H as (i & Hi%elem_of_seqZ & Hk). left. exists i. split; [lia|done].
  - right. intros i Hi Hk. apply H, Exists_exists. exists i. rewrite elem_of_seqZ. split; [lia|done].
Qed.

(** Maps that bind a key to the same value. *)
Lemma get_same m m' key :
  map_ok m → map_ok m' → key ≠ 0 →
  (∀ i, 0 <= i < length_ m → elt (keys_ m) i = key →
     ∃ i', 0 <= i' < length_ m' ∧ elt (keys_ m') i' = key ∧ elt (values_ m') i' = elt (values_ m) i) →
  (∀ i', 0 <= i' < length_ m' → elt (keys_ m') i' = key →
     ∃ i, 0 <= i < length_ m ∧ elt (keys_ m) i = key) →
  get key m' = get key m.
Proof.
  intros Hm Hm' Hk H1 H2. destruct (bound_dec m key) as [(i & Hi & E)|Hn].
  - destruct (H1 i Hi E) as (i' & Hi' & E' & Ev).
    by rewrite (get_at m key i), (get_at m' key i').
  - rewrite (get_none m) by done. apply get_none; [done|]. intros i' Hi' E'.
    destruct (H2 i' Hi' E') as (i & Hi & E). by destruct (Hn i Hi).
Qed.

Lemma get_null m : get 0 m = 0.
Proof. done. Qed.

Lemma arrays_grow_to m n :
  map_ok m → length_ m <= n →
  let z := replicate (Z.to_nat n - length (keys_ m)) 0 in
  keys_ (grow_to n m) = keys_ m ++ z ∧ values_ (grow_to n m) = values_ m ++ z ∧
  length_ (grow_to n m) = n ∧ available_ (grow_to n m) = available_ m + (n - length_ m) ∧
  0 <= cursor_ (grow_to n m).
Proof.
  intros [Hk Hv Ha Hc _] Hn. unfold grow_to, keys_, values_ in *.
  destruct (arrays_ m) as [[ks vs]|] eqn:E; simpl in *.
  - assert (∀ a, length a = length ks → arraycopy a (NewObjectArray n) (length_ m) =
      a ++ replicate (Z.to_nat n - length ks) 0) as Hcopy.
    { intros a Hla. rewrite <-Hk, <-Hla. apply arraycopy_larger. lia. }
    by rewrite !Hcopy.
  - unfold NewObjectArray. rewrite Nat.sub_0_r. unfold nulls in Ha. simpl in Ha.
    split_and!; try done. lia.
Qed.

Lemma grow_to_map_ok m n :
  map_ok m → length_ m <= n → map_ok (grow_to n m) ∧ ∀ k, get k (grow_to n m) = get k m.
Proof.
  intros Hm Hn. destruct (arrays_grow_to m n Hm Hn) as (Ek & Ev & El & Ea & Hcur).
  pose proof Hm as [Hk Hv Ha Hc Hd].
  assert (map_ok (grow_to n m)) as Hm'.
  { split; rewrite ?Ek, ?Ev, ?El, ?Ea; rewrite ?length_app, ?length_replicate; try lia.
    - rewrite nulls_app, nulls_replicate. lia.
    - intros i j k Hkz [Hi|[_ Hi]]%lookup_app_Some [Hj|[_ Hj]]%lookup_app_Some; eauto;
        apply lookup_replicate in Hi as [? ?] || apply lookup_replicate in Hj as [? ?]; done. }
  split; [done|]. intros k. destruct (decide (k = 0)) as [->|Hk0]; [done|].
  apply get_same; try done; rewrite ?Ek, ?Ev, ?El.
  - intros i Hi E. exists i. rewrite !Get_app_nulls. split_and!; [lia|lia|done|done].
  - intros i Hi E. rewrite Get_app_nulls in E. exists i. split; [|done].
    split; [lia|]. destruct (decide (i < length_ m)); [done|].
    unfold GetObjectArrayElement in E. rewrite lookup_ge_None_2 in E; [done|lia].
Qed.

(** Writing one slot of the arrays, with a key that is new or null. *)
Lemma put_ok m idx key value cursor available :
  map_ok m → 0 <= idx < length_ m → (∀ i, 0 <= i < length_ m → elt (keys_ m) i = key → key = 0) →
  0 <= cursor → available = nulls (SetObjectArrayElement (keys_ m) idx key) →
  let m' := mk (Some (SetObjectArrayElement (keys_ m) idx key,
                      SetObjectArrayElement (values_ m) idx value)) cursor available (length_ m) in
  map_ok m' ∧ ∀ k, k ≠ 0 → get k m' =
    if decide (k = key) then value else if decide (k = elt (keys_ m) idx) then 0 else get k m.
Proof.
  intros Hm Hidx Hnew Hcur Hav m'. pose proof Hm as [Hk Hv _ _ Hd].
  assert (map_ok m') as Hm'.
  { unfold m'. split; rewrite ?keys_mk, ?values_mk, ?length_Set; try done.
    intros i j k Hkz Hi Hj. unfold SetObjectArrayElement in *.
    assert (∀ i, keys_ m !! i = Some k → key ≠ k) as Hne.
    { intros i' Hi' ->. apply Hkz, (Hnew (Z.of_nat i')); [apply lookup_lt_Some in Hi'; lia|].
      unfold GetObjectArrayElement. by rewrite Nat2Z.id, Hi'. }
    apply list_lookup_insert_Some in Hi as [(Ei & Ev & _)|(_ & Hi)];
      apply list_lookup_insert_Some in Hj as [(Ej & Ev' & _)|(_ & Hj)].
    - congruence.
    - by apply Hne in Hj.
    - by apply Hne in Hi.
    - by eapply Hd. }
  split; [done|]. intros k Hkz.
  assert (∀ i, 0 <= i → elt (keys_ m') i = if decide (i = idx) then key else elt (keys_ m) i) as Hke.
  { intros i Hi. apply Get_Set; lia. }
  assert (∀ i, 0 <= i → elt (values_ m') i = if decide (i = idx) then value else elt (values_ m) i) as Hve.
  { intros i Hi. apply Get_Set; lia. }
  case_decide as Ekey.
  { rewrite (get_at m' k idx), Hve, decide_True by (done || lia || (rewrite Hke, decide_True; done || lia)). done. }
  case_decide as Eold.
  { apply get_none; [done|]. intros i Hi. rewrite Hke by lia. case_decide as Ei; [congruence|].
    intros E. apply Ei, (distinct_at m); [done|exact Hi|done|congruence|congruence]. }
  apply get_same; try done.
  - intros i Hi E. exists i. rewrite Hke, Hve by lia. case_decide; [congruence|done].
  - intros i Hi E. exists i. rewrite Hke in E by lia. case_decide; [congruence|done].
Qed.

(** Replacing the value of a key. *)
Lemma with_value_ok m i value :
  map_ok m → 0 <= i < length_ m → elt (keys_ m) i ≠ 0 →
  let m' := with_arrays (keys_ m) (SetObjectArrayElement (values_ m) i value) m in
  map_ok m' ∧ ∀ k, get k m' = if decide (k = elt (keys_ m) i) then value else get k m.
Proof.
  intros Hm Hi Hz m'. pose proof Hm as [Hk Hv Ha Hc Hd].
  assert (map_ok m') as Hm'.
  { unfold m', with_arrays. split; rewrite ?keys_mk, ?values_mk, ?length_Set; try done. }
  split; [done|]. intros k. destruct (decide (k = 0)) as [->|Hkz]; [by rewrite decide_False|].
  assert (∀ j, 0 <= j → elt (values_ m') j = if decide (j = i) then value else elt (values_ m) j) as Hve.
  { intros j Hj. apply Get_Set; lia. }
  case_decide as E.
  - rewrite (get_at m' k i), Hve by (done || lia). by rewrite decide_True.
  - apply get_same; try done; [|intros j Hj Ej; by exists j].
    intros j Hj Ej. exists j. rewrite Hve by lia. case_decide; [congruence|done].
Qed.

(** Adding a key always succeeds; the key then has the value, every other
    key the value it had. *)
Theorem map_add key value m :
  map_ok m → key ≠ 0 →
  ∃ m', add key value m = Some (true, m') ∧ map_ok m' ∧
    ∀ k, get k m' = if decide (k = key) then value else get k m.
Proof.
  intros Hm Hkey. unfold add. rewrite (proj2 (Z.eqb_neq key 0)) by done.
  destruct (find_key _ _ _ _) as [i|] eqn:Hf.
  { apply find_key_Some in Hf as [Hi E]. eexists. split; [done|].
    destruct (with_value_ok m i value Hm) as [Hok Hg]; [lia|congruence|].
    split; [done|]. intros k. rewrite Hg, E. done. }
  set (s := if available_ m =? 0 then _ else m). pose proof (growth_of_pos (length_ m)) as Hgr.
  assert (map_ok s ∧ 0 < available_ s ∧ ∀ k, get k s = get k m) as (Hs & Hpos & Hget).
  { pose proof Hm as [Hk _ Ha _ _]. pose proof (nulls_nonneg (keys_ m)).
    unfold s. destruct (Z.eqb_spec (available_ m) 0); [|split_and!; [done|lia|done]].
    destruct (grow_to_map_ok m (length_ m + growth_of (length_ m)) Hm) as [Hok Hg]; [lia|].
    destruct (arrays_grow_to m (length_ m + growth_of (length_ m)) Hm) as (_ & _ & _ & Hav & _); [lia|].
    rewrite Hav. split_and!; [done|lia|done]. }
  assert (∀ i, 0 <= i < length_ s → elt (keys_ s) i = key → key = 0) as Hnew.
  { intros i Hi E. exfalso. pose proof Hm as [Hk _ _ _ _].
    assert (∀ j, 0 <= j < length_ m → elt (keys_ m) j ≠ key) as Hno.
    { intros j Hj. eapply find_key_None; [done|exact Hf|lia]. }
    destruct (decide (i < length_ m)); [destruct (Hno i); [lia|]|].
    - revert E. unfold s. destruct (available_ m =? 0); [|done].
      destruct (arrays_grow_to m (length_ m + growth_of (length_ m)) Hm) as (-> & _); [lia|].
      by rewrite Get_app_nulls.
    - revert E Hi. unfold s. destruct (available_ m =? 0); [|lia].
      destruct (arrays_grow_to m (length_ m + growth_of (length_ m)) Hm) as (-> & _ & -> & _); [lia|].
      rewrite Get_app_nulls. intros E _. unfold GetObjectArrayElement in E.
      rewrite lookup_ge_None_2 in E by lia. simpl in E. done. }
  clearbody s. pose proof Hs as [Hk Hv Ha Hc Hd].
  destruct (find_null_total (keys_ s) (cursor_ s)) as (idx & Hfn & Hidx & Hnull); [lia|].
  rewrite <-Hk, Nat2Z.id, Hfn. eexists. split; [done|]. rewrite Hk in *.
  pose proof (Get_lookup (keys_ s) idx ltac:(lia)) as Hlook. rewrite Hnull in Hlook.
  destruct (put_ok s idx key value ((idx + 1) mod length_ s) (available_ s - 1) Hs) as [Hok Hg]; try done.
  - apply Z.mod_pos_bound. lia.
  - unfold SetObjectArrayElement. rewrite (nulls_insert _ _ _ key Hlook). simpl.
    rewrite (proj2 (Z.eqb_neq key 0)) by done. lia.
  - split; [done|]. intros k. destruct (decide (k = 0)) as [->|Hkz]; [by rewrite decide_False|].
    rewrite Hg by done. case_decide; [done|]. rewrite Hnull, decide_False by done. apply Hget.
Qed.

(** Removing a key leaves it without a value and every other key as it was. *)
Theorem map_remove key m :
  map_ok m →
  map_ok (remove key m) ∧ ∀ k, get k (remove key m) = if decide (k = key) then 0 else get k m.
Proof.
  intros Hm. destruct (decide (key = 0)) as [->|Hkey].
  { split; [done|]. intros k. case_decide; [by subst|done]. }
  pose proof Hm as [Hk Hv Ha Hc Hd]. unfold remove. rewrite (proj2 (Z.eqb_neq key 0)) by done.
  unfold keys_, values_ in Hk, Hv, Ha.
  destruct (arrays_ m) as [[ks vs]|] eqn:Ea; simpl in *.
  2:{ split; [done|]. intros k. case_decide as E; [|done]. subst. apply get_none; [done|]. lia. }
  destruct (find_key _ _ _ _) as [i|] eqn:Hf.
  - apply find_key_Some in Hf as [Hi E]. pose proof (Get_lookup ks i ltac:(lia)) as Hlook.
    destruct (put_ok m i 0 0 i (available_ m + 1) Hm) as [Hok Hg]; unfold keys_, values_ in *;
      rewrite Ea in *; simpl in *; try done; [lia|lia| |].
    + unfold SetObjectArrayElement. rewrite (nulls_insert _ _ _ 0 Hlook), E, (proj2 (Z.eqb_neq key 0)) by done.
      simpl. lia.
    + split; [done|]. intros k. destruct (decide (k = 0)) as [->|Hkz]; [by rewrite decide_False|].
      rewrite Hg, decide_False, E by done. done.
  - split; [done|]. intros k. case_decide as Ek; [|done]. subst. apply get_none; [done|].
    intros i Hi. unfold keys_. rewrite Ea. simpl. eapply find_key_None; [done|exact Hf|lia].
Qed.

(** *** [finalize] *)

(** The bindings in order. *)
Fixpoint bindings (keys values : list Z) : list (Z * Z) :=
  match keys, values with
  | k :: keys, v :: values => if k =? 0 then bindings keys values else (k, v) :: bindings keys values
  | _, _ => []
  end.

Lemma length_bindings ks vs :
  length ks = length vs → Z.of_nat (length (bindings ks vs)) = Z.of_nat (length ks) - nulls ks.
Proof.
  unfold nulls. revert vs. induction ks as [|k ks IH]; intros [|v vs] E; simplify_eq/=; [done|].
  specialize (IH vs E). destruct (k =? 0); simpl; lia.
Qed.

Lemma elem_of_bindings ks vs k v :
  length ks = length vs →
  (k, v) ∈ bindings ks vs ↔ k ≠ 0 ∧ ∃ i : nat, ks !! i = Some k ∧ vs !! i = Some v.
Proof.
  revert vs. induction ks as [|k' ks IH]; intros [|v' vs] E; simplify_eq/=.
  - split; [by intros ?%elem_of_nil|]. by intros (_ & i & Hi & _).
  - destruct (Z.eqb_spec k' 0) as [->|Hz].
    + rewrite IH by done. split; intros [Hk (i & Hi & Hv)]; (split; [done|]).
      * by exists (S i).
      * destruct i as [|i]; simplify_eq/=. by exists i.
    + rewrite elem_of_cons, IH by done. split.
      * intros [[= -> ->]|[Hk (i & Hi & Hv)]]; [split; [done|]; by exists 0%nat|].
        split; [done|]. by exists (S i).
      * intros [Hk ([|i] & Hi & Hv)]; simplify_eq/=; [by left|]. right. split; [done|]. by exists i.
Qed.

Lemma bindings_distinct ks vs :
  length ks = length vs →
  (∀ i j k, k ≠ 0 → ks !! i = Some k → ks !! j = Some k → i = j) → NoDup (bindings ks vs).*1.
Proof.
  revert vs. induction ks as [|k' ks IH]; intros [|v' vs] E Hd; simplify_eq/=; try apply NoDup_nil_2.
  assert (NoDup (bindings ks vs).*1) as Hrec.
  { apply IH; [done|]. intros i j k Hk Hi Hj. cut (S i = S j); [lia|]. by apply (Hd (S i) (S j) k). }
  destruct (Z.eqb_spec k' 0); [done|]. simpl. apply NoDup_cons. split; [|done].
  intros ([k v] & -> & Hkv)%list_elem_of_fmap. apply elem_of_bindings in Hkv as [Hk (i & Hi & _)]; [|done].
  by pose proof (Hd 0%nat (S i) k Hk eq_refl Hi).
Qed.

Lemma Set_middle (p l : list Z) n x z :
  n = length p → SetObjectArrayElement (p ++ x :: l) (Z.of_nat n) z = (p ++ [z]) ++ l.
Proof.
  intros ->. unfold SetObjectArrayElement.
  by rewrite Nat2Z.id, <-app_assoc, insert_app_r_alt, Nat.sub_diag by lia.
Qed.

Lemma compact_spec ks vs ks0 vs0 (p : list (Z * Z)) :
  length ks = length vs → length ks0 = length vs0 →
  let r := length (bindings ks vs) in
  compact (length ks) (Z.of_nat (length ks0)) (Z.of_nat (length p)) (ks0 ++ ks) (vs0 ++ vs)
    (p.*1 ++ replicate r 0) (p.*2 ++ replicate r 0) =
  (p.*1 ++ (bindings ks vs).*1, p.*2 ++ (bindings ks vs).*2).
Proof.
  revert vs ks0 vs0 p. induction ks as [|k ks IH]; intros [|v vs] ks0 vs0 p E E0; simplify_eq/=; [done|].
  assert (elt (ks0 ++ k :: ks) (Z.of_nat (length ks0)) = k) as ->.
  { unfold GetObjectArrayElement. by rewrite Nat2Z.id, list_lookup_middle. }
  assert (elt (vs0 ++ v :: vs) (Z.of_nat (length ks0)) = v) as ->.
  { unfold GetObjectArrayElement. by rewrite Nat2Z.id, E0, list_lookup_middle. }
  pose proof (IH vs (ks0 ++ [k]) (vs0 ++ [v])) as IH'.
  rewrite !length_app in IH'. simpl in IH'. rewrite <-!app_assoc in IH'. simpl in IH'.
  replace (Z.of_nat (length ks0) + 1) with (Z.of_nat (length ks0 + 1)) by lia.
  destruct (Z.eqb_spec k 0); [apply IH'; lia|].
  cbn [length replicate]. rewrite !Set_middle by by rewrite length_fmap.
  specialize (IH' (p ++ [(k, v)])). rewrite !fmap_app, length_app in IH'. simpl in IH'.
  replace (Z.of_nat (length p) + 1) with (Z.of_nat (length p + 1)) by lia.
  rewrite IH' by lia. simpl. by rewrite <-!app_assoc.
Qed.

Lemma clear_ok m : map_ok m → map_ok (clear m) ∧ ∀ k, get k (clear m) = 0.
Proof.
  intros Hm. pose proof Hm as [Hk Hv Ha Hc Hd]. unfold clear, keys_, values_ in *.
  destruct (arrays_ m) as [[ks vs]|] eqn:Ea; simpl in *.
  - assert (∀ l : list Z, nulls (map (λ _, 0) l) = Z.of_nat (length l)) as Hn.
    { unfold nulls. induction l; simpl; lia. }
    assert (∀ i k, map (λ _ : Z, 0) ks !! i = Some k → k = 0) as Hz.
    { intros i k Hi. apply list_lookup_fmap_Some in Hi. by destruct Hi as (? & -> & _). }
    assert (map_ok (mk (Some (map (λ _, 0) ks, map (λ _, 0) vs)) 0 (length_ m) (length_ m))) as Hok.
    { split; rewrite ?keys_mk, ?values_mk; simpl; rewrite ?length_map; try done; [by rewrite Hn|].
      intros i j k Hkz Hi. by apply Hz in Hi. }
    split; [done|]. intros k. destruct (decide (k = 0)) as [->|Hkz]; [done|].
    apply get_none; [done|]. intros i Hi E. simpl in Hi. rewrite keys_mk in E.
    pose proof (Get_lookup (map (λ _, 0) ks) i) as Hl. rewrite length_map, E in Hl.
    apply Hkz, (Hz (Z.to_nat i)), Hl. lia.
  - split; [done|]. intros k. apply get_none; [done|]. lia.
Qed.

Lemma binding_at ks vs i k :
  length ks = length vs → k ≠ 0 → 0 <= i < Z.of_nat (length ks) → elt ks i = k →
  (k, elt vs i) ∈ bindings ks vs.
Proof.
  intros Hlen Hk Hi E. apply elem_of_bindings; [done|]. split; [done|]. exists (Z.to_nat i).
  rewrite <-E. split; apply Get_lookup; lia.
Qed.

Lemma nulls_bindings ks vs : length ks = length vs → nulls (bindings ks vs).*1 = 0.
Proof.
  intros Hlen. assert (∀ k v, (k, v) ∈ bindings ks vs → k ≠ 0) as Hnz.
  { intros k v Hkv. apply elem_of_bindings in Hkv; tauto. }
  revert Hnz. generalize (bindings ks vs). unfold nulls. induction l as [|[k v] l IH]; [done|].
  intros Hall. simpl. rewrite (proj2 (Z.eqb_neq k 0)).
  - apply IH. intros k' v' Hin. apply (Hall k' v'). by right.
  - apply (Hall k v). by left.
Qed.

(** The arrays of the bindings alone. *)
Lemma compacted_ok m :
  map_ok m →
  let l := bindings (keys_ m) (values_ m) in
  let m' := mk (Some (l.*1, l.*2)) 0 0 (length_ m - available_ m) in
  map_ok m' ∧ ∀ k, get k m' = get k m.
Proof.
  intros Hm l m'. pose proof Hm as [Hk Hv Ha Hc Hd].
  assert (length (keys_ m) = length (values_ m)) as Hlen by lia.
  pose proof (length_bindings _ _ Hlen) as Hl. fold l in Hl.
  assert (map_ok m') as Hok.
  { unfold m'. split; rewrite ?keys_mk, ?values_mk; simpl; rewrite ?length_fmap; try done; [lia| |].
    - unfold l. by rewrite nulls_bindings.
    - intros i j k Hkz Hi Hj. by eapply NoDup_lookup; [apply bindings_distinct| |]. }
  split; [done|]. intros k. destruct (decide (k = 0)) as [->|Hkz]; [done|]. apply get_same; [done..| |].
  - intros i Hi E. pose proof (binding_at _ _ i k Hlen Hkz ltac:(lia) E) as Hin.
    apply list_elem_of_lookup in Hin as [i' Hi']. fold l in Hi'. exists (Z.of_nat i').
    pose proof (lookup_lt_Some _ _ _ Hi'). unfold m'. rewrite keys_mk, values_mk. simpl.
    unfold GetObjectArrayElement. rewrite Nat2Z.id, !list_lookup_fmap, Hi'. simpl. split_and!; done || lia.
  - intros i Hi E. unfold m' in E, Hi. rewrite keys_mk in E. simpl in Hi.
    pose proof (Get_lookup l.*1 i) as Hlk. rewrite length_fmap, E in Hlk.
    specialize (Hlk ltac:(lia)). apply list_lookup_fmap_Some in Hlk as ([k' v'] & -> & Hlk).
    apply list_elem_of_lookup_2, elem_of_bindings in Hlk as [_ (j & Hj & _)]; [|done].
    exists (Z.of_nat j). unfold GetObjectArrayElement. rewrite Nat2Z.id, Hj.
    pose proof (lookup_lt_Some _ _ _ Hj). split; [lia|done].
Qed.

(** [finalize] keeps the value of every key, and shrinks the arrays to the
    keys that are bound. *)
Theorem map_finalize m :
  map_ok m →
  map_ok (finalize m) ∧ (∀ k, get k (finalize m) = get k m) ∧ size (finalize m) = size m ∧
  (0 < size m → available_ (finalize m) = 0).
Proof.
  intros Hm. pose proof Hm as [Hk Hv Ha Hc Hd]. pose proof (compacted_ok m Hm) as [Hok Hget].
  pose proof (length_bindings (keys_ m) (values_ m) ltac:(lia)) as Hlen. unfold finalize.
  pose proof (nulls_nonneg (keys_ m)).
  assert (∀ ks vs, arrays_ m = Some (ks, vs) → keys_ m = ks ∧ values_ m = vs) as Harr.
  { intros ks vs E. unfold keys_, values_. by rewrite E. }
  destruct (arrays_ m) as [[ks vs]|] eqn:Ea.
  2:{ split_and!; try done. unfold size, keys_ in *. rewrite Ea in *. unfold nulls in Ha. simpl in *. lia. }
  destruct (Harr ks vs eq_refl) as [Ek Ev]. rewrite Ek, Ev in *.
  destruct (Z.eqb_spec (length_ m) 0) as [El|_].
  { simpl. split_and!; try done. unfold size. lia. }
  destruct (Z.eqb_spec (available_ m) 0); [by split_and!|]. cbn [orb].
  destruct (Z.eqb_spec (length_ m - available_ m) 0) as [E0|Hn0].
  { destruct (clear_ok m Hm) as [Hok' Hz]. split_and!; [done| | |unfold size; lia].
    - intros k. rewrite Hz. destruct (decide (k = 0)) as [->|Hkz]; [done|]. symmetry.
      apply get_none; [done|]. intros i Hi E. rewrite Ek in E.
      pose proof (binding_at ks vs i k ltac:(lia) Hkz ltac:(lia) E) as Hin.
      destruct (bindings ks vs); [by apply elem_of_nil in Hin|simpl in Hlen; lia].
    - unfold clear. rewrite Ea. unfold size. simpl. lia. }
  destruct (Z.eqb_spec (length_ m - available_ m) (length_ m)); [lia|].
  pose proof (compact_spec ks vs [] [] [] ltac:(lia) eq_refl) as Hcomp. simpl in Hcomp.
  assert (NewObjectArray (length_ m - available_ m) = replicate (length (bindings ks vs)) 0) as ->.
  { unfold NewObjectArray. f_equal. lia. }
  change (Z.of_nat 0) with 0 in Hcomp. replace (Z.to_nat (length_ m)) with (length ks) by lia.
  rewrite Hcomp. split_and!; [done|done|unfold size; simpl; lia|done].
Qed.
End maps.

(** ** Concrete collections *)

Definition sample_list : ObjectList.t := ObjectList.mk (Some [7; 0; 8; 0]) 0 2 4.
Definition full_list : ObjectList.t := ObjectList.mk (Some [7; 9; 8; 6]) 0 0 4.
Definition sample_map : ObjectMap.t := ObjectMap.mk (Some ([7; 0; 8; 0], [1; 0; 2; 0])) 3 2 4.

Lemma sample_list_ok : list_ok sample_list.
Proof. by split. Qed.

Lemma full_list_ok : list_ok full_list.
Proof. by split. Qed.

Lemma sample_map_ok : map_ok sample_map.
Proof.
  split; try done. intros i j k Hk Hi Hj.
  do 4 (destruct i as [|i]; [do 4 (destruct j as [|j]; [by simplify_eq/=|]); by simplify_eq/=|]).
  by simplify_eq/=.
Qed.

Example list_add_witness : ∃ idx l', ObjectList.add 5 full_list = Some (idx, l') ∧ list_ok l' ∧
  ObjectList.get 1 l' = 9.
Proof.
  destruct (list_add 5 full_list full_list_ok ltac:(done)) as (idx & l' & H1 & H2 & H3 & _ & H5).
  exists idx, l'. split_and!; [exact H1|exact H2|]. rewrite H5. case_decide as E; [|done].
  subst idx. by vm_compute in H3.
Defined.

Example list_finalize_witness :
  ObjectList.get 2 (ObjectList.finalize sample_list) = 8 ∧
  ObjectList.length_ (ObjectList.finalize sample_list) = 3.
Proof.
  destruct (list_finalize sample_list sample_list_ok) as (_ & _ & _ & H).
  split; [exact (H 2)|by vm_compute].
Defined.

Example list_double_remove_witness :
  ∃ idx l', ObjectList.add 1 (ObjectList.remove 2 (ObjectList.remove 2 full_list)) = Some (idx, l') ∧
    ObjectList.add 2 l' = None.
Proof. by apply (list_double_remove full_list 2 1 2 full_list_ok). Defined.

Example map_add_witness :
  ∃ m', ObjectMap.add 8 5 sample_map = Some (true, m') ∧ ObjectMap.get 8 m' = 5 ∧ ObjectMap.get 7 m' = 1.
Proof.
  destruct (map_add 8 5 sample_map sample_map_ok ltac:(done)) as (m' & H1 & _ & H3).
  exists m'. split_and!; [exact H1|by rewrite H3|by rewrite H3].
Defined.

Example map_remove_witness :
  ObjectMap.get 8 (ObjectMap.remove 8 sample_map) = 0 ∧ ObjectMap.get 7 (ObjectMap.remove 8 sample_map) = 1.
Proof.
  destruct (map_remove 8 sample_map sample_map_ok) as [_ H]. by rewrite !H.
Defined.

Example map_finalize_witness :
  ObjectMap.get 8 (ObjectMap.finalize sample_map) = 2 ∧
  ObjectMap.available_ (ObjectMap.finalize sample_map) = 0.
Proof.
  destruct (map_finalize sample_map sample_map_ok) as (_ & H & _ & Ha).
  split; [by rewrite H|by apply Ha].
Defined.
