(* ===== verification/Stack.v ===== *)
(** * Stack walking

    [StackVisitor] of [art/runtime/stack.cxx]: the hooks of the runtime's stack
    visitors that leave out hidden methods and show the hooked method in place
    of its backup, the filter of [Throwable.nativeFillInStackTrace], and the
    functions that hide and show methods.  The runtime's own [VisitFrame],
    [GetDexPc], [GetMethod] and [SetMethod] are parameters. *)

From S2P Require Import Prelude Memory Platform ArtMethod Records HookHelper MirrorClass.
From S2P Require Import ObjectCollections.

Definition kNativeMethodDexPc : Z := 0xFFFFFFFE.   (* uint32_t{-2} *)

(** The frame a visitor is at: [cur_shadow_frame_] and [cur_quick_frame_], as
    the method they lead to. *)
Record Frame := mkFrame { cur_shadow_frame_ : option Z; cur_quick_frame_ : option Z }.

(** [hidden_methods_], [current_method_] (by thread: target and backup), and
    the frames of the visitors. *)
Record Stack := mkStack {
  hidden_methods_ : gset Z;
  current_method_ : gmap Z (Z * Z);
  frame_of : Z → Frame;
}.

Definition with_current (f : gmap Z (Z * Z) → gmap Z (Z * Z)) (s : Stack) : Stack :=
  mkStack (hidden_methods_ s) (f (current_method_ s)) (frame_of s).
Definition with_frame (visitor : Z) (f : Frame → Frame) (s : Stack) : Stack :=
  mkStack (hidden_methods_ s) (current_method_ s) (alter f visitor (frame_of s)).

Section visitor.
(** The runtime's [StackVisitor::GetMethod] and [SetMethod], when resolved. *)
Context (GetMethod_ : option (Frame → Z)) (SetMethod_ : option (Z → Frame → Frame)).
Context (h : Methods) (r : Registry).
Implicit Types (s : Stack) (visitor self : Z).

Definition GetMethod visitor s : Z :=
  let f := frame_of s visitor in
  match GetMethod_ with
  | Some get => get f
  | None =>
      match cur_shadow_frame_ f, cur_quick_frame_ f with
      | Some m, _ => m
      | None, Some m => m
      | None, None => 0
      end
  end.

Definition SetMethod visitor (method : Z) s : Stack :=
  match SetMethod_ with
  | Some set => with_frame visitor (set method) s
  | None => s
  end.

(** [self] is [Thread::Current()]; [backup] is the original [VisitFrame]. *)
Definition HandleVisitFrame self visitor (backup : Stack → bool * Stack) s : bool * Stack :=
  if bool_decide (hidden_methods_ s = ∅) then backup s
  else
    let method := GetMethod visitor s in
    if method =? 0 then backup s
    else if bool_decide (method ∈ hidden_methods_ s) then (true, s)
    else match SetMethod_ with
    | None => backup s
    | Some _ =>
        let target := IsBackup r method in
        if negb (target =? 0) then
          let '(result, s) := backup (with_current <[self := (target, method)]> s) in
          (result, with_current (delete self) s)
        else backup s
    end.

(** [backup] is the original [GetDexPc]. *)
Definition HandleGetDexPc self visitor (abort_on_failure : bool) (backup : bool → Stack → Z * Stack) s
    : Z * Stack :=
  match current_method_ s !! self with
  | None => backup abort_on_failure s
  | Some (target, backup_method) =>
      if negb (backup_method =? GetMethod visitor s) then backup abort_on_failure s
      else if IsNative h backup_method then (kNativeMethodDexPc, s)
      else
        let '(dex_pc, s) := backup false s in
        (dex_pc, SetMethod visitor target s)
  end.

(** ** [NativeFillInStackTrace_] *)

Context (cur : Arch).

(** Elements of a Java pointer array. *)
Definition to_pointer (z : Z) : Z := wrap (kPointerBits cur) z.
Definition to_intptr (p : Z) : Z :=
  let p := wrap (kPointerBits cur) p in
  if p <? 2 ^ (kPointerBits cur - 1) then p else p - 2 ^ kPointerBits cur.

(** The loop over the frames: [n] rounds are left from frame [i] on; the result
    is the kept methods and positions and the new list of classes. *)
Fixpoint keep_frames (hidden : gset Z) (n : nat) (i frame_count : Z) (backtrace ptr_array : list Z)
    (new_methods : list (Z * Z)) (new_backtrace : ObjectList.t)
    : option (list (Z * Z) * ObjectList.t) :=
  match n with
  | O => Some (new_methods, new_backtrace)
  | S n =>
      let method := to_pointer (GetObjectArrayElement ptr_array i) in
      let dex_pc := GetObjectArrayElement ptr_array (frame_count + i) in
      if bool_decide (method ∈ hidden) then
        keep_frames hidden n (i + 1) frame_count backtrace ptr_array new_methods new_backtrace
      else
        let target := IsBackup r method in
        let '(method, dex_pc) :=
          if negb (target =? 0) then
            (target, if IsNative h method then to_intptr kNativeMethodDexPc else dex_pc)
          else (method, dex_pc) in
        match ObjectList.add (GetObjectArrayElement backtrace (i + 1)) new_backtrace with
        | None => None
        | Some (_, new_backtrace) =>
            keep_frames hidden n (i + 1) frame_count backtrace ptr_array
              (new_methods ++ [(method, dex_pc)]) new_backtrace
        end
  end.

(** The loop that fills the new pointer array, from method [i] on. *)
Fixpoint write_frames (i count : Z) (new_methods : list (Z * Z)) (new_ptr_array : list Z) : list Z :=
  match new_methods with
  | [] => new_ptr_array
  | (method, dex_pc) :: new_methods =>
      let a := SetObjectArrayElement new_ptr_array i (to_intptr method) in
      write_frames (i + 1) count new_methods (SetObjectArrayElement a (count + i) dex_pc)
  end.

(** A backtrace: the array of objects, whose first element is the pointer array
    and whose others are the classes of the frames, and what the pointer array
    holds.  [new_array] is the object of the new pointer array. *)
Definition NativeFillInStackTrace (hidden : gset Z) (new_array : Z) (backtrace ptr_array : list Z)
    : option (list Z * list Z) :=
  let size := Z.of_nat (length backtrace) in
  if size <=? 1 then Some (backtrace, ptr_array)
  else
    let frame_count := size - 1 in
    if negb (Z.of_nat (length ptr_array) / 2 =? frame_count) then Some (backtrace, ptr_array)
    else
      let new_backtrace := ObjectList.reserve size ObjectList.empty in
      match ObjectList.add (GetObjectArrayElement backtrace 0) new_backtrace with
      | None => None
      | Some (_, new_backtrace) =>
          match keep_frames hidden (Z.to_nat frame_count) 0 frame_count backtrace ptr_array [] new_backtrace with
          | None => None
          | Some (new_methods, new_backtrace) =>
              let count := Z.of_nat (length new_methods) in
              let new_ptr_array := write_frames 0 count new_methods (NewObjectArray (count * 2)) in
              let new_backtrace := ObjectList.update 0 new_array new_backtrace in
              Some (ObjectList.elements (ObjectList.finalize new_backtrace), new_ptr_array)
          end
      end.

(** ** Hiding and showing *)

Definition HideMethod (method : Z) (hidden : gset Z) : bool * gset Z :=
  if IsAbstract h method then (false, hidden)
  else (bool_decide (method ∉ hidden), {[method]} ∪ hidden).

(** The visitors of [HideClass] and [ShowClass]. *)
Definition hide_visitor (method : Z) (s : Z * gset Z) : bool * (Z * gset Z) :=
  if IsAbstract h method then (false, s)
  else
    let '(inserted, hidden) := (bool_decide (method ∉ s.2), {[method]} ∪ s.2) in
    (false, (if inserted then s.1 + 1 else s.1, hidden)).

Definition show_visitor (method : Z) (s : Z * gset Z) : bool * (Z * gset Z) :=
  if IsAbstract h method then (false, s)
  else
    let '(erased, hidden) := (bool_decide (method ∈ s.2), s.2 ∖ {[method]}) in
    (false, (if erased then s.1 + 1 else s.1, hidden)).
End visitor.

Section hide_class.
Context (h : Methods).
(** The class: its mirror object in memory [m], and what reflection lists. *)
Context (cur : Arch) (sdk_int art_method_size object_array_base_offset access_flags_offset
         methods_offset virtual_methods_offset : Z).
Context (m : mem) (mirror_class : Z) (constructors methods : list Z).

Abbreviation VisitMethods := (Class.VisitMethods_reflected cur sdk_int art_method_size
  object_array_base_offset methods_offset virtual_methods_offset m mirror_class constructors methods).

Definition HideClass (hidden : gset Z) : Z * gset Z := VisitMethods (hide_visitor h) (0, hidden).
Definition ShowClass (hidden : gset Z) : Z * gset Z := VisitMethods (show_visitor h) (0, hidden).
End hide_class.

(** ** [StackVisitor::Init] *)

Section init.
Context (info : InitInfo) (replace_of : string → Z) (sdk_int : Z).
(** [Throwable.nativeFillInStackTrace], 0 when not found, and the address of
    its replacement. *)
Context (fill_method fill_replace : Z).

Abbreviation handler t := (HookHandler.any info [HookHandler.One t]).
Abbreviation visit_frame name sym := (hooker replace_of name sym).

Definition GetMethod_sym := Function "GetMethod_" "_ZNK3art12StackVisitor9GetMethodEv".
Definition SetMethod_sym := Function "SetMethod_" "_ZN3art12StackVisitor9SetMethodEPNS_9ArtMethodE".
Definition GetDexPc_ := visit_frame "GetDexPc_" "_ZNK3art12StackVisitor8GetDexPcEb".
Definition VisitFrameFetchStackTrace_ :=
  visit_frame "VisitFrameFetchStackTrace_" "_ZN3art22FetchStackTraceVisitor10VisitFrameEv".
Definition VisitFrameBuildInternalStackTrace_ :=
  visit_frame "VisitFrameBuildInternalStackTrace_" "_ZN3art30BuildInternalStackTraceVisitor10VisitFrameEv".
Definition VisitFrameBuildInternalStackTraceTransactionActive_ :=
  visit_frame "VisitFrameBuildInternalStackTraceTransactionActive_"
    "_ZN3art30BuildInternalStackTraceVisitorILb1EE10VisitFrameEv".
Definition VisitFrameBuildInternalStackTraceTransactionInactive_ :=
  visit_frame "VisitFrameBuildInternalStackTraceTransactionInactive_"
    "_ZN3art30BuildInternalStackTraceVisitorILb0EE10VisitFrameEv".
Definition VisitFrameMonitorObjects_ :=
  visit_frame "VisitFrameMonitorObjects_" "_ZN3art26MonitorObjectsStackVisitor10VisitFrameEv".
Definition VisitFrameStackDump_ :=
  visit_frame "VisitFrameStackDump_" "_ZN3art16StackDumpVisitor10VisitFrameEv".
Definition VisitFrameNthCaller_ :=
  visit_frame "VisitFrameNthCaller_" "_ZN3art16NthCallerVisitor10VisitFrameEv".
Definition VisitFrameClosestUserClassLoader_ :=
  visit_frame "VisitFrameClosestUserClassLoader_"
    "_ZZN3artL33VMStack_getClosestUserClassLoaderEP7_JNIEnvP7_jclassEN29ClosestUserClassLoaderVisitor10VisitFrameEv".

(** [SetMethod_] is only kept when [GetDexPc_] could be hooked. *)
Definition init_methods (s : Syms) : Syms :=
  if negb (__ANDROID_API_N__ <=? sdk_int) then s
  else
    let s := (handler GetMethod_sym s).2 in
    if __ANDROID_API_O__ <=? sdk_int then
      let '(set, s) := handler SetMethod_sym s in
      if set then
        let '(dex_pc, s) := handler GetDexPc_ s in
        if negb dex_pc then set_raw "SetMethod_" 0 s else s
      else s
    else s.

Definition hook_stack_trace (s : Syms) : bool * Syms :=
  let '(fetch, s) :=
    if __ANDROID_API_O__ <=? sdk_int then handler VisitFrameFetchStackTrace_ s else (false, s) in
  if fetch then (true, s)
  else if __ANDROID_API_S__ <=? sdk_int then handler VisitFrameBuildInternalStackTrace_ s
  else
    let '(active, s) := handler VisitFrameBuildInternalStackTraceTransactionActive_ s in
    let '(inactive, s) := handler VisitFrameBuildInternalStackTraceTransactionInactive_ s in
    if active || inactive then (true, s) else handler VisitFrameBuildInternalStackTrace_ s.

(** [Init]: its result, the symbols and the methods. *)
Definition StackVisitor_Init (h : Methods) (s : Syms) : bool * Syms * Methods :=
  let s := init_methods s in
  let '(ok, s) := hook_stack_trace s in
  if negb ok then
    if __ANDROID_API_M__ <=? sdk_int then
      if fill_method =? 0 then (true, s, h)
      else
        let '(_, _, h) := NativeHook fill_replace fill_method (mkNativeHooker 0 0) h in (true, s, h)
    else (true, s, h)
  else
    let s := if __ANDROID_API_P__ <=? sdk_int then (handler VisitFrameMonitorObjects_ s).2
             else (handler VisitFrameStackDump_ s).2 in
    let s := (handler VisitFrameNthCaller_ s).2 in
    let s := (HookHandler.any info [HookHandler.Prefixed VisitFrameClosestUserClassLoader_ true] s).2 in
    (true, s, h).
End init.

(** ** Frames of backups *)

(** At the frame of a backup the runtime's visitor runs with the hooked
    method recorded for the thread, and the record is gone afterwards; while it
    is there the visitor's [GetDexPc] gives the position without aborting and
    makes the hooked method the method of the frame, and gives the position of
    native methods for a native backup. *)
Theorem backup_frame GetMethod_ set h r self visitor (backup : Stack → bool * Stack)
    (dex_pc : bool → Stack → Z * Stack) abort s target b :
  hidden_methods_ s ≠ ∅ → GetMethod GetMethod_ visitor s = b → b ≠ 0 → b ∉ hidden_methods_ s →
  IsBackup r b = target → target ≠ 0 →
  let s1 := with_current <[self := (target, b)]> s in
  HandleVisitFrame GetMethod_ (Some set) r self visitor backup s =
    (let '(result, s2) := backup s1 in (result, with_current (delete self) s2)) ∧
  HandleGetDexPc GetMethod_ (Some set) h self visitor abort dex_pc s1 =
    (if IsNative h b then (kNativeMethodDexPc, s1)
     else let '(pc, s2) := dex_pc false s1 in (pc, with_frame visitor (set target) s2)).
Proof.
  intros Hne Hm Hb Hh Ht Htz s1. split.
  - unfold HandleVisitFrame. rewrite bool_decide_false by done. rewrite Hm.
    rewrite (proj2 (Z.eqb_neq b 0)), bool_decide_false, Ht, (proj2 (Z.eqb_neq target 0)) by done. done.
  - unfold HandleGetDexPc, s1. cbn [with_current current_method_]. rewrite lookup_insert_eq.
    assert (GetMethod GetMethod_ visitor (with_current <[self:=(target, b)]> s) = b) as -> by done.
    by rewrite Z.eqb_refl.
Qed.

(** The frames of hidden methods are passed over: the runtime's visitor does
    not see them and the walk goes on. *)
Lemma hidden_frame GetMethod_ SetMethod_ r self visitor backup s :
  GetMethod GetMethod_ visitor s ∈ hidden_methods_ s → GetMethod GetMethod_ visitor s ≠ 0 →
  HandleVisitFrame GetMethod_ SetMethod_ r self visitor backup s = (true, s).
Proof.
  intros Hm Hz. unfold HandleVisitFrame. rewrite bool_decide_false.
  - by rewrite (proj2 (Z.eqb_neq _ 0)), bool_decide_true.
  - intros E. rewrite E in Hm. by apply elem_of_empty in Hm.
Qed.

(** ** Hiding a class *)

Section hide_theorem.
Context (h : Methods) (cur : Arch) (sdk_int art_method_size object_array_base_offset
         methods_offset virtual_methods_offset : Z).
Context (m : mem) (mirror_class : Z) (constructors methods : list Z).

Abbreviation VisitMethods := (Class.VisitMethods_reflected cur sdk_int art_method_size
  object_array_base_offset methods_offset virtual_methods_offset m mirror_class constructors methods).

Lemma visit_all_methods {S} (f : Z → S → S) l s :
  Class.visit (λ method s, (false, f method s)) l s = (false, foldl (λ s method, f method s) s l).
Proof. revert s. by induction l as [|x l IH]; intros s; simpl; rewrite ?IH. Qed.

(** The methods a visitor that never stops is given, in order. *)
Definition class_methods : list Z := VisitMethods (λ method s, (false, s ++ [method])) [].

Lemma foldl_snoc (l acc : list Z) : foldl (λ s method, s ++ [method]) acc l = acc ++ l.
Proof.
  revert acc. induction l as [|x l IH]; intros acc; simpl; [by rewrite app_nil_r|].
  by rewrite IH, <-app_assoc.
Qed.

Lemma VisitMethods_foldl {S} (f : Z → S → S) s :
  VisitMethods (λ method s, (false, f method s)) s = foldl (λ s method, f method s) s class_methods.
Proof.
  unfold class_methods, Class.VisitMethods_reflected, Class.VisitMethods.
  repeat case_match; repeat (rewrite ?visit_all_methods in *; simplify_eq/=);
    by rewrite ?foldl_snoc, ?foldl_app.
Qed.

(** The methods of the class that can be hidden. *)
Definition concrete_methods : gset Z := list_to_set (filter (λ p, IsAbstract h p = false) class_methods).

Lemma visitors_add_false (f : Z → Z * gset Z → bool * (Z * gset Z)) s :
  (∀ method s, (f method s).1 = false) →
  VisitMethods f s = foldl (λ s method, (f method s).2) s class_methods.
Proof.
  intros Hf. rewrite <-(VisitMethods_foldl (λ method s, (f method s).2)).
  assert (∀ l s, Class.visit f l s = Class.visit (λ method s, (false, (f method s).2)) l s) as Hv.
  { induction l as [|x l IH]; intros s'; simpl; [done|]. pose proof (Hf x s') as Hx.
    destruct (f x s') as [b s'']. simpl in Hx. subst b. apply IH. }
  unfold Class.VisitMethods_reflected, Class.VisitMethods.
  rewrite ?Hv. by repeat (case_match; rewrite ?Hv in *; simplify_eq).
Qed.

Lemma hide_foldl l n hidden :
  foldl (λ s method, (hide_visitor h method s).2) (n, hidden) l =
    let hidden' := list_to_set (filter (λ p, IsAbstract h p = false) l) ∪ hidden in
    (n + (Z.of_nat (size hidden') - Z.of_nat (size hidden)), hidden').
Proof.
  revert n hidden. induction l as [|x l IH]; intros n hidden; simpl.
  - rewrite union_empty_l_L. f_equal. lia.
  - unfold hide_visitor at 2. rewrite filter_cons. destruct (IsAbstract h x) eqn:Ex; simpl.
    + by rewrite IH.
    + rewrite IH. cbn zeta. rewrite ?list_to_set_cons.
      assert (∀ A : gset Z, A ∪ ({[x]} ∪ hidden) = {[x]} ∪ A ∪ hidden) as E by set_solver.
      rewrite E. f_equal. destruct (decide (x ∈ hidden)) as [Hx|Hx].
      * rewrite bool_decide_false by (intros Hn; by apply Hn). assert ({[x]} ∪ hidden = hidden) as -> by set_solver. lia.
      * rewrite bool_decide_true by done. rewrite (size_union {[x]} hidden), size_singleton by set_solver. lia.
Qed.

Lemma show_foldl l n hidden :
  foldl (λ s method, (show_visitor h method s).2) (n, hidden) l =
    let hidden' := hidden ∖ list_to_set (filter (λ p, IsAbstract h p = false) l) in
    (n + (Z.of_nat (size hidden) - Z.of_nat (size hidden')), hidden').
Proof.
  revert n hidden. induction l as [|x l IH]; intros n hidden; simpl.
  - rewrite difference_empty_L. f_equal. lia.
  - unfold show_visitor at 2. rewrite filter_cons. destruct (IsAbstract h x) eqn:Ex; simpl.
    + by rewrite IH.
    + rewrite IH. cbn zeta. rewrite ?list_to_set_cons, difference_difference_l_L. f_equal.
      destruct (decide (x ∈ hidden)) as [Hx|Hx].
      * rewrite bool_decide_true by done. rewrite <-difference_difference_l_L.
        pose proof (size_difference hidden {[x]} ltac:(set_solver)) as Hs. rewrite size_singleton in Hs.
        assert (size hidden ≠ 0)%nat by (apply size_non_empty_iff; set_solver). lia.
      * rewrite bool_decide_false by done. rewrite <-difference_difference_l_L.
        assert (hidden ∖ {[x]} = hidden) as -> by set_solver. lia.
Qed.

(** [HideClass] hides the methods of the class that are not abstract and
    [ShowClass] takes them out again; each returns how many methods it changed,
    and showing what was just hidden undoes it when nothing was hidden before. *)
Theorem hide_show_class hidden :
  let '(n, hidden1) := HideClass h cur sdk_int art_method_size object_array_base_offset methods_offset
    virtual_methods_offset m mirror_class constructors methods hidden in
  let '(n2, hidden2) := ShowClass h cur sdk_int art_method_size object_array_base_offset methods_offset
    virtual_methods_offset m mirror_class constructors methods hidden1 in
  hidden1 = concrete_methods ∪ hidden ∧ n = Z.of_nat (size hidden1) - Z.of_nat (size hidden) ∧
  hidden2 = hidden1 ∖ concrete_methods ∧ n2 = Z.of_nat (size hidden1) - Z.of_nat (size hidden2) ∧
  (concrete_methods ## hidden → hidden2 = hidden ∧ n2 = n).
Proof.
  unfold HideClass, ShowClass.
  rewrite !visitors_add_false by (intros x s; unfold hide_visitor, show_visitor; by destruct (IsAbstract h x)).
  rewrite hide_foldl. cbv beta iota zeta.
  rewrite !visitors_add_false by (intros x s; unfold hide_visitor, show_visitor; by destruct (IsAbstract h x)).
  rewrite show_foldl. cbv beta iota zeta. fold concrete_methods.
  split_and!; [done|lia|done|lia|]. intros Hd.
  assert ((concrete_methods ∪ hidden) ∖ concrete_methods = hidden) as -> by set_solver. split; [done|lia].
Qed.
End hide_theorem.

(** ** The filtered stack trace *)

Section fill_in.
Context (h : Methods) (r : Registry) (cur : Arch) (hidden : gset Z).

(** A frame of a stack trace: method, position and class. *)
Abbreviation TraceFrame := (Z * Z * Z)%type.
Implicit Types (fs : list TraceFrame) (f : TraceFrame).

(** The arrays of a trace whose pointer array is the object [id]. *)
Definition trace_objects (id : Z) fs : list Z := id :: map snd fs.
Definition trace_pointers fs : list Z := map (λ f, to_intptr cur f.1.1) fs ++ map (λ f, f.1.2) fs.

(** What a frame is shown as. *)
Definition present f : TraceFrame :=
  let '(method, dex_pc, class) := f in
  let target := IsBackup r method in
  if target =? 0 then f
  else (target, if IsNative h method then to_intptr cur kNativeMethodDexPc else dex_pc, class).

Lemma present_class f : (present f).2 = f.2.
Proof. destruct f as [[mth pc] cls]. simpl. by case_match. Qed.

Definition visible fs : list TraceFrame := filter (λ f, f.1.1 ∉ hidden) fs.

Definition shown fs : list TraceFrame := map present (visible fs).

Definition frame_ok f : Prop := 0 <= f.1.1 < 2 ^ kPointerBits cur ∧ f.2 ≠ 0.


Lemma to_pointer_intptr p : 0 <= p < 2 ^ kPointerBits cur → to_pointer cur (to_intptr cur p) = p.
Proof.
  intros Hp. unfold to_pointer, to_intptr, wrap. cbv zeta. rewrite (Z.mod_small p) by done.
  case_match; [by apply Z.mod_small|].
  rewrite <-(Z.mod_add _ 1) by lia. rewrite Z.mod_small; lia.
Qed.

Lemma Get_at (a b : list Z) x i : i = Z.of_nat (length a) → GetObjectArrayElement (a ++ x :: b) i = x.
Proof. intros ->. unfold GetObjectArrayElement. by rewrite Nat2Z.id, list_lookup_middle. Qed.

Lemma keep_frames_spec id fs0 fs1 A L cap :
  Forall frame_ok fs1 → Z.of_nat (length L + length fs1) <= cap →
  keep_frames h r cur hidden (length fs1) (Z.of_nat (length fs0)) (Z.of_nat (length (fs0 ++ fs1)))
    (trace_objects id (fs0 ++ fs1)) (trace_pointers (fs0 ++ fs1)) A (ObjectCollections.filled L cap) =
  Some (A ++ map fst (shown fs1), ObjectCollections.filled (L ++ map snd (shown fs1)) cap).
Proof.
  revert fs0 A L. induction fs1 as [|f fs1 IH]; intros fs0 A L Hok Hcap.
  { simpl. by rewrite !app_nil_r. }
  apply Forall_cons in Hok as [[Hp Hc] Hok]. specialize (IH (fs0 ++ [f])).
  rewrite <-app_assoc in IH. simpl in IH.
  assert (Z.of_nat (length (fs0 ++ [f])) = Z.of_nat (length fs0) + 1) as E1.
  { rewrite length_app. simpl. lia. }
  rewrite E1 in IH. cbn [length keep_frames].
  assert (GetObjectArrayElement (trace_pointers (fs0 ++ f :: fs1)) (Z.of_nat (length fs0)) =
    to_intptr cur f.1.1) as ->.
  { unfold trace_pointers. rewrite !map_app, <-app_assoc. apply Get_at. by rewrite length_map. }
  assert (GetObjectArrayElement (trace_pointers (fs0 ++ f :: fs1))
    (Z.of_nat (length (fs0 ++ f :: fs1)) + Z.of_nat (length fs0)) = f.1.2) as ->.
  { unfold trace_pointers. rewrite (map_app (λ f : TraceFrame, f.1.2) fs0), app_assoc. apply Get_at.
    rewrite !length_app, !length_map, length_app. lia. }
  assert (GetObjectArrayElement (trace_objects id (fs0 ++ f :: fs1)) (Z.of_nat (length fs0) + 1) = f.2) as ->.
  { unfold trace_objects. rewrite map_app, app_comm_cons. apply Get_at. simpl. rewrite length_map. lia. }
  rewrite to_pointer_intptr by done. unfold shown, visible. rewrite filter_cons. simpl in Hcap.
  destruct (decide (f.1.1 ∈ hidden)) as [Hin|Hout].
  { rewrite bool_decide_true, decide_False by tauto. apply IH; [done|lia]. }
  rewrite bool_decide_false, decide_True by done. cbn [map].
  destruct f as [[mth pc] cls]. cbn [fst snd] in *. unfold present at 1.
  rewrite (add_filled cls L cap Hc ltac:(lia)).
  destruct (Z.eqb_spec (IsBackup r mth) 0); cbn [negb];
    (rewrite IH by (try done; rewrite length_app; simpl; lia)); cbn [fst snd map];
    by rewrite <-!app_assoc, present_class.
Qed.

Lemma write_frames_spec (d ms : list (Z * Z)) :
  let count := (length d + length ms)%nat in
  write_frames cur (Z.of_nat (length d)) (Z.of_nat count) ms
    (map (λ p, to_intptr cur p.1) d ++ replicate (length ms) 0 ++ map snd d ++ replicate (length ms) 0) =
  map (λ p, to_intptr cur p.1) (d ++ ms) ++ map snd (d ++ ms).
Proof.
  revert d. induction ms as [|[mth pc] ms IH]; intros d; simpl.
  { by rewrite !app_nil_r. }
  rewrite Set_middle by by rewrite length_map.
  rewrite (app_assoc _ (replicate _ _)), (app_assoc _ (map snd d)).
  rewrite <-Nat2Z.inj_add. rewrite Set_middle by (rewrite !length_app, !length_map, length_replicate; simpl; lia).
  specialize (IH (d ++ [(mth, pc)])). rewrite !map_app, length_app in IH. simpl in IH.
  rewrite <-!app_assoc in *. simpl in *.
  replace (Z.of_nat (length d) + 1) with (Z.of_nat (length d + 1)) by lia.
  replace (length d + S (length ms))%nat with (length d + 1 + length ms)%nat by lia.
  rewrite IH, !map_app. simpl. by rewrite <-?app_assoc.
Qed.

(** C17: the stack trace of a throwable without its hidden methods, with hooked
    methods in place of their backups: frames, positions and classes stay
    together, and the search for a free slot of the new array always succeeds. *)
Theorem stack_trace_filtered id new_id fs :
  fs ≠ [] → Forall frame_ok fs → id ≠ 0 → new_id ≠ 0 →
  NativeFillInStackTrace h r cur hidden new_id (trace_objects id fs) (trace_pointers fs) =
  Some (trace_objects new_id (shown fs), trace_pointers (shown fs)).
Proof.
  intros Hne Hok Hid Hnew. assert (0 < length fs)%nat by (destruct fs; simpl; done || lia).
  unfold NativeFillInStackTrace. cbv zeta.
  assert (Z.of_nat (length (trace_objects id fs)) = Z.of_nat (length fs) + 1) as ->.
  { unfold trace_objects. simpl. rewrite length_map. lia. }
  rewrite (proj2 (Z.leb_gt _ 1)) by lia.
  assert (Z.of_nat (length (trace_pointers fs)) / 2 = Z.of_nat (length fs)) as ->.
  { unfold trace_pointers. rewrite length_app, !length_map.
    replace (Z.of_nat (length fs + length fs)) with (Z.of_nat (length fs) * 2) by lia. by apply Z.div_mul. }
  rewrite Z.add_simpl_r, Z.eqb_refl. cbn [negb].
  rewrite reserve_filled by lia. change (GetObjectArrayElement (trace_objects id fs) 0) with id.
  rewrite (add_filled id []), Nat2Z.id by (simpl; done || lia).
  pose proof (keep_frames_spec id [] fs [] [id] (Z.of_nat (length fs) + 1) Hok ltac:(simpl; lia)) as Hk.
  simpl in Hk. simpl. change (Z.of_nat 0) with 0 in Hk. rewrite Hk. clear Hk.
  assert (length (shown fs) <= length fs)%nat as Hlen.
  { unfold shown, visible. rewrite length_map. apply length_filter. }
  f_equal. f_equal.
  - rewrite update_filled by (simpl; rewrite length_map; lia). unfold trace_objects.
    apply finalize_filled; [|done|simpl; rewrite length_map; lia].
    apply Forall_cons. split; [done|]. apply Forall_map. unfold shown, visible. apply Forall_map.
    apply Forall_forall. intros f [_ Hin]%list_elem_of_filter. rewrite present_class.
    rewrite Forall_forall in Hok. by apply Hok in Hin as [_ Hc].
  - pose proof (write_frames_spec [] (map fst (shown fs))) as Hw. simpl in Hw.
    change (Z.of_nat 0) with 0 in Hw.
    assert (NewObjectArray (Z.of_nat (length (map fst (shown fs))) * 2) =
      replicate (length (map fst (shown fs))) 0 ++ replicate (length (map fst (shown fs))) 0) as ->.
    { unfold NewObjectArray. rewrite <-replicate_add. f_equal. lia. }
    rewrite Hw, !map_map. done.
Qed.
End fill_in.

(** ** Concrete runs *)

(** Method 0x100 with backup 0x200, the backup native; 0x300 hidden. *)
Definition sample_registry : Registry := RecordHooked 0x100 0x300 0x200 0x10 0x9001 0x44 empty_registry.
Definition sample_methods : Methods := λ p,
  if p =? 0x200 then mkMethod kAccNative 0 0 0 0 else mkMethod 0 0 0 0 0.
Definition sample_stack : Stack :=
  mkStack {[0x300]} ∅ (λ _, mkFrame None (Some 0x200)).

Example stack_trace_filtered_witness :
  NativeFillInStackTrace sample_methods sample_registry kArm64 {[0x300]} 9
    [5; 11; 12; 13] [0x200; 0x300; 0x400; 1; 2; 3] =
  Some ([9; 11; 13], [0x100; 0x400; 0xFFFFFFFE; 3]).
Proof.
  rewrite (stack_trace_filtered sample_methods sample_registry kArm64 {[0x300]} 5 9
    [(0x200, 1, 11); (0x300, 2, 12); (0x400, 3, 13)]); [by vm_compute|done| |done|done].
  repeat constructor; done.
Defined.

Example backup_frame_witness :
  HandleVisitFrame None (Some (λ m f, f)) sample_registry 7 1 (λ s, (true, s)) sample_stack =
    (true, with_current (delete 7) (with_current <[7 := (0x100, 0x200)]> sample_stack)).
Proof.
  pose proof (backup_frame None (λ m f, f) sample_methods sample_registry 7 1 (λ s, (true, s))
    (λ _ s, (0, s)) true sample_stack 0x100 0x200) as H.
  apply H; try done; by vm_compute.
Defined.

(** A class that reflection says has the methods 0x100 and 0x200. *)
Example hide_show_class_witness :
  let '(n, hidden1) := HideClass sample_methods kArm64 34 0 0 0 0 (λ _, 0) 0 [0x100] [0x200] {[0x300]} in
  (ShowClass sample_methods kArm64 34 0 0 0 0 (λ _, 0) 0 [0x100] [0x200] hidden1).2 = {[0x300]}.
Proof.
  pose proof (hide_show_class sample_methods kArm64 34 0 0 0 0 (λ _, 0) 0 [0x100] [0x200] {[0x300]}) as H.
  destruct (HideClass _ _ _ _ _ _ _ _ _ _ _ _) as [n hidden1].
  destruct (ShowClass _ _ _ _ _ _ _ _ _ _ _ _) as [n2 hidden2].
  destruct H as (_ & _ & _ & _ & H). apply H.
  apply disjoint_singleton_r. by vm_compute.
Defined.
