(* ===== verification/Runtime.v ===== *)
(** * The runtime object

    [Runtime] of [art/runtime/runtime.cxx]: the search for the offsets of
    [jni_id_manager_] and [runtime_debug_state_], [SetJavaDebuggable], and
    [JavaDebuggableGuard] as a transition system of any number of threads whose
    atomic operations on [count] are one step each. *)

From S2P Require Import Prelude Memory Platform HookHelper.

(** [enum class RuntimeDebugState]. *)
Inductive RuntimeDebugState : Type := kNonJavaDebuggable | kJavaDebuggable | kJavaDebuggableAtInit.

#[global] Instance RuntimeDebugState_eq_dec : EqDecision RuntimeDebugState.
Proof. solve_decision. Defined.

Definition debug_state_value (v : RuntimeDebugState) : Z :=
  match v with kNonJavaDebuggable => 0 | kJavaDebuggable => 1 | kJavaDebuggableAtInit => 2 end.

(** ** [Runtime] *)

Section runtime.
Context (cur : Arch).
Implicit Types (m : mem) (this : Z).
Abbreviation pointer_bytes := (Z.to_nat (kPointerSize cur)).

Definition GetJniIdManager (jni_id_manager_offset : Z) m this : Z :=
  if jni_id_manager_offset =? 0 then 0 else load m pointer_bytes (this + jni_id_manager_offset).

(** The runtime's [SetJavaDebuggable], when resolved. *)
Context (SetJavaDebuggable_ : option (bool → mem → mem)).

Definition SetJavaDebuggable (debug_state_offset : Z) (value : RuntimeDebugState) m this : mem :=
  match SetJavaDebuggable_ with
  | Some set => set (negb (bool_decide (value = kNonJavaDebuggable))) m
  | None =>
      if 0 <? debug_state_offset
      then store m 4 (this + debug_state_offset) (debug_state_value value) else m
  end.

(** The loop over the words of the runtime: [n] rounds are left from word [i]
    on; the offset, 0 when not found. *)
Fixpoint find_jni_id_manager (n : nat) (i : Z) m runtime vm : Z :=
  match n with
  | O => 0
  | S n =>
      if negb (load m pointer_bytes (runtime + i * kPointerSize cur) =? vm) then
        find_jni_id_manager n (i + 1) m runtime vm
      else if load m pointer_bytes (runtime + (i - 1) * kPointerSize cur) <? 0x8000 then
        find_jni_id_manager n (i + 1) m runtime vm
      else (i - 1) * kPointerSize cur
  end.

Definition kLargeEnoughSizeForRuntime : Z := 4096.

(** The loop over the bytes of the buffer at [fake_runtime]. *)
Fixpoint find_debug_state (n : nat) (i : Z) m fake_runtime : Z :=
  match n with
  | O => 0
  | S n =>
      if load m 4 (fake_runtime + i) =? debug_state_value kJavaDebuggable then i
      else find_debug_state n (i + 1) m fake_runtime
  end.

Context (info : InitInfo) (sdk_int : Z).

Definition instance_ := Function "instance_" "_ZN3art7Runtime9instance_E".
Definition SetJavaDebuggable_sym :=
  Function "SetJavaDebuggable_" "_ZN3art7Runtime17SetJavaDebuggableEb".
Definition SetRuntimeDebugState_ :=
  Function "SetRuntimeDebugState_" "_ZN3art7Runtime20SetRuntimeDebugStateENS0_17RuntimeDebugStateE".

(** [Init]: [vm] is what [GetJavaVM] answers; [set_debug_state] what the
    resolved [SetRuntimeDebugState] does to the runtime at an address; the
    result is the offsets of the id manager and of the debug state. *)
Definition Runtime_Init (vm fake_runtime : Z) (set_debug_state : Z → Z → mem → mem) m (s : Syms)
    : option (Z * Z) * Syms :=
  let '(ok, s) := HookHandler.any info [HookHandler.One instance_] s in
  let runtime := load m pointer_bytes (get_raw s "instance_") in
  if negb ok || (runtime =? 0) then (None, s)
  else
    let jni_id_manager_offset :=
      if (__ANDROID_API_R__ <=? sdk_int) && negb (vm =? 0)
      then find_jni_id_manager 511 1 m runtime vm else 0 in
    let '(ok, s) :=
      if __ANDROID_API_O__ <=? sdk_int then
        HookHandler.any info [HookHandler.One SetRuntimeDebugState_; HookHandler.One SetJavaDebuggable_sym] s
      else (true, s) in
    if negb ok then (None, s)
    else if negb (get_raw s "SetRuntimeDebugState_" =? 0) then
      let code := memset0 m fake_runtime (Z.to_nat kLargeEnoughSizeForRuntime) in
      let code := set_debug_state fake_runtime (debug_state_value kJavaDebuggable) code in
      let debug_state_offset :=
        find_debug_state (Z.to_nat kLargeEnoughSizeForRuntime) 0 code fake_runtime in
      if debug_state_offset =? 0 then (None, s)
      else (Some (jni_id_manager_offset, debug_state_offset), s)
    else (Some (jni_id_manager_offset, 0), s).
End runtime.

(** ** [JavaDebuggableGuard] *)

Module Guard.
(** Where a thread is: in the constructor, holding the guard, or in the
    destructor; [Try] is before the second [compare_exchange_strong], with the
    value the first one read. *)
Inductive Pc : Type :=
  | Outside
  | Ctor | CtorSet | CtorAdd | CtorWait | CtorTry (expected : Z)
  | Held
  | Dtor | DtorSet | DtorSub | DtorWait | DtorTry (expected : Z).

(** [debug] is the state last given to [Runtime::SetJavaDebuggable]. *)
Record State := mkState { count : Z; debug : RuntimeDebugState; threads : list Pc }.

Definition goto (i : nat) (pc : Pc) (s : State) : State :=
  mkState (count s) (debug s) (<[i:=pc]> (threads s)).
Definition set_count (n : Z) (s : State) : State := mkState n (debug s) (threads s).
Definition set_debug (d : RuntimeDebugState) (s : State) : State := mkState (count s) d (threads s).

Definition initial (d : RuntimeDebugState) (n : nat) : State := mkState 0 d (repeat Outside n).

(** The next atomic operation of thread [i]; [None] when it has to wait. *)
Definition step (i : nat) (s : State) : option State :=
  match threads s !! i with
  | None => None
  | Some Outside => Some (goto i Ctor s)
  | Some Ctor =>
      if count s =? 0 then Some (goto i CtorSet (set_count 1 s))
      else
        let expected := count s in
        if expected =? 1 then Some (goto i CtorWait s) else Some (goto i (CtorTry expected) s)
  | Some CtorSet => Some (goto i CtorAdd (set_debug kJavaDebuggableAtInit s))
  | Some CtorAdd => Some (goto i Held (set_count (count s + 1) s))
  | Some CtorWait => if count s =? 1 then None else Some (goto i Ctor s)
  | Some (CtorTry expected) =>
      if count s =? expected then Some (goto i Held (set_count (expected + 1) s))
      else Some (goto i Ctor s)
  | Some Held => Some (goto i Dtor s)
  | Some Dtor =>
      if count s =? 2 then Some (goto i DtorSet (set_count 1 s))
      else
        let expected := count s in
        if expected =? 1 then Some (goto i DtorWait s) else Some (goto i (DtorTry expected) s)
  | Some DtorSet => Some (goto i DtorSub (set_debug kNonJavaDebuggable s))
  | Some DtorSub => Some (goto i Outside (set_count (count s - 1) s))
  | Some DtorWait => if count s =? 1 then None else Some (goto i Dtor s)
  | Some (DtorTry expected) =>
      if count s =? expected then Some (goto i Outside (set_count (expected - 1) s))
      else Some (goto i Dtor s)
  end.

Definition steps (s s' : State) : Prop := ∃ i, step i s = Some s'.

(** A thread between the end of its constructor and the effect of its
    destructor. *)
Definition inside (pc : Pc) : bool :=
  match pc with Held | Dtor | DtorWait | DtorTry _ => true | _ => false end.

(** A thread that has taken [count] to 1. *)
Definition switching (pc : Pc) : bool :=
  match pc with CtorSet | CtorAdd | DtorSet | DtorSub => true | _ => false end.

Definition pc_ok (d : RuntimeDebugState) (pc : Pc) : Prop :=
  match pc with
  | CtorAdd => d = kJavaDebuggableAtInit
  | DtorSub => d = kNonJavaDebuggable
  | CtorTry e => 2 <= e
  | DtorTry e => 3 <= e
  | _ => True
  end.

Definition debug_idle (d0 d : RuntimeDebugState) : Prop := d = d0 ∨ d = kNonJavaDebuggable.

Record guard_ok (d0 : RuntimeDebugState) (s : State) : Prop := {
  ok_pcs : Forall (pc_ok (debug s)) (threads s);
  ok_switching : count_if switching (threads s) = (if count s =? 1 then 1 else 0);
  ok_inside : count_if inside (threads s) = (if (count s =? 0) || (count s =? 1) then 0 else count s - 1);
  ok_count : 0 <= count s;
  ok_debug : 2 <= count s → debug s = kJavaDebuggableAtInit;
  ok_idle : count s = 0 → debug_idle d0 (debug s);
}.

Lemma initial_ok d n : guard_ok d (initial d n).
Proof.
  assert (∀ f : Pc → bool, f Outside = false → count_if f (repeat Outside n) = 0) as Hc.
  { intros f Hf. induction n as [|n IH]; simpl; [done|]. rewrite Hf. lia. }
  split; simpl; rewrite ?Hc; try done; [|by left].
  apply Forall_forall. intros pc Hpc. apply list_elem_of_In, repeat_spec in Hpc. by subst.
Qed.

(** The value of the debug state matters to the switching thread only. *)
Lemma pc_ok_other d d' pc : switching pc = false → pc_ok d pc → pc_ok d' pc.
Proof. by destruct pc. Qed.

(** A thread moves, and the count and debug state change with it. *)
Lemma ok_move d0 s i pc pc' n d :
  guard_ok d0 s → threads s !! i = Some pc →
  (d = debug s ∨ switching pc = true) → pc_ok d pc' →
  count_if switching (threads s) - Z.b2z (switching pc) + Z.b2z (switching pc') =
    (if n =? 1 then 1 else 0) →
  count_if inside (threads s) - Z.b2z (inside pc) + Z.b2z (inside pc') =
    (if (n =? 0) || (n =? 1) then 0 else n - 1) →
  0 <= n → (2 <= n → d = kJavaDebuggableAtInit) → (n = 0 → debug_idle d0 d) →
  guard_ok d0 (mkState n d (<[i:=pc']> (threads s))).
Proof.
  intros [Hp Hs Hin Hc Hd Hi] Hlook Hd' Hpc Es Ei Hn Hdeb Hidle.
  split; simpl; try done.
  - apply Forall_lookup. intros j x [(<- & <- & _)|[Hne Hx]]%list_lookup_insert_Some; [done|].
    rewrite Forall_lookup in Hp. pose proof (Hp _ _ Hx) as Hok.
    destruct Hd' as [->|Hsw]; [done|]. destruct (switching x) eqn:Ex; [|by eapply pc_ok_other].
    exfalso. pose proof (count_if_two switching (threads s) i j pc x Hne Hlook Hx Hsw Ex).
    destruct (count s =? 1); lia.
  - rewrite (count_if_insert _ _ _ _ _ Hlook). by destruct (switching pc), (switching pc').
  - rewrite (count_if_insert _ _ _ _ _ Hlook). by destruct (inside pc), (inside pc').
Qed.

(** A thread inside keeps the count above 1; a switching one keeps it at 1. *)
Lemma inside_count d0 s i pc :
  guard_ok d0 s → threads s !! i = Some pc → inside pc = true → 2 <= count s.
Proof.
  intros [Hp Hs Hin Hc Hd Hi] Hlook Hpc. pose proof (count_if_lookup inside _ _ _ Hlook Hpc).
  destruct (Z.eqb_spec (count s) 0), (Z.eqb_spec (count s) 1); simpl in *; lia.
Qed.

Lemma switching_count d0 s i pc :
  guard_ok d0 s → threads s !! i = Some pc → switching pc = true → count s = 1.
Proof.
  intros [Hp Hs Hin Hc Hd Hi] Hlook Hpc. pose proof (count_if_lookup switching _ _ _ Hlook Hpc).
  destruct (Z.eqb_spec (count s) 1); lia.
Qed.

Ltac count_cases :=
  repeat match goal with
  | |- context [?a =? ?b] => destruct (Z.eqb_spec a b)
  | H : context [?a =? ?b] |- _ => destruct (Z.eqb_spec a b)
  end; simpl in *; lia.

Lemma ok_step d0 s i s' : guard_ok d0 s → step i s = Some s' → guard_ok d0 s'.
Proof.
  intros Hok Hstep. unfold step in Hstep. destruct (threads s !! i) as [pc|] eqn:Hlook; [|done].
  pose proof (inside_count d0 s i pc Hok Hlook) as Hinside.
  pose proof (switching_count d0 s i pc Hok Hlook) as Hswitch.
  pose proof Hok as [Hp Hs Hin Hc Hd Hi]. rewrite Forall_lookup in Hp. pose proof (Hp _ _ Hlook) as Hpc.
  destruct pc; simpl in Hinside, Hswitch, Hpc; try specialize (Hinside eq_refl); try specialize (Hswitch eq_refl);
    repeat case_match; simplify_eq/=; try done;
    repeat match goal with
    | H : (_ =? _) = true |- _ => apply Z.eqb_eq in H
    | H : (_ =? _) = false |- _ => apply Z.eqb_neq in H
    end;
    try (exfalso; lia); unfold goto, set_count, set_debug; simpl;
    (eapply ok_move; [exact Hok|exact Hlook|first [by left|by right]|..]); simpl;
    first [done | lia | by intros; auto | count_cases | intros; apply Hd; lia | intros; by right].
Qed.

Lemma reachable_ok d0 n s : rtc steps (initial d0 n) s → guard_ok d0 s.
Proof.
  apply rtc_invariant; [|apply initial_ok]. intros a b Ha [i Hi]. by eapply ok_step.
Qed.
End Guard.

(** C20: whatever the interleaving of constructors and destructors, the runtime is
    debuggable while a thread holds the guard; when every thread is outside, the
    counter is back to 0 and the runtime is not debuggable, unless no guard was
    ever made; and a thread that waits waits for another that can go on. *)
Theorem guard_debuggable d0 n s i pc :
  rtc Guard.steps (Guard.initial d0 n) s → Guard.threads s !! i = Some pc →
  (pc = Guard.Held → Guard.debug s = kJavaDebuggableAtInit) ∧
  (Forall (eq Guard.Outside) (Guard.threads s) →
     Guard.count s = 0 ∧ (Guard.debug s = d0 ∨ Guard.debug s = kNonJavaDebuggable)) ∧
  (Guard.step i s = None → ∃ j s', j ≠ i ∧ Guard.step j s = Some s').
Proof.
  intros Hreach Hi. pose proof (Guard.reachable_ok d0 n s Hreach) as Hok.
  pose proof Hok as [Hp Hs Hin Hc Hd Hidle]. split_and!.
  - intros ->. apply Hd. by eapply Guard.inside_count.
  - intros Hall. rewrite Forall_lookup in Hall.
    assert (∀ f, f Guard.Outside = false → count_if f (Guard.threads s) = 0) as Hz.
    { intros f Hf. pose proof (count_if_nonneg f (Guard.threads s)).
      destruct (decide (count_if f (Guard.threads s) = 0)); [done|].
      destruct (count_if_pos_inv f (Guard.threads s)) as (j & x & Hj & Hx); [lia|].
      rewrite <-(Hall _ _ Hj) in Hx. congruence. }
    rewrite !Hz in * by done.
    assert (Guard.count s = 0) as E by (destruct (Z.eqb_spec (Guard.count s) 0), (Z.eqb_spec (Guard.count s) 1); simpl in *; lia).
    split; [done|]. by apply Hidle.
  - intros Hwait. unfold Guard.step in Hwait. rewrite Hi in Hwait.
    assert (Guard.count s = 1 ∧ Guard.switching pc = false) as [E Epc].
    { destruct pc; repeat case_match; simplify_eq; split; try done; by apply Z.eqb_eq. }
    rewrite E in Hs. destruct (count_if_pos_inv Guard.switching (Guard.threads s)) as (j & x & Hj & Hx); [simpl in *; lia|].
    exists j. unfold Guard.step. rewrite Hj. destruct x; try done; eexists; (split; [|done]);
      intros ->; rewrite Hi in Hj; simplify_eq/=.
Qed.

(** One thread makes a guard, and is asked for while it holds it. *)
Definition guard_run : Guard.State :=
  let go i s := default s (Guard.step i s) in
  go 0%nat (go 0%nat (go 0%nat (go 0%nat (Guard.initial kNonJavaDebuggable 2)))).

Example guard_debuggable_witness :
  Guard.debug guard_run = kJavaDebuggableAtInit ∧ Guard.count guard_run = 2.
Proof.
  split; [|by vm_compute].
  apply (guard_debuggable kNonJavaDebuggable 2 guard_run 0 Guard.Held); [|done|done].
  do 4 (eapply rtc_l; [exists 0%nat; vm_compute; reflexivity|]). apply rtc_refl.
Defined.

(** ** The offset of the debug state *)

(** The loop finds the first place that holds the value. *)
Lemma find_debug_state_first n i m fake_runtime o :
  i <= o < i + Z.of_nat n → load m 4 (fake_runtime + o) = 1 →
  (∀ k, i <= k < o → load m 4 (fake_runtime + k) ≠ 1) → find_debug_state n i m fake_runtime = o.
Proof.
  revert i. induction n as [|n IH]; intros i Ho Hl Hn; [lia|]. simpl.
  destruct (decide (i = o)) as [->|Hne]; [by rewrite Hl|].
  rewrite (proj2 (Z.eqb_neq _ 1)) by (apply Hn; lia). apply IH; [lia|done|]. intros k Hk. apply Hn. lia.
Qed.

(** When the runtime's function stores the state at some offset of the
    object, the scan of the cleared buffer finds that offset. *)
Lemma debug_state_found m fake_runtime o :
  0 <= o → o + 4 <= kLargeEnoughSizeForRuntime →
  let code := memset0 m fake_runtime (Z.to_nat kLargeEnoughSizeForRuntime) in
  find_debug_state (Z.to_nat kLargeEnoughSizeForRuntime) 0
    (store code 4 (fake_runtime + o) (debug_state_value kJavaDebuggable)) fake_runtime = o.
Proof.
  intros Ho Hlen code. apply find_debug_state_first; [unfold kLargeEnoughSizeForRuntime in *; lia| |].
  - by rewrite load_store_same.
  - intros k Hk E. unfold load in E.
    assert (byte_at (store code 4 (fake_runtime + o) (debug_state_value kJavaDebuggable)) (fake_runtime + k) = 0)
      as Hz.
    { unfold byte_at, store. rewrite write_bytes_out by (rewrite length_le_bytes; lia).
      unfold code, memset0.
      rewrite <-(Z2Nat.id k) at 1 by lia. rewrite write_bytes_in.
      - by rewrite nth_repeat.
      - rewrite repeat_length. unfold kLargeEnoughSizeForRuntime in *. lia. }
    unfold read_bytes in E. cbn [seq map le_value] in E. rewrite Z.add_0_r, Hz in E. lia.
Qed.

Example debug_state_found_witness :
  find_debug_state (Z.to_nat kLargeEnoughSizeForRuntime) 0
    (store (memset0 (λ _, 7) 0x8000 (Z.to_nat kLargeEnoughSizeForRuntime)) 4 (0x8000 + 0x2f0) 1) 0x8000 = 0x2f0.
Proof. by apply (debug_state_found (λ _, 7) 0x8000 0x2f0). Defined.
