(* ===== verification/HookApi.v ===== *)
(** * Hooking and unhooking

    The hook functions of [lsplant.cc]: [DoHook], [DoUnHook], [HookMethod]
    (behind [Hook] and [HookUsingNativeAPI]), [SetHookEnabled], [UnHook],
    [IsHooked], [Deoptimize], [GetNativeFunction] and [MakeClassInheritable],
    over the state of [Vm.v].  What JNI answers about the arguments is in
    request records; JNI calls that change Java objects are listed as effects;
    the stub address comes from the trampoline pool. *)

From S2P Require Import Prelude Memory Platform ArtMethod Records Trampoline Vm ClassLinker.
From Stdlib Require Import Ascii.

(** ** Requests and effects *)

(** [target_method]: whether it is a non-null [Executable], its [ArtMethod] and
    [jmethodID], its name, and what the proxy and shorty probes answer. *)
Record TargetInfo := {
  target_executable : bool;
  target_method : Z;
  target_id : Z;
  target_name : string;
  declaring_is_proxy : option bool;     (* Class::IsProxyClass *)
  declaring_and_proxy_known : bool;     (* both classes of the fallback are non-null *)
  proxy_assignable : bool;
  reflected_shorty : string;            (* GetReflectedMethodShorty *)
}.

(** The callback of [HookMethod]: a native function, or a reflected method. *)
Inductive Callback : Type :=
  | NativeCallback (callback : Z)
  | JavaCallback (executable : bool) (shorty name class_name : string)
      (hooker_is_instance : bool) (callback_id : Z).

Record DexRequest := {
  dex_shorty : string;
  dex_method_name : string;
  dex_hooker_class : string;
  dex_callback_name : string;
  dex_is_static : bool;
  dex_is_fast_native : bool;
  dex_is_native_api : bool;
  dex_should_pack : bool;
}.

(** [struct NativeHookerData]. *)
Record NativeHookerData := mkNativeHookerData {
  should_pack_receiver_and_args : bool;
  is_static : bool;
  references : Z;
  data_field : Z;
  callback_method : Z;
  native_entry : Z;
  hooker_target : Z;
  shorty : string;
}.

Inductive Effect : Type :=
  | RegisterNatives (built_class : Z) (name : string) (callback : Z)
  | HideNativeMethod (built_class : Z) (name : string)
  | SetNativeHookerData (built_class : Z) (d : NativeHookerData)
  | SetAccessible (backup_method : Z)
  | CopyReflectedFields (backup_method target_id : Z)
  | SetHookerField (built_class hooker_field hooker_object : Z)
  | HideMethod (method : Z).

(** The results: [HookResult], or the reflected backup. *)
Inductive HookOutcome : Type :=
  | HookedNative (hooker_class data_field backup : Z)
  | HookedJava (backup : Z).

(** The write to [kInternalMethods]: the first id equal to [from] becomes [to]
    (the next ones too when [to] is null, since [||] goes on). *)
Fixpoint propagate (from to : Z) (l : list Z) : list Z :=
  match l with
  | [] => []
  | id :: l =>
      if id =? from then to :: (if to =? 0 then propagate from to l else l)
      else id :: propagate from to l
  end.

Section api.
Context (cur : Arch) (c : Config).
(** The runtime's [SetNotIntrinsic], when resolved, and [Class::GetClassDef]. *)
Context (SetNotIntrinsic_ : option (Z → Methods → Methods)) (GetClassDef : Z → Z).
Implicit Types (v : Vm) (target hook backup : Z).

Definition class_def_of v method : Z := GetClassDef (GetDeclaringClass (methods v) method).

(** ** [DoHook] and [DoUnHook] *)

(** What [DoHook] does to the methods. *)
Definition hook_methods target backup (entrypoint : Z) (h : Methods) : Methods :=
  let h := SetNonIntrinsic c SetNotIntrinsic_ target h in
  let h := BackupTo c target backup h in
  let h := SetNonCompilable c target h in
  let h := SetEntryPoint c target entrypoint h in
  SetNonConstructor backup h.

(** [generated]: the address of [GenerateTrampolineFor]'s stub, [None] when it
    failed; the slot is 0 when null. *)
Definition DoHook (generated : option Z) target hook backup v : Z * Vm :=
  match generated with
  | None => (0, v)
  | Some entrypoint =>
      let '(m, slot) := WriteTrampoline cur (entry_point_offset c) (code v) entrypoint hook in
      let v := on_stubs (cons entrypoint) (on_code (λ _, m) v) in
      (slot, on_methods (hook_methods target backup entrypoint) v)
  end.

Definition DoUnHook target backup v : bool * Vm :=
  let access_flags := GetAccessFlags (methods v) target in
  (true, on_methods (λ h, SetAccessFlags target access_flags (CopyFrom target backup h)) v).

Definition IsProxyMethod (t : TargetInfo) : bool :=
  match declaring_is_proxy t with
  | Some is_proxy_class => is_proxy_class
  | None => if declaring_and_proxy_known t then proxy_assignable t else false
  end.

(** ** [HookMethod] *)

Context (sdk_int : Z) (GetShorty : Z → string).
(** The embedder's configuration: whether [generated_source_name] is empty. *)
Context (source_name_empty : bool).
(** [BuildDex]: the built class, hooker field, hook method and backup id, 0 when
    null; [ArtMethod::FromReflectedMethod] of the reflected backup; whether the
    native field of a fast-native hooker was found. *)
Context (BuildDex : DexRequest → Z * Z * Z * Z) (backup_of : Z → Z) (has_native_field : bool).

(** The checks on the callback: whether the receiver is packed with the
    arguments, [None] when the callback is rejected. *)
Definition check_callback (cb : Callback) : option bool :=
  match cb with
  | NativeCallback callback => if callback =? 0 then None else Some false
  | JavaCallback executable shorty _ _ _ _ =>
      if negb executable then None
      else if String.eqb shorty "LL" then Some true
      else if negb (String.eqb shorty "LLL") then None
      else Some false
  end.

Definition target_shorty v (t : TargetInfo) : string :=
  let target := target_method t in
  if can_get_method_shorty c then
    if IsProxyMethod t then
      let np_method := GetInterfaceMethodIfProxy c (methods v) target in
      if negb (np_method =? 0) && IsAbstract (methods v) np_method then GetShorty np_method
      else reflected_shorty t
    else GetShorty target
  else reflected_shorty t.

Definition first_is_lt (s : string) : bool :=
  match s with String "<"%char _ => true | _ => false end.

Definition dex_request v (t : TargetInfo) (cb : Callback) (pack : bool) : DexRequest :=
  let target := target_method t in
  let '(hooker_class, callback_name, native_api) :=
    match cb with
    | NativeCallback _ =>
        (""%string, if String.eqb (target_name t) "native" then "native2"%string else "native"%string, true)
    | JavaCallback _ _ name class_name _ _ => (class_name, name, false)
    end in
  {| dex_shorty := target_shorty v t;
     dex_method_name :=
       if IsConstructor (methods v) target || first_is_lt (target_name t)
       then "constructor"%string else target_name t;
     dex_hooker_class := hooker_class;
     dex_callback_name := callback_name;
     dex_is_static := IsStatic (methods v) target;
     dex_is_fast_native := IsFastNative c (methods v) target;
     dex_is_native_api := native_api;
     dex_should_pack := pack |}.

(** The effects between [BuildDex] and [DoHook]. *)
Definition class_effects (q : DexRequest) (cb : Callback) (built_class : Z) : list Effect :=
  match cb with
  | NativeCallback callback =>
      if negb (built_class =? 0) && negb (dex_is_fast_native q) then
        RegisterNatives built_class (dex_callback_name q) callback ::
        (if source_name_empty then [HideNativeMethod built_class (dex_callback_name q)] else [])
      else []
  | JavaCallback _ _ _ _ _ _ => []
  end.

Definition hooker_data (q : DexRequest) (t : TargetInfo) (cb : Callback) (hooker_field : Z)
    : NativeHookerData :=
  {| should_pack_receiver_and_args := dex_should_pack q;
     is_static := dex_is_static q;
     references := 0;
     data_field := hooker_field;
     callback_method := match cb with JavaCallback _ _ _ _ _ id => id | NativeCallback _ => 0 end;
     native_entry := match cb with NativeCallback p => p | _ => 0 end;
     hooker_target := target_method t;
     shorty := dex_shorty q |}.

Definition object_effects (q : DexRequest) (t : TargetInfo) (cb : Callback)
    (built_class hooker_field backup_method hooker_object : Z) : list Effect :=
  (if dex_is_fast_native q && has_native_field
   then [SetNativeHookerData built_class (hooker_data q t cb hooker_field)] else []) ++
  [SetAccessible backup_method] ++
  (if __ANDROID_API_M__ <=? sdk_int then [CopyReflectedFields backup_method (target_id t)] else []) ++
  [SetHookerField built_class hooker_field hooker_object].

(** What [HookMethod] records once [DoHook] succeeded. *)
Definition record_hook (t : TargetInfo) (hook backup slot backup_method : Z) v : Vm :=
  let target := target_method t in
  let v := on_internal (propagate (target_id t) backup_method) v in
  let v := on_registry
    (RecordHooked target hook backup (class_def_of v target) slot backup_method) v in
  let v :=
    if negb (IsProxyMethod t) then on_registry (RecordJitMovement target backup) v
    else on_registry (with_proxies (λ s, s ∪ {[backup]})) v in
  on_registry
    (RecordDeoptimized (class_def_of v hook) backup (GetEntryPoint (methods v) backup)) v.

Definition HookMethod (t : TargetInfo) (hooker_object : Z) (cb : Callback)
    (generated : option Z) v : option HookOutcome * list Effect * Vm :=
  let target := target_method t in
  if negb (target_executable t) then (None, [], v)
  else match check_callback cb with
  | None => (None, [], v)
  | Some pack =>
    if IsAbstract (methods v) target then (None, [], v)
    else if negb (Records.IsHooked (registry v) target =? 0) ||
            negb (IsBackup (registry v) target =? 0) then (None, [], v)
    else if match cb with JavaCallback _ _ _ _ inst _ => negb inst | _ => false end
    then (None, [], v)
    else
      let q := dex_request v t cb pack in
      let '(built_class, hooker_field, hook, backup_method) := BuildDex q in
      let effects := class_effects q cb built_class in
      if (built_class =? 0) || (hooker_field =? 0) || (hook =? 0) || (backup_method =? 0)
      then (None, effects, v)
      else
        let effects := effects ++
          object_effects q t cb built_class hooker_field backup_method hooker_object in
        let backup := backup_of backup_method in
        let '(slot, v) := DoHook generated target hook backup v in
        if slot =? 0 then (None, effects, v)
        else
          let v := record_hook t hook backup slot backup_method v in
          let effects := effects ++ (if source_name_empty then [HideMethod hook] else []) in
          let outcome := match cb with
            | NativeCallback _ => HookedNative built_class hooker_field backup
            | JavaCallback _ _ _ _ _ _ => HookedJava backup
            end in
          (Some outcome, effects, v)
  end.

(** ** The other API functions; [executable] tells that the argument is a
    non-null [Executable] *)

(** The memory a hook record's stub is switched in. *)
Definition switch_stub (m : mem) (slot hook : Z) : mem * Z :=
  if Z.odd slot then
    let '(m, entry_slot) := WriteTrampoline cur (entry_point_offset c) m (slot - 1) hook in
    (m, if Z.even entry_slot then entry_slot else slot)
  else (store m (Z.to_nat (kPointerSize cur)) slot hook, slot).

Definition SetHookEnabled (executable : bool) target (enable : bool) v : bool * Vm :=
  if negb executable then (false, v)
  else match hooked_methods_ (registry v) !! target with
  | None => (false, v)
  | Some record =>
      if Bool.eqb (enabled record) enable then (enable, v)
      else
        let '(m, slot) := switch_stub (code v) (method_entry_slot record)
          (if enable then Records.backup record else Records.hook record) in
        let record := mkHookRecord (Records.hook record) (Records.backup record) slot
          (backup_method record) enable in
        (negb enable, on_registry (with_hooked <[target := record]>) (on_code (λ _, m) v))
  end.

Definition UnHook (executable : bool) target (target_id : Z) v : bool * Vm :=
  if negb executable then (false, v)
  else match hooked_methods_ (registry v) !! target with
  | None => (false, v)
  | Some record =>
      let v := on_registry (ForgetHooked target (Records.backup record) (class_def_of v target)) v in
      let '(ok, v) := DoUnHook target (Records.backup record) v in
      if ok then (true, on_internal (propagate (backup_method record) target_id) v)
      else (false, v)
  end.

Definition IsHooked (executable : bool) method v : bool :=
  if negb executable then false else negb (Records.IsHooked (registry v) method =? 0).

Context (art_quick_to_interpreter_bridge_ : Z)
        (SetEntryPointsToInterpreter_ : option (Z → Methods → Methods)).

Definition Deoptimize (executable : bool) art_method v : bool * Vm :=
  if negb executable then (false, v)
  else if negb (CanSetEntryPointsToInterpreter art_quick_to_interpreter_bridge_
                  SetEntryPointsToInterpreter_) then (false, v)
  else if IsNative (methods v) art_method then (false, v)
  else
    let v := on_registry (RecordDeoptimized (class_def_of v art_method) art_method
               (GetEntryPoint (methods v) art_method)) v in
    let backup := Records.IsHooked (registry v) art_method in
    let art_method := if negb (backup =? 0) then backup else art_method in
    SetEntryPointsToInterpreter c art_quick_to_interpreter_bridge_ SetEntryPointsToInterpreter_
      art_method v.

Definition GetNativeFunction (executable : bool) art_method v : Z :=
  if negb executable then 0
  else if negb (IsNative (methods v) art_method) then 0
  else GetData (methods v) art_method.

(** The loop of [MakeClassInheritable] over the declared constructors. *)
Definition make_constructor_inheritable (h : Methods) (method : Z) : Methods :=
  let h := if negb (IsPublic h method) && negb (IsProtected h method)
           then SetProtected method h else h in
  if IsFinal h method then SetNonFinal method h else h.

(** [class_access_flags] is the Java field [accessFlags] of the class. *)
Definition MakeClassInheritable (target_nonnull : bool) (class_access_flags : Z)
    (constructors : list Z) v : bool * Z * Vm :=
  if negb target_nonnull then (false, class_access_flags, v)
  else
    (true, clear_bits class_access_flags kAccFinal,
     on_methods (λ h, foldl make_constructor_inheritable h constructors) v).
End api.
