(* ===== verification/Reflection.v ===== *)
(** * Reflection helpers

    [reflection.cxx]: the references of [GlobalRef], the lookups of [InitJNI],
    the shorty of a reflected method, and the boxing functions of [wrapper].
    What JNI answers to a lookup, [valueOf] and the [xxxValue] methods are
    parameters; objects are identified by positive numbers, 0 is null. *)

From S2P Require Import Prelude Platform ObjectCollections.
From Stdlib Require Import Ascii.

(** The static variables (ids and classes), the indices of the [GlobalRef]s by
    name, and [global_references]. *)
Record Jni := mkJni {
  vars : gmap string Z;
  indices : gmap string Z;
  global_references : ObjectList.t;
}.

Definition var (s : Jni) (x : string) : Z := default 0 (vars s !! x).
Definition index_of (s : Jni) (x : string) : Z := default (-1) (indices s !! x).

(** ** [struct GlobalRef] *)

Module GlobalRef.
Definition get (r : string) (s : Jni) : Z := ObjectList.get (index_of s r) (global_references s).

(** [None] when [add] is undefined. *)
Definition set (r : string) (obj : Z) (s : Jni) : option Jni :=
  if index_of s r <? 0 then
    match ObjectList.add obj (global_references s) with
    | None => None
    | Some (i, l) => Some (mkJni (vars s) (<[r := i]> (indices s)) l)
    end
  else
    Some (mkJni (vars s) (indices s) (ObjectList.update (index_of s r) obj (global_references s))).
End GlobalRef.

(** ** [InitJNI] *)

(** A lookup names the class variable it is made in. *)
Inductive Lookup : Type :=
  | FindClass (name : string)
  | GetSuperclass (cls : string)
  | GetMethodID (cls name sig : string)
  | GetStaticMethodID (cls name sig : string)
  | GetFieldID (cls name sig : string)
  | GetPrimitiveClass (cls : string).      (* the lambda get_primitive_class *)

(** [Let]: an unchecked assignment; [Require]: an assignment after which a null
    makes [InitJNI] return false; [RequireAny]: the check of several variables;
    [SetRef]: [set] of a global reference. *)
Inductive Step : Type :=
  | Let (x : string) (l : Lookup)
  | Require (x : string) (l : Lookup)
  | RequireAny (xs : list string)
  | SetRef (r x : string).

Section init.
(** JNI: classes are numbers, the lookups answer 0 when nothing is found. *)
Context (jni_class : string → Z) (jni_super : Z → Z)
        (jni_method jni_static_method jni_field : Z → string → string → Z)
        (jni_type_field : Z → Z).

Definition eval (l : Lookup) (s : Jni) : Z :=
  match l with
  | FindClass name => jni_class name
  | GetSuperclass cls => jni_super (var s cls)
  | GetMethodID cls name sig => jni_method (var s cls) name sig
  | GetStaticMethodID cls name sig => jni_static_method (var s cls) name sig
  | GetFieldID cls name sig => jni_field (var s cls) name sig
  | GetPrimitiveClass cls => jni_type_field (var s cls)
  end.

Definition assign (x : string) (v : Z) (s : Jni) : Jni :=
  mkJni (<[x := v]> (vars s)) (indices s) (global_references s).

(** Whether to go on, and the state; [None] is undefined behaviour. *)
Definition run_step (t : Step) (s : Jni) : option (bool * Jni) :=
  match t with
  | Let x l => Some (true, assign x (eval l s) s)
  | Require x l => let v := eval l s in Some (negb (v =? 0), assign x v s)
  | RequireAny xs => Some (existsb (λ x, negb (var s x =? 0)) xs, s)
  | SetRef r x => (true,.) <$> GlobalRef.set r (var s x) s
  end.

Fixpoint run (l : list Step) (s : Jni) : option (bool * Jni) :=
  match l with
  | [] => Some (true, s)
  | t :: l =>
      match run_step t s with
      | None => None
      | Some (false, s) => Some (false, s)
      | Some (true, s) => run l s
      end
  end.

(** The ids and references of one boxing class. *)
Definition box_steps (name java_name value_class value_name value_sig value_of_sig : string) : list Step :=
  let cls := (name +:+ "_class")%string in
  [ Let cls (FindClass java_name);
    SetRef (cls +:+ "_ref") cls;
    Let ("primitive_" +:+ cls) (GetPrimitiveClass cls);
    SetRef ("primitive_" +:+ cls +:+ "_ref") ("primitive_" +:+ cls);
    Let (name +:+ "_value_method") (GetMethodID value_class value_name value_sig);
    Let (name +:+ "_value_of_method") (GetStaticMethodID cls "valueOf" value_of_sig) ].

Definition InitJNI_steps (sdk_int : Z) : list Step :=
  [ Require "method" (FindClass "java/lang/reflect/Method");
    Let "executable" (GetSuperclass "method");
    SetRef "executable_ref" "executable";
    Require "method_get_name" (GetMethodID "executable" "getName" "()Ljava/lang/String;");
    Require "method_get_declaring_class" (GetMethodID "executable" "getDeclaringClass" "()Ljava/lang/Class;");
    Require "method_get_parameter_types" (GetMethodID "executable" "getParameterTypes" "()[Ljava/lang/Class;");
    Require "method_get_return_type" (GetMethodID "method" "getReturnType" "()Ljava/lang/Class;") ] ++
  (if __ANDROID_API_M__ <=? sdk_int then
    [ Require "method_access_flags_field" (GetFieldID "executable" "accessFlags" "I");
      Require "method_declaring_class_field" (GetFieldID "executable" "declaringClass" "Ljava/lang/Class;") ]
   else []) ++
  [ Require "clazz" (FindClass "java/lang/Class");
    Require "class_get_class_loader" (GetMethodID "clazz" "getClassLoader" "()Ljava/lang/ClassLoader;");
    Require "class_get_declared_constructors"
      (GetMethodID "clazz" "getDeclaredConstructors" "()[Ljava/lang/reflect/Constructor;");
    Require "class_get_declared_methods"
      (GetMethodID "clazz" "getDeclaredMethods" "()[Ljava/lang/reflect/Method;");
    Require "class_get_name" (GetMethodID "clazz" "getName" "()Ljava/lang/String;");
    Require "class_access_flags" (GetFieldID "clazz" "accessFlags" "I");
    Require "path_class_loader" (FindClass "dalvik/system/PathClassLoader");
    SetRef "path_class_loader_ref" "path_class_loader";
    Require "path_class_loader_init"
      (GetMethodID "path_class_loader" "<init>" "(Ljava/lang/String;Ljava/lang/ClassLoader;)V");
    Require "dex_file_class" (FindClass "dalvik/system/DexFile") ] ++
  (if __ANDROID_API_Q__ <=? sdk_int then
    [ Let "dex_file_init_with_cl" (GetMethodID "dex_file_class" "<init>"
        "([Ljava/nio/ByteBuffer;Ljava/lang/ClassLoader;[Ldalvik/system/DexPathList$Element;)V") ]
   else if __ANDROID_API_O__ <=? sdk_int then
    [ Let "dex_file_init" (GetMethodID "dex_file_class" "<init>" "(Ljava/nio/ByteBuffer;)V") ]
   else []) ++
  (if __ANDROID_API_O__ <=? sdk_int then [ RequireAny ["dex_file_init_with_cl"; "dex_file_init"] ] else []) ++
  [ Require "load_class" (GetMethodID "dex_file_class" "loadClass"
      "(Ljava/lang/String;Ljava/lang/ClassLoader;)Ljava/lang/Class;");
    Require "accessible_object" (FindClass "java/lang/reflect/AccessibleObject");
    Require "set_accessible" (GetMethodID "accessible_object" "setAccessible" "(Z)V");
    Let "object_class" (FindClass "java/lang/Object");
    SetRef "object_class_ref" "object_class";
    Let "proxy_class" (FindClass "java/lang/reflect/Proxy");
    SetRef "proxy_class_ref" "proxy_class";
    Let "number_class" (FindClass "java/lang/Number") ] ++
  box_steps "boolean" "java/lang/Boolean" "boolean_class" "booleanValue" "()Z" "(Z)Ljava/lang/Boolean;" ++
  box_steps "byte" "java/lang/Byte" "number_class" "byteValue" "()B" "(B)Ljava/lang/Byte;" ++
  box_steps "short" "java/lang/Short" "number_class" "shortValue" "()S" "(S)Ljava/lang/Short;" ++
  box_steps "char" "java/lang/Character" "char_class" "charValue" "()C" "(C)Ljava/lang/Character;" ++
  box_steps "int" "java/lang/Integer" "number_class" "intValue" "()I" "(I)Ljava/lang/Integer;" ++
  box_steps "float" "java/lang/Float" "number_class" "floatValue" "()F" "(F)Ljava/lang/Float;" ++
  box_steps "long" "java/lang/Long" "number_class" "longValue" "()J" "(J)Ljava/lang/Long;" ++
  box_steps "double" "java/lang/Double" "number_class" "doubleValue" "()D" "(D)Ljava/lang/Double;" ++
  [ Let "void_class" (FindClass "java/lang/Void");
    Let "primitive_void_class" (GetPrimitiveClass "void_class");
    SetRef "primitive_void_class_ref" "primitive_void_class" ].

Definition InitJNI (sdk_int : Z) (s : Jni) : option (bool * Jni) := run (InitJNI_steps sdk_int) s.
End init.

Definition no_jni : Jni := mkJni ∅ ∅ ObjectList.empty.

(** The names in [kInternalMethods], in order. *)
Definition kInternalMethods : list string :=
  [ "method_get_name"; "method_get_declaring_class"; "class_get_name"; "class_get_class_loader";
    "class_get_declared_constructors"; "class_get_declared_methods"; "dex_file_init";
    "dex_file_init_with_cl"; "load_class"; "set_accessible"; "method_get_parameter_types";
    "method_get_return_type"; "path_class_loader_init"; "unsafe_get_int_method";
    "unsafe_put_int_method" ]%string.

(** ** [GetReflectedMethodShorty] *)

(** The cascade of [type_to_shorty]: the references and their letters. *)
Definition shorty_table : list (string * ascii) :=
  [ ("primitive_int_class_ref", "I"%char); ("primitive_long_class_ref", "J"%char);
    ("primitive_float_class_ref", "F"%char); ("primitive_double_class_ref", "D"%char);
    ("primitive_boolean_class_ref", "Z"%char); ("primitive_byte_class_ref", "B"%char);
    ("primitive_char_class_ref", "C"%char); ("primitive_short_class_ref", "S"%char);
    ("primitive_void_class_ref", "V"%char) ]%string.

Fixpoint lookup_shorty (table : list (string * ascii)) (type : Z) (s : Jni) : ascii :=
  match table with
  | [] => "L"%char
  | (r, letter) :: table => if type =? GlobalRef.get r s then letter else lookup_shorty table type s
  end.

Definition type_to_shorty (type : Z) (s : Jni) : ascii := lookup_shorty shorty_table type s.

Definition GetReflectedMethodShorty (return_type : Z) (parameter_types : list Z) (s : Jni) : list ascii :=
  type_to_shorty return_type s :: map (λ param, type_to_shorty param s) parameter_types.

(** ** [namespace wrapper] *)

(** The letters of the primitive types that have values. *)
Definition value_letters : list ascii :=
  ["Z"; "B"; "S"; "C"; "I"; "F"; "J"; "D"]%char.
Definition is_value (type : ascii) : bool := bool_decide (type ∈ value_letters).

Section wrapper.
(** [valueOf] and [xxxValue] of the boxing class of a letter. *)
Context (valueOf : ascii → Z → Z) (xxxValue : ascii → Z → Z).

(** [Wrap] of a value of the type; [None] is [abort]. *)
Definition Wrap (type : ascii) (value : Z) : option Z :=
  if is_value type then Some (valueOf type value)
  else if Ascii.eqb type "V" then Some 0
  else None.

(** [Unwrap]: the member of the [jvalue] for the type. *)
Definition Unwrap (type : ascii) (wrapped : Z) : option Z :=
  if is_value type then Some (xxxValue type wrapped)
  else if Ascii.eqb type "L" then Some wrapped
  else if Ascii.eqb type "V" then Some 0
  else None.
End wrapper.

(** ** References *)

Record jni_ok (s : Jni) : Prop := {
  jok_list : list_ok (global_references s);
  jok_set r i : indices s !! r = Some i → i = -1 ∨ ObjectList.get i (global_references s) ≠ 0;
  jok_own r r' i : indices s !! r = Some i → indices s !! r' = Some i → i ≠ -1 → r = r';
}.

Lemma no_jni_ok : jni_ok no_jni.
Proof. split; [apply empty_list_ok|done|done]. Qed.

Lemma get_negative_index i l : i < 0 → ObjectList.get i l = 0.
Proof. intros. unfold ObjectList.get. by rewrite (proj2 (Z.ltb_lt i 0)). Qed.

Lemma index_of_cases s r : (indices s !! r = None ∧ index_of s r = -1) ∨ indices s !! r = Some (index_of s r).
Proof. unfold index_of. destruct (indices s !! r); [by right|by left]. Qed.

Lemma index_of_negative s r : jni_ok s → index_of s r < 0 → index_of s r = -1.
Proof.
  intros [_ Hs _] Hr. destruct (index_of_cases s r) as [[_ ->]|Hi]; [done|].
  destruct (Hs _ _ Hi) as [|Hn]; [done|]. by rewrite get_negative_index in Hn.
Qed.

(** The first [set] of a reference. *)
Lemma set_new s r obj :
  jni_ok s → index_of s r < 0 →
  ∃ s', GlobalRef.set r obj s = Some s' ∧ jni_ok s' ∧ vars s' = vars s ∧ GlobalRef.get r s' = obj ∧
    ∀ r', r' ≠ r → GlobalRef.get r' s' = GlobalRef.get r' s ∧ index_of s' r' = index_of s r'.
Proof.
  intros Hok Hneg. pose proof Hok as [Hl Hs Ho]. unfold GlobalRef.set, GlobalRef.get.
  rewrite (proj2 (Z.ltb_lt _ 0)) by done.
  assert (∀ i l r', r' ≠ r → index_of (mkJni (vars s) (<[r:=i]> (indices s)) l) r' = index_of s r') as Hidx.
  { intros i l r' Hr. unfold index_of. simpl. by rewrite lookup_insert_ne. }
  assert (∀ i l, index_of (mkJni (vars s) (<[r:=i]> (indices s)) l) r = i) as Hidx'.
  { intros i l. unfold index_of. simpl. by rewrite lookup_insert_eq. }
  destruct (decide (obj = 0)) as [->|Hobj].
  { eexists. split; [done|]. split_and!; [|done|by rewrite Hidx', get_negative_index|].
    - split; simpl; [done| |].
      + intros r' i [[<- <-]|[_ Hi]]%lookup_insert_Some; [by left|eauto].
      + intros r1 r2 i [[<- <-]|[_ H1]]%lookup_insert_Some [[<- E]|[_ H2]]%lookup_insert_Some; try done; eauto.
    - intros r' Hr. by rewrite Hidx. }
  destruct (list_new_slot obj (global_references s) Hl Hobj) as (idx & l' & Hadd & Hl' & Hidx0 & Hnull & _ & Hget).
  rewrite Hadd. eexists. split; [done|]. split_and!; [|done|by rewrite Hidx', Hget, decide_True|].
  - split; simpl; [done| |].
    + intros r' i [[<- <-]|[_ Hi]]%lookup_insert_Some; [by right; rewrite Hget, decide_True|].
      destruct (Hs _ _ Hi) as [|Hn]; [by left|right]. rewrite Hget. by case_decide.
    + intros r1 r2 i [[<- <-]|[_ H1]]%lookup_insert_Some [[<- E]|[_ H2]]%lookup_insert_Some Hi; try done; [| |eauto].
      * destruct (Hs _ _ H2) as [|Hn]; done.
      * subst i. destruct (Hs _ _ H1) as [|Hn]; done.
  - intros r' Hr. rewrite Hidx by done. split; [|done]. rewrite Hget. case_decide as E; [|done].
    destruct (index_of_cases s r') as [[_ E']|Hi]; [lia|].
    rewrite E in Hi. destruct (Hs _ _ Hi) as [|Hn]; [lia|done].
Qed.

(** Setting a reference to an object makes [get] return the object; every
    other reference keeps its object, and the list of references stays sound. *)
Theorem global_ref_set s r obj :
  jni_ok s → obj ≠ 0 →
  ∃ s', GlobalRef.set r obj s = Some s' ∧ jni_ok s' ∧ GlobalRef.get r s' = obj ∧
    ∀ r', r' ≠ r → GlobalRef.get r' s' = GlobalRef.get r' s.
Proof.
  intros Hok Hobj. destruct (decide (index_of s r < 0)) as [Hneg|Hpos].
  { destruct (set_new s r obj Hok Hneg) as (s' & ? & ? & _ & ? & Ho). exists s'. split_and!; [done..|].
    intros r' Hr. by apply Ho. }
  pose proof Hok as [Hl Hs Ho]. unfold GlobalRef.set, GlobalRef.get.
  rewrite (proj2 (Z.ltb_ge _ 0)) by lia. eexists. split; [done|]. simpl.
  destruct (index_of_cases s r) as [[_ E]|Hi]; [lia|].
  destruct (Hs _ _ Hi) as [|Hn]; [lia|].
  destruct (update_ok (index_of s r) obj (global_references s) Hl Hn Hobj) as [Hl' Hget].
  assert (∀ r', index_of (mkJni (vars s) (indices s) (ObjectList.update (index_of s r) obj
    (global_references s))) r' = index_of s r') as Hidx by done.
  split_and!.
  - split; simpl; [done| |done]. intros r' i Hr. destruct (Hs _ _ Hr) as [|Hn']; [by left|right].
    rewrite Hget. by case_decide.
  - by rewrite Hidx, Hget, decide_True.
  - intros r' Hr. rewrite Hidx, Hget. case_decide as E; [|done]. exfalso. apply Hr.
    destruct (index_of_cases s r') as [[_ E']|Hi']; [lia|]. rewrite E in Hi'.
    apply (Ho _ _ _ Hi' Hi). lia.
Qed.

(** ** What [InitJNI] establishes *)

Definition assigned (t : Step) : list string :=
  match t with Let x _ | Require x _ => [x] | _ => [] end.
Definition referenced (t : Step) : list string :=
  match t with SetRef r _ => [r] | _ => [] end.

Section init_theorem.
Context (jni_class : string → Z) (jni_super : Z → Z)
        (jni_method jni_static_method jni_field : Z → string → string → Z)
        (jni_type_field : Z → Z).
Abbreviation run := (run jni_class jni_super jni_method jni_static_method jni_field jni_type_field).
Abbreviation run_step := (run_step jni_class jni_super jni_method jni_static_method jni_field jni_type_field).

Lemma var_assign x v s y : var (assign x v s) y = if decide (y = x) then v else var s y.
Proof.
  unfold var, assign. simpl. case_decide as E; [subst; by rewrite lookup_insert_eq|by rewrite lookup_insert_ne].
Qed.

(** One step: it is defined, and changes the variable and reference it names. *)
Lemma run_step_ok t s :
  jni_ok s → (∀ r, r ∈ referenced t → index_of s r < 0) →
  ∃ b s', run_step t s = Some (b, s') ∧ jni_ok s' ∧
    (∀ x, x ∉ assigned t → var s' x = var s x) ∧
    (∀ r, r ∉ referenced t → GlobalRef.get r s' = GlobalRef.get r s ∧ index_of s' r = index_of s r) ∧
    (∀ x l, t = Require x l → b = true → var s' x ≠ 0) ∧
    (∀ r x, t = SetRef r x → GlobalRef.get r s' = var s x).
Proof.
  intros Hok Hr. pose proof Hok as [Hl Hs Ho].
  assert (∀ x v, jni_ok (assign x v s)) as Hassign by (intros; by split).
  assert (∀ x v y, y ∉ [x] → var (assign x v s) y = var s y) as Hother.
  { intros x v y Hy. rewrite var_assign, decide_False; [done|]. intros ->. apply Hy. by left. }
  destruct t as [x l|x l|xs|r x]; simpl.
  - eexists _, _. split; [done|]. split_and!; [apply Hassign|apply Hother|done|done|done].
  - eexists _, _. split; [done|]. split_and!; [apply Hassign|apply Hother|done| |done].
    intros y l' [= <- <-] Hb. rewrite var_assign, decide_True by done.
    by apply negb_true_iff, Z.eqb_neq in Hb.
  - eexists _, _. split; [done|]. by split_and!.
  - destruct (set_new s r (var s x) Hok) as (s' & Hset & Hok' & Hv & Hg & Hoth); [apply Hr; by left|].
    rewrite Hset. eexists _, _. split; [done|]. split_and!; [done| | |done|].
    + intros y _. unfold var. by rewrite Hv.
    + intros r' Hr'. apply Hoth. intros ->. apply Hr'. by left.
    + by intros r' x' [= <- <-].
Qed.

(** A run of steps that set each reference once. *)
Lemma run_ok l s :
  jni_ok s → NoDup (flat_map referenced l) → (∀ r, r ∈ flat_map referenced l → index_of s r < 0) →
  ∃ b s', run l s = Some (b, s') ∧ jni_ok s' ∧
    (∀ x, x ∉ flat_map assigned l → var s' x = var s x) ∧
    (∀ r, r ∉ flat_map referenced l → GlobalRef.get r s' = GlobalRef.get r s).
Proof.
  revert s. induction l as [|t l IH]; intros s Hok Hnd Hr; simpl in *.
  { by exists true, s. }
  destruct (run_step_ok t s Hok) as (b & s1 & Hrun & Hok1 & Hv1 & Hg1 & _).
  { intros r Ht. apply Hr, elem_of_app. by left. }
  rewrite Hrun. apply NoDup_app in Hnd as (_ & Hdis & Hnd).
  destruct b.
  - destruct (IH s1 Hok1 Hnd) as (b & s2 & Hrun2 & Hok2 & Hv2 & Hg2).
    { intros r Hrl. destruct (Hg1 r) as [_ ->]; [|apply Hr, elem_of_app; by right].
      intros Ht. by apply (Hdis r). }
    rewrite Hrun2. exists b, s2. split_and!; [done|done| |].
    + intros x Hx. rewrite not_elem_of_app in Hx. rewrite Hv2, Hv1; tauto.
    + intros r Hx. rewrite not_elem_of_app in Hx. rewrite Hg2; [apply Hg1|]; tauto.
  - exists false, s1. split_and!; [done|done| |].
    + intros x Hx. rewrite not_elem_of_app in Hx. apply Hv1. tauto.
    + intros r Hx. rewrite not_elem_of_app in Hx. apply Hg1. tauto.
Qed.

(** After a run to the end, what is required is there, and the references are
    to the variables they were set from. *)
Lemma run_complete l s s' :
  jni_ok s → NoDup (flat_map referenced l) → (∀ r, r ∈ flat_map referenced l → index_of s r < 0) →
  NoDup (flat_map assigned l) → run l s = Some (true, s') →
  (∀ x lk, Require x lk ∈ l → var s' x ≠ 0) ∧
  (∀ l1 r x l2, l = l1 ++ SetRef r x :: l2 → x ∉ flat_map assigned l2 → GlobalRef.get r s' = var s' x).
Proof.
  revert s. induction l as [|t l IH]; intros s Hok Hnd Hr Hna Hrun; simpl in *.
  { split; [by intros ? ? ?%elem_of_nil|]. intros [|] ? ? ? E; done. }
  destruct (run_step_ok t s Hok) as (b & s1 & Hrun1 & Hok1 & Hv1 & Hg1 & Hreq & Href).
  { intros r Ht. apply Hr, elem_of_app. by left. }
  rewrite Hrun1 in Hrun. destruct b; [|done]. apply NoDup_app in Hnd as (_ & Hdis & Hnd).
  apply NoDup_app in Hna as (_ & Hdisa & Hna).
  assert (∀ r, r ∈ flat_map referenced l → index_of s1 r < 0) as Hr1.
  { intros r Hrl. destruct (Hg1 r) as [_ ->]; [|apply Hr, elem_of_app; by right].
    intros Ht. by apply (Hdis r). }
  destruct (run_ok l s1 Hok1 Hnd Hr1) as (b & s2 & Hrun2 & _ & Hv2 & Hg2).
  rewrite Hrun in Hrun2. simplify_eq. destruct (IH s1 Hok1 Hnd Hr1 Hna Hrun) as [IH1 IH2]. split.
  - intros x lk [E|Hin]%elem_of_cons; [|by eapply IH1].
    rewrite Hv2; [by eapply Hreq|]. apply Hdisa. rewrite <-E. by left.
  - intros [|t' l1] r x l2 E Hx; simplify_eq/=; [|by eapply IH2].
    rewrite Hg2 by (apply Hdis; by left). rewrite (Href r x eq_refl), Hv2, Hv1; [done|by intros ?%elem_of_nil|done].
Qed.

Fixpoint memb (x : string) (l : list string) : bool :=
  match l with [] => false | y :: l => String.eqb x y || memb x l end.

Lemma memb_false x l : memb x l = false → x ∉ l.
Proof.
  induction l as [|y l IH]; simpl; [by intros _ ?%elem_of_nil|].
  intros [H1 H2]%orb_false_iff [->|H]%elem_of_cons; [by rewrite String.eqb_refl in H1|by apply IH].
Qed.

Fixpoint nodupb (l : list string) : bool :=
  match l with [] => true | x :: l => negb (memb x l) && nodupb l end.

Lemma nodupb_NoDup l : nodupb l = true → NoDup l.
Proof.
  induction l as [|x l IH]; simpl; [by intros; apply NoDup_nil_2|].
  intros [H1%negb_true_iff H2]%andb_true_iff. apply NoDup_cons. split; [by apply memb_false|auto].
Qed.

(** No variable a reference was set from is assigned later. *)
Fixpoint refs_final (l : list Step) : bool :=
  match l with
  | [] => true
  | SetRef _ x :: l => negb (memb x (flat_map assigned l)) && refs_final l
  | _ :: l => refs_final l
  end.

Lemma refs_final_app l1 r x l2 : refs_final (l1 ++ SetRef r x :: l2) = true → x ∉ flat_map assigned l2.
Proof.
  induction l1 as [|t l1 IH]; simpl.
  - intros [H%negb_true_iff _]%andb_true_iff. by apply memb_false.
  - destruct t; try done. intros [_ H]%andb_true_iff. by apply IH.
Qed.

Lemma InitJNI_steps_ok sdk_int :
  nodupb (flat_map referenced (InitJNI_steps sdk_int)) = true ∧
  nodupb (flat_map assigned (InitJNI_steps sdk_int)) = true ∧
  refs_final (InitJNI_steps sdk_int) = true.
Proof.
  unfold InitJNI_steps. destruct (__ANDROID_API_M__ <=? sdk_int), (__ANDROID_API_O__ <=? sdk_int),
    (__ANDROID_API_Q__ <=? sdk_int); by vm_compute.
Qed.

(** [InitJNI] is defined whatever JNI answers; when it returns true every id
    and class it requires was found, and each global reference gives the class
    it was set from. *)
Lemma InitJNI_spec sdk_int :
  ∃ b s', InitJNI jni_class jni_super jni_method jni_static_method jni_field jni_type_field sdk_int no_jni =
      Some (b, s') ∧ jni_ok s' ∧
    (b = true → (∀ x lk, Require x lk ∈ InitJNI_steps sdk_int → var s' x ≠ 0) ∧
      (∀ r x, SetRef r x ∈ InitJNI_steps sdk_int → GlobalRef.get r s' = var s' x)).
Proof.
  destruct (InitJNI_steps_ok sdk_int) as (Hr%nodupb_NoDup & Ha%nodupb_NoDup & Hf).
  assert (∀ r, r ∈ flat_map referenced (InitJNI_steps sdk_int) → index_of no_jni r < 0) as Hi by done.
  destruct (run_ok (InitJNI_steps sdk_int) no_jni no_jni_ok Hr Hi) as (b & s' & Hrun & Hok & _).
  exists b, s'. split_and!; [exact Hrun|done|]. intros ->.
  destruct (run_complete _ _ _ no_jni_ok Hr Hi Ha Hrun) as [H1 H2]. split; [exact H1|].
  intros r x (l1 & l2 & E)%list_elem_of_split. eapply H2; [exact E|].
  rewrite E in Hf. by eapply refs_final_app.
Qed.
End init_theorem.

(** ** Boxing *)

(** Unwrapping what [Wrap] made of a value gives the value back, for every
    primitive type, when the boxing classes keep the values they are given. *)
Lemma unwrap_wrap valueOf xxxValue type value wrapped :
  (∀ t v, t ∈ value_letters → xxxValue t (valueOf t v) = v) →
  Wrap valueOf type value = Some wrapped → type ≠ "V"%char →
  Unwrap xxxValue type wrapped = Some value.
Proof.
  intros Hbox. unfold Wrap, Unwrap, is_value. case_bool_decide as Hin.
  - intros [= <-] _. by rewrite Hbox.
  - destruct (Ascii.eqb_spec type "V"); done.
Qed.

Example unwrap_wrap_witness : Unwrap (λ _ o, o - 100) "J" 142 = Some 42.
Proof.
  apply (unwrap_wrap (λ _ v, v + 100) (λ _ o, o - 100) "J" 42 142); [|done|done].
  intros t v _. lia.
Defined.

(** A JNI that finds everything but one class. *)
Definition finding (missing : string) (name : string) : Z :=
  if String.eqb name missing then 0 else 7.

Example global_ref_set_witness :
  ∃ s', GlobalRef.set "object_class_ref" 5 no_jni = Some s' ∧ GlobalRef.get "object_class_ref" s' = 5.
Proof.
  destruct (global_ref_set no_jni "object_class_ref" 5 no_jni_ok ltac:(done)) as (s' & H1 & _ & H2 & _).
  by exists s'.
Defined.
