(* ===== verification/HookSpec.v ===== *)
(** * What hooking guarantees

    The theorems about [HookApi.v]: what a successful hook establishes, that
    refusals change nothing, the round trip of hooking and unhooking, the
    switching of stubs, and the invariant of every sequence of API calls. *)

From S2P Require Import Prelude Memory Platform ArtMethod Records Trampoline Vm ClassLinker.
From S2P Require Import ClassInit HookApi.

Section spec.
Context (cur : Arch) (c : Config).
Context (SetNotIntrinsic_ : option (Z → Methods → Methods)) (GetClassDef : Z → Z).
Implicit Types (v : Vm) (h : Methods) (target backup t : Z).

(** The runtime's [SetNotIntrinsic] writes the flags of the method it is given. *)
Definition intrinsic_frame : Prop :=
  ∀ f this h, SetNotIntrinsic_ = Some f → ∃ flags, f this h = alter (with_access_flags flags) this h.
Hypothesis intrinsic : intrinsic_frame.

(** ** The methods after [DoHook] *)

Lemma SetNonIntrinsic_flags target h :
  ∃ flags, SetNonIntrinsic c SetNotIntrinsic_ target h = alter (with_access_flags flags) target h.
Proof.
  unfold SetNonIntrinsic. destruct SetNotIntrinsic_ as [f|] eqn:E; [by eapply intrinsic|].
  simpl. by eexists.
Qed.

(** Every step but the copy and the entry point writes flags. *)
Lemma BackupTo_shape target backup h :
  ∃ fl1 fl2 fl3, BackupTo c target backup h =
    (let h := alter (with_access_flags fl1) target h in
     let h := <[backup := h target]> h in
     let h := alter (with_access_flags fl2) target h in
     fl3 h).
Proof.
  unfold BackupTo. eexists _, _, (λ h, if negb (IsStatic h backup) then SetPrivate backup h else h).
  done.
Qed.

Definition same_code (m m' : Method) : Prop :=
  data m = data m' ∧ entry_point m = entry_point m' ∧
  interpreter_entry_point m = interpreter_entry_point m' ∧ declaring_class m = declaring_class m'.

Lemma same_code_refl m : same_code m m.
Proof. by split_and!. Qed.

Lemma same_code_trans m1 m2 m3 : same_code m1 m2 → same_code m2 m3 → same_code m1 m3.
Proof. unfold same_code. intuition congruence. Qed.

Lemma flags_same_code fl p h t : same_code (alter (with_access_flags fl) p h t) (h t).
Proof.
  destruct (decide (t = p)) as [->|Hne]; [rewrite fn_lookup_alter|rewrite fn_lookup_alter_ne by done];
    by split_and!.
Qed.

Lemma SetPrivate_same_code p h t : same_code (SetPrivate p h t) (h t).
Proof. apply flags_same_code. Qed.

Lemma SetNonConstructor_same_code p h t : same_code (SetNonConstructor p h t) (h t).
Proof. apply flags_same_code. Qed.

Lemma SetNonCompilable_same_code p h t : same_code (SetNonCompilable c p h t) (h t).
Proof. apply flags_same_code. Qed.

Lemma SetNonIntrinsic_same_code p h t : same_code (SetNonIntrinsic c SetNotIntrinsic_ p h t) (h t).
Proof using intrinsic.
  destruct (SetNonIntrinsic_flags p h) as [fl ->]. apply flags_same_code.
Qed.

Lemma BackupTo_same_code target backup h t :
  target ≠ backup → t ≠ backup → same_code (BackupTo c target backup h t) (h t).
Proof.
  intros Htb Ht. unfold BackupTo. cbn zeta.
  assert (∀ h', same_code (h' t) (h t) → same_code
    ((if negb (IsStatic h' backup) then SetPrivate backup h' else h') t) (h t)) as Hp.
  { intros h' Hh'. destruct (negb _); [|done].
    eapply same_code_trans; [apply SetPrivate_same_code|done]. }
  apply Hp. eapply same_code_trans; [apply flags_same_code|]. cbn [CopyFrom methods_store].
  rewrite fn_lookup_insert_ne by done. apply flags_same_code.
Qed.

Lemma BackupTo_backup_code target backup h :
  target ≠ backup → same_code (BackupTo c target backup h backup) (h target).
Proof.
  intros Htb. unfold BackupTo. cbn zeta.
  assert (∀ h', same_code (h' backup) (h target) → same_code
    ((if negb (IsStatic h' backup) then SetPrivate backup h' else h') backup) (h target)) as Hp.
  { intros h' Hh'. destruct (negb _); [|done].
    eapply same_code_trans; [apply SetPrivate_same_code|done]. }
  apply Hp. eapply same_code_trans; [apply flags_same_code|]. cbn [CopyFrom methods_store].
  rewrite fn_lookup_insert. apply flags_same_code.
Qed.

(** Flag writes leave the other methods alone. *)
Lemma SetPrivate_other p h t : t ≠ p → SetPrivate p h t = h t.
Proof. intros. by apply fn_lookup_alter_ne. Qed.
Lemma SetNonConstructor_other p h t : t ≠ p → SetNonConstructor p h t = h t.
Proof. intros. by apply fn_lookup_alter_ne. Qed.
Lemma SetNonCompilable_other p h t : t ≠ p → SetNonCompilable c p h t = h t.
Proof. intros. by apply fn_lookup_alter_ne. Qed.
Lemma ClearFastInterpretFlag_other p h t : t ≠ p → ClearFastInterpretFlag c p h t = h t.
Proof. intros. by apply fn_lookup_alter_ne. Qed.
Lemma SetNonIntrinsic_other p h t : t ≠ p → SetNonIntrinsic c SetNotIntrinsic_ p h t = h t.
Proof using intrinsic.
  intros. destruct (SetNonIntrinsic_flags p h) as [fl ->]. by apply fn_lookup_alter_ne.
Qed.

Lemma BackupTo_other target backup h t :
  t ≠ target → t ≠ backup → BackupTo c target backup h t = h t.
Proof.
  intros Ht Hb. unfold BackupTo. cbn zeta.
  assert (∀ h', h' t = h t → (if negb (IsStatic h' backup) then SetPrivate backup h' else h') t = h t) as Hp.
  { intros h' Hh'. destruct (negb _); [by rewrite SetPrivate_other|done]. }
  apply Hp. rewrite ClearFastInterpretFlag_other by done. cbn [CopyFrom methods_store].
  rewrite fn_lookup_insert_ne by done. by apply SetNonCompilable_other.
Qed.

(** The methods other than the target and the backup are not written. *)
Lemma hook_methods_other target backup entry h t :
  t ≠ target → t ≠ backup → hook_methods c SetNotIntrinsic_ target backup entry h t = h t.
Proof using intrinsic.
  intros Ht Hb. unfold hook_methods. cbn zeta.
  rewrite SetNonConstructor_other, SetEntryPoint_other, SetNonCompilable_other by done.
  rewrite BackupTo_other by done. by apply SetNonIntrinsic_other.
Qed.

(** The target: only its entry points and flags are written. *)
Lemma hook_methods_target target backup entry h :
  target ≠ backup →
  let m := hook_methods c SetNotIntrinsic_ target backup entry h target in
  entry_point m = entry ∧ data m = data (h target) ∧ declaring_class m = declaring_class (h target).
Proof using intrinsic.
  intros Htb m. unfold m, hook_methods. cbn zeta.
  match goal with |- context [SetEntryPoint c target entry ?h'] => set (h1 := h') end.
  assert (same_code (h1 target) (h target)) as (Hd & _ & _ & Hc).
  { unfold h1. eapply same_code_trans; [apply SetNonCompilable_same_code|].
    eapply same_code_trans; [by apply BackupTo_same_code|]. apply SetNonIntrinsic_same_code. }
  destruct (SetNonConstructor_same_code backup (SetEntryPoint c target entry h1) target)
    as (-> & -> & _ & ->).
  destruct (SetEntryPoint_fields c target entry h1 target) as (_ & -> & ->).
  by rewrite SetEntryPoint_entry.
Qed.

(** The backup gets the code of the target. *)
Lemma hook_methods_backup target backup entry h :
  target ≠ backup →
  same_code (hook_methods c SetNotIntrinsic_ target backup entry h backup) (h target).
Proof using intrinsic.
  intros Htb. unfold hook_methods. cbn zeta.
  eapply same_code_trans; [apply SetNonConstructor_same_code|].
  rewrite SetEntryPoint_other by done.
  eapply same_code_trans; [apply SetNonCompilable_same_code|].
  eapply same_code_trans; [by apply BackupTo_backup_code|]. apply SetNonIntrinsic_same_code.
Qed.

(** The flags of a hooked method. *)
Definition hooked_flags (f : Z) : Z :=
  let non_compilable f := clear_bits (set_bits f (kAccCompileDontBother c)) (kAccPreCompiled c) in
  non_compilable (clear_bits (non_compilable (clear_bits f (kAccIntrinsic c)))
                    (kAccFastInterpreterToInterpreterInvoke c)).

Lemma flags_alter fl p h : access_flags (alter (with_access_flags fl) p h p) = fl.
Proof. by rewrite fn_lookup_alter. Qed.

Lemma hook_methods_flags target backup entry h :
  SetNotIntrinsic_ = None → target ≠ backup →
  access_flags (hook_methods c SetNotIntrinsic_ target backup entry h target) =
    hooked_flags (access_flags (h target)).
Proof.
  intros Hnone Htb. unfold hook_methods. cbn zeta. rewrite SetNonConstructor_other by done.
  destruct (SetEntryPoint_fields c target entry
    (SetNonCompilable c target (BackupTo c target backup (SetNonIntrinsic c SetNotIntrinsic_ target h)))
    target) as [-> _].
  unfold SetNonCompilable at 1. cbn [SetAccessFlags methods_store]. rewrite flags_alter.
  unfold GetAccessFlags. cbn [view methods_store].
  assert (access_flags (BackupTo c target backup (SetNonIntrinsic c SetNotIntrinsic_ target h) target) =
    clear_bits (clear_bits (set_bits (clear_bits (access_flags (h target)) (kAccIntrinsic c))
      (kAccCompileDontBother c)) (kAccPreCompiled c)) (kAccFastInterpreterToInterpreterInvoke c)) as ->;
    [|done].
  unfold BackupTo. cbn zeta.
  assert (∀ h', (if negb (IsStatic h' backup) then SetPrivate backup h' else h') target = h' target) as Hp.
  { intros h'. destruct (negb _); [by rewrite SetPrivate_other|done]. }
  rewrite Hp. unfold ClearFastInterpretFlag. cbn [SetAccessFlags methods_store]. rewrite flags_alter.
  unfold GetAccessFlags. cbn [view CopyFrom methods_store]. rewrite fn_lookup_insert_ne by done.
  unfold SetNonCompilable. cbn [SetAccessFlags methods_store]. rewrite flags_alter.
  unfold GetAccessFlags. cbn [view methods_store]. unfold SetNonIntrinsic. rewrite Hnone.
  cbn [SetAccessFlags methods_store]. by rewrite flags_alter.
Qed.

(** C14: unhooking undoes hooking: the target has its code, data and class back
    and nothing but the target and the backup was written in between; of the
    target's flags only the ones hooking changed are different. *)
Theorem unhook_undoes_hook entrypoint target hook backup v :
  target ≠ backup →
  let v1 := (DoHook cur c SetNotIntrinsic_ (Some entrypoint) target hook backup v).2 in
  let '(ok, v2) := DoUnHook target backup v1 in
  ok = true ∧
  same_code (methods v2 target) (methods v target) ∧
  (SetNotIntrinsic_ = None →
     access_flags (methods v2 target) = hooked_flags (access_flags (methods v target))) ∧
  (∀ t, t ≠ target → t ≠ backup → methods v2 t = methods v t).
Proof using intrinsic.
  intros Htb v1. unfold DoUnHook. split; [done|].
  assert (methods v1 = hook_methods c SetNotIntrinsic_ target backup entrypoint (methods v)) as Hm.
  { unfold v1, DoHook. by destruct (WriteTrampoline _ _ _ _ _). }
  cbn [on_methods methods SetAccessFlags CopyFrom methods_store]. split_and!.
  - eapply same_code_trans; [apply flags_same_code|]. rewrite fn_lookup_insert, Hm.
    by apply hook_methods_backup.
  - intros Hnone. rewrite flags_alter. unfold GetAccessFlags. cbn [view methods_store].
    rewrite Hm. by apply hook_methods_flags.
  - intros t Ht Hb. rewrite fn_lookup_alter_ne, fn_lookup_insert_ne, Hm by done.
    by apply hook_methods_other.
Qed.

(** ** The invariant of the API *)

Abbreviation ts := (kTrampolineSize cur).
Definition pointer (p : Z) : Prop := 0 <= p < 2 ^ kPointerBits cur.

(** Stubs are even, in memory and apart; every hooked method enters a stub of
    its own, of one of the two forms, that dispatches to its hook or its backup
    and whose slot is recorded; its class definition is the one it is registered under. *)
Record hook_ok v (t : Z) (rec : HookRecord) : Prop := {
  hook_stub : entry_of v t ∈ stubs v;
  hook_slot : method_entry_slot rec = stub_slot cur (code v) (entry_of v t);
  hook_target : trampoline_target cur (code v) (entry_of v t) = Records.hook rec ∨
                trampoline_target cur (code v) (entry_of v t) = Records.backup rec;
  hook_code : ∃ ep, stub_code cur ep (code v) (entry_of v t);
  hook_pointers : pointer (Records.hook rec) ∧ pointer (Records.backup rec);
}.

Record api_inv v : Prop := {
  inv_registry : registry_ok (registry v);
  inv_stubs : Forall (λ a, 0 < a ∧ Z.even a = true) (stubs v);
  inv_apart i j a b : i ≠ j → stubs v !! i = Some a → stubs v !! j = Some b →
    a + ts <= b ∨ b + ts <= a;
  inv_hooks t rec : hooked_methods_ (registry v) !! t = Some rec → hook_ok v t rec;
  inv_own t t' : hooked v t → hooked v t' → entry_of v t = entry_of v t' → t = t';
  inv_class t c' : in_class (hooked_classes_ (registry v)) c' t → c' = class_def_of GetClassDef v t;
}.

Hypothesis cur_supported : cur ∈ supported.

Lemma stub_apart v a b :
  api_inv v → a ∈ stubs v → b ∈ stubs v → a ≠ b → a + ts <= b ∨ b + ts <= a.
Proof.
  intros [] [i Hi]%list_elem_of_lookup [j Hj]%list_elem_of_lookup Hab.
  eapply inv_apart0; [|done|done]. congruence.
Qed.

(** A hook whose stub's bytes are the same is still in order. *)
Lemma hook_ok_frame v v' t rec :
  hook_ok v t rec → entry_of v' t = entry_of v t → (∀ a, a ∈ stubs v → a ∈ stubs v') →
  (∀ x, entry_of v t <= x < entry_of v t + ts → code v' x = code v x) →
  hook_ok v' t rec.
Proof using cur_supported.
  intros [] He Hs Hc. split; rewrite ?He; auto.
  - unfold stub_slot. by rewrite (is_self_contained_ext cur (code v) (code v')).
  - by rewrite (trampoline_target_ext cur (code v) (code v')).
  - destruct hook_code0 as [ep Hep]. exists ep. by apply (stub_code_ext cur ep (code v)).
Qed.

Lemma slot_offset :
  (art_method_offset cur = 1 ∨ Z.even (art_method_offset cur) = true) ∧ 0 < ts.
Proof using cur_supported.
  pose proof cur_supported as Hcur. unfold supported in Hcur.
  repeat (apply elem_of_cons in Hcur as [->|Hcur]; [by vm_compute; split; auto|]).
  by apply elem_of_nil in Hcur.
Qed.

(** Switching a stub: it dispatches to the method given, its slot is the one of
    its new form, and no other byte changes. *)
Lemma switch_stub_spec m a p :
  Z.even a = true → pointer p → (∃ ep, stub_code cur ep m a) →
  let '(m', slot) := switch_stub cur c m (stub_slot cur m a) p in
  trampoline_target cur m' a = p ∧ slot = stub_slot cur m' a ∧ (∃ ep, stub_code cur ep m' a) ∧
  ∀ x, x < a ∨ a + ts <= x → m' x = m x.
Proof using cur_supported.
  intros Ha Hp [ep Hep]. destruct slot_offset as [Hoff _]. unfold switch_stub, stub_slot.
  assert (∀ o, Z.odd (a + o) = Z.odd o) as Hodd.
  { intros o. rewrite Z.odd_add, <-Z.negb_even, Ha. done. }
  assert (∀ o, Z.even (a + o) = Z.even o) as Heven.
  { intros o. by rewrite <-!Z.negb_odd, Hodd. }
  assert (Z.odd (if is_self_contained cur m a then a + 1 else a + art_method_offset cur) = true →
    (if is_self_contained cur m a then a + 1 else a + art_method_offset cur) = a + 1) as Hone.
  { destruct (is_self_contained cur m a); [done|]. rewrite Hodd, <-Z.negb_even.
    destruct Hoff as [-> | ->]; done. }
  destruct (Z.odd (if is_self_contained cur m a then _ else _)) eqn:Eo.
  - rewrite (Hone eq_refl). replace (a + 1 - 1) with a by lia.
    pose proof (WriteTrampoline_target cur (entry_point_offset c) m a p cur_supported Hp) as Ht.
    pose proof (WriteTrampoline_frame cur (entry_point_offset c) m a p cur_supported Hp) as Hf.
    pose proof (WriteTrampoline_stub_slot cur (entry_point_offset c) m a p Hp) as Hs.
    pose proof (WriteTrampoline_stub_code cur (entry_point_offset c) m a p cur_supported Hp) as Hw.
    destruct (WriteTrampoline _ _ _ _ _) as [m' slot]. simpl in *. unfold stub_slot in Hs.
    split_and!; try done; [|by eexists]. rewrite Hs.
    destruct (is_self_contained cur m' a); rewrite Heven; [done|].
    destruct Hoff as [-> | ->]; done.
  - destruct (is_self_contained cur m a) eqn:Ef; [by rewrite Hodd in Eo|].
    destruct (store_literal cur ep m a p cur_supported Hp Hep Ef) as (Ht%dispatches_target & Hw & Hf).
    split_and!; [done|by rewrite Hf|by eexists|].
    intros x Hx. destruct (stub_size cur cur_supported) as (? & ? & ?).
    apply write_bytes_out. rewrite length_le_bytes. lia.
Qed.

(** The records of the tables but for slot and flag. *)
Lemma same_tables_registry_ok r f target rec rec' :
  registry_ok r → hooked_methods_ r !! target = Some rec →
  Records.backup rec' = Records.backup rec →
  f = <[target := rec']> → registry_ok (with_hooked f r).
Proof.
  intros [] Hrec Hb ->. split; simpl; try done.
  - intros t rc [[<- <-]|[_ H]]%lookup_insert_Some; [rewrite Hb|]; eauto.
  - intros t rc [[<- <-]|[_ H]]%lookup_insert_Some; [rewrite Hb|]; eauto.
  - intros b t Hbt. destruct (ok_hooked _ _ Hbt) as (rc & Hrc & <-).
    destruct (decide (t = target)) as [->|Hne].
    + exists rec'. rewrite lookup_insert_eq. split; [done|]. congruence.
    + exists rc. by rewrite lookup_insert_ne.
  - intros t Ht. apply ok_apart. apply lookup_insert_is_Some in Ht as [<-|[_ Ht]]; [by eexists|done].
  - intros t. rewrite <-ok_class, lookup_insert_is_Some.
    destruct (decide (target = t)) as [<-|]; split; [by eexists|auto|tauto|auto].
Qed.

(** What [SetHookEnabled] does when it switches the stub of a hooked method. *)
Lemma SetHookEnabled_switch v target enable rec :
  api_inv v → hooked_methods_ (registry v) !! target = Some rec → enabled rec ≠ enable →
  let '(r, v') := SetHookEnabled cur c true target enable v in
  r = negb enable ∧ methods v' = methods v ∧
  trampoline_target cur (code v') (entry_of v' target) =
    (if enable then Records.backup rec else Records.hook rec) ∧
  (∀ t, t ≠ target → hooked v t → trampoline_target cur (code v') (entry_of v' t) =
     trampoline_target cur (code v) (entry_of v t)) ∧
  api_inv v'.
Proof using cur_supported.
  intros Hv Hrec Hne. pose proof Hv as [].
  destruct (inv_hooks0 _ _ Hrec) as [Hstub Hslot Htarget Hform [Hph Hpb]].
  rewrite Forall_forall in inv_stubs0. destruct (inv_stubs0 _ Hstub) as [Hpos Heven].
  unfold SetHookEnabled. cbn [negb]. rewrite Hrec.
  assert (Bool.eqb (enabled rec) enable = false) as -> by by apply eqb_false_iff.
  rewrite Hslot.
  pose proof (switch_stub_spec (code v) (entry_of v target)
    (if enable then Records.backup rec else Records.hook rec) Heven
    ltac:(by destruct enable) Hform) as Hsw.
  destruct (switch_stub _ _ _ _ _) as [m slot]. destruct Hsw as (Ht & Hs & Hform' & Hframe).
  assert (∀ t rc, target ≠ t → hooked_methods_ (registry v) !! t = Some rc →
    ∀ x, entry_of v t <= x < entry_of v t + ts → m x = code v x) as Hapart.
  { intros t rc Hnt Hrc x Hx. apply Hframe.
    destruct (stub_apart v (entry_of v target) (entry_of v t) Hv Hstub (hook_stub _ _ _ (inv_hooks0 _ _ Hrc))).
    { intros E. apply Hnt. by apply (inv_own0 target t); [eexists|eexists|]. }
    - lia.
    - lia. }
  split_and!; [done|done|done|intros t ? [rc ?]; by eapply trampoline_target_ext, Hapart|].
  split; simpl.
  - exact (same_tables_registry_ok (registry v) _ target rec
      (mkHookRecord (Records.hook rec) (Records.backup rec) slot (backup_method rec) enable)
      inv_registry0 Hrec eq_refl eq_refl).
  - by apply Forall_forall.
  - done.
  - intros t rc [[<- <-]|[Hnt Hrc]]%lookup_insert_Some.
    + split; simpl; [done|done| |done|done]. unfold entry_of in *. simpl. rewrite Ht. destruct enable; auto.
    + apply (hook_ok_frame v); try done; [by apply inv_hooks0|by eapply Hapart].
  - intros t t' Ht1 Ht2. apply inv_own0; unfold hooked in *; simpl in *;
      [apply lookup_insert_is_Some in Ht1 as [<-|[_ ?]]; [by eexists|done]
      |apply lookup_insert_is_Some in Ht2 as [<-|[_ ?]]; [by eexists|done]].
  - done.
Qed.

(** C19: [SetHookEnabled] reports the state it found; when it changes it, calls
    of the method go to the backup once enabled and to the hook once disabled,
    and calls of every other hooked method go where they went. *)
Theorem SetHookEnabled_spec v target enable rec :
  api_inv v → hooked_methods_ (registry v) !! target = Some rec →
  let '(r, v') := SetHookEnabled cur c true target enable v in
  r = enabled rec ∧ methods v' = methods v ∧
  (enabled rec = enable → v' = v) ∧
  (enabled rec ≠ enable → trampoline_target cur (code v') (entry_of v' target) =
     if enable then Records.backup rec else Records.hook rec) ∧
  (∀ t, t ≠ target → hooked v t → trampoline_target cur (code v') (entry_of v' t) =
     trampoline_target cur (code v) (entry_of v t)).
Proof using cur_supported.
  intros Hv Hrec. destruct (bool_decide (enabled rec = enable)) eqn:E.
  - apply bool_decide_eq_true in E. unfold SetHookEnabled. cbn [negb]. rewrite Hrec, E.
    by rewrite eqb_reflx.
  - apply bool_decide_eq_false in E.
    pose proof (SetHookEnabled_switch v target enable rec Hv Hrec E) as H.
    destruct (SetHookEnabled _ _ _ _ _ _) as [r v']. destruct H as (-> & Hm & Ht & Ho & _).
    split_and!; [by destruct enable, (enabled rec)|done|done|done|done].
Qed.

(** *** The operations keep the invariant *)

Lemma api_inv_SetHookEnabled v ex target enable :
  api_inv v → api_inv (SetHookEnabled cur c ex target enable v).2.
Proof using cur_supported.
  intros Hv. destruct ex; [|done].
  destruct (hooked_methods_ (registry v) !! target) as [rec|] eqn:Hrec.
  - destruct (bool_decide (enabled rec = enable)) eqn:E.
    + apply bool_decide_eq_true in E. unfold SetHookEnabled. cbn [negb]. rewrite Hrec, E.
      by rewrite eqb_reflx.
    + apply bool_decide_eq_false in E.
      pose proof (SetHookEnabled_switch v target enable rec Hv Hrec E) as H.
      destruct (SetHookEnabled _ _ _ _ _ _) as [r v']. by destruct H as (_ & _ & _ & _ & ?).
  - unfold SetHookEnabled. cbn [negb]. by rewrite Hrec.
Qed.

Lemma ForgetHooked_lookup target b cd r t :
  hooked_methods_ (ForgetHooked target b cd r) !! t =
    if decide (t = target) then None else hooked_methods_ r !! t.
Proof.
  unfold ForgetHooked. simpl. case_decide as E; [subst; apply lookup_delete_eq|by rewrite lookup_delete_ne].
Qed.

(** Unhooking a hooked method. *)
Lemma UnHook_hooked v target id rec :
  api_inv v → hooked_methods_ (registry v) !! target = Some rec →
  let '(r, v') := UnHook GetClassDef true target id v in
  r = true ∧ Records.IsHooked (registry v') target = 0 ∧ IsBackup (registry v') (Records.backup rec) = 0 ∧
  same_code (methods v' target) (methods v (Records.backup rec)) ∧
  access_flags (methods v' target) = access_flags (methods v target) ∧
  (∀ t, t ≠ target → methods v' t = methods v t) ∧ code v' = code v ∧
  api_inv v'.
Proof using cur_supported.
  intros Hv Hrec. pose proof Hv as []. unfold UnHook, DoUnHook. cbn [negb]. rewrite Hrec.
  assert (hooked v target) as Hh by (by eexists).
  assert (in_class (hooked_classes_ (registry v)) (class_def_of GetClassDef v target) target) as Hcl.
  { destruct (proj1 (ok_class _ inv_registry0 target) Hh) as [c' Hc']. by rewrite <-(inv_class0 _ _ Hc'). }
  pose proof (ForgetHooked_ok _ inv_registry0 target rec _ Hrec Hcl) as Hok.
  set (v1 := on_registry _ v).
  assert (∀ f g, registry (on_internal f (on_methods g v1)) =
    ForgetHooked target (Records.backup rec) (class_def_of GetClassDef v target) (registry v))
    as Hreg by done.
  assert (∀ t, hooked (on_internal (propagate (backup_method rec) id) (on_methods
    (λ h, SetAccessFlags target (GetAccessFlags (methods v1) target)
      (CopyFrom target (Records.backup rec) h)) v1)) t → t ≠ target ∧ hooked v t) as Hkeep.
  { intros t [rc Hrc]. rewrite Hreg, ForgetHooked_lookup in Hrc.
    case_decide; [done|]. split; [done|by eexists]. }
  assert (∀ t, t ≠ target → methods (on_methods (λ h, SetAccessFlags target
    (GetAccessFlags (methods v1) target) (CopyFrom target (Records.backup rec) h)) v1) t = methods v t) as Hother.
  { intros t Ht. cbn [on_methods methods SetAccessFlags CopyFrom methods_store].
    by rewrite fn_lookup_alter_ne, fn_lookup_insert_ne by done. }
  split_and!; try done.
  - apply IsHooked_null; [exact Hok|]. simpl. apply lookup_delete_eq.
  - apply IsBackup_null; [exact Hok|]. simpl. apply lookup_delete_eq.
  - cbn [on_internal on_methods methods SetAccessFlags CopyFrom methods_store].
    eapply same_code_trans; [apply flags_same_code|]. by rewrite fn_lookup_insert.
  - cbn [on_internal on_methods methods SetAccessFlags CopyFrom methods_store]. by rewrite flags_alter.
  - split.
    + exact Hok.
    + done.
    + done.
    + intros t rc Hrc. rewrite Hreg, ForgetHooked_lookup in Hrc. case_decide; [done|].
      apply (hook_ok_frame v); eauto. unfold entry_of. cbn [on_internal methods]. by rewrite Hother.
    + intros t t' Ht Ht'. destruct (Hkeep t Ht), (Hkeep t' Ht'). unfold entry_of.
      cbn [on_internal methods]. rewrite !Hother by done. by apply inv_own0.
    + intros t c' Hc'. simpl in Hc'. apply in_class_remove in Hc' as [Hc' Hne].
      rewrite (inv_class0 _ _ Hc'). unfold class_def_of, GetDeclaringClass. cbn [on_internal methods view methods_store].
      destruct (decide (t = target)) as [->|Hnt]; [|by rewrite Hother].
      destruct Hne; [|done]. by apply inv_class0.
Qed.

(** *** Installing a hook *)

(** The stub is a new one of the pool. *)
Definition stub_fresh v (a : Z) : Prop :=
  0 < a ∧ Z.even a = true ∧ ∀ b, b ∈ stubs v → a + ts <= b ∨ b + ts <= a.

(** The hook and backup methods are new methods of a generated class. *)
Record generated_methods v target hook backup : Prop := {
  gen_target : target ≠ 0;
  gen_backup : backup ≠ 0 ∧ backup ≠ target;
  gen_new : hooked_methods_ (registry v) !! backup = None ∧ backuped_methods_ (registry v) !! backup = None;
  gen_pointers : pointer hook ∧ pointer backup;
}.

Lemma DoHook_spec v entrypoint target hook backup :
  target ≠ backup → pointer hook →
  let '(slot, v') := DoHook cur c SetNotIntrinsic_ (Some entrypoint) target hook backup v in
  registry v' = registry v ∧ stubs v' = entrypoint :: stubs v ∧
  methods v' = hook_methods c SetNotIntrinsic_ target backup entrypoint (methods v) ∧
  trampoline_target cur (code v') entrypoint = hook ∧ slot = stub_slot cur (code v') entrypoint ∧
  (∃ ep, stub_code cur ep (code v') entrypoint) ∧
  (∀ x, x < entrypoint ∨ entrypoint + ts <= x → code v' x = code v x).
Proof using cur_supported.
  intros Htb Hp. unfold DoHook.
  pose proof (WriteTrampoline_target cur (entry_point_offset c) (code v) entrypoint hook cur_supported Hp) as Ht.
  pose proof (WriteTrampoline_frame cur (entry_point_offset c) (code v) entrypoint hook cur_supported Hp) as Hf.
  pose proof (WriteTrampoline_stub_slot cur (entry_point_offset c) (code v) entrypoint hook Hp) as Hs.
  pose proof (WriteTrampoline_stub_code cur (entry_point_offset c) (code v) entrypoint hook cur_supported Hp) as Hw.
  destruct (WriteTrampoline _ _ _ _ _) as [m slot]. split_and!; try done. by eexists.
Qed.

Lemma with_proxies_ok r b :
  registry_ok r → is_Some (backuped_methods_ r !! b) → registry_ok (with_proxies (λ s, s ∪ {[b]}) r).
Proof. intros [] Hb. split; simpl; try done. set_solver. Qed.

(** [record_hook] as a table update, whatever else it records. *)
Lemma record_hook_registry (q : TargetInfo) hook backup slot bm v :
  let r := RecordHooked (target_method q) hook backup (class_def_of GetClassDef v (target_method q))
             slot bm (registry v) in
  let v' := record_hook GetClassDef q hook backup slot bm v in
  hooked_methods_ (registry v') = hooked_methods_ r ∧
  backuped_methods_ (registry v') = backuped_methods_ r ∧
  hooked_classes_ (registry v') = hooked_classes_ r ∧
  methods v' = methods v ∧ code v' = code v ∧ stubs v' = stubs v ∧
  (registry_ok r → is_Some (backuped_methods_ r !! backup) → registry_ok (registry v')).
Proof.
  unfold record_hook. destruct (negb (IsProxyMethod q)); split_and!; try done.
  - intros Hr _. by apply RecordDeoptimized_ok, RecordJitMovement_ok.
  - intros Hr Hb. by apply RecordDeoptimized_ok, with_proxies_ok.
Qed.

(** The invariant of a state with one more hook, whose stub is a new one. *)
Lemma api_inv_new_hook v v' target hook backup slot bm entrypoint :
  api_inv v → stub_fresh v entrypoint → generated_methods v target hook backup →
  hooked_methods_ (registry v) !! target = None →
  registry_ok (registry v') →
  hooked_methods_ (registry v') = <[target := mkHookRecord hook backup slot bm true]> (hooked_methods_ (registry v)) →
  (∀ c' t, in_class (hooked_classes_ (registry v')) c' t →
     in_class (hooked_classes_ (registry v)) c' t ∨ c' = class_def_of GetClassDef v' t ∧ t = target) →
  stubs v' = entrypoint :: stubs v → entry_of v' target = entrypoint →
  trampoline_target cur (code v') entrypoint = hook → slot = stub_slot cur (code v') entrypoint →
  (∃ ep, stub_code cur ep (code v') entrypoint) →
  (∀ x, x < entrypoint ∨ entrypoint + ts <= x → code v' x = code v x) →
  (∀ m, m ≠ target → m ≠ backup → methods v' m = methods v m) → api_inv v'.
Proof using cur_supported.
  intros Hv (Hpos & Heven & Hfar) [Ht0 [Hb0 Hbt] [Hbh Hbb] Hp] Hth Hok Rh Rc Rs He Htarget Hslot Hform Hcode Hother.
  pose proof Hv as []. destruct slot_offset as [_ Hts].
  assert (∀ m, hooked v m → m ≠ target ∧ m ≠ backup) as Hold.
  { intros m [rc Hrc]. split; intros ->; congruence. }
  assert (∀ m, hooked v' m → m = target ∨ hooked v m ∧ entry_of v' m = entry_of v m) as Hkeep.
  { intros m [rc Hrc]. rewrite Rh in Hrc. apply lookup_insert_Some in Hrc as [[-> _]|[Hne Hrc]]; [by left|right].
    assert (hooked v m) as Hm by by eexists. destruct (Hold m Hm). split; [done|].
    unfold entry_of. by rewrite Hother. }
  assert (∀ m, hooked v m → entry_of v m ≠ entrypoint) as Hnew.
  { intros m [rc Hrc] E. destruct (Hfar _ (hook_stub _ _ _ (inv_hooks0 _ _ Hrc))); lia. }
  split.
  - done.
  - rewrite Rs. by constructor.
  - rewrite Rs. intros [|i] [|j] a b Hij Hi Hj; simplify_eq/=.
    + apply Hfar. by eapply list_elem_of_lookup_2.
    + destruct (Hfar a); [by eapply list_elem_of_lookup_2|lia|lia].
    + eapply inv_apart0; [|done|done]. congruence.
  - intros m rc. rewrite Rh. intros [[<- <-]|[Hm Hrc]]%lookup_insert_Some.
    + split; simpl; rewrite ?He, ?Rs; [by left|done|by left|done|done].
    + pose proof (inv_hooks0 _ _ Hrc) as Hrok. destruct (Hold m) as [Hm1 Hm2]; [by eexists|].
      apply (hook_ok_frame v); [done|unfold entry_of; by rewrite Hother|intros a Ha; rewrite Rs; by right|].
      intros x Hx. apply Hcode. destruct (Hfar _ (hook_stub _ _ _ Hrok)); lia.
  - intros m m' Hm Hm' E.
    destruct (Hkeep m Hm) as [->|[Hm1 E1]], (Hkeep m' Hm') as [->|[Hm2 E2]]; [done| | |].
    + exfalso. apply (Hnew m'); congruence.
    + exfalso. apply (Hnew m); congruence.
    + apply inv_own0; congruence.
  - intros m c' [Hc'|[-> ->]]%Rc; [|done]. rewrite (inv_class0 _ _ Hc').
    destruct (Hold m) as [? ?]; [apply (ok_class _ inv_registry0); eauto|].
    unfold class_def_of, GetDeclaringClass. cbn [view methods_store]. by rewrite Hother.
Qed.

(** The state after a hook was installed and recorded. *)
Lemma install_hook v entrypoint (q : TargetInfo) hook backup bm :
  api_inv v → stub_fresh v entrypoint → generated_methods v (target_method q) hook backup →
  hooked_methods_ (registry v) !! target_method q = None →
  backuped_methods_ (registry v) !! target_method q = None →
  let '(slot, v1) := DoHook cur c SetNotIntrinsic_ (Some entrypoint) (target_method q) hook backup v in
  let v' := record_hook GetClassDef q hook backup slot bm v1 in
  slot ≠ 0 ∧
  hooked_methods_ (registry v') !! target_method q = Some (mkHookRecord hook backup slot bm true) ∧
  backuped_methods_ (registry v') !! backup = Some (target_method q) ∧
  entry_of v' (target_method q) = entrypoint ∧
  trampoline_target cur (code v') entrypoint = hook ∧
  same_code (methods v' backup) (methods v (target_method q)) ∧
  (∀ m, m ≠ target_method q → m ≠ backup → methods v' m = methods v m) ∧
  api_inv v'.
Proof using intrinsic cur_supported.
  intros Hv Hfresh Hgen Hth Htb. pose proof Hv as []. pose proof Hgen as [Ht0 [Hb0 Hbt] [Hbh Hbb] [Hph Hpb]].
  pose proof (DoHook_spec v entrypoint (target_method q) hook backup ltac:(congruence) Hph) as Hd.
  destruct (DoHook _ _ _ _ _ _ _ _) as [slot v1].
  destruct Hd as (Hreg & Hstubs & Hmeth & Htarget & Hslot & Hform & Hcode).
  destruct (record_hook_registry q hook backup slot bm v1) as (Rh & Rb & Rc & Rm & Rcode & Rs & Rok).
  revert Rh Rb Rc Rm Rcode Rs Rok. generalize (record_hook GetClassDef q hook backup slot bm v1) as v'.
  intros v' Rh Rb Rc Rm Rcode Rs Rok. cbv zeta.
  destruct (hook_methods_target (target_method q) backup entrypoint (methods v) ltac:(congruence)) as (Ee & _ & Ed).
  assert (class_def_of GetClassDef v1 (target_method q) = class_def_of GetClassDef v' (target_method q)) as Hcd.
  { unfold class_def_of. by rewrite Rm. }
  rewrite Hreg in Rh, Rb, Rc, Rok. rewrite Hcd in Rc. unfold RecordHooked in Rh, Rb, Rc. simpl in Rh, Rb, Rc.
  rewrite emplace_absent in Rh by done. rewrite emplace_absent in Rb by done.
  assert (entry_of v' (target_method q) = entrypoint) as He by (unfold entry_of; by rewrite Rm, Hmeth).
  assert (∀ m, m ≠ target_method q → m ≠ backup → methods v' m = methods v m) as Hother.
  { intros m Hm1 Hm2. rewrite Rm, Hmeth. by apply hook_methods_other. }
  assert (registry_ok (registry v')) as Hok.
  { apply Rok; [apply RecordHooked_ok; try done; congruence|].
    unfold RecordHooked. simpl. rewrite emplace_absent by done. rewrite lookup_insert_eq. by eexists. }
  split_and!; [|rewrite Rh; apply lookup_insert_eq|rewrite Rb; apply lookup_insert_eq|done|by rewrite Rcode
    |rewrite Rm, Hmeth; by apply hook_methods_backup|done|].
  - rewrite Hslot. unfold stub_slot. destruct (stub_size cur cur_supported) as (_ & ? & _).
    destruct Hfresh. case_match; lia.
  - eapply (api_inv_new_hook v v' (target_method q) hook backup slot bm entrypoint); try done;
      rewrite ?Rs, ?Rcode; try done.
    intros c' t Hc'. rewrite Rc in Hc'. by apply in_class_add in Hc' as [Hc'|[-> ->]]; [left|right].
Qed.

(** ** [HookMethod] *)

Section hook_method.
Context (sdk_int : Z) (GetShorty : Z → string) (source_name_empty : bool)
        (BuildDex : DexRequest → Z * Z * Z * Z) (backup_of : Z → Z) (has_native_field : bool).
Abbreviation HookMethod := (HookMethod cur c SetNotIntrinsic_ GetClassDef sdk_int GetShorty
  source_name_empty BuildDex backup_of has_native_field).

(** The checks before anything is built, and what is then asked of [BuildDex]. *)
Definition accepted v (q : TargetInfo) (cb : Callback) (pack : bool) : Prop :=
  target_executable q = true ∧ check_callback cb = Some pack ∧
  IsAbstract (methods v) (target_method q) = false ∧
  Records.IsHooked (registry v) (target_method q) = 0 ∧
  IsBackup (registry v) (target_method q) = 0 ∧
  match cb with JavaCallback _ _ _ _ inst _ => inst = true | NativeCallback _ => True end.

Lemma HookMethod_accepted v q cb pack obj generated :
  accepted v q cb pack →
  HookMethod q obj cb generated v =
    let r := dex_request c GetShorty v q cb pack in
    let '(cls, field, hook, bm) := BuildDex r in
    let effects := class_effects source_name_empty r cb cls in
    if (cls =? 0) || (field =? 0) || (hook =? 0) || (bm =? 0) then (None, effects, v)
    else
      let effects := effects ++ object_effects sdk_int has_native_field r q cb cls field bm obj in
      let '(slot, v1) := DoHook cur c SetNotIntrinsic_ generated (target_method q) hook (backup_of bm) v in
      if slot =? 0 then (None, effects, v1)
      else
        (Some (match cb with
               | NativeCallback _ => HookedNative cls field (backup_of bm)
               | JavaCallback _ _ _ _ _ _ => HookedJava (backup_of bm)
               end),
         effects ++ (if source_name_empty then [HideMethod hook] else []),
         record_hook GetClassDef q hook (backup_of bm) slot bm v1).
Proof.
  intros (H1 & H2 & H3 & H4 & H5 & H6). unfold HookApi.HookMethod.
  rewrite H1, H2, H3, H4, H5. simpl.
  destruct cb as [p|? ? ? ? inst ?]; simpl in *; rewrite ?H6; simpl;
    destruct (BuildDex _) as [[[cls field] hook] bm];
    destruct ((cls =? 0) || (field =? 0) || (hook =? 0) || (bm =? 0)); try done;
    destruct (DoHook _ _ _ _ _ _ _ _) as [slot v1]; by destruct (slot =? 0).
Qed.

Lemma HookMethod_rejected v q cb obj generated :
  (∀ pack, ¬ accepted v q cb pack) → HookMethod q obj cb generated v = (None, [], v).
Proof.
  intros Hno. unfold HookApi.HookMethod.
  destruct (target_executable q) eqn:H1; [|done].
  destruct (check_callback cb) as [pack|] eqn:H2; [|done]. simpl.
  destruct (IsAbstract (methods v) (target_method q)) eqn:H3; [done|].
  destruct (Z.eqb_spec (Records.IsHooked (registry v) (target_method q)) 0) as [H4|]; [|done].
  destruct (Z.eqb_spec (IsBackup (registry v) (target_method q)) 0) as [H5|]; [|done]. simpl.
  destruct cb as [p|? ? ? ? [] ?]; simpl; try done; by destruct (Hno pack).
Qed.

Lemma accepted_dec v q cb : (∃ pack, accepted v q cb pack) ∨ (∀ pack, ¬ accepted v q cb pack).
Proof.
  destruct (check_callback cb) as [pack|] eqn:E.
  - assert (Decision (accepted v q cb pack)) as [Ha|Ha].
    { unfold accepted. destruct cb; apply _. }
    + left. by exists pack.
    + right. intros pack' Ha'. pose proof Ha' as (_ & E' & _). congruence.
  - right. intros pack (_ & E' & _). congruence.
Qed.

Definition dex_ok v (q : TargetInfo) : Prop :=
  ∀ r cls field hook bm, BuildDex r = (cls, field, hook, bm) →
    cls ≠ 0 → field ≠ 0 → hook ≠ 0 → bm ≠ 0 →
    generated_methods v (target_method q) hook (backup_of bm).

Definition generated_ok v (generated : option Z) : Prop :=
  match generated with Some a => stub_fresh v a | None => True end.

Lemma accepted_free v q cb pack :
  api_inv v → accepted v q cb pack →
  hooked_methods_ (registry v) !! target_method q = None ∧
  backuped_methods_ (registry v) !! target_method q = None.
Proof.
  intros [] (_ & _ & _ & H4 & H5 & _). split; [by apply IsHooked_null|by apply IsBackup_null].
Qed.

Lemma api_inv_HookMethod v q cb obj generated :
  api_inv v → generated_ok v generated → dex_ok v q →
  let '(outcome, _, v') := HookMethod q obj cb generated v in
  api_inv v' ∧ (outcome = None → v' = v).
Proof using intrinsic cur_supported.
  intros Hv Hg Hd. destruct (accepted_dec v q cb) as [[pack Ha]|Hno];
    [|by rewrite HookMethod_rejected].
  rewrite (HookMethod_accepted v q cb pack) by done. cbv zeta.
  destruct (accepted_free v q cb pack Hv Ha) as [Hh Hb].
  destruct (BuildDex _) as [[[cls field] hook] bm] eqn:Edex.
  destruct ((cls =? 0) || (field =? 0) || (hook =? 0) || (bm =? 0)) eqn:Enull; [done|].
  apply orb_false_iff in Enull as [[[?%Z.eqb_neq ?%Z.eqb_neq]%orb_false_iff ?%Z.eqb_neq]%orb_false_iff ?%Z.eqb_neq].
  pose proof (Hd _ _ _ _ _ Edex ltac:(done) ltac:(done) ltac:(done) ltac:(done)) as Hgen.
  destruct generated as [a|]; [|by simpl].
  pose proof (install_hook v a q hook (backup_of bm) bm Hv Hg Hgen Hh Hb) as Hi.
  destruct (DoHook _ _ _ _ _ _ _ _) as [slot v1]. destruct Hi as (Hslot & _ & _ & _ & _ & _ & _ & Hinv).
  rewrite (proj2 (Z.eqb_neq _ _) Hslot). done.
Qed.

(** C6: hooking a method that passes the checks installs the hook: the method
    is registered with its backup both ways, its entry point is a stub that
    dispatches to the generated hook method, the backup has the method's own
    code, and no other method is written. *)
Theorem HookMethod_installs v q cb pack obj entrypoint cls field hook bm :
  api_inv v → accepted v q cb pack →
  BuildDex (dex_request c GetShorty v q cb pack) = (cls, field, hook, bm) →
  cls ≠ 0 → field ≠ 0 → hook ≠ 0 → bm ≠ 0 →
  generated_methods v (target_method q) hook (backup_of bm) → stub_fresh v entrypoint →
  let '(outcome, _, v') := HookMethod q obj cb (Some entrypoint) v in
  let target := target_method q in
  let backup := backup_of bm in
  is_Some outcome ∧
  Records.IsHooked (registry v') target = backup ∧ IsBackup (registry v') backup = target ∧
  trampoline_target cur (code v') (entry_of v' target) = hook ∧
  same_code (methods v' backup) (methods v target) ∧
  (∀ m, m ≠ target → m ≠ backup → methods v' m = methods v m) ∧
  api_inv v'.
Proof using intrinsic cur_supported.
  intros Hv Ha Edex Hc Hf Hh Hbm Hgen Hfresh.
  rewrite (HookMethod_accepted v q cb pack) by done. cbv zeta. rewrite Edex.
  rewrite !(proj2 (Z.eqb_neq _ _)) by done. simpl (_ || _).
  destruct (accepted_free v q cb pack Hv Ha) as [Hnh Hnb].
  pose proof (install_hook v entrypoint q hook (backup_of bm) bm Hv Hfresh Hgen Hnh Hnb) as Hi.
  destruct (DoHook _ _ _ _ _ _ _ _) as [slot v1].
  destruct Hi as (Hslot & Hrec & Hback & He & Ht & Hcode & Hother & Hinv).
  rewrite (proj2 (Z.eqb_neq _ _) Hslot). split_and!; try done.
  - unfold Records.IsHooked. by rewrite Hrec.
  - unfold IsBackup. by rewrite Hback.
  - by rewrite He.
Qed.
End hook_method.

(** ** Sequences of API calls *)

Context (bridge : Z) (interp : option (Z → Methods → Methods)).
Hypothesis interp_frame : interpreter_frame interp.

(** The invariant depends on the entry points and classes of hooked methods only. *)
Lemma methods_frame_inv v v' :
  api_inv v → registry_ok (registry v') →
  hooked_methods_ (registry v') = hooked_methods_ (registry v) →
  hooked_classes_ (registry v') = hooked_classes_ (registry v) →
  code v' = code v → stubs v' = stubs v →
  (∀ t, hooked v t → entry_of v' t = entry_of v t ∧
     declaring_class (methods v' t) = declaring_class (methods v t)) → api_inv v'.
Proof using cur_supported.
  intros Hv Hr Hh Hc Hcode Hs Hm. pose proof Hv as [].
  split; rewrite ?Hs, ?Hh, ?Hc; try done.
  - intros t rec Hrec. destruct (Hm t) as [He _]; [by eexists|].
    apply (hook_ok_frame v); [by apply inv_hooks0|done|by rewrite Hs|by rewrite Hcode].
  - intros t t' Ht Ht'. unfold hooked in *. rewrite Hh in *.
    destruct (Hm t Ht) as [-> _], (Hm t' Ht') as [-> _]. by apply inv_own0.
  - intros t c' Hc'. rewrite (inv_class0 _ _ Hc'). unfold class_def_of, GetDeclaringClass.
    cbn [view methods_store]. destruct (Hm t) as [_ ->]; [|done]. apply (ok_class _ inv_registry0). eauto.
Qed.

Lemma api_inv_Deoptimize v ex m :
  api_inv v → api_inv (Deoptimize c GetClassDef bridge interp ex m v).2.
Proof using cur_supported interp_frame.
  intros Hv. pose proof (inv_registry _ Hv) as Hr. unfold Deoptimize.
  destruct ex; [|done]. cbn [negb].
  destruct (negb (CanSetEntryPointsToInterpreter _ _)); [done|].
  destruct (IsNative _ _); [done|].
  set (v1 := on_registry _ v).
  set (m' := if negb _ then _ else _).
  assert (registry_ok (registry v1)) as Hr1 by by apply RecordDeoptimized_ok.
  assert (¬ hooked v m') as Hm'.
  { unfold m'. destruct (Z.eqb_spec (Records.IsHooked (registry v1) m) 0) as [E|E]; cbn [negb].
    - intros Hh. by apply (hooked_IsHooked v m Hr) in Hh.
    - intros Hh. apply (backup_not_hooked v m Hr); [|done]. by apply (hooked_IsHooked v m Hr). }
  assert (hooked_methods_ (registry v1) = hooked_methods_ (registry v)) as Hreg by done.
  pose proof (SetEntryPointsToInterpreter_registry c bridge interp m' v1) as Hregs.
  apply (methods_frame_inv v); try done; rewrite ?Hregs; try done.
  - unfold SetEntryPointsToInterpreter. by repeat case_match.
  - unfold SetEntryPointsToInterpreter. by repeat case_match.
  - intros t Ht. unfold entry_of.
    by rewrite (SetEntryPointsToInterpreter_other c bridge interp interp_frame) by by intros ->.
Qed.

(** One call of the API; each hook builds its class anew. *)
Inductive api_step (v v' : Vm) : Prop :=
  | step_hook sdk_int GetShorty source_name_empty BuildDex backup_of has_native_field q obj cb
      generated outcome effects :
      generated_ok v generated → dex_ok BuildDex backup_of v q →
      HookMethod cur c SetNotIntrinsic_ GetClassDef sdk_int GetShorty source_name_empty BuildDex
        backup_of has_native_field q obj cb generated v = (outcome, effects, v') →
      api_step v v'
  | step_unhook executable target target_id :
      v' = (UnHook GetClassDef executable target target_id v).2 → api_step v v'
  | step_set_enabled executable target enable :
      v' = (SetHookEnabled cur c executable target enable v).2 → api_step v v'
  | step_deoptimize executable method :
      v' = (Deoptimize c GetClassDef bridge interp executable method v).2 → api_step v v'.

Lemma api_inv_step v v' : api_inv v → api_step v v' → api_inv v'.
Proof using intrinsic cur_supported interp_frame.
  intros Hv [sdk_int GetShorty sne BuildDex backup_of hnf q obj cb generated outcome effects Hg Hd Heq
    | ex target id -> | ex target enable -> | ex m ->].
  - pose proof (api_inv_HookMethod sdk_int GetShorty sne BuildDex backup_of hnf v q cb obj generated
      Hv Hg Hd) as Hi. rewrite Heq in Hi. by destruct Hi.
  - destruct ex; [|done].
    destruct (hooked_methods_ (registry v) !! target) as [rec|] eqn:Hrec.
    + pose proof (UnHook_hooked v target id rec Hv Hrec) as Hu.
      destruct (UnHook _ _ _ _ _). apply Hu.
    + unfold UnHook. cbn [negb]. by rewrite Hrec.
  - by apply api_inv_SetHookEnabled.
  - by apply api_inv_Deoptimize.
Qed.

Definition initial_vm (h : Methods) (m : mem) (ids : list Z) : Vm :=
  mkVm h empty_registry ∅ m [] ids.

Lemma initial_api_inv h m ids : api_inv (initial_vm h m ids).
Proof.
  split; simpl.
  - apply empty_registry_ok.
  - constructor.
  - intros i j a b _ Hi. by rewrite lookup_nil in Hi.
  - intros t rec Hrec. by rewrite lookup_empty in Hrec.
  - intros t t' [rec Hrec]. simpl in Hrec. by rewrite lookup_empty in Hrec.
  - intros t c' (s & Hs & _). by rewrite lookup_empty in Hs.
Qed.

(** C5: after any sequence of calls of [Hook], [UnHook], [SetHookEnabled] and
    [Deoptimize], successful or refused, the hook tables are inverse to each
    other, and every hooked method enters a stub of its own, with a recorded
    slot that belongs to it, which dispatches to the hook or to the backup of
    that method. *)
Theorem api_reachable_hooks h m ids v :
  rtc api_step (initial_vm h m ids) v →
  registry_ok (registry v) ∧
  (∀ t rec, hooked_methods_ (registry v) !! t = Some rec →
     entry_of v t ∈ stubs v ∧ method_entry_slot rec = stub_slot cur (code v) (entry_of v t) ∧
     trampoline_target cur (code v) (entry_of v t) ∈ [Records.hook rec; Records.backup rec]) ∧
  (∀ t t', hooked v t → hooked v t' → entry_of v t = entry_of v t' → t = t').
Proof using intrinsic cur_supported interp_frame.
  intros Hreach.
  pose proof (rtc_invariant _ api_inv _ _ api_inv_step (initial_api_inv h m ids) Hreach) as [].
  split_and!; [done| |done].
  intros t rec Hrec. destruct (inv_hooks0 t rec Hrec) as [? ? Ht ?].
  split_and!; [done|done|]. destruct Ht as [-> | ->]; [by left|by right; left].
Qed.

(** C18: [UnHook] of a hooked method succeeds: neither the method nor its backup
    is in the tables any more, the method has the backup's code and keeps its
    flags, no other method changes, and no stub is written. *)
Theorem UnHook_spec v target id rec :
  api_inv v → hooked_methods_ (registry v) !! target = Some rec →
  let '(r, v') := UnHook GetClassDef true target id v in
  r = true ∧ Records.IsHooked (registry v') target = 0 ∧
  IsBackup (registry v') (Records.backup rec) = 0 ∧
  same_code (methods v' target) (methods v (Records.backup rec)) ∧
  access_flags (methods v' target) = access_flags (methods v target) ∧
  (∀ t, t ≠ target → methods v' t = methods v t) ∧ code v' = code v.
Proof using cur_supported.
  intros Hv Hrec. pose proof (UnHook_hooked v target id rec Hv Hrec) as H.
  destruct (UnHook _ _ _ _ _). tauto.
Qed.

(** The Java-visible effects of a hook that is refused. *)
Definition refusal_effects (sdk_int : Z) (GetShorty : Z → string) (source_name_empty : bool) (BuildDex : DexRequest → Z * Z * Z * Z)
    (has_native_field : bool) (q : TargetInfo) (obj : Z) (cb : Callback) (generated : option Z) v (effects : list Effect) : Prop :=
  (* refused before a class is asked for *)
  ((∀ pack, ¬ accepted v q cb pack) → effects = []) ∧
  ∀ pack cls field hook bm, accepted v q cb pack →
    let r := dex_request c GetShorty v q cb pack in
    BuildDex r = (cls, field, hook, bm) →
    let native_registered :=
      match cb with
      | NativeCallback callback =>
          if (cls =? 0) || dex_is_fast_native r then []
          else RegisterNatives cls (dex_callback_name r) callback ::
               if source_name_empty then [HideNativeMethod cls (dex_callback_name r)] else []
      | JavaCallback _ _ _ _ _ _ => []
      end in
    (* the class is not complete *)
    (cls = 0 ∨ field = 0 ∨ hook = 0 ∨ bm = 0 → effects = native_registered) ∧
    (* the class is complete, but there is no stub *)
    (cls ≠ 0 → field ≠ 0 → hook ≠ 0 → bm ≠ 0 → generated = None ∧
       effects = native_registered ++
         (if dex_is_fast_native r && has_native_field
          then [SetNativeHookerData cls (hooker_data r q cb field)] else []) ++
         [SetAccessible bm] ++
         (if 23 <=? sdk_int then [CopyReflectedFields bm (target_id q)] else []) ++
         [SetHookerField cls field obj]).

End spec.

(** ** A concrete run *)

(** Method 0x100 of the class at 0x10 and its native code, hooked by a Java
    callback; the generated class has the hook method 0x300 and backup 0x200. *)
Definition sample_methods : Methods := λ p,
  if p =? 0x100 then mkMethod kAccPublic 0x7000 0x5000 0 0x10 else mkMethod kAccPublic 0 0x6000 0 0x20.

Definition sample_target : TargetInfo := {|
  target_executable := true; target_method := 0x100; target_id := 0x100; target_name := "f";
  declaring_is_proxy := Some false; declaring_and_proxy_known := true; proxy_assignable := false;
  reflected_shorty := "VL" |}.

Definition sample_callback : Callback := JavaCallback true "LL" "callback" "Hooker" true 0x66.
Definition sample_dex (q : DexRequest) : Z * Z * Z * Z := (0x30, 0x31, 0x300, 0x32).

Definition sample_vm : Vm := initial_vm sample_methods (λ _, 0) [0x100].

Definition sample_run := HookMethod kArm64 arm64_config None id 34 (λ _, "VL"%string) true sample_dex
  (λ _, 0x200) false sample_target 0x40 sample_callback (Some 0x9000) sample_vm.

Definition sample_hooked : Vm := sample_run.2.

Lemma no_intrinsic : intrinsic_frame None.
Proof. done. Qed.

Lemma no_interpreter : interpreter_frame None.
Proof. done. Qed.

Lemma arm64_supported : kArm64 ∈ supported.
Proof. repeat constructor. Qed.

Lemma sample_inv : api_inv kArm64 id sample_vm.
Proof. apply initial_api_inv. Qed.

Lemma sample_generated : generated_methods kArm64 sample_vm 0x100 0x300 0x200.
Proof. by split. Qed.

Lemma sample_fresh : stub_fresh kArm64 sample_vm 0x9000.
Proof. split_and!; [done|done|]. by intros b Hb%elem_of_nil. Qed.

Lemma sample_dex_ok : dex_ok kArm64 sample_dex (λ _, 0x200) sample_vm sample_target.
Proof. intros r ? ? ? ? [= <- <- <- <-] _ _ _ _. apply sample_generated. Qed.

Lemma sample_hooked_inv : api_inv kArm64 id sample_hooked.
Proof.
  pose proof (api_inv_HookMethod kArm64 arm64_config None id no_intrinsic arm64_supported 34 (λ _, "VL"%string)
    true sample_dex (λ _, 0x200) false sample_vm sample_target sample_callback 0x40 (Some 0x9000)
    sample_inv sample_fresh sample_dex_ok) as H.
  unfold sample_hooked, sample_run. by destruct (HookMethod _ _ _ _ _ _ _ _ _ _ _ _ _ _ _) as [[]], H.
Qed.

Definition sample_record : HookRecord := mkHookRecord 0x300 0x200 0x9001 0x32 true.

Lemma sample_recorded : hooked_methods_ (registry sample_hooked) !! 0x100 = Some sample_record.
Proof. by vm_compute. Qed.

Lemma sample_accepted : accepted sample_vm sample_target sample_callback true.
Proof. by vm_compute. Qed.

Example HookMethod_installs_witness :
  is_Some (sample_run.1.1) ∧ trampoline_target kArm64 (code sample_hooked) 0x9000 = 0x300 ∧
  same_code (methods sample_hooked 0x200) (methods sample_vm 0x100).
Proof.
  pose proof (HookMethod_installs kArm64 arm64_config None id no_intrinsic arm64_supported 34
    (λ _, "VL"%string) true sample_dex (λ _, 0x200) false sample_vm sample_target sample_callback true
    0x40 0x9000 0x30 0x31 0x300 0x32 sample_inv sample_accepted eq_refl ltac:(done) ltac:(done)
    ltac:(done) ltac:(done) sample_generated sample_fresh) as H.
  split_and!; [by eexists| |].
  - by vm_compute.
  - unfold sample_hooked, sample_run.
    destruct (HookMethod _ _ _ _ _ _ _ _ _ _ _ _ _ _ _) as [[o e] v'].
    destruct H as (_ & _ & _ & _ & H & _). exact H.
Defined.

Example unhook_undoes_hook_witness :
  let v1 := (DoHook kArm64 arm64_config None (Some 0x9000) 0x100 0x300 0x200 sample_vm).2 in
  same_code (methods (DoUnHook 0x100 0x200 v1).2 0x100) (methods sample_vm 0x100).
Proof.
  intros v1.
  pose proof (unhook_undoes_hook kArm64 arm64_config None no_intrinsic 0x9000 0x100 0x300 0x200 sample_vm
    ltac:(done)) as H.
  exact (proj1 (proj2 H)).
Defined.

Example SetHookEnabled_spec_witness :
  let v' := (SetHookEnabled kArm64 arm64_config true 0x100 false sample_hooked).2 in
  trampoline_target kArm64 (code v') (entry_of v' 0x100) = 0x300.
Proof.
  pose proof (SetHookEnabled_spec kArm64 arm64_config id arm64_supported sample_hooked 0x100 false
    sample_record sample_hooked_inv sample_recorded) as H.
  cbn zeta. destruct (SetHookEnabled _ _ _ _ _ _) as [r v'].
  destruct H as (_ & _ & _ & H & _). by apply H.
Defined.

Example UnHook_spec_witness :
  let v' := (UnHook id true 0x100 0x100 sample_hooked).2 in
  Records.IsHooked (registry v') 0x100 = 0 ∧
  same_code (methods v' 0x100) (methods sample_hooked 0x200).
Proof.
  pose proof (UnHook_spec kArm64 id arm64_supported sample_hooked 0x100 0x100 sample_record
    sample_hooked_inv sample_recorded) as H.
  cbn zeta. destruct (UnHook _ _ _ _ _) as [r v']. destruct H as (_ & H1 & _ & H2 & _). by split.
Defined.

(** A native callback whose class is generated without its hooker field. *)
Definition incomplete_dex (_ : DexRequest) : Z * Z * Z * Z := (0x30, 0, 0x300, 0x44).

Lemma incomplete_dex_ok : dex_ok kArm64 incomplete_dex (λ _, 0x200) sample_vm sample_target.
Proof. intros r cls field hook bm [= <- <- <- <-] _ H. done. Qed.


(** The run of hooking the method and then disabling the hook. *)
Example api_reachable_hooks_witness :
  let v := (SetHookEnabled kArm64 arm64_config true 0x100 false sample_hooked).2 in
  registry_ok (registry v).
Proof.
  intros v.
  apply (api_reachable_hooks kArm64 arm64_config None id no_intrinsic arm64_supported 0 None no_interpreter
    sample_methods (λ _, 0) [0x100] v).
  eapply rtc_l; [|eapply rtc_once].
  - eapply (step_hook _ _ _ _ _ _ sample_vm sample_hooked 34 (λ _, "VL"%string) true sample_dex
      (λ _, 0x200) false sample_target 0x40 sample_callback (Some 0x9000) sample_run.1.1
      sample_run.1.2); [apply sample_fresh|apply sample_dex_ok|].
    change (sample_run = (sample_run.1.1, sample_run.1.2, sample_run.2)). by destruct sample_run as [[]].
  - by eapply step_set_enabled.
Defined.
