(* ===== verification/System.v ===== *)
(** * The library inside a running system

    One transition system for what happens to methods at run time: the calls of
    the API ([HookApi.v]) and the events of the runtime that pass through the
    hooks of [MirrorClass.v], [ClassLinker.v], [Instrumentation.v] and [Jit.v],
    in any order.  The initialization of a class is three steps, with anything
    in between: its status is set (entry points are set aside), the runtime
    rewrites entry points, and what was set aside is restored.  [App] is what
    the system means to an application: the code of each of its methods, and
    which of them are hooked; each step is labelled with the events it is there. *)

From S2P Require Import Prelude Memory Platform ArtMethod Records Trampoline Vm MirrorClass ClassLinker.
From S2P Require Import ClassInit Instrumentation Jit HookApi HookSpec.

(** ** The application's view *)

(** A hook: its method, whether calls run it or the method's own code, and the
    state [SetHookEnabled] reports. *)
Record AppHook := mkAppHook { app_hook : Z; runs_hook : bool; hook_enabled : bool }.

(** The code of a method: its data and entry point.  [interpreted] are the
    methods [Deoptimize] was called for. *)
Record App := mkApp {
  codes : Z → Z * Z;
  app_hooks : gmap Z AppHook;
  interpreted : gset Z;
}.

Inductive Event : Type :=
  | EvHook (target hook : Z)
  | EvUnHook (target : Z)
  | EvSetEnabled (target : Z) (enable : bool)
  | EvDeoptimize (method entry : Z)
  | EvEntries (entries : Z → option Z)      (* compiled code or class initialization *)
  | EvInterpret (entries : Z → option Z)    (* entry points of interpreted methods *)
  | EvNatives (natives : Z → option (Z * Z)). (* native registration *)

(** An entry point given to the methods that satisfy [p]. *)
Definition give_entries (p : Z → bool) (entries : Z → option Z) (codes : Z → Z * Z) : Z → Z * Z := λ t,
  if p t then match entries t with Some e => ((codes t).1, e) | None => codes t end else codes t.

(** What an event does in a runtime without hooks on it, next to a table of
    hooks.  Enabling a hook makes calls run the method's own code. *)
Definition app_step (ev : Event) (a : App) : App :=
  match ev with
  | EvHook target hook => mkApp (codes a) (<[target := mkAppHook hook true true]> (app_hooks a)) (interpreted a)
  | EvUnHook target => mkApp (codes a) (delete target (app_hooks a)) (interpreted a)
  | EvSetEnabled target enable =>
      match app_hooks a !! target with
      | Some h =>
          if Bool.eqb (hook_enabled h) enable then a
          else mkApp (codes a) (<[target := mkAppHook (app_hook h) (negb enable) enable]> (app_hooks a))
                 (interpreted a)
      | None => a
      end
  | EvDeoptimize method entry =>
      mkApp (λ t, if t =? method then ((codes a t).1, entry) else codes a t) (app_hooks a)
        (interpreted a ∪ {[method]})
  | EvEntries entries =>
      mkApp (give_entries (λ t, negb (bool_decide (t ∈ interpreted a))) entries (codes a)) (app_hooks a)
        (interpreted a)
  | EvInterpret entries =>
      mkApp (give_entries (λ t, bool_decide (t ∈ interpreted a)) entries (codes a)) (app_hooks a)
        (interpreted a)
  | EvNatives natives => mkApp (λ t, default (codes a t) (natives t)) (app_hooks a) (interpreted a)
  end.

Definition app_run (evs : list Event) (a : App) : App := foldl (λ a ev, app_step ev a) a evs.

(** ** The system *)

(** [initializing]: the classes between the change of their status and the
    restoration, with the thread that initializes them. *)
Record System := mkSystem { vm : Vm; initializing : gmap Z Z }.

Section system.
Context (cur : Arch) (c : Config).
Context (SetNotIntrinsic_ : option (Z → Methods → Methods)) (GetClassDef : Z → Z).
Context (bridge : Z) (interp : option (Z → Methods → Methods)).
Context (init_status : Z) (MoveObsoleteMethod_ : option (Z → Z → Methods → Methods)).
(** The application's methods, as opposed to generated ones, and the addresses
    of the runtime's code, as opposed to stubs. *)
Context (app : Z → Prop) (runtime_code : Z → Prop).
Implicit Types (v : Vm) (s : System) (h : Methods) (t m e self : Z).

Abbreviation class_of := (class_def_of GetClassDef).

(** The entry point set aside for a method whose class is being initialized. *)
Definition aside_of s t : option Z :=
  let class_def := class_of (vm s) t in
  self ← initializing s !! class_def;
  by_class ← backup_methods_ (vm s) !! self;
  ms ← by_class !! class_def;
  ms !! t.

(** The entry point a method has once its class is initialized. *)
Definition settled_entry s t : Z := default (entry_of (vm s) t) (aside_of s t).

Definition settle s : Vm :=
  on_methods (λ h t, with_entry_point (settled_entry s t) (h t)) (vm s).

(** The method's own code: the backup's for a hooked method. *)
Definition own_code s t : Z * Z :=
  let m := MayGetBackup (registry (vm s)) t in (data (methods (vm s) m), settled_entry s m).

(** The method that runs when [t] is called: what its stub dispatches to, or
    the method itself when its entry point is no stub. *)
Definition callee v t : Z :=
  if bool_decide (entry_of v t ∈ stubs v) then trampoline_target cur (code v) (entry_of v t) else t.

(** No initialization of its class is going on. *)
Definition quiet s t : Prop := initializing s !! class_of (vm s) t = None.

(** ** What is assumed of the runtime *)

(** [SetEntryPointsToInterpreter] gives a method an entry point of the runtime. *)
Record interpreter_ok : Prop := {
  interp_bridge : bridge ≠ 0 → runtime_code bridge;
  interp_other : interpreter_frame interp;
  interp_same f m h : interp = Some f → data (f m h m) = data (h m) ∧
    access_flags (f m h m) = access_flags (h m) ∧ declaring_class (f m h m) = declaring_class (h m);
  interp_entry f m h : interp = Some f → runtime_code (entry_point (f m h m));
}.

(** The flags and classes of methods are the same; data and entry points may
    differ. *)
Definition same_methods h h' : Prop :=
  ∀ t, access_flags (h' t) = access_flags (h t) ∧ declaring_class (h' t) = declaring_class (h t).

(** [MoveObsoleteMethod] moves what the JIT keeps for the target. *)
Definition movement_ok : Prop :=
  ∀ f target backup h, MoveObsoleteMethod_ = Some f →
    same_methods h (f target backup h) ∧
    ∀ t, entry_point (f target backup h t) = entry_point (h t) ∧
         (t ≠ target → data (f target backup h t) = data (h t)).

(** The runtime writes entry points and data of methods, nothing of the library. *)
Record same_shape v v' : Prop := {
  shape_registry : registry v' = registry v;
  shape_backups : backup_methods_ v' = backup_methods_ v;
  shape_code : code v' = code v;
  shape_stubs : stubs v' = stubs v;
  shape_methods : same_methods (methods v) (methods v');
}.

(** The runtime gives code to one method. *)
Record writes_code (natives : bool) (m : Z) v v' : Prop := {
  writes_shape : same_shape v v';
  writes_other t : t ≠ m → native_code (methods v') t = native_code (methods v) t;
  writes_data : natives = false → data (methods v' m) = data (methods v m);
  writes_entry : runtime_code (entry_of v' m);
}.

(** The runtime's part of the initialization of classes: entry points of static
    methods of the classes being initialized. *)
Record rewrites s (h' : Methods) : Prop := {
  rewrites_shape : same_methods (methods (vm s)) h';
  rewrites_data t : data (h' t) = data (methods (vm s) t);
  rewrites_members t : app t → quiet s t ∨ IsStatic (methods (vm s)) t = false →
    entry_point (h' t) = entry_of (vm s) t;
  rewrites_backups t : hooked (vm s) t →
    entry_point (h' (Records.IsHooked (registry (vm s)) t)) = entry_of (vm s) (Records.IsHooked (registry (vm s)) t);
  rewrites_code t : app t → entry_point (h' t) = entry_of (vm s) t ∨ runtime_code (entry_point (h' t));
}.

(** The runtime registers or unregisters native functions of the methods [reg]
    that a call names; it gives them code of its own, and none of them is an
    unhooked method whose entry point is set aside. *)
Record registers s (reg : Z → Prop) v' : Prop := {
  registers_shape : same_shape (vm s) v';
  registers_registered : registered (vm s) reg v';
  registers_aside t : reg t → hooked (vm s) t ∨ aside_of s t = None;
  registers_code t : app t → native_code (methods v') t = native_code (methods (vm s)) t ∨
    runtime_code (entry_of v' t);
}.

(** ** The labels *)

Definition hook_events (outcome : option HookOutcome) (target : Z) v' : list Event :=
  match outcome, hooked_methods_ (registry v') !! target with
  | Some _, Some rec => [EvHook target (Records.hook rec)]
  | _, _ => []
  end.

Definition one_entry m e : Z → option Z := λ t, if t =? m then Some e else None.

(** The code update of a method is visible when its entry point changes. *)
Definition update_events v m e : list Event :=
  if entry_of v m =? e then [] else [EvEntries (one_entry m e)].

(** An initializer of code gives code to the method or to its backup. *)
Definition initialize_events v v' m (at_method : Z) : list Event :=
  if at_method =? MayGetBackup (registry v) m then [EvEntries (one_entry m (entry_of v' at_method))] else [].

(** Code written by the runtime while a class is initialized is seen at once
    where nothing was set aside, and when it is restored elsewhere. *)
Definition rewrite_events s (h' : Methods) : list Event :=
  [EvEntries (λ t, if bool_decide (aside_of s t = None) && (Records.IsHooked (registry (vm s)) t =? 0)
                   then Some (entry_point (h' t)) else None)].

Definition restore_events s (popped : gmap Z Z) v' : list Event :=
  [EvEntries (λ t, old ← popped !! t;
      if negb (Records.IsHooked (registry (vm s)) t =? 0) && negb (entry_of (vm s) t =? old)
      then Some (entry_of (vm s) t) else None);
   EvInterpret (λ t, _ ← popped !! t;
      if Records.IsHooked (registry (vm s)) t =? 0 then Some (entry_of v' t) else None)].

(** The method whose code a method holds: the target of a backup. *)
Definition code_owner v m : Z :=
  if IsBackup (registry v) m =? 0 then m else IsBackup (registry v) m.

Definition native_events v h' : list Event :=
  [EvNatives (λ t, if bool_decide (native_code h' t = native_code (methods v) t) then None
                   else Some (native_code h' t))].

(** The classes whose methods were restored. *)
Definition restored (class_def self : Z) (i : gmap Z Z) : gmap Z Z :=
  if class_def =? 0 then filter (λ p, p.2 ≠ self) i else delete class_def i.

(** ** The steps *)

Inductive sys_step : System → list Event → System → Prop :=
  | sys_hook v v' i sdk_int GetShorty source_name_empty BuildDex backup_of has_native_field q obj cb
      generated outcome effects :
      generated_ok cur v generated → dex_ok cur BuildDex backup_of v q →
      (∀ a, generated = Some a → ¬ runtime_code a) → (∀ bm, bm ≠ 0 → ¬ app (backup_of bm)) →
      app (target_method q) → quiet (mkSystem v i) (target_method q) →
      HookMethod cur c SetNotIntrinsic_ GetClassDef sdk_int GetShorty source_name_empty BuildDex
        backup_of has_native_field q obj cb generated v = (outcome, effects, v') →
      sys_step (mkSystem v i) (hook_events outcome (target_method q) v') (mkSystem v' i)
  | sys_unhook v v' i executable target target_id ok :
      quiet (mkSystem v i) target →
      UnHook GetClassDef executable target target_id v = (ok, v') →
      sys_step (mkSystem v i) (if ok then [EvUnHook target] else []) (mkSystem v' i)
  | sys_set_enabled v v' i executable target enable ok :
      SetHookEnabled cur c executable target enable v = (ok, v') →
      sys_step (mkSystem v i) (if executable then [EvSetEnabled target enable] else []) (mkSystem v' i)
  | sys_deoptimize v v' i executable m ok :
      app m → quiet (mkSystem v i) m →
      Deoptimize c GetClassDef bridge interp executable m v = (ok, v') →
      sys_step (mkSystem v i)
        (if ok then [EvDeoptimize m (entry_of v' (MayGetBackup (registry v) m))] else [])
        (mkSystem v' i)
  | sys_set_status v i class_def self :
      class_def ≠ 0 → self ≠ 0 → i !! class_def = None →
      (∀ t, in_class (hooked_classes_ (registry v)) class_def t ∨
            in_class (deoptimized_classes_ (registry v)) class_def t → app t) →
      sys_step (mkSystem v i) []
        (mkSystem (SetStatus init_status (λ v, v) class_def init_status self v) (<[class_def := self]> i))
  | sys_rewrite v i h' :
      rewrites (mkSystem v i) h' →
      sys_step (mkSystem v i) (rewrite_events (mkSystem v i) h') (mkSystem (on_methods (λ _, h') v) i)
  | sys_restore v i class_def self :
      let popped := (PopBackup class_def self v).1 in
      let v' := RestoreBackup c bridge interp class_def self v in
      sys_step (mkSystem v i) (restore_events (mkSystem v i) popped v')
        (mkSystem v' (restored class_def self i))
  | sys_update_code v i A (backup : Z → Z → A → Vm → Vm) m e args :
      writes_code false m v (backup m e args v) → entry_of (backup m e args v) m = e →
      sys_step (mkSystem v i) (update_events v m e)
        (mkSystem (UpdateMethodsCode c backup m e args v) i)
  | sys_initialize_code v i (backup : Z → Z → Vm → Vm) m quick_code :
      ¬ quick_code ∈ stubs v →
      (IsDeoptimized (registry v) m = false →
         let m' := MaybeUseBackupMethod v m quick_code in writes_code false m' v (backup m' quick_code v)) →
      let v' := InitializeMethodsCode backup m quick_code v in
      sys_step (mkSystem v i)
        (if IsDeoptimized (registry v) m then []
         else initialize_events v v' m (MaybeUseBackupMethod v m quick_code))
        (mkSystem v' i)
  | sys_register_native v i A R (backup : Z → A → Vm → R * Vm) m args :
      aside_of (mkSystem v i) m = None ∨ hooked v m →
      let v' := (RegisterNative backup m args v).2 in
      writes_code true (MayGetBackup (registry v) m) v v' →
      sys_step (mkSystem v i)
        [EvNatives (λ t, if t =? code_owner v m then Some (native_code (methods v') (MayGetBackup (registry v) m)) else None)]
        (mkSystem v' i)
  | sys_register_natives v w i R (backup : Vm → R * Vm) lookup valid l r :
      backup v = (r, w) → one_kind lookup → native_copies v →
      registers (mkSystem v i) (named lookup valid l) w →
      sys_step (mkSystem v i) (native_events v (methods w))
        (mkSystem (RegisterNativesJNIEnv c lookup backup valid l v).2 i)
  | sys_unregister_natives v w i R (backup : Vm → R * Vm) valid class_methods r :
      backup v = (r, w) → native_copies v → registers (mkSystem v i) (of_class valid class_methods) w →
      sys_step (mkSystem v i) (native_events v (methods w))
        (mkSystem (UnregisterNativesJNIEnv c backup valid class_methods v).2 i)
  | sys_move_obsolete v i :
      (∀ p, p ∈ jit_movements_ (registry v) → hooked v p.1) →
      sys_step (mkSystem v i) [] (mkSystem (MoveObsoleteMethods MoveObsoleteMethod_ v) i).
End system.

(** The hooks that make a method interpreted or initialize its code anew are the
    initializer of code without a code: [sys_initialize_code] covers them. *)
Lemma UpdateMethodsCodeToInterpreterEntryPoint_initializes (backup : Z → Vm → Vm) m v :
  UpdateMethodsCodeToInterpreterEntryPoint backup m v = InitializeMethodsCode (λ m _, backup m) m 0 v.
Proof. done. Qed.

Lemma ReinitializeMethodsCode_initializes (backup : Z → Vm → Vm) m v :
  ReinitializeMethodsCode backup m v = InitializeMethodsCode (λ m _, backup m) m 0 v.
Proof. done. Qed.
