(* ===== verification/SystemInv.v ===== *)
(** * The invariant of the system

    [sys_inv]: what holds between any two steps of [System.v]; [sim]: the
    application's view agrees with the state; lemmas on entry points set aside,
    and on the steps that write nothing but methods. *)

From S2P Require Import Prelude Memory Platform ArtMethod Records Trampoline Vm MirrorClass ClassLinker.
From S2P Require Import ClassInit HookApi HookSpec System.

Section inv.
Context (cur : Arch) (GetClassDef : Z → Z) (app runtime_code : Z → Prop).
Implicit Types (v : Vm) (s : System) (h : Methods) (t m e self : Z) (a : App).

Abbreviation class_of := (class_def_of GetClassDef).
Abbreviation aside_of := (aside_of GetClassDef).
Abbreviation settled_entry := (settled_entry GetClassDef).
Abbreviation settle := (settle GetClassDef).
Abbreviation own_code := (own_code GetClassDef).
Abbreviation quiet := (quiet GetClassDef).

(** With the entry points that are set aside put back, the hooks are in order;
    what is set aside belongs to hooked or deoptimized methods of the
    application whose class is being initialized, and covers the static ones;
    backups are recorded as deoptimized, so the runtime's updates leave them
    alone. *)
Record sys_inv s : Prop := {
  si_api : api_inv cur GetClassDef (settle s);
  si_app t rec : hooked_methods_ (registry (vm s)) !! t = Some rec → app t ∧ ¬ app (Records.backup rec);
  si_backup t rec : hooked_methods_ (registry (vm s)) !! t = Some rec →
    declaring_class (methods (vm s) (Records.backup rec)) = declaring_class (methods (vm s) t) ∧
    IsDeoptimized (registry (vm s)) (Records.backup rec) = true;
  si_tables self by_class cd ms : backup_methods_ (vm s) !! self = Some by_class →
    by_class !! cd = Some ms → initializing s !! cd = Some self;
  si_aside self by_class cd ms t old : backup_methods_ (vm s) !! self = Some by_class →
    by_class !! cd = Some ms → ms !! t = Some old →
    app t ∧ class_of (vm s) t = cd ∧ (hooked (vm s) t ∨ IsDeoptimized (registry (vm s)) t = true);
  si_covered t : hooked (vm s) t ∨ app t ∧ IsDeoptimized (registry (vm s)) t = true →
    IsStatic (methods (vm s)) t = true → quiet s t ∨ is_Some (aside_of s t);
  si_deopt t : app t → IsDeoptimized (registry (vm s)) t = true →
    in_class (deoptimized_classes_ (registry (vm s))) (class_of (vm s) t) t;
  si_deopt_class cd t : in_class (deoptimized_classes_ (registry (vm s))) cd t → app t →
    cd = class_of (vm s) t ∧ IsDeoptimized (registry (vm s)) t = true;
  si_flux t old : aside_of s t = Some old →
    entry_of (vm s) t = old ∨ runtime_code (entry_of (vm s) t);
  si_code t : app t → runtime_code (own_code s t).2;
  si_stubs stub : stub ∈ stubs (vm s) → ¬ runtime_code stub;
  si_threads cd self : initializing s !! cd = Some self → cd ≠ 0 ∧ self ≠ 0;
}.

(** The application's view of a state: the code of its methods, which of them
    are interpreted, and what the stub of each hooked method dispatches to. *)
Record sim a s : Prop := {
  sim_codes t : app t → codes a t = own_code s t;
  sim_interpreted t : app t → t ∈ interpreted a ↔ IsDeoptimized (registry (vm s)) t = true;
  sim_unhooked t : hooked_methods_ (registry (vm s)) !! t = None → app_hooks a !! t = None;
  sim_hooked t rec : hooked_methods_ (registry (vm s)) !! t = Some rec →
    ∃ runs, app_hooks a !! t = Some (mkAppHook (Records.hook rec) runs (enabled rec)) ∧
      trampoline_target cur (code (vm s)) (settled_entry s t) =
        if runs then Records.hook rec else Records.backup rec;
}.

(** ** Entry points set aside *)

Lemma aside_of_Some s t old :
  aside_of s t = Some old ↔ ∃ self by_class ms, initializing s !! class_of (vm s) t = Some self ∧
    backup_methods_ (vm s) !! self = Some by_class ∧ by_class !! class_of (vm s) t = Some ms ∧
    ms !! t = Some old.
Proof.
  unfold System.aside_of. cbv zeta. rewrite bind_Some. split.
  - intros (self & H1 & (bc & H2 & (ms & H3 & H4)%bind_Some)%bind_Some). by exists self, bc, ms.
  - intros (self & bc & ms & H1 & H2 & H3 & H4). exists self. rewrite H2. simpl. by rewrite H3.
Qed.

Lemma aside_found s self by_class cd ms t old :
  sys_inv s → backup_methods_ (vm s) !! self = Some by_class → by_class !! cd = Some ms →
  ms !! t = Some old → aside_of s t = Some old.
Proof.
  intros Hs H1 H2 H3. destruct (si_aside s Hs _ _ _ _ _ _ H1 H2 H3) as (_ & <- & _).
  pose proof (si_tables s Hs _ _ _ _ H1 H2). apply aside_of_Some. by exists self, by_class, ms.
Qed.

Lemma aside_app s t old :
  sys_inv s → aside_of s t = Some old →
  app t ∧ (hooked (vm s) t ∨ IsDeoptimized (registry (vm s)) t = true).
Proof.
  intros Hs (self & bc & ms & H1 & H2 & H3 & H4)%aside_of_Some.
  by destruct (si_aside s Hs _ _ _ _ _ _ H2 H3 H4) as (? & _ & ?).
Qed.

Lemma aside_quiet s t : quiet s t → aside_of s t = None.
Proof. unfold System.quiet, System.aside_of. intros H. cbv zeta. by rewrite H. Qed.

Lemma aside_not_app s t : sys_inv s → ¬ app t → aside_of s t = None.
Proof.
  intros Hs Ht. destruct (aside_of s t) as [old|] eqn:E; [|done].
  by destruct (aside_app s t old Hs E).
Qed.

Lemma settled_not_app s t : sys_inv s → ¬ app t → settled_entry s t = entry_of (vm s) t.
Proof. intros Hs Ht. unfold System.settled_entry. by rewrite aside_not_app. Qed.

Lemma settled_quiet s t : quiet s t → settled_entry s t = entry_of (vm s) t.
Proof. intros H. unfold System.settled_entry. by rewrite aside_quiet. Qed.

(** ** Hooked methods *)

Lemma MayGetBackup_hooked r t rec : registry_ok r → hooked_methods_ r !! t = Some rec →
  MayGetBackup r t = Records.backup rec.
Proof.
  intros Hr Hrec. unfold MayGetBackup, Records.IsHooked. rewrite Hrec.
  by rewrite (proj2 (Z.eqb_neq _ _)) by by destruct (ok_nonnull _ Hr _ _ Hrec).
Qed.

Lemma MayGetBackup_unhooked r t : hooked_methods_ r !! t = None → MayGetBackup r t = t.
Proof. intros Hrec. unfold MayGetBackup, Records.IsHooked. by rewrite Hrec. Qed.

Lemma IsHooked_record r t rec : hooked_methods_ r !! t = Some rec →
  Records.IsHooked r t = Records.backup rec.
Proof. intros Hrec. unfold Records.IsHooked. by rewrite Hrec. Qed.

Lemma si_registry s : sys_inv s → registry_ok (registry (vm s)).
Proof. intros Hs. apply (inv_registry _ _ _ (si_api s Hs)). Qed.

Lemma own_code_hooked s t rec :
  sys_inv s → hooked_methods_ (registry (vm s)) !! t = Some rec →
  own_code s t = native_code (methods (vm s)) (Records.backup rec).
Proof.
  intros Hs Hrec. unfold System.own_code. cbv zeta.
  rewrite (MayGetBackup_hooked _ _ rec (si_registry s Hs) Hrec).
  by rewrite settled_not_app by (done || by apply (si_app s Hs) in Hrec as [_ ?]).
Qed.

Lemma own_code_unhooked s t :
  hooked_methods_ (registry (vm s)) !! t = None →
  own_code s t = (data (methods (vm s) t), settled_entry s t).
Proof. intros Hrec. unfold System.own_code. by rewrite MayGetBackup_unhooked. Qed.

(** A backup is nobody else's, and no method of the application. *)
Lemma app_not_backup s t : sys_inv s → app t → backuped_methods_ (registry (vm s)) !! t = None.
Proof.
  intros Hs Ht. destruct (backuped_methods_ _ !! t) as [t'|] eqn:E; [|done].
  destruct (ok_hooked _ (si_registry s Hs) _ _ E) as (rec & Hrec & <-).
  by destruct (si_app s Hs _ _ Hrec).
Qed.

Lemma backup_inj s t t' rec rec' :
  sys_inv s → hooked_methods_ (registry (vm s)) !! t = Some rec →
  hooked_methods_ (registry (vm s)) !! t' = Some rec' →
  Records.backup rec = Records.backup rec' → t = t'.
Proof.
  intros Hs H1 H2 E. pose proof (ok_backup _ (si_registry s Hs) _ _ H1) as B1.
  pose proof (ok_backup _ (si_registry s Hs) _ _ H2) as B2. congruence.
Qed.

(** Once settled, a hooked method enters a stub. *)
Lemma settled_in_stubs s t : sys_inv s → hooked (vm s) t → settled_entry s t ∈ stubs (vm s).
Proof.
  intros Hs [rec Hrec]. exact (hook_stub _ _ _ _ (inv_hooks _ _ _ (si_api s Hs) t rec Hrec)).
Qed.

(** ** Steps that write methods only *)

Hypothesis cur_supported : cur ∈ supported.

Lemma class_of_same v v' t :
  declaring_class (methods v' t) = declaring_class (methods v t) → class_of v' t = class_of v t.
Proof. intros E. unfold class_def_of, GetDeclaringClass. cbn [view methods_store]. by rewrite E. Qed.

Lemma shape_class v v' t : same_shape v v' → class_of v' t = class_of v t.
Proof. intros []. by apply class_of_same, shape_methods. Qed.

Lemma shape_aside v v' i t : same_shape v v' → aside_of (mkSystem v' i) t = aside_of (mkSystem v i) t.
Proof.
  intros Hv. unfold System.aside_of. cbn [vm initializing]. cbv zeta.
  by rewrite (shape_class v v' t Hv), (shape_backups _ _ Hv).
Qed.

Lemma static_same h h' t : same_methods h h' → IsStatic h' t = IsStatic h t.
Proof. intros Hm. unfold IsStatic, GetAccessFlags. cbn [view methods_store]. by destruct (Hm t) as [-> _]. Qed.

(** A step that keeps the settled entry points of hooked methods, and writes
    code of the runtime as the labels say, is a step of the application. *)
Definition step_ok a (evs : list Event) s' : Prop := sys_inv s' ∧ sim (app_run evs a) s'.

Lemma shape_inv s v' :
  let s' := mkSystem v' (initializing s) in
  sys_inv s → same_shape (vm s) v' →
  (∀ t, hooked (vm s) t → settled_entry s' t = settled_entry s t) →
  (∀ t old, aside_of s t = Some old → entry_of v' t = old ∨ runtime_code (entry_of v' t)) →
  (∀ t, app t → runtime_code (own_code s' t).2) → sys_inv s'.
Proof using cur_supported.
  intros s' Hs Hv Hsettled Hflux Hcode. pose proof Hv as [Hr Hb Hc Hst Hm]. destruct s as [v i].
  cbn [vm initializing] in *. pose proof (shape_class v v') as Hcl. pose proof (shape_aside v v' i) as Has.
  pose proof (λ t, static_same (methods v) (methods v') t Hm) as Hstatic. unfold s' in *.
  destruct Hs as [H1 H2 H3 H0 H4 H5 H6 H7 H8 H9 H10 H11]. cbn [vm initializing] in *.
  split; cbn [vm initializing]; rewrite ?Hr, ?Hb, ?Hst; try done.
  - apply (methods_frame_inv cur GetClassDef cur_supported (settle (mkSystem v i)));
      cbn [vm]; rewrite ?Hr, ?Hc, ?Hst; try done; [by cbn; rewrite Hr; apply inv_registry in H1|by cbn; rewrite Hr..|].
    intros t Ht. split; [by apply Hsettled|]. cbn. apply Hm.
  - intros t rec Hrec. destruct (Hm t) as [_ ->], (Hm (Records.backup rec)) as [_ ->]. by apply H3.
  - intros self bc cd ms t old E1 E2 E3. rewrite Hcl by done. unfold hooked. rewrite Hr. by eapply H4.
  - intros t. unfold hooked, System.quiet. cbn [vm initializing]. rewrite Hr, Hstatic, Hcl, Has by done. apply H5.
  - intros t. rewrite Hcl by done. apply H6.
  - intros cd t. rewrite Hcl by done. apply H7.
  - intros t old. rewrite Has by done. apply Hflux.
Qed.

Lemma shape_sim a s v' evs :
  let s' := mkSystem v' (initializing s) in
  sim a s → same_shape (vm s) v' →
  (∀ t, hooked (vm s) t → settled_entry s' t = settled_entry s t) →
  app_hooks (app_run evs a) = app_hooks a → interpreted (app_run evs a) = interpreted a →
  (∀ t, app t → codes (app_run evs a) t = own_code s' t) → sim (app_run evs a) s'.
Proof.
  intros s' [S1 S2 S3 S4] [Hr _ Hc _ _] Hsettled Ha Hi Hcodes. split; [done|..];
    unfold s'; cbn [vm]; rewrite ?Hr, ?Ha, ?Hi; [done|done|].
  intros t rec Hrec. rewrite Hc, Hsettled by by eexists. by apply S4.
Qed.

(** The code of a method after such a step. *)
Lemma shape_own_code s v' t :
  sys_inv s → same_shape (vm s) v' →
  own_code (mkSystem v' (initializing s)) t =
    match hooked_methods_ (registry (vm s)) !! t with
    | Some rec => native_code (methods v') (Records.backup rec)
    | None => (data (methods v' t), default (entry_of v' t) (aside_of s t))
    end.
Proof.
  intros Hs Hv. pose proof (si_registry _ Hs) as Hr. unfold System.own_code, System.settled_entry.
  cbn [vm]. cbv zeta. rewrite (shape_registry _ _ Hv). destruct s as [v i]. rewrite (shape_aside v v' i) by done. cbn [vm] in *.
  destruct (hooked_methods_ (registry v) !! t) as [rec|] eqn:Hrec.
  - rewrite (MayGetBackup_hooked _ _ rec Hr Hrec).
    rewrite (aside_not_app _ _ Hs); [done|]. by apply (si_app _ Hs) in Hrec as [_ ?].
  - by rewrite MayGetBackup_unhooked.
Qed.

Lemma shape_step a s v' evs :
  sys_inv s → sim a s → same_shape (vm s) v' →
  app_hooks (app_run evs a) = app_hooks a → interpreted (app_run evs a) = interpreted a →
  (∀ t, app t ∨ is_Some (backuped_methods_ (registry (vm s)) !! t) →
     entry_of v' t = entry_of (vm s) t ∨ runtime_code (entry_of v' t)) →
  (∀ t, hooked (vm s) t → aside_of s t = None → entry_of v' t = entry_of (vm s) t) →
  (∀ t, app t → codes (app_run evs a) t =
    match hooked_methods_ (registry (vm s)) !! t with
    | Some rec => native_code (methods v') (Records.backup rec)
    | None => (data (methods v' t), default (entry_of v' t) (aside_of s t))
    end) →
  step_ok a evs (mkSystem v' (initializing s)).
Proof using cur_supported.
  intros Hs Ha Hv Hh Hi Hkept Hhooked Hcodes.
  assert (∀ t, app t → codes (app_run evs a) t = own_code (mkSystem v' (initializing s)) t) as Hown.
  { intros t Ht. by rewrite Hcodes, shape_own_code. }
  assert (∀ t, hooked (vm s) t →
    settled_entry (mkSystem v' (initializing s)) t = settled_entry s t) as Hsettled.
  { intros t Ht. destruct s as [v i]. unfold System.settled_entry. rewrite (shape_aside v v' i) by done. cbn [vm] in *.
    destruct (aside_of _ t) eqn:E; [done|]. simpl. by apply Hhooked. }
  split; [|by apply shape_sim].
  apply shape_inv; try done.
  - intros t old Hold. destruct (aside_app s t old Hs Hold) as [Ht _].
    destruct (Hkept t) as [->|]; [by left| |by right]. by apply (si_flux s Hs).
  - intros t Ht. rewrite shape_own_code by done. pose proof (si_code s Hs t Ht) as Hc.
    destruct (hooked_methods_ _ !! t) as [rec|] eqn:Hrec.
    + rewrite (own_code_hooked s t rec Hs Hrec) in Hc. cbn in *.
      destruct (Hkept (Records.backup rec)) as [E|E]; [|by unfold entry_of in E; rewrite E|done].
      right. by rewrite (ok_backup _ (si_registry s Hs) _ _ Hrec).
    + rewrite (own_code_unhooked s t Hrec) in Hc. unfold System.settled_entry in Hc. cbn in *.
      destruct (aside_of s t); [done|]. simpl in *. destruct (Hkept t) as [E|E]; [by left|by rewrite E|done].
Qed.

(** What the events of code do to the code of a method. *)
Lemma entries_codes a s f t :
  sim a s → app t →
  codes (app_run [EvEntries f] a) t =
    if IsDeoptimized (registry (vm s)) t then own_code s t
    else match f t with Some e => ((own_code s t).1, e) | None => own_code s t end.
Proof.
  intros Ha Ht. cbn. unfold give_entries. rewrite (sim_codes _ _ Ha t Ht).
  pose proof (sim_interpreted _ _ Ha t Ht) as Hi. case_bool_decide as E; cbn [negb].
  - by rewrite (proj1 Hi E).
  - destruct (IsDeoptimized _ t); [|done]. by destruct E; apply Hi.
Qed.
End inv.
