(* ===== verification/SystemRuntime.v ===== *)
(** * The runtime's events keep the invariant

    For each event of the runtime in [System.v]: it keeps [sys_inv], and what it
    does to the application's view is what its label says. *)

From S2P Require Import Prelude Memory Platform ArtMethod Records Trampoline Vm MirrorClass ClassLinker.
From S2P Require Import ClassInit Instrumentation Jit HookApi HookSpec System SystemInv.

(** ** Writes of entry points and data *)

Section writes.
Context (c : Config).

Lemma same_methods_refl h : same_methods h h.
Proof. by split. Qed.

Lemma same_methods_trans h1 h2 h3 : same_methods h1 h2 → same_methods h2 h3 → same_methods h1 h3.
Proof. intros H1 H2 t. destruct (H1 t), (H2 t). split; congruence. Qed.

Lemma SetEntryPoint_same m e h : same_methods h (SetEntryPoint c m e h).
Proof. intros t. by destruct (SetEntryPoint_fields c m e h t) as (-> & _ & ->). Qed.

Lemma SetData_same m e h : same_methods h (SetData m e h).
Proof. intros t. by destruct (SetData_fields m e h t) as (-> & _ & ->). Qed.

Lemma same_shape_refl v : same_shape v v.
Proof. split; try done. Qed.

Lemma same_shape_trans v1 v2 v3 : same_shape v1 v2 → same_shape v2 v3 → same_shape v1 v3.
Proof.
  intros [] []. split; try congruence. by eapply same_methods_trans.
Qed.

Lemma same_shape_methods v f : same_methods (methods v) (f (methods v)) → same_shape v (on_methods f v).
Proof. by split. Qed.

Lemma data_SetEntryPoint m e h t : data (SetEntryPoint c m e h t) = data (h t).
Proof. by destruct (SetEntryPoint_fields c m e h t) as (_ & -> & _). Qed.
End writes.

#[export] Hint Resolve same_methods_refl SetEntryPoint_same SetData_same same_shape_refl same_shape_methods : lsp.

Section runtime.
Context (cur : Arch) (c : Config) (GetClassDef : Z → Z) (app runtime_code : Z → Prop).
Hypothesis cur_supported : cur ∈ supported.
Implicit Types (v : Vm) (s : System) (h : Methods) (t m e self : Z) (a : App).

Abbreviation aside_of := (aside_of GetClassDef).
Abbreviation own_code := (own_code GetClassDef).
Abbreviation sys_inv := (sys_inv cur GetClassDef app runtime_code).
Abbreviation sim := (sim cur GetClassDef app).
Abbreviation step_ok := (step_ok cur GetClassDef app runtime_code).

(** The code of a method before the step, as the table of hooks has it. *)
Lemma sim_own_code a s t :
  sys_inv s → sim a s → app t →
  codes a t =
    match hooked_methods_ (registry (vm s)) !! t with
    | Some rec => native_code (methods (vm s)) (Records.backup rec)
    | None => (data (methods (vm s) t), default (entry_of (vm s) t) (aside_of s t))
    end.
Proof.
  intros Hs Ha Ht. rewrite (sim_codes _ _ _ _ _ Ha t Ht).
  destruct (hooked_methods_ _ !! t) as [rec|] eqn:Hrec;
    [by eapply own_code_hooked|by rewrite own_code_unhooked].
Qed.

Lemma backup_not_app s m :
  sys_inv s → Records.IsHooked (registry (vm s)) m ≠ 0 → ¬ app (Records.IsHooked (registry (vm s)) m).
Proof.
  intros Hs Hm. unfold Records.IsHooked in *. destruct (hooked_methods_ _ !! m) as [rec|] eqn:E; [|done].
  by destruct (si_app _ _ _ _ s Hs m rec E).
Qed.

(** A method that is neither hooked nor interpreted has nothing set aside. *)
Lemma aside_compiled s t :
  sys_inv s → hooked_methods_ (registry (vm s)) !! t = None → IsDeoptimized (registry (vm s)) t = false →
  aside_of s t = None.
Proof.
  intros Hs Hh Hd. destruct (aside_of s t) as [old|] eqn:E; [|done].
  destruct (aside_app _ _ _ _ s t old Hs E) as [_ [[rec ?]|?]]; congruence.
Qed.

(** The entry points an update of code leaves. *)
Definition updated v m e t : Z :=
  if (e =? entry_of v m) then entry_of v t
  else if t =? m then
    if negb (Records.IsHooked (registry v) m =? 0) || IsDeoptimized (registry v) m then entry_of v m else e
  else if negb (Records.IsHooked (registry v) m =? 0) && negb (IsDeoptimized (registry v) m) &&
          (t =? Records.IsHooked (registry v) m) then e
  else entry_of v t.

Lemma update_code_entries {A} (backup : Z → Z → A → Vm → Vm) m e args v :
  registry_ok (registry v) → writes_code runtime_code false m v (backup m e args v) →
  entry_of (backup m e args v) m = e →
  let v' := UpdateMethodsCode c backup m e args v in
  same_shape v v' ∧ (∀ t, data (methods v' t) = data (methods v t)) ∧ (∀ t, entry_of v' t = updated v m e t).
Proof.
  intros Hr [Hshape Hother Hdata _] He v'. unfold v', UpdateMethodsCode, HandleMethodCodeUpdated, GetEntryPoint.
  cbn [view methods_store]. fold (entry_of v m). rewrite (shape_registry _ _ Hshape).
  assert (∀ t, data (methods (backup m e args v) t) = data (methods v t)) as Hd.
  { intros t. destruct (decide (t = m)) as [->|Ht]; [by apply Hdata|]. by apply (f_equal fst (Hother t Ht)). }
  assert (∀ t, t ≠ m → entry_of (backup m e args v) t = entry_of v t) as Ho.
  { intros t Ht. by apply (f_equal snd (Hother t Ht)). }
  revert He Hd Ho Hshape. generalize (backup m e args v) as w. clear Hdata Hother.
  intros w He Hd Ho Hshape. unfold updated. rewrite (Z.eqb_sym e).
  destruct (Z.eqb_spec (entry_of v m) e) as [E|E]; cbn [negb].
  { split_and!; [done|done|]. intros t. destruct (decide (t = m)) as [->|]; [congruence|auto]. }
  destruct (Z.eqb_spec (Records.IsHooked (registry v) m) 0) as [Hh|Hh]; cbn [negb orb andb];
    destruct (IsDeoptimized (registry v) m); cbn [negb andb].
  all: split; [try done; repeat (eapply same_shape_trans; [|apply same_shape_methods, SetEntryPoint_same]); done|].
  all: split; intros t; cbn [on_methods methods]; rewrite ?data_SetEntryPoint; try done.
  all: unfold entry_of; cbn [on_methods methods]; rewrite ?entry_SetEntryPoint; fold (entry_of w t);
    destruct (Z.eqb_spec t m) as [->|Ht]; rewrite ?decide_True by done; rewrite ?decide_False by done; auto.
  - apply (hooked_IsHooked v m Hr) in Hh. pose proof (backup_not_hooked v m Hr Hh) as Hb.
    rewrite decide_False by (intros E'; by rewrite <-E' in Hb). by rewrite decide_True.
  - case_decide as Hb; [by rewrite (proj2 (Z.eqb_eq _ _) Hb)|].
    rewrite (proj2 (Z.eqb_neq _ _) Hb), decide_False by done. auto.
Qed.

(** A code update is an event of the application: interpreted methods keep
    their code, the others get the new one, in their backup when hooked. *)
Lemma update_code_step {A} (backup : Z → Z → A → Vm → Vm) m e args a s :
  sys_inv s → sim a s → writes_code runtime_code false m (vm s) (backup m e args (vm s)) →
  entry_of (backup m e args (vm s)) m = e →
  step_ok a (update_events (vm s) m e) (mkSystem (UpdateMethodsCode c backup m e args (vm s)) (initializing s)).
Proof using cur_supported.
  intros Hs Ha Hw He. pose proof (si_registry _ _ _ _ _ Hs) as Hr.
  destruct (update_code_entries backup m e args (vm s) Hr Hw He) as (Hshape & Hdata & Hentry).
  pose proof (writes_entry _ _ _ _ _ Hw) as Hrc. rewrite He in Hrc. unfold updated in Hentry.
  rewrite (Z.eqb_sym e) in Hentry. unfold update_events.
  destruct (Z.eqb_spec (entry_of (vm s) m) e) as [E|E]; apply shape_step; try done.
  - intros t _. left. auto.
  - intros t Ht. cbn [app_run foldl]. rewrite (sim_own_code a s t Hs Ha Ht). unfold native_code.
    destruct (hooked_methods_ _ !! t) as [rec|]; rewrite !Hdata; unfold entry_of in *; by rewrite Hentry.
  - intros t _. rewrite Hentry. destruct (t =? m) eqn:E1; [apply Z.eqb_eq in E1 as ->|];
      repeat case_match; auto.
  - intros t Ht _. rewrite Hentry. pose proof (proj1 (hooked_IsHooked _ t Hr) Ht) as Hnz.
    destruct (Z.eqb_spec t m) as [->|Hne]; [by rewrite (proj2 (Z.eqb_neq _ _) Hnz)|].
    destruct (Z.eqb_spec (Records.IsHooked (registry (vm s)) m) 0) as [|Hh]; [done|].
    apply (hooked_IsHooked _ m Hr), (backup_not_hooked (vm s) m Hr) in Hh.
    rewrite (proj2 (Z.eqb_neq t _)), andb_false_r; [done|]. by intros ->.
  - intros t Ht. rewrite (entries_codes _ _ _ _ s _ t Ha Ht), <-(sim_codes _ _ _ _ _ Ha t Ht),
      (sim_own_code a s t Hs Ha Ht). unfold one_entry, native_code.
    unfold entry_of in *. destruct (hooked_methods_ _ !! t) as [rec|] eqn:Hrec; rewrite !Hdata, Hentry.
    + destruct (si_backup _ _ _ _ s Hs t rec Hrec) as [_ Hdb].
      destruct (si_app _ _ _ _ s Hs t rec Hrec) as [_ Hnb].
      destruct (Z.eqb_spec (Records.backup rec) m) as [<-|Hbm].
      { rewrite Hdb, orb_true_r, (proj2 (Z.eqb_neq t _)) by (by intros ->). by destruct (IsDeoptimized _ t). }
      destruct (Z.eqb_spec t m) as [<-|Htm].
      * rewrite (IsHooked_record _ _ _ Hrec), Z.eqb_refl, andb_true_r.
        rewrite (proj2 (Z.eqb_neq _ _)) by by destruct (ok_nonnull _ Hr _ _ Hrec).
        by destruct (IsDeoptimized _ t).
      * rewrite (proj2 (Z.eqb_neq (Records.backup rec) _)), andb_false_r; [by destruct (IsDeoptimized _ t)|].
        intros Eb. apply Htm, (IsHooked_inj _ Hr); rewrite (IsHooked_record _ _ _ Hrec); [done|].
        by destruct (ok_nonnull _ Hr _ _ Hrec).
    + destruct (Z.eqb_spec t m) as [<-|Htm].
      * unfold Records.IsHooked. rewrite Hrec. cbn [negb Z.eqb orb].
        destruct (IsDeoptimized _ t) eqn:Ed; [done|]. by rewrite aside_compiled.
      * destruct (Z.eqb_spec (Records.IsHooked (registry (vm s)) m) 0) as [|Hm];
          [by destruct (IsDeoptimized _ t)|].
        rewrite (proj2 (Z.eqb_neq t _)), andb_false_r; [by destruct (IsDeoptimized _ t)|].
        intros ->. by apply (backup_not_app s m).
Qed.

(** ** Code given to one method *)

(** The methods of the application whose code a method holds. *)
Lemma MayGetBackup_owner s t m :
  sys_inv s → app t →
  MayGetBackup (registry (vm s)) t = MayGetBackup (registry (vm s)) m ↔ t = code_owner (vm s) m.
Proof.
  intros Hs Ht. pose proof (si_registry _ _ _ _ _ Hs) as Hr.
  pose proof (app_not_backup _ _ _ _ s t Hs Ht) as Hnb. unfold code_owner, IsBackup.
  destruct (backuped_methods_ (registry (vm s)) !! m) as [t'|] eqn:Eb.
  - destruct (ok_hooked _ Hr _ _ Eb) as (rec & Hrec & <-). destruct (ok_nonnull _ Hr _ _ Hrec) as [Hn _].
    rewrite (proj2 (Z.eqb_neq _ _) Hn), (MayGetBackup_unhooked _ (Records.backup rec)).
    2: { apply eq_None_not_Some. intros Hh. by rewrite (ok_apart _ Hr _ Hh) in Eb. }
    split; [|intros ->; by apply MayGetBackup_hooked].
    destruct (hooked_methods_ (registry (vm s)) !! t) as [rec'|] eqn:E.
    + rewrite (MayGetBackup_hooked _ t rec' Hr E). by eapply (backup_inj cur GetClassDef app runtime_code).
    + rewrite MayGetBackup_unhooked by done. congruence.
  - cbn [Z.eqb]. split; [|by intros ->].
    destruct (hooked_methods_ (registry (vm s)) !! t) as [rec'|] eqn:E;
      [rewrite (MayGetBackup_hooked _ t rec' Hr E)|rewrite MayGetBackup_unhooked by done];
      (destruct (hooked_methods_ (registry (vm s)) !! m) as [rec|] eqn:Hm;
      [rewrite (MayGetBackup_hooked _ m rec Hr Hm)|rewrite MayGetBackup_unhooked by done]).
    + by eapply (backup_inj cur GetClassDef app runtime_code).
    + intros <-. by rewrite (ok_backup _ Hr _ _ E) in Eb.
    + intros ->. by rewrite (ok_backup _ Hr _ _ Hm) in Hnb.
    + done.
Qed.

(** The runtime gives code to one method that is not hooked, or whose entry
    point is set aside. *)
Lemma write_step natives m v' a s evs :
  sys_inv s → sim a s → writes_code runtime_code natives m (vm s) v' →
  (hooked (vm s) m → aside_of s m ≠ None) →
  app_hooks (app_run evs a) = app_hooks a → interpreted (app_run evs a) = interpreted a →
  (∀ t, app t → codes (app_run evs a) t =
     if MayGetBackup (registry (vm s)) t =? m
     then (data (methods v' m), default (entry_of v' m) (aside_of s m)) else codes a t) →
  step_ok a evs (mkSystem v' (initializing s)).
Proof using cur_supported.
  intros Hs Ha [Hshape Hother _ Hentry] Hm Hh Hi Hcodes. pose proof (si_registry _ _ _ _ _ Hs) as Hr.
  unfold native_code in Hother.
  apply shape_step; try done.
  - intros t _. destruct (decide (t = m)) as [->|Ht]; [by right|left]. by injection (Hother t Ht).
  - intros t Ht Hna. destruct (decide (t = m)) as [->|Hne]; [by destruct (Hm Ht)|]. by injection (Hother t Hne).
  - intros t Ht. rewrite Hcodes, (sim_own_code a s t) by done.
    destruct (hooked_methods_ _ !! t) as [rec|] eqn:Hrec.
    + rewrite (MayGetBackup_hooked _ t rec Hr Hrec). unfold native_code.
      destruct (Z.eqb_spec (Records.backup rec) m) as [<-|Hne].
      * by rewrite (aside_not_app cur GetClassDef app runtime_code) by (done || by apply (si_app _ _ _ _ s Hs) in Hrec as [_ ?]).
      * by injection (Hother _ Hne) as -> ->.
    + rewrite MayGetBackup_unhooked by done. destruct (Z.eqb_spec t m) as [->|Hne]; [done|].
      unfold entry_of. by injection (Hother _ Hne) as -> ->.
Qed.

Lemma MayGetBackup_not_hooked s m : sys_inv s → hooked (vm s) (MayGetBackup (registry (vm s)) m) → False.
Proof.
  intros Hs. pose proof (si_registry _ _ _ _ _ Hs) as Hr. unfold MayGetBackup.
  destruct (Z.eqb_spec (Records.IsHooked (registry (vm s)) m) 0) as [E|E]; cbn [negb].
  - intros Hh%(hooked_IsHooked _ m Hr). congruence.
  - apply (backup_not_hooked _ m Hr). by apply hooked_IsHooked.
Qed.

Lemma compiled_not_backup s m :
  sys_inv s → IsDeoptimized (registry (vm s)) m = false → backuped_methods_ (registry (vm s)) !! m = None.
Proof.
  intros Hs Hd. pose proof (si_registry _ _ _ _ _ Hs) as Hr.
  destruct (backuped_methods_ _ !! m) as [t|] eqn:E; [|done].
  destruct (ok_hooked _ Hr _ _ E) as (rec & Hrec & <-).
  destruct (si_backup _ _ _ _ s Hs t rec Hrec). congruence.
Qed.

Lemma aside_MayGetBackup s m :
  sys_inv s → IsDeoptimized (registry (vm s)) m = false →
  aside_of s (MayGetBackup (registry (vm s)) m) = None.
Proof.
  intros Hs Hd. pose proof (si_registry _ _ _ _ _ Hs) as Hr.
  destruct (hooked_methods_ (registry (vm s)) !! m) as [rec|] eqn:Hrec.
  - rewrite (MayGetBackup_hooked _ m rec Hr Hrec).
    by apply (aside_not_app cur GetClassDef app runtime_code), (si_app _ _ _ _ s Hs m rec Hrec).
  - rewrite MayGetBackup_unhooked by done. by apply aside_compiled.
Qed.

(** The initializers of code of a debuggable runtime. *)
Lemma initialize_code_step (backup : Z → Z → Vm → Vm) m quick_code a s :
  sys_inv s → sim a s → quick_code ∉ stubs (vm s) →
  let m' := MaybeUseBackupMethod (vm s) m quick_code in
  (IsDeoptimized (registry (vm s)) m = false → writes_code runtime_code false m' (vm s) (backup m' quick_code (vm s))) →
  let v' := InitializeMethodsCode backup m quick_code (vm s) in
  step_ok a (if IsDeoptimized (registry (vm s)) m then [] else initialize_events (vm s) v' m m')
    (mkSystem v' (initializing s)).
Proof using cur_supported.
  intros Hs Ha Hq m' Hw v'. pose proof (si_registry _ _ _ _ _ Hs) as Hr. unfold v', InitializeMethodsCode.
  fold m'. destruct (IsDeoptimized (registry (vm s)) m) eqn:Ed; [by destruct s|]. specialize (Hw eq_refl).
  assert (code_owner (vm s) m = m) as Howner.
  { unfold code_owner. by rewrite (proj2 (IsBackup_null _ Hr m) (compiled_not_backup s m Hs Ed)). }
  assert (m' = MayGetBackup (registry (vm s)) m ∨ m' = m ∧ hooked (vm s) m ∧ entry_of (vm s) m = quick_code) as Hm'.
  { unfold m', MaybeUseBackupMethod, MayGetBackup, GetEntryPoint. cbn [view methods_store].
    fold (entry_of (vm s) m). rewrite (hooked_IsHooked (vm s) m Hr).
    destruct (Z.eqb_spec (Records.IsHooked (registry (vm s)) m) 0); [by left|].
    destruct (Z.eqb_spec (entry_of (vm s) m) quick_code); cbn [negb andb]; auto. }
  unfold initialize_events. destruct (Z.eqb_spec m' (MayGetBackup (registry (vm s)) m)) as [E|E].
  - apply (write_step false m'); try done.
    { rewrite E. intros Hh. by destruct (MayGetBackup_not_hooked s m Hs). }
    intros t Ht. rewrite (entries_codes _ _ _ _ s _ t Ha Ht), <-(sim_codes _ _ _ _ _ Ha t Ht).
    pose proof (MayGetBackup_owner s t m Hs Ht) as Hmt. rewrite Howner, <-E in Hmt.
    unfold one_entry. destruct (Z.eqb_spec t m) as [->|Hne].
    + pose proof (aside_MayGetBackup s m Hs Ed) as Hna. rewrite <-E in Hna.
      rewrite Ed, (proj2 Hmt), Z.eqb_refl, Hna, (writes_data _ _ _ _ _ Hw) by done.
      rewrite (sim_codes _ _ _ _ _ Ha m Ht). cbn. by rewrite E.
    + rewrite (proj2 (Z.eqb_neq (MayGetBackup _ _) _)) by tauto. by destruct (IsDeoptimized _ t).
  - destruct Hm' as [|(-> & Hh & Hentry)]; [done|]. apply (write_step false m); try done.
    + intros _ Hna. pose proof (settled_in_stubs _ _ _ _ s m Hs Hh) as Hin.
      unfold settled_entry in Hin. rewrite Hna in Hin. simpl in Hin.  congruence.
    + intros t Ht. cbn [app_run foldl]. rewrite (proj2 (Z.eqb_neq (MayGetBackup _ _) _)); [done|].
      intros <-. by apply (MayGetBackup_not_hooked s t Hs).
Qed.

(** Native registration through the runtime's [RegisterNative]. *)
Lemma register_native_step m v' a s :
  sys_inv s → sim a s → aside_of s m = None ∨ hooked (vm s) m →
  writes_code runtime_code true (MayGetBackup (registry (vm s)) m) (vm s) v' →
  step_ok a
    [EvNatives (λ t, if t =? code_owner (vm s) m
                     then Some (native_code (methods v') (MayGetBackup (registry (vm s)) m)) else None)]
    (mkSystem v' (initializing s)).
Proof using cur_supported.
  intros Hs Ha Hm Hw. pose proof (si_registry _ _ _ _ _ Hs) as Hr.
  apply (write_step true (MayGetBackup (registry (vm s)) m)); try done.
  - intros Hh. by destruct (MayGetBackup_not_hooked s m Hs).
  - intros t Ht. cbn. pose proof (MayGetBackup_owner s t m Hs Ht) as Hmt.
    assert (aside_of s (MayGetBackup (registry (vm s)) m) = None) as Hna.
    { destruct (hooked_methods_ (registry (vm s)) !! m) as [rec|] eqn:Hrec.
      - rewrite (MayGetBackup_hooked _ m rec Hr Hrec).
        by apply (aside_not_app cur GetClassDef app runtime_code), (si_app _ _ _ _ s Hs m rec Hrec).
      - rewrite MayGetBackup_unhooked by done. destruct Hm as [|[rec ?]]; [done|congruence]. }
    rewrite Hna. destruct (Z.eqb_spec t (code_owner (vm s) m)) as [E|E].
    + by rewrite (proj2 (Z.eqb_eq _ _) (proj2 Hmt E)).
    + rewrite (proj2 (Z.eqb_neq _ _)) by tauto. done.
Qed.

(** The runtime rewrites entry points while classes are initialized. *)
Lemma rewrite_step h' a s :
  sys_inv s → sim a s → rewrites GetClassDef app runtime_code s h' →
  step_ok a (rewrite_events GetClassDef s h') (mkSystem (on_methods (λ _, h') (vm s)) (initializing s)).
Proof using cur_supported.
  intros Hs Ha [Hshape Hdata Hmembers Hbackups Hcode]. pose proof (si_registry _ _ _ _ _ Hs) as Hr.
  assert (∀ t, app t → hooked (vm s) t ∨ app t ∧ IsDeoptimized (registry (vm s)) t = true →
    aside_of s t = None → entry_point (h' t) = entry_of (vm s) t) as Hkept.
  { intros t Ht Hor Hna. apply Hmembers; [done|].
    destruct (IsStatic (methods (vm s)) t) eqn:E; [left|by right].
    destruct (si_covered _ _ _ _ s Hs t Hor E) as [|Hsome]; [done|].
    unfold is_Some in Hsome. rewrite Hna in Hsome. by destruct Hsome. }
  apply shape_step; try done.
  - intros t [Ht|Ht]; [by apply Hcode|left]. destruct Ht as [t0 Ht].
    destruct (ok_hooked _ Hr _ _ Ht) as (rec & Hrec & <-).
    rewrite <-(IsHooked_record _ _ _ Hrec). apply Hbackups. by eexists.
  - intros t Ht Hna. apply Hkept; [|by left|done]. destruct Ht as [rec Hrec]. by apply (si_app _ _ _ _ s Hs t rec).
  - intros t Ht. unfold rewrite_events. rewrite (entries_codes _ _ _ _ s _ t Ha Ht), <-(sim_codes _ _ _ _ _ Ha t Ht),
      (sim_own_code a s t Hs Ha Ht). unfold Records.IsHooked.
    destruct (hooked_methods_ _ !! t) as [rec|] eqn:Hrec.
    + destruct (ok_nonnull _ Hr _ _ Hrec) as [_ Hb]. rewrite (proj2 (Z.eqb_neq _ _) Hb), andb_false_r.
      rewrite bool_if_same. unfold native_code. cbn [on_methods methods]. rewrite Hdata. f_equal.
      rewrite <-(IsHooked_record _ _ _ Hrec). symmetry. apply Hbackups. by eexists.
    + cbn [Z.eqb]. rewrite andb_true_r. cbn [on_methods methods fst]. unfold entry_of at 3. cbn [on_methods methods].
      rewrite Hdata. destruct (IsDeoptimized _ t) eqn:Ed.
      * destruct (aside_of s t) eqn:Ea; [done|]. simpl. by rewrite (Hkept t Ht (or_intror (conj Ht Ed)) Ea).
      * by rewrite (aside_compiled s t Hs Hrec Ed).
Qed.

(** ** Native registration through the JNI table *)

Lemma restore_saved_same h p : same_methods h (restore_saved c h p).
Proof.
  destruct p as [m [[b d] e]]. unfold restore_saved. case_match; [done|].
  repeat (eapply same_methods_trans; [|apply SetEntryPoint_same || apply SetData_same]). done.
Qed.

Lemma restore_list_same l h : same_methods h (foldl (restore_saved c) h l).
Proof.
  revert h. induction l as [|p l IH]; intros h; [done|]. cbn [foldl].
  eapply same_methods_trans; [apply restore_saved_same|apply IH].
Qed.

(** The updater leaves the other methods alone. *)
Lemma restore_list_other v l h t :
  registry_ok (registry v) → keys_ok v l → ¬ hooked v t → backuped_methods_ (registry v) !! t = None →
  native_code (foldl (restore_saved c) h l) t = native_code h t.
Proof.
  intros Hr. revert h. induction l as [|[m [[b d] e]] l IH]; intros h Hk Ht Hb; [done|].
  apply Forall_cons in Hk as [[Hm Hbm] Hk]. simpl in Hm, Hbm. subst b. cbn [foldl]. rewrite IH by done.
  destruct Hm as [rec Hrec]. rewrite (IsHooked_record _ _ _ Hrec).
  rewrite restore_saved_at, decide_False; [done|..].
  - intros ->. by destruct Ht; eexists.
  - intros E. apply (backup_not_hooked v m Hr); [by eexists|].
    rewrite (IsHooked_record _ _ _ Hrec), E. by eexists.
  - intros ->. by rewrite (ok_backup _ Hr _ _ Hrec) in Hb.
Qed.

(** What the updater leaves where it saved the hooked methods the runtime may
    change: hooked methods as they were, new code in their backups, and the
    runtime's code in the others. *)
Lemma updater_code s saved reg w :
  sys_inv s → saved_ok (vm s) saved → registers GetClassDef app runtime_code s reg w →
  (∀ t, hooked (vm s) t → reg t → IsNative (methods (vm s)) t = true → is_Some (saved !! t)) →
  let v' := Updater_destroy c saved w in
  (∀ t rec, hooked_methods_ (registry (vm s)) !! t = Some rec →
     native_code (methods v') t = native_code (methods (vm s)) t ∧
     native_code (methods v') (Records.backup rec) =
       if bool_decide (native_code (methods w) t = native_code (methods (vm s)) t)
       then native_code (methods (vm s)) (Records.backup rec) else native_code (methods w) t) ∧
  (∀ t, hooked_methods_ (registry (vm s)) !! t = None → backuped_methods_ (registry (vm s)) !! t = None →
     native_code (methods v') t = native_code (methods w) t).
Proof.
  intros Hs Hok [Hshape Hreg _ _] Hsaved v'. pose proof (si_registry _ _ _ _ _ Hs) as Hr. split.
  - intros t rec Hrec. assert (hooked (vm s) t) as Ht by by eexists.
    pose proof (Updater_destroy_propagated c (vm s) saved reg w Hr Hok Hreg Hsaved t Ht) as H.
    by rewrite (IsHooked_record _ _ _ Hrec) in H.
  - intros t Hu Hb. apply (restore_list_other (vm s)); try done; [|intros [rec ?]; congruence].
    apply Forall_forall. intros [m [[b d] e]] Hin%elem_of_map_to_list. simpl.
    by destruct (Hok _ _ _ _ Hin) as (? & ? & _).
Qed.

Lemma register_natives_step saved reg w a s :
  sys_inv s → sim a s → saved_ok (vm s) saved → registers GetClassDef app runtime_code s reg w →
  (∀ t, hooked (vm s) t → reg t → IsNative (methods (vm s)) t = true → is_Some (saved !! t)) →
  step_ok a (native_events (vm s) (methods w)) (mkSystem (Updater_destroy c saved w) (initializing s)).
Proof using cur_supported.
  intros Hs Ha Hok Hw Hsaved. pose proof (si_registry _ _ _ _ _ Hs) as Hr.
  destruct (updater_code s saved reg w Hs Hok Hw Hsaved) as [Hh Hu].
  destruct Hw as [Hshape [Honly _] Haside Hcode].
  assert (same_shape (vm s) (Updater_destroy c saved w)) as Hv.
  { eapply same_shape_trans; [done|]. apply same_shape_methods, restore_list_same. }
  revert Hv Hh Hu. generalize (Updater_destroy c saved w) as v'. intros v' Hv Hh Hu.
  apply shape_step; try done.
  - intros t Ht. destruct (hooked_methods_ (registry (vm s)) !! t) as [rec|] eqn:Hrec.
    { left. destruct (Hh t rec Hrec) as [E _]. by injection E. }
    destruct (backuped_methods_ (registry (vm s)) !! t) as [t0|] eqn:Hb.
    + destruct (ok_hooked _ Hr _ _ Hb) as (rec & Hrec0 & <-). destruct (Hh t0 rec Hrec0) as [_ E].
      case_bool_decide as Hd; [left; by injection E|]. unfold entry_of. injection E as _ ->.
      destruct (Hcode t0) as [|Hc]; [by apply (si_app _ _ _ _ s Hs t0 rec)|done|by right].
    + destruct Ht as [Ht|[? ?]]; [|done]. specialize (Hu t Hrec Hb). unfold entry_of.
      injection Hu as _ ->. destruct (Hcode t Ht) as [E|]; [left; by injection E|by right].
  - intros t [rec Hrec] _. destruct (Hh t rec Hrec) as [E _]. by injection E.
  - intros t Ht. cbn. rewrite (sim_own_code a s t Hs Ha Ht).
    pose proof (app_not_backup _ _ _ _ s t Hs Ht) as Hb.
    destruct (hooked_methods_ _ !! t) as [rec|] eqn:Hrec.
    + destruct (Hh t rec Hrec) as [_ ->]. by case_bool_decide.
    + unfold entry_of. injection (Hu t Hrec Hb) as -> ->. case_bool_decide as Hd; [by injection Hd as -> ->|].
      destruct (aside_of s t) as [old|] eqn:E; [|done]. destruct (Honly t Hd) as [[[rec ?]|]%Haside _]; congruence.
Qed.

(** ** Code cache collection *)

Lemma sys_inv_movements f s :
  sys_inv s → sys_inv (mkSystem (on_registry (with_jit_movements f) (vm s)) (initializing s)).
Proof.
  intros [H1 H2 H3 H4 H5 H6 H7 H8 H9 H10 H11 H12]. split; [|done..].
  destruct H1 as [R1 R2 R3 R4 R5 R6]. split; [|done|done| |done|done].
  - by destruct R1.
  - intros t rec Hrec. by destruct (R4 t rec Hrec).
Qed.

Section movements.
Context (MoveObsoleteMethod_ : option (Z → Z → Methods → Methods)).
Hypothesis movement : movement_ok MoveObsoleteMethod_.

(** Movements keep entry points, and the data of what is not moved. *)
Lemma move_obsolete_frame l h :
  let h' := foldl (move_obsolete MoveObsoleteMethod_) h l in
  same_methods h h' ∧ (∀ t, entry_point (h' t) = entry_point (h t)) ∧
  (∀ t, t ∉ l.*1 → data (h' t) = data (h t)).
Proof using movement.
  revert h. induction l as [|[m b] l IH]; intros h; [done|]. cbn [foldl fmap list_fmap fst].
  assert (same_methods h (move_obsolete MoveObsoleteMethod_ h (m, b)) ∧
    ∀ t, entry_point (move_obsolete MoveObsoleteMethod_ h (m, b) t) = entry_point (h t) ∧
      (t ≠ m → data (move_obsolete MoveObsoleteMethod_ h (m, b) t) = data (h t))) as [Hs Hf].
  { unfold move_obsolete. destruct MoveObsoleteMethod_ as [f|] eqn:E; [by apply movement|]. split.
    - eapply same_methods_trans; apply SetData_same.
    - intros t. split; [by rewrite !(proj1 (proj2 (SetData_fields _ _ _ _)))|].
      intros Ht. rewrite SetData_other by done. destruct (decide (t = b)) as [->|]; [by rewrite SetData_data|].
      by rewrite SetData_other. }
  specialize (IH (move_obsolete MoveObsoleteMethod_ h (m, b))). cbv zeta in *.
  destruct IH as (I1 & I2 & I3). split_and!.
  - by eapply same_methods_trans.
  - intros t. rewrite I2. apply Hf.
  - intros t [Hm Hl]%not_elem_of_cons. rewrite I3 by done. by apply Hf.
Qed.

(** A collection of the code cache moves hooked methods only: nothing the
    application sees changes. *)
Lemma move_obsolete_step a s :
  sys_inv s → sim a s → (∀ p, p ∈ jit_movements_ (registry (vm s)) → hooked (vm s) p.1) →
  step_ok a [] (mkSystem (MoveObsoleteMethods MoveObsoleteMethod_ (vm s)) (initializing s)).
Proof using cur_supported movement.
  intros Hs Ha Hl. pose proof (si_registry _ _ _ _ _ Hs) as Hr.
  set (s1 := mkSystem (on_registry (with_jit_movements (λ _, [])) (vm s)) (initializing s)).
  assert (sys_inv s1) as Hs1 by by apply sys_inv_movements.
  assert (sim a s1) as Ha1 by by destruct Ha.
  destruct (move_obsolete_frame (jit_movements_ (registry (vm s))) (methods (vm s))) as (Hsame & He & Hd).
  assert (∀ t, ¬ hooked (vm s) t → t ∉ (jit_movements_ (registry (vm s))).*1) as Hout.
  { intros t Ht (p & -> & Hp)%list_elem_of_fmap. by apply Ht, Hl. }
  apply (shape_step cur GetClassDef app runtime_code cur_supported a s1); try done.
  - intros t _. left. apply He.
  - intros t _ _. apply He.
  - intros t Ht. cbn [app_run foldl]. rewrite (sim_own_code a s t Hs Ha Ht).
    change (hooked_methods_ (registry (vm s1))) with (hooked_methods_ (registry (vm s))).
    unfold MoveObsoleteMethods, native_code, entry_of. cbn [GetJitMovements on_methods methods].
    destruct (hooked_methods_ _ !! t) as [rec|] eqn:Hrec; cbn [on_registry methods]; rewrite He.
    + rewrite Hd; [done|]. apply Hout. rewrite <-(IsHooked_record _ _ _ Hrec).
      apply (backup_not_hooked _ _ Hr). by eexists.
    + rewrite Hd; [done|]. apply Hout. intros [rec ?]. congruence.
Qed.
End movements.

End runtime.
