(* ===== verification/SystemClass.v ===== *)
(** * The initialization of a class keeps the invariant

    The steps of [System.v] at the two ends of an initialization: the status of
    a class is set, and the entry points set aside are restored. *)

From S2P Require Import Prelude Memory Platform ArtMethod Records Trampoline Vm MirrorClass ClassLinker.
From S2P Require Import ClassInit HookApi HookSpec System SystemInv SystemRuntime.

Section classes.
Context (cur : Arch) (c : Config) (GetClassDef : Z → Z) (app runtime_code : Z → Prop).
Hypothesis cur_supported : cur ∈ supported.
Implicit Types (v : Vm) (s : System) (h : Methods) (t m e self : Z) (a : App).

Abbreviation class_of := (class_def_of GetClassDef).
Abbreviation aside_of := (aside_of GetClassDef).
Abbreviation settled_entry := (settled_entry GetClassDef).
Abbreviation own_code := (own_code GetClassDef).
Abbreviation sys_inv := (sys_inv cur GetClassDef app runtime_code).
Abbreviation sim := (sim cur GetClassDef app).
Abbreviation step_ok := (step_ok cur GetClassDef app runtime_code).

(** ** The status of a class is set *)

Lemma BackupClassMethods_tables v cd self th :
  cd ≠ 0 → (∀ bc, backup_methods_ v !! self = Some bc → bc !! cd = None) →
  default ∅ (backup_methods_ (BackupClassMethods cd self v) !! th) =
    if decide (th = self ∧ set_aside v cd ≠ ∅)
    then <[cd := set_aside v cd]> (default ∅ (backup_methods_ v !! th))
    else default ∅ (backup_methods_ v !! th).
Proof.
  intros Hcd Hnone. unfold BackupClassMethods. rewrite (proj2 (Z.eqb_neq _ _) Hcd). fold (set_aside v cd).
  case_bool_decide as Ho; [by rewrite decide_False by tauto|]. cbn [on_backups backup_methods_ compose].
  destruct (decide (th = self)) as [->|Hne].
  - rewrite decide_True by done. rewrite lookup_alter_eq, lookup_emplace_same. simpl.
    destruct (backup_methods_ v !! self) as [bc|] eqn:E; simpl; [|done].
    by rewrite emplace_absent by by apply Hnone.
  - rewrite decide_False by tauto. by rewrite lookup_alter_ne, lookup_emplace_other.
Qed.

Lemma BackupClassMethods_fields v cd self :
  let v' := BackupClassMethods cd self v in
  methods v' = methods v ∧ registry v' = registry v ∧ code v' = code v ∧ stubs v' = stubs v.
Proof. unfold BackupClassMethods. by repeat case_match. Qed.

(** Looking up what a thread has set aside for a class. *)
Lemma tables_lookup (b : gmap Z (gmap Z (gmap Z Z))) self cd t :
  (by_class ← b !! self; ms ← by_class !! cd; ms !! t) =
  (ms ← default ∅ (b !! self) !! cd; ms !! t).
Proof. by destruct (b !! self). Qed.

Section set_status.
Context (s : System) (cd self : Z).
Hypothesis (Hs : sys_inv s) (Hcd : cd ≠ 0) (Hself : self ≠ 0) (Hnew : initializing s !! cd = None).
Hypothesis members_app : ∀ t, in_class (hooked_classes_ (registry (vm s))) cd t ∨
  in_class (deoptimized_classes_ (registry (vm s))) cd t → app t.

Abbreviation v' := (BackupClassMethods cd self (vm s)).
Abbreviation s' := (mkSystem v' (<[cd := self]> (initializing s))).

Lemma begin_new bc : backup_methods_ (vm s) !! self = Some bc → bc !! cd = None.
Proof using Hs Hnew.
  intros Hbc. destruct (bc !! cd) as [ms|] eqn:E; [|done].
  pose proof (si_tables _ _ _ _ s Hs _ _ _ _ Hbc E). congruence.
Qed.

(** The tables hold what they held and what is set aside now. *)
Lemma begin_tables self' bc cd' ms :
  backup_methods_ v' !! self' = Some bc → bc !! cd' = Some ms →
  (∃ bc', backup_methods_ (vm s) !! self' = Some bc' ∧ bc' !! cd' = Some ms) ∨
  self' = self ∧ cd' = cd ∧ ms = set_aside (vm s) cd.
Proof using Hs Hcd Hnew.
  intros E1 E2. pose proof (BackupClassMethods_tables (vm s) cd self self' Hcd begin_new) as Ht.
  rewrite E1 in Ht. simpl in Ht. subst bc.
  assert (default ∅ (backup_methods_ (vm s) !! self') !! cd' = Some ms →
    ∃ bc', backup_methods_ (vm s) !! self' = Some bc' ∧ bc' !! cd' = Some ms) as Hold.
  { destruct (backup_methods_ (vm s) !! self'); simpl; [eauto|by rewrite lookup_empty]. }
  case_decide as Hd; [|auto]. apply lookup_insert_Some in E2 as [[<- <-]|[_ E2]]; [right; tauto|auto].
Qed.

Lemma begin_class t : class_of v' t = class_of (vm s) t.
Proof. apply class_of_same. by destruct (BackupClassMethods_fields (vm s) cd self) as [-> _]. Qed.

Lemma begin_aside t :
  aside_of s' t = if decide (class_of (vm s) t = cd) then set_aside (vm s) cd !! t else aside_of s t.
Proof using Hs Hcd Hnew.
  unfold System.aside_of. cbn [vm initializing]. cbv zeta. rewrite begin_class.
  pose proof (BackupClassMethods_tables (vm s) cd self) as Ht.
  destruct (decide (class_of (vm s) t = cd)) as [E|E].
  - rewrite E, lookup_insert_eq. cbn [mbind option_bind]. rewrite tables_lookup, Ht by (done || apply begin_new).
    destruct (decide (set_aside (vm s) cd = ∅)) as [Ho|Ho].
    + rewrite decide_False by tauto. rewrite Ho, lookup_empty.
      destruct (backup_methods_ (vm s) !! self) as [bc|] eqn:Eb; simpl; [|done]. by rewrite (begin_new bc).
    + rewrite decide_True by done. by rewrite lookup_insert_eq.
  - rewrite lookup_insert_ne by done. destruct (initializing s !! class_of (vm s) t) as [th|]; cbn [mbind option_bind]; [|done].
    rewrite !tables_lookup, Ht by (done || apply begin_new).
    clear Ht. case_decide; [by rewrite lookup_insert_ne|done].
Qed.

Lemma begin_settled t : settled_entry s' t = settled_entry s t.
Proof using Hs Hcd Hnew.
  unfold System.settled_entry. rewrite begin_aside. cbn [vm].
  assert (entry_of v' t = entry_of (vm s) t) as ->.
  { unfold entry_of. by destruct (BackupClassMethods_fields (vm s) cd self) as [-> _]. }
  case_decide as E; [|done]. assert (aside_of s t = None) as ->.
  { apply aside_quiet. unfold quiet. by rewrite E. }
  destruct (set_aside_lookup (vm s) cd t) as [Hval _].
  destruct (set_aside (vm s) cd !! t) as [e|]; [exact (Hval e eq_refl)|done].
Qed.

(** Nothing is rewritten yet: what is set aside is what the methods have. *)
Lemma set_status_inv : sys_inv s'.
Proof using Hs Hcd Hself Hnew members_app cur_supported.
  pose proof (si_registry _ _ _ _ _ Hs) as Hr.
  destruct (BackupClassMethods_fields (vm s) cd self) as (Em & Er & Ec & Es).
  pose proof Hs as [H1 H2 H3 H4 H5 H6 H7 H8 H9 H10 H11 H12].
  assert (∀ t, in_class (hooked_classes_ (registry (vm s))) cd t → class_of (vm s) t = cd) as Hclass.
  { intros t Ht. symmetry. exact (inv_class _ _ _ H1 t cd Ht). }
  assert (∀ t, hooked (vm s) t → in_class (hooked_classes_ (registry (vm s))) (class_of (vm s) t) t) as Hin.
  { intros t Ht. destruct (proj1 (ok_class _ Hr t) Ht) as [c' Hc'].
    by rewrite <-(inv_class _ _ _ H1 t c' Hc' : c' = class_of (vm s) t). }
  pose proof begin_tables as Htables.
  split; cbn [vm initializing]; rewrite ?Er, ?Es; try done.
  - apply (methods_frame_inv cur GetClassDef cur_supported (settle GetClassDef s)); cbn [vm];
      rewrite ?Er, ?Ec, ?Es; try done; [by cbn; rewrite Er|by cbn; rewrite Er..|].
    intros t _. split; [by apply begin_settled|]. cbn. by rewrite Em.
  - intros t rec Hrec. rewrite Em. by apply H3.
  - intros self' bc cd' ms E1 E2. destruct (decide (cd' = cd)) as [->|Hne].
    + rewrite lookup_insert_eq. destruct (Htables _ _ _ _ E1 E2) as [(bc' & E3 & E4)|(-> & _)]; [|done].
      pose proof (H4 _ _ _ _ E3 E4). congruence.
    + rewrite lookup_insert_ne by done. destruct (Htables _ _ _ _ E1 E2) as [(bc' & E3 & E4)|(_ & -> & _)]; [|done].
      by eapply H4.
  - intros self' bc cd' ms t old E1 E2 E3. rewrite begin_class. unfold hooked. rewrite Er.
    destruct (Htables _ _ _ _ E1 E2) as [(bc' & E4 & E5)|(-> & -> & ->)]; [by eapply H5|].
    destruct (set_aside_lookup (vm s) cd t) as [_ Hdom]. destruct (proj1 Hdom) as [Hor _]; [by eexists|].
    split; [by apply members_app|]. destruct Hor as [Hc'|Hc'].
    + split; [by apply Hclass|left]. apply (ok_class _ Hr). by eexists.
    + destruct (H8 cd t Hc') as [<- Hd]; [apply members_app; by right|]. by split; [|right].
  - intros t. unfold hooked, quiet. cbn [vm initializing]. rewrite Er, begin_class, begin_aside.
    assert (IsStatic (methods v') t = IsStatic (methods (vm s)) t) as -> by by rewrite Em.
    intros Hor Hstatic. case_decide as E.
    + right. destruct (set_aside_lookup (vm s) cd t) as [_ Hdom]. apply Hdom. split; [|done]. rewrite <-E.
      destruct Hor as [Hh|[Ht Hd]]; [left; by apply Hin|right; by apply H7].
    + rewrite lookup_insert_ne by done. by apply H6.
  - intros t. rewrite begin_class. apply H7.
  - intros cd' t. rewrite begin_class. apply H8.
  - intros t old. rewrite begin_aside. unfold entry_of. rewrite Em. case_decide as E; [|by apply H9].
    intros Ho. left. symmetry. by apply (set_aside_lookup (vm s) cd t).
  - intros t Ht. unfold System.own_code. cbn [vm]. cbv zeta. rewrite begin_settled, Er. by apply H10.
  - intros cd' self' [[<- <-]|[_ Hi]]%lookup_insert_Some; [done|by eapply H12].
Qed.

Lemma set_status_step init_status a :
  sim a s → step_ok a [] (mkSystem (SetStatus init_status (λ v, v) cd init_status self (vm s))
                            (<[cd := self]> (initializing s))).
Proof using Hs Hcd Hself Hnew members_app cur_supported.
  intros [S1 S2 S3 S4]. unfold SetStatus. rewrite Z.eqb_refl. split; [by apply set_status_inv|].
  destruct (BackupClassMethods_fields (vm s) cd self) as (Em & Er & Ec & Es).
  split; cbn [app_run foldl vm]; rewrite ?Er, ?Ec; try done.
  - intros t Ht. rewrite S1 by done. unfold System.own_code. cbn [vm]. cbv zeta. by rewrite begin_settled, Er, Em.
  - intros t rec Hrec. rewrite begin_settled. by apply S4.
Qed.
End set_status.

(** ** What was set aside is taken back *)

(** A union of maps found along a list. *)
Lemma fold_union_lookup {A} (f : A → option (gmap Z Z)) l acc t old :
  foldl (λ ms p, match f p with Some x => ms ∪ x | None => ms end) acc l !! t = Some old →
  acc !! t = Some old ∨ ∃ p x, p ∈ l ∧ f p = Some x ∧ x !! t = Some old.
Proof.
  revert acc. induction l as [|p l IH]; intros acc H; [by left|]. cbn [foldl] in H.
  apply IH in H as [H|(p' & x & Hp & Hf & Hx)]; [|right; exists p', x; by split; [right|]].
  destruct (f p) as [x|] eqn:E; [|by left].
  apply lookup_union_Some_raw in H as [H|[_ H]]; [by left|right].
  exists p, x. split; [by left|done].
Qed.

Lemma fold_union_is_Some {A} (f : A → option (gmap Z Z)) l acc t :
  is_Some (acc !! t) ∨ (∃ p x, p ∈ l ∧ f p = Some x ∧ is_Some (x !! t)) →
  is_Some (foldl (λ ms p, match f p with Some x => ms ∪ x | None => ms end) acc l !! t).
Proof.
  revert acc. induction l as [|p l IH]; intros acc H.
  { destruct H as [H|(p & x & Hp & _)]; [done|by inversion Hp]. }
  cbn [foldl]. apply IH. destruct H as [H|(p' & x & Hp & Hf & Hx)].
  - left. destruct (f p); [|done]. apply lookup_union_is_Some. by left.
  - apply elem_of_cons in Hp as [->|Hp]; [left|right; eauto].
    rewrite Hf. apply lookup_union_is_Some. by right.
Qed.

(** The tables [PopBackup] takes: those of one class, or of one thread. *)
Definition pops (cd self th cd' : Z) : Prop := cd = 0 ∧ th = self ∧ self ≠ 0 ∨ cd ≠ 0 ∧ cd' = cd.

#[local] Instance pops_dec cd self th cd' : Decision (pops cd self th cd').
Proof. unfold pops. apply _. Defined.

Definition popped_from (cd self : Z) (b : gmap Z (gmap Z (gmap Z Z))) (th cd' : Z) (ms : gmap Z Z) : Prop :=
  ∃ by_class, b !! th = Some by_class ∧ by_class !! cd' = Some ms ∧ pops cd self th cd'.

Lemma PopBackup_popped cd self v t :
  (∀ old, (PopBackup cd self v).1 !! t = Some old →
     ∃ th cd' ms, popped_from cd self (backup_methods_ v) th cd' ms ∧ ms !! t = Some old) ∧
  (∀ th cd' ms, popped_from cd self (backup_methods_ v) th cd' ms → is_Some (ms !! t) →
     is_Some ((PopBackup cd self v).1 !! t)).
Proof.
  unfold PopBackup, popped_from, pops. case_bool_decide as Hb; simpl.
  { split; [intros old; by rewrite lookup_empty|]. rewrite Hb. intros th cd' ms (bc & H & _). by rewrite lookup_empty in H. }
  destruct (Z.eqb_spec cd 0) as [Hcd|Hcd]; simpl.
  - destruct (Z.eqb_spec self 0) as [Hself|Hself]; simpl.
    { split; [intros old; by rewrite lookup_empty|]. intros th cd' ms (bc & _ & _ & [(_ & _ & ?)|[? _]]) _; done. }
    destruct (backup_methods_ v !! self) as [found|] eqn:E; simpl.
    + split.
      * intros old H. apply (fold_union_lookup (λ p : Z * gmap Z Z, Some p.2)) in H
          as [H|([cd' ms] & x & Hp & [= <-] & Hx)]; [by rewrite lookup_empty in H|].
        apply elem_of_map_to_list in Hp. exists self, cd', ms. split; [|done]. exists found. tauto.
      * intros th cd' ms (bc & Hbc & Hms & [(_ & -> & _)|[? _]]) Ht; [|done]. rewrite E in Hbc. injection Hbc as <-.
        apply (fold_union_is_Some (λ p : Z * gmap Z Z, Some p.2)). right. exists (cd', ms), ms.
        by rewrite elem_of_map_to_list.
    + split; [intros old; by rewrite lookup_empty|].
      intros th cd' ms (bc & Hbc & _ & [(_ & -> & _)|[? _]]); [congruence|done].
  - split.
    + intros old H. apply (fold_union_lookup (λ p : Z * gmap Z (gmap Z Z), p.2 !! cd)) in H
        as [H|([th bc] & x & Hp & Hf & Hx)]; [by rewrite lookup_empty in H|].
      apply elem_of_map_to_list in Hp. simpl in Hf. exists th, cd, x. split; [|done]. exists bc. tauto.
    + intros th cd' ms (bc & Hbc & Hms & [(? & _)|[_ ->]]) Ht; [done|].
      apply (fold_union_is_Some (λ p : Z * gmap Z (gmap Z Z), p.2 !! cd)). right. exists (th, bc), ms.
      by rewrite elem_of_map_to_list.
Qed.

Lemma PopBackup_fields cd self v :
  let v' := (PopBackup cd self v).2 in
  methods v' = methods v ∧ registry v' = registry v ∧ code v' = code v ∧ stubs v' = stubs v.
Proof. unfold PopBackup. by repeat case_match. Qed.

(** The tables that are left. *)
Lemma PopBackup_tables cd self v th cd' :
  (default ∅ (backup_methods_ (PopBackup cd self v).2 !! th)) !! cd' =
    if decide (pops cd self th cd') then None else default ∅ (backup_methods_ v !! th) !! cd'.
Proof.
  unfold PopBackup. case_bool_decide as Hb; simpl.
  { rewrite Hb, lookup_empty. simpl. rewrite lookup_empty. by case_decide. }
  assert (pops cd self th cd' ↔ cd = 0 ∧ th = self ∧ self ≠ 0 ∨ cd ≠ 0 ∧ cd' = cd) as Hp by done.
  destruct (Z.eqb_spec cd 0) as [Hcd|Hcd]; simpl.
  - destruct (Z.eqb_spec self 0) as [Hself|Hself]; simpl; [by rewrite decide_False by tauto|].
    destruct (backup_methods_ v !! self) as [found|] eqn:E; simpl.
    + destruct (decide (th = self)) as [->|Hne].
      * by rewrite decide_True, lookup_delete_eq by naive_solver.
      * by rewrite decide_False, lookup_delete_ne by naive_solver.
    + case_decide as Hd; [|done]. apply Hp in Hd as [(_ & -> & _)|[? _]]; [|done].
      rewrite E. simpl. by rewrite lookup_empty.
  - rewrite lookup_omap. destruct (backup_methods_ v !! th) as [bc|]; simpl; [|rewrite !lookup_empty; by case_decide].
    assert (default ∅ (erase_class cd bc) = delete cd bc) as ->.
    { unfold erase_class. by case_bool_decide. }
    destruct (decide (cd' = cd)) as [->|].
    + by rewrite lookup_delete_eq, decide_True by naive_solver.
    + by rewrite lookup_delete_ne, decide_False by naive_solver.
Qed.

Section popped.
Context (s : System) (cd self : Z).
Hypothesis Hs : sys_inv s.

Abbreviation popped := (PopBackup cd self (vm s)).1.
Abbreviation i' := (restored cd self (initializing s)).

Lemma restored_lookup cls th :
  i' !! cls = Some th ↔ initializing s !! cls = Some th ∧ ¬ pops cd self th cls.
Proof using Hs.
  unfold restored, pops. destruct (Z.eqb_spec cd 0) as [->|Hcd].
  - rewrite map_lookup_filter_Some. simpl. split.
    + intros [Hi Hne]. split; [done|]. intros [(_ & -> & _)|[? _]]; done.
    + intros [Hi Hne]. split; [done|]. intros ->. destruct (si_threads _ _ _ _ s Hs _ _ Hi) as [_ Ht].
      apply Hne. by left.
  - rewrite lookup_delete_Some. naive_solver.
Qed.

(** What is taken back: what was set aside for the classes whose initialization
    ends here. *)
Lemma popped_aside t old :
  popped !! t = Some old ↔ aside_of s t = Some old ∧ i' !! class_of (vm s) t = None.
Proof using Hs.
  destruct (PopBackup_popped cd self (vm s) t) as [H1 H2].
  assert (∀ old, popped !! t = Some old → aside_of s t = Some old ∧ i' !! class_of (vm s) t = None) as Hto.
  { intros old' (th & cd' & ms & (bc & Hbc & Hms & Hp) & Ht)%H1. split; [by eapply aside_found|].
    destruct (si_aside _ _ _ _ s Hs _ _ _ _ _ _ Hbc Hms Ht) as (_ & -> & _).
    apply eq_None_not_Some. intros [th' Hi]. apply restored_lookup in Hi as [Hi Hn].
    pose proof (si_tables _ _ _ _ s Hs _ _ _ _ Hbc Hms). congruence. }
  split; [apply Hto|]. intros [Ha Hi]. pose proof Ha as (th & bc & ms & E1 & E2 & E3 & E4)%aside_of_Some.
  destruct (H2 th (class_of (vm s) t) ms) as [old' Ho]; [|by eexists|].
  - exists bc. split_and!; [done..|]. destruct (decide (pops cd self th (class_of (vm s) t))) as [|Hn]; [done|].
    assert (i' !! class_of (vm s) t = Some th) by by apply restored_lookup. congruence.
  - destruct (Hto old' Ho) as [Ha' _]. congruence.
Qed.

(** What is still set aside. *)
Lemma left_aside v' t :
  backup_methods_ v' = backup_methods_ (PopBackup cd self (vm s)).2 →
  class_of v' t = class_of (vm s) t →
  aside_of (mkSystem v' i') t = match i' !! class_of (vm s) t with Some _ => aside_of s t | None => None end.
Proof using Hs.
  intros Hb Hc. unfold System.aside_of. cbn [vm initializing]. cbv zeta. rewrite Hc, Hb.
  destruct (i' !! class_of (vm s) t) as [th|] eqn:Hi; cbn [mbind option_bind]; [|done].
  apply restored_lookup in Hi as [-> Hn]. cbn [mbind option_bind].
  rewrite !tables_lookup, PopBackup_tables. by rewrite decide_False.
Qed.

Lemma left_tables th bc cd' ms :
  backup_methods_ (PopBackup cd self (vm s)).2 !! th = Some bc → bc !! cd' = Some ms →
  ∃ bc', backup_methods_ (vm s) !! th = Some bc' ∧ bc' !! cd' = Some ms ∧ i' !! cd' = Some th.
Proof using Hs.
  intros E1 E2. pose proof (PopBackup_tables cd self (vm s) th cd') as Ht. rewrite E1 in Ht. simpl in Ht.
  rewrite E2 in Ht. case_decide as Hp; [done|].
  destruct (backup_methods_ (vm s) !! th) as [bc'|] eqn:E; simpl in Ht; [|by rewrite lookup_empty in Ht].
  exists bc'. split_and!; [done|done|]. apply restored_lookup. split; [|done].
  by eapply (si_tables _ _ _ _ s Hs).
Qed.
End popped.

(** ** The restoration *)

Section restore.
Context (bridge : Z) (interp : option (Z → Methods → Methods)).
Hypothesis interpreter : interpreter_ok bridge interp runtime_code.

Abbreviation restore_one := (restore_one c bridge interp).

(** Restoring writes entry points only. *)
Definition entries_only v v' : Prop :=
  same_shape v v' ∧ ∀ t, data (methods v' t) = data (methods v t).

Lemma entries_only_refl v : entries_only v v.
Proof. by split. Qed.

Lemma entries_only_trans v1 v2 v3 : entries_only v1 v2 → entries_only v2 v3 → entries_only v1 v3.
Proof.
  intros [S1 D1] [S2 D2]. split; [by eapply same_shape_trans|]. intros t. congruence.
Qed.

Lemma SetEntryPoint_only m e v : entries_only v (on_methods (SetEntryPoint c m e) v).
Proof.
  split; [apply same_shape_methods, SetEntryPoint_same|]. intros t. apply data_SetEntryPoint.
Qed.

Lemma SetEntryPointsToInterpreter_only m v :
  entries_only v (SetEntryPointsToInterpreter c bridge interp m v).2.
Proof using interpreter.
  destruct interpreter as [_ Hother Hsame _]. unfold SetEntryPointsToInterpreter.
  destruct (negb (bridge =? 0)); [apply SetEntryPoint_only|].
  destruct interp as [f|] eqn:E; [|apply entries_only_refl]. simpl.
  assert (∀ t, data (f m (methods v) t) = data (methods v t) ∧
    access_flags (f m (methods v) t) = access_flags (methods v t) ∧
    declaring_class (f m (methods v) t) = declaring_class (methods v t)) as Hf.
  { intros t. destruct (decide (t = m)) as [->|Hne]; [by apply Hsame|].
    by rewrite (Hother f m (methods v) t eq_refl Hne). }
  split; [|intros t; apply Hf]. apply same_shape_methods. intros t. apply Hf.
Qed.

Lemma SetEntryPointsToInterpreter_entry m v :
  let v' := (SetEntryPointsToInterpreter c bridge interp m v).2 in
  entry_of v' m = entry_of v m ∨ runtime_code (entry_of v' m).
Proof using interpreter.
  destruct interpreter as [Hbridge _ _ Hentry]. unfold SetEntryPointsToInterpreter.
  destruct (Z.eqb_spec bridge 0) as [|Hb]; cbn [negb].
  - destruct interp as [f|] eqn:E; [right|by left]. by apply Hentry.
  - right. simpl. unfold entry_of. cbn [on_methods methods]. rewrite SetEntryPoint_entry. by apply Hbridge.
Qed.

Lemma restore_one_only v p : entries_only v (restore_one v p).
Proof using interpreter.
  destruct p as [m old]. unfold ClassLinker.restore_one. cbv zeta.
  eapply entries_only_trans; [apply (SetEntryPoint_only m old)|].
  repeat case_match; try apply entries_only_refl; [apply SetEntryPoint_only|apply SetEntryPointsToInterpreter_only].
Qed.

Lemma restore_all_only l v : entries_only v (foldl restore_one v l).
Proof using interpreter.
  revert v. induction l as [|p l IH]; intros v; [apply entries_only_refl|].
  eapply entries_only_trans; [apply restore_one_only|apply IH].
Qed.

(** A method that is neither hooked nor a backup gets what was set aside for it
    back, or an entry point of the interpreter. *)
Lemma restore_one_plain v m old t :
  registry_ok (registry v) → hooked_methods_ (registry v) !! t = None →
  backuped_methods_ (registry v) !! t = None →
  if decide (t = m)
  then entry_of (restore_one v (m, old)) t = old ∨ runtime_code (entry_of (restore_one v (m, old)) t)
  else entry_of (restore_one v (m, old)) t = entry_of v t.
Proof using interpreter.
  intros Hr Hh Hb. assert (t ≠ Records.IsHooked (registry v) m ∨ Records.IsHooked (registry v) m = 0) as Hm.
  { unfold Records.IsHooked. destruct (hooked_methods_ (registry v) !! m) as [rec|] eqn:E; [left|by right].
    intros ->. by rewrite (ok_backup _ Hr _ _ E) in Hb. }
  unfold ClassLinker.restore_one. cbv zeta. case_decide as Ht.
  - subst m. unfold Records.IsHooked. cbn [on_methods registry]. rewrite Hh. cbn [negb Z.eqb].
    assert (entry_of (on_methods (SetEntryPoint c t old) v) t = old) as Ho.
    { unfold entry_of. cbn [on_methods methods]. apply SetEntryPoint_entry. }
    repeat case_match; try by left.
    pose proof (SetEntryPointsToInterpreter_entry t (on_methods (SetEntryPoint c t old) v)) as He.
    cbv zeta in He. by rewrite Ho in He.
  - assert (entry_of (on_methods (SetEntryPoint c m old) v) t = entry_of v t) as Ho.
    { unfold entry_of. cbn [on_methods methods]. by rewrite SetEntryPoint_other. }
    destruct interpreter as [_ Hother _ _].
    repeat case_match; try done; unfold entry_of in *; cbn [on_methods methods registry] in *.
    + destruct Hm as [Hm|Hm]; [by rewrite SetEntryPoint_other|].
      match goal with H : negb (_ =? 0) = true |- _ => by rewrite Hm in H end.
    + by rewrite SetEntryPointsToInterpreter_other.
Qed.

Lemma restore_all_plain l v t :
  registry_ok (registry v) → hooked_methods_ (registry v) !! t = None →
  backuped_methods_ (registry v) !! t = None → NoDup l.*1 →
  match list_to_map (M:=gmap Z Z) l !! t with
  | Some old => entry_of (foldl restore_one v l) t = old ∨ runtime_code (entry_of (foldl restore_one v l) t)
  | None => entry_of (foldl restore_one v l) t = entry_of v t
  end.
Proof using interpreter.
  intros Hr Hh Hb. revert v Hr Hh Hb. induction l as [|[m old] l IH]; intros v Hr Hh Hb Hnd; [done|].
  apply NoDup_cons in Hnd as [Hm Hnd]. cbn [foldl fst] in *.
  pose proof (restore_one_plain v m old t Hr Hh Hb) as Hone.
  destruct (restore_one_only v (m, old)) as [[Hreg _ _ _ _] _].
  specialize (IH (restore_one v (m, old))). rewrite Hreg in IH. specialize (IH Hr Hh Hb Hnd).
  change (list_to_map ((m, old) :: l)) with (<[m := old]> (list_to_map (M:=gmap Z Z) l)).
  destruct (decide (t = m)) as [->|Hne].
  - rewrite (not_elem_of_list_to_map_1 l m) in IH by done. by rewrite lookup_insert_eq, IH.
  - rewrite lookup_insert_ne by done. by rewrite Hone in IH.
Qed.

Section step.
Context (s : System) (cd self : Z).
Hypothesis Hs : sys_inv s.

Abbreviation popped := (PopBackup cd self (vm s)).1.
Abbreviation i' := (restored cd self (initializing s)).
Abbreviation v' := (RestoreBackup c bridge interp cd self (vm s)).
Abbreviation s' := (mkSystem v' i').

Lemma RestoreBackup_eq : v' = foldl restore_one (PopBackup cd self (vm s)).2 (map_to_list popped).
Proof. unfold RestoreBackup. by destruct (PopBackup cd self (vm s)). Qed.

Lemma restore_fields :
  registry v' = registry (vm s) ∧ code v' = code (vm s) ∧ stubs v' = stubs (vm s) ∧
  backup_methods_ v' = backup_methods_ (PopBackup cd self (vm s)).2 ∧
  same_methods (methods (vm s)) (methods v') ∧ ∀ t, data (methods v' t) = data (methods (vm s) t).
Proof using interpreter.
  rewrite RestoreBackup_eq. destruct (PopBackup_fields cd self (vm s)) as (Em & Er & Ec & Es).
  destruct (restore_all_only (map_to_list popped) (PopBackup cd self (vm s)).2) as [[R1 R2 R3 R4 R5] D].
  rewrite Em in R5, D. split_and!; first [congruence|done].
Qed.

Lemma restore_class t : class_of v' t = class_of (vm s) t.
Proof using interpreter. destruct restore_fields as (_ & _ & _ & _ & Hm & _). apply class_of_same, Hm. Qed.

Lemma restore_aside t :
  aside_of s' t = match i' !! class_of (vm s) t with Some _ => aside_of s t | None => None end.
Proof using Hs interpreter.
  destruct restore_fields as (_ & _ & _ & Hb & _). apply left_aside; [done|done|apply restore_class].
Qed.

(** The entry points: of a hooked method, of its backup, of another method. *)
Lemma restore_hooked t :
  hooked (vm s) t → entry_of v' t = default (entry_of (vm s) t) (popped !! t).
Proof using Hs interpreter.
  intros Ht. pose proof (si_registry _ _ _ _ _ Hs) as Hr. destruct interpreter as [_ Hother _ _].
  destruct (PopBackup_fields cd self (vm s)) as (Em & Er & _ & _).
  rewrite RestoreBackup_eq, restore_all_hooked; unfold hooked; rewrite ?Er; try done; [|apply NoDup_fst_map_to_list].
  rewrite list_to_map_to_list. unfold entry_of. by rewrite Em.
Qed.

Lemma restore_backup t rec :
  hooked_methods_ (registry (vm s)) !! t = Some rec →
  entry_of v' (Records.backup rec) =
    match popped !! t with
    | Some old => if decide (IsDeoptimized (registry (vm s)) t = false ∧ entry_of (vm s) t ≠ old)
                  then entry_of (vm s) t else entry_of (vm s) (Records.backup rec)
    | None => entry_of (vm s) (Records.backup rec)
    end.
Proof using Hs interpreter.
  intros Hrec. pose proof (si_registry _ _ _ _ _ Hs) as Hr. destruct interpreter as [_ Hother _ _].
  destruct (PopBackup_fields cd self (vm s)) as (Em & Er & _ & _).
  assert (Records.backup rec ∉ (map_to_list popped).*1) as Hnotin.
  { intros ([m e] & E & Hin%elem_of_map_to_list)%list_elem_of_fmap. simpl in E. subst m.
    apply (popped_aside s cd self Hs) in Hin as [Ha _].
    destruct (aside_app _ _ _ _ s _ _ Hs Ha) as [Happ _]. by apply (si_app _ _ _ _ s Hs) in Hrec as [_ ?]. }
  pose proof (restore_all_backup c bridge interp Hother (map_to_list popped) (PopBackup cd self (vm s)).2 t) as H.
  rewrite Er in H. rewrite (IsHooked_record _ _ _ Hrec), list_to_map_to_list in H.
  rewrite RestoreBackup_eq, H; try done; [|unfold hooked; rewrite Er; by eexists|apply NoDup_fst_map_to_list].
  unfold entry_of. by rewrite Em.
Qed.

Lemma restore_other t :
  app t → hooked_methods_ (registry (vm s)) !! t = None →
  match popped !! t with
  | Some old => entry_of v' t = old ∨ runtime_code (entry_of v' t)
  | None => entry_of v' t = entry_of (vm s) t
  end.
Proof using Hs interpreter.
  intros Ht Hu. pose proof (si_registry _ _ _ _ _ Hs) as Hr.
  destruct (PopBackup_fields cd self (vm s)) as (Em & Er & _ & _).
  pose proof (restore_all_plain (map_to_list popped) (PopBackup cd self (vm s)).2 t) as H.
  rewrite Er in H. rewrite list_to_map_to_list in H. rewrite RestoreBackup_eq.
  specialize (H Hr Hu (app_not_backup _ _ _ _ s t Hs Ht) (NoDup_fst_map_to_list _)).
  destruct (popped !! t); [done|]. rewrite H. unfold entry_of. by rewrite Em.
Qed.

(** What is popped was set aside; what stays set aside is not popped. *)
Lemma restore_cases t :
  match popped !! t with
  | Some old => aside_of s t = Some old ∧ aside_of s' t = None
  | None => aside_of s' t = aside_of s t
  end.
Proof using Hs interpreter.
  rewrite restore_aside. destruct (popped !! t) as [old|] eqn:E.
  - apply (popped_aside s cd self Hs) in E as [-> ->]. done.
  - destruct (i' !! class_of (vm s) t) as [th|] eqn:Ei; [done|].
    destruct (aside_of s t) as [old|] eqn:Ea; [|done].
    assert (popped !! t = Some old) by by apply (popped_aside s cd self Hs). congruence.
Qed.

Lemma restore_settled t : hooked (vm s) t → settled_entry s' t = settled_entry s t.
Proof using Hs interpreter.
  intros Ht. unfold System.settled_entry. cbn [vm]. rewrite (restore_hooked t Ht).
  pose proof (restore_cases t) as Hc. destruct (popped !! t) as [old|]; simpl.
  - by destruct Hc as [-> ->].
  - by rewrite Hc.
Qed.

(** The code of a method afterwards. *)
Lemma restore_own_code t :
  app t → own_code s' t =
    match hooked_methods_ (registry (vm s)) !! t with
    | Some rec => (data (methods (vm s) (Records.backup rec)), entry_of v' (Records.backup rec))
    | None => (data (methods (vm s) t), match popped !! t with Some _ => entry_of v' t | None => settled_entry s t end)
    end.
Proof using Hs interpreter.
  intros Ht. pose proof (si_registry _ _ _ _ _ Hs) as Hr. destruct restore_fields as (Er & _ & _ & _ & _ & Ed).
  unfold System.own_code, System.settled_entry. cbn [vm]. cbv zeta. rewrite Er.
  destruct (hooked_methods_ (registry (vm s)) !! t) as [rec|] eqn:Hrec.
  - rewrite (MayGetBackup_hooked _ t rec Hr Hrec), Ed, restore_aside.
    rewrite (aside_not_app _ _ _ _ s _ Hs) by by apply (si_app _ _ _ _ s Hs) in Hrec as [_ ?].
    by destruct (i' !! _).
  - rewrite MayGetBackup_unhooked, Ed by done. pose proof (restore_cases t) as Hc.
    pose proof (restore_other t Ht Hrec) as Ho.
    destruct (popped !! t) as [old|]; [by destruct Hc as [_ ->]|]. by rewrite Hc, Ho.
Qed.

Lemma restore_inv : sys_inv s'.
Proof using Hs interpreter cur_supported.
  pose proof (si_registry _ _ _ _ _ Hs) as Hr. pose proof Hs as [H1 H2 H3 H4 H5 H6 H7 H8 H9 H10 H11 H12].
  destruct restore_fields as (Er & Ec & Es & Eb & Em & Ed).
  assert (∀ cls th, i' !! cls = Some th → initializing s !! cls = Some th) as Hi.
  { intros cls th Hi. by apply (restored_lookup s cd self Hs) in Hi as [? _]. }
  split; cbn [vm initializing]; rewrite ?Er, ?Es; try done.
  - apply (methods_frame_inv cur GetClassDef cur_supported (settle GetClassDef s)); cbn [vm];
      rewrite ?Er, ?Ec, ?Es; try done; [by cbn; rewrite Er|by cbn; rewrite Er..|].
    intros t Ht. split; [by apply restore_settled|]. cbn. apply Em.
  - intros t rec Hrec. destruct (Em t) as [_ ->], (Em (Records.backup rec)) as [_ ->]. by apply H3.
  - intros th bc cd' ms E1 E2. rewrite Eb in E1. by destruct (left_tables s cd self Hs th bc cd' ms E1 E2) as (? & _ & _ & ?).
  - intros th bc cd' ms t old E1 E2 E3. rewrite Eb in E1. rewrite restore_class. unfold hooked. rewrite Er.
    destruct (left_tables s cd self Hs th bc cd' ms E1 E2) as (bc' & E4 & E5 & _). by eapply H5.
  - intros t. unfold hooked, quiet. cbn [vm initializing]. rewrite Er, restore_class, restore_aside.
    rewrite (static_same _ _ t Em). intros Hor Hst.
    destruct (i' !! class_of (vm s) t) as [th|] eqn:E; [|by left].
    destruct (H6 t Hor Hst) as [Hq|]; [|by right]. unfold quiet in Hq. rewrite (Hi _ _ E) in Hq. done.
  - intros t. rewrite restore_class. apply H7.
  - intros cd' t. rewrite restore_class. apply H8.
  - intros t old Ha. pose proof (restore_cases t) as Hc. destruct (popped !! t) as [old'|] eqn:Ep.
    { destruct Hc. congruence. }
    rewrite Hc in Ha. destruct (aside_app _ _ _ _ s t old Hs Ha) as [Ht _].
    assert (entry_of v' t = entry_of (vm s) t) as ->; [|by apply H9].
    destruct (hooked_methods_ (registry (vm s)) !! t) as [rec|] eqn:Hrec.
    + rewrite restore_hooked by by eexists. by rewrite Ep.
    + pose proof (restore_other t Ht Hrec) as Ho. by rewrite Ep in Ho.
  - intros t Ht. rewrite restore_own_code by done. pose proof (H10 t Ht) as Hcode.
    pose proof (restore_cases t) as Hc.
    destruct (hooked_methods_ (registry (vm s)) !! t) as [rec|] eqn:Hrec; cbn [snd].
    + rewrite (own_code_hooked _ _ _ _ s t rec Hs Hrec) in Hcode. rewrite (restore_backup t rec Hrec).
      destruct (popped !! t) as [old|]; [|done]. case_decide as Hd; [|done].
      destruct Hc as [Ha _]. destruct (H9 t old Ha) as [|]; [by destruct Hd|done].
    + rewrite (own_code_unhooked _ s t Hrec) in Hcode. pose proof (restore_other t Ht Hrec) as Ho.
      destruct (popped !! t) as [old|]; [|done]. destruct Ho as [->|]; [|done].
      destruct Hc as [Ha _]. unfold System.settled_entry in Hcode. by rewrite Ha in Hcode.
  - intros cls th E. by apply (H12 cls), Hi.
Qed.

(** The end of an initialization gives the code the runtime wrote in between to
    the backups of hooked methods. *)
Lemma restore_step a :
  sim a s → step_ok a (restore_events s popped v') s'.
Proof using Hs interpreter cur_supported.
  intros Ha. split; [apply restore_inv|]. pose proof Ha as [S1 S2 S3 S4].
  destruct restore_fields as (Er & Ec & _). split; cbn [vm]; rewrite ?Er, ?Ec; try done.
  - intros t Ht. rewrite restore_own_code by done. unfold restore_events.
    cbn [app_run foldl]. cbn [app_step codes interpreted]. unfold give_entries. rewrite S1 by done.
    pose proof (S2 t Ht) as Hi. unfold Records.IsHooked. pose proof (restore_cases t) as Hc.
    destruct (hooked_methods_ (registry (vm s)) !! t) as [rec|] eqn:Hrec.
    + destruct (ok_nonnull _ (si_registry _ _ _ _ _ Hs) _ _ Hrec) as [_ Hb].
      rewrite (proj2 (Z.eqb_neq _ _) Hb), (restore_backup t rec Hrec), (own_code_hooked _ _ _ _ s t rec Hs Hrec).
      destruct (popped !! t) as [old|]; cbn [mbind option_bind negb andb];
        [|by repeat case_bool_decide].
      case_bool_decide as Hin; cbn [negb].
      * rewrite decide_False by (intros [? _]; rewrite (proj1 Hi Hin) in *; done). done.
      * destruct (Z.eqb_spec (entry_of (vm s) t) old) as [E|E]; cbn [negb].
        -- by rewrite decide_False by tauto.
        -- rewrite decide_True; [done|]. split; [|done].
           destruct (IsDeoptimized _ t); [|done]. by destruct Hin; apply Hi.
    + rewrite (own_code_unhooked _ s t Hrec). cbn [Z.eqb negb andb].
      destruct (popped !! t) as [old|]; cbn [mbind option_bind]; [|by repeat case_bool_decide].
      destruct Hc as [Hold _]. destruct (aside_app _ _ _ _ s t old Hs Hold) as [_ [[rec ?]|Hd]]; [congruence|].
      by rewrite !bool_decide_eq_true_2 by by apply Hi.
  - intros t rec Hrec. rewrite restore_settled by by eexists. by apply S4.
Qed.
End step.
End restore.
End classes.
