(* ===== verification/SystemApi.v ===== *)
(** * Calls of the API keep the invariant of the system

    The steps of [System.v] that are calls of [HookApi.v], made while classes of
    other methods may be in the middle of their initialization. *)

From S2P Require Import Prelude Memory Platform ArtMethod Records Trampoline Vm MirrorClass ClassLinker.
From S2P Require Import ClassInit HookApi HookSpec System SystemInv SystemRuntime SystemClass.

Section calls.
Context (cur : Arch) (c : Config) (GetClassDef : Z → Z) (app runtime_code : Z → Prop).
Hypothesis cur_supported : cur ∈ supported.
Implicit Types (v : Vm) (s : System) (h : Methods) (t m e self : Z) (a : App).

Abbreviation class_of := (class_def_of GetClassDef).
Abbreviation aside_of := (aside_of GetClassDef).
Abbreviation settled_entry := (settled_entry GetClassDef).
Abbreviation settle := (settle GetClassDef).
Abbreviation own_code := (own_code GetClassDef).
Abbreviation quiet := (quiet GetClassDef).
Abbreviation sys_inv := (sys_inv cur GetClassDef app runtime_code).
Abbreviation sim := (sim cur GetClassDef app).
Abbreviation step_ok := (step_ok cur GetClassDef app runtime_code).

(** ** Steps that leave what is set aside alone *)

Section frame.
Context (s : System) (v' : Vm).
Hypothesis Hs : sys_inv s.
Hypothesis same_backups : backup_methods_ v' = backup_methods_ (vm s).
Hypothesis same_class : ∀ t, app t → declaring_class (methods v' t) = declaring_class (methods (vm s) t).

Abbreviation s' := (mkSystem v' (initializing s)).

Lemma call_class t : app t → class_of v' t = class_of (vm s) t.
Proof using same_class. intros Ht. by apply class_of_same, same_class. Qed.

Lemma call_aside t : aside_of s' t = aside_of s t.
Proof using Hs same_backups same_class.
  assert (∀ t, app t → aside_of s' t = aside_of s t) as Happ.
  { intros x Hx. unfold System.aside_of. cbn [vm initializing]. cbv zeta.
    by rewrite (call_class x Hx), same_backups. }
  assert (∀ old, aside_of s' t = Some old → app t) as Hin.
  { intros old (self & bc & ms & E1 & E2 & E3 & E4)%aside_of_Some. cbn [vm] in *. rewrite same_backups in E2.
    by destruct (si_aside _ _ _ _ s Hs _ _ _ _ _ _ E2 E3 E4). }
  destruct (aside_of s' t) as [old|] eqn:E; [rewrite <-E; by apply Happ, (Hin old)|].
  destruct (aside_of s t) as [old|] eqn:E'; [|done].
  destruct (aside_app _ _ _ _ s t old Hs E') as [Ht _]. rewrite <-E, <-E'. by apply Happ.
Qed.

Lemma call_settled t : entry_of v' t = entry_of (vm s) t → settled_entry s' t = settled_entry s t.
Proof using Hs same_backups same_class.
  intros He. unfold System.settled_entry. cbn [vm]. by rewrite call_aside, He.
Qed.

(** What is left to show for such a step. *)
Lemma call_inv :
  api_inv cur GetClassDef (settle s') →
  (∀ t rec, hooked_methods_ (registry v') !! t = Some rec →
     app t ∧ ¬ app (Records.backup rec) ∧
     declaring_class (methods v' (Records.backup rec)) = declaring_class (methods v' t) ∧
     IsDeoptimized (registry v') (Records.backup rec) = true) →
  (∀ t, aside_of s t ≠ None → (hooked v' t ∨ IsDeoptimized (registry v') t = true) ∧
     entry_of v' t = entry_of (vm s) t) →
  (∀ t, app t → hooked v' t ∨ IsDeoptimized (registry v') t = true →
     quiet s t ∨ (hooked (vm s) t ∨ IsDeoptimized (registry (vm s)) t = true) ∧
                 IsStatic (methods v') t = IsStatic (methods (vm s)) t) →
  (∀ t, app t → IsDeoptimized (registry v') t = true →
     in_class (deoptimized_classes_ (registry v')) (class_of (vm s) t) t) →
  (∀ cd t, in_class (deoptimized_classes_ (registry v')) cd t → app t →
     cd = class_of (vm s) t ∧ IsDeoptimized (registry v') t = true) →
  (∀ t, app t → runtime_code (own_code s' t).2) →
  (∀ stub, stub ∈ stubs v' → ¬ runtime_code stub) →
  sys_inv s'.
Proof using Hs same_backups same_class.
  intros Hapi Hhooks Haside Hcovered Hdeopt Hdeopt_class Hcode Hstubs.
  pose proof Hs as [H1 H2 H3 H4 H5 H6 H7 H8 H9 H10 H11 H12].
  split; cbn [vm initializing]; rewrite ?same_backups; try done.
  - intros t rec Hrec. by destruct (Hhooks t rec Hrec) as (? & ? & _).
  - intros t rec Hrec. by destruct (Hhooks t rec Hrec) as (_ & _ & ? & ?).
  - intros self bc cd ms t old E1 E2 E3. destruct (H5 _ _ _ _ _ _ E1 E2 E3) as (Ht & Hc & _).
    rewrite call_class by done. split_and!; [done..|]. apply Haside.
    by rewrite (aside_found _ _ _ _ s _ _ _ _ _ _ Hs E1 E2 E3).
  - intros t Hor Hst. rewrite call_aside. assert (app t) as Ht.
    { destruct Hor as [[rec Hrec]|[? _]]; [by destruct (Hhooks t rec Hrec)|done]. }
    assert (quiet s' t ↔ quiet s t) as ->.
    { unfold System.quiet. cbn [vm initializing]. by rewrite call_class. }
    destruct (Hcovered t Ht) as [|[Hor' Hs2]]; [by destruct Hor as [|[_ ?]]; auto|by left|].
    apply H6; [tauto|congruence].
  - intros t Ht Hd. rewrite call_class by done. by apply Hdeopt.
  - intros cd t Hin Ht. rewrite call_class by done. by apply Hdeopt_class.
  - intros t old. rewrite call_aside. intros Ho. destruct (Haside t) as [_ ->]; [by rewrite Ho|]. by apply H9.
Qed.
End frame.

(** ** [SetHookEnabled] *)

Lemma SetHookEnabled_eq target enable rec v :
  hooked_methods_ (registry v) !! target = Some rec → enabled rec ≠ enable →
  let sw := switch_stub cur c (code v) (method_entry_slot rec)
    (if enable then Records.backup rec else Records.hook rec) in
  SetHookEnabled cur c true target enable v =
    (negb enable, on_registry (with_hooked <[target := mkHookRecord (Records.hook rec) (Records.backup rec)
       sw.2 (backup_method rec) enable]>) (on_code (λ _, sw.1) v)).
Proof.
  intros Hrec Hne sw. unfold SetHookEnabled. cbn [negb]. rewrite Hrec.
  rewrite (proj2 (eqb_false_iff _ _) Hne). unfold sw. by destruct (switch_stub _ _ _ _ _).
Qed.

Lemma SetHookEnabled_same ex target enable v :
  (∀ rec, ex = true → hooked_methods_ (registry v) !! target = Some rec → enabled rec = enable) →
  (SetHookEnabled cur c ex target enable v).2 = v.
Proof.
  intros H. unfold SetHookEnabled. destruct ex; [|done]. cbn [negb].
  destruct (hooked_methods_ (registry v) !! target) as [rec|]; [|done].
  by rewrite (H rec eq_refl eq_refl), eqb_reflx.
Qed.

Lemma step_ok_same a s : sys_inv s → sim a s → step_ok a [] (mkSystem (vm s) (initializing s)).
Proof. by destruct s. Qed.

(** The state [SetHookEnabled] leaves: the stub and the record. *)
Section set_enabled.
Context (s : System) (target slot : Z) (enable : bool) (rec : HookRecord) (code' : mem).
Hypothesis (Hs : sys_inv s) (Hrec : hooked_methods_ (registry (vm s)) !! target = Some rec).

Abbreviation rec' := (mkHookRecord (Records.hook rec) (Records.backup rec) slot (backup_method rec) enable).
Abbreviation v' := (on_registry (with_hooked <[target := rec']>) (on_code (λ _, code') (vm s))).
Abbreviation s' := (mkSystem v' (initializing s)).

Lemma enabled_lookup t rec0 : hooked_methods_ (registry v') !! t = Some rec0 →
  ∃ rec1, hooked_methods_ (registry (vm s)) !! t = Some rec1 ∧ Records.backup rec0 = Records.backup rec1.
Proof using Hrec. simpl. intros [[<- <-]|[_ H]]%lookup_insert_Some; eauto. Qed.

Lemma enabled_IsHooked t : Records.IsHooked (registry v') t = Records.IsHooked (registry (vm s)) t.
Proof using Hrec.
  unfold Records.IsHooked. simpl. destruct (decide (t = target)) as [->|Hne].
  - by rewrite lookup_insert_eq, Hrec.
  - by rewrite lookup_insert_ne.
Qed.

Lemma enabled_settled t : settled_entry s' t = settled_entry s t.
Proof using Hs. by apply call_settled. Qed.

Lemma enabled_own_code t : own_code s' t = own_code s t.
Proof using Hs Hrec.
  unfold System.own_code, MayGetBackup. cbn [vm]. cbv zeta. by rewrite enabled_IsHooked, enabled_settled.
Qed.

Lemma enabled_inv : api_inv cur GetClassDef (settle s') → sys_inv s'.
Proof using Hs Hrec.
  intros Hapi. pose proof Hs as [H1 H2 H3 H4 H5 H6 H7 H8 H9 H10 H11 H12].
  assert (∀ t, hooked v' t ↔ hooked (vm s) t) as Hh.
  { intros t. unfold hooked. simpl. rewrite lookup_insert_is_Some. destruct (decide (target = t)) as [<-|].
    - split; [by eexists|by left].
    - tauto. }
  apply call_inv; try done.
  - intros t rec0 H. destruct (enabled_lookup t rec0 H) as (rec1 & Hrec1 & ->).
    destruct (H2 t rec1 Hrec1), (H3 t rec1 Hrec1). done.
  - intros t Ha. split; [|done]. rewrite Hh. destruct (aside_of s t) as [old|] eqn:E; [|done].
    by destruct (aside_app _ _ _ _ s t old Hs E).
  - intros t Ht. rewrite Hh. by right.
  - intros t Ht. rewrite enabled_own_code. by apply H10.
Qed.
End set_enabled.

Lemma set_enabled_step (ex : bool) target (enable : bool) a s :
  sys_inv s → sim a s →
  step_ok a (if ex then [EvSetEnabled target enable] else [])
    (mkSystem (SetHookEnabled cur c ex target enable (vm s)).2 (initializing s)).
Proof using cur_supported.
  intros Hs Ha. pose proof Ha as [S1 S2 S3 S4]. destruct ex; [|by apply step_ok_same].
  destruct (hooked_methods_ (registry (vm s)) !! target) as [rec|] eqn:Hrec.
  2: { rewrite SetHookEnabled_same by (intros rec0 _ ?; congruence).
       destruct (step_ok_same a s Hs Ha) as [Hi Hsim]. split; [done|]. cbn. by rewrite (S3 target Hrec). }
  destruct (S4 target rec Hrec) as (runs & Hah & _). destruct (decide (enabled rec = enable)) as [E|E].
  { rewrite SetHookEnabled_same by (intros rec0 _ ?; congruence).
    destruct (step_ok_same a s Hs Ha) as [Hi Hsim]. split; [done|]. cbn. by rewrite Hah, E, eqb_reflx. }
  pose proof (SetHookEnabled_switch cur c GetClassDef cur_supported (settle s) target enable rec
    (si_api _ _ _ _ s Hs) Hrec E) as Hsw.
  rewrite (SetHookEnabled_eq target enable rec (settle s) Hrec E) in Hsw.
  rewrite (SetHookEnabled_eq target enable rec (vm s) Hrec E). cbn [snd].
  change (code (settle s)) with (code (vm s)) in Hsw.
  destruct (switch_stub _ _ _ _ _) as [code' slot]. cbn [fst snd] in *. destruct Hsw as (_ & _ & Ht & Ho & Hapi).
  assert (sys_inv (mkSystem (on_registry (with_hooked <[target := mkHookRecord (Records.hook rec) (Records.backup rec)
    slot (backup_method rec) enable]>) (on_code (λ _, code') (vm s))) (initializing s))) as Hs'.
  { apply enabled_inv; [done|done|].
    match type of Hapi with api_inv _ _ ?w => apply (methods_frame_inv cur GetClassDef cur_supported w) end;
      try done. by apply inv_registry in Hapi. }
  split; [done|]. cbn [app_run foldl app_step]. rewrite Hah. cbn [hook_enabled app_hook].
  rewrite (proj2 (eqb_false_iff _ _) E).
  split; cbn [codes interpreted app_hooks]; [| |intros t|intros t rec0].
  - intros t Happ. rewrite enabled_own_code by done. by apply S1.
  - done.
  - simpl. intros [Hn Hne]%lookup_insert_None. rewrite lookup_insert_ne by done. by apply S3.
  - rewrite enabled_settled by done. simpl. intros [[<- <-]|[Hne H0]]%lookup_insert_Some.
    + exists (negb enable). rewrite lookup_insert_eq. split; [done|]. cbn in Ht.
      rewrite Ht. by destruct enable.
    + rewrite lookup_insert_ne by done. destruct (S4 t rec0 H0) as (runs0 & Hr0 & Ht0). exists runs0.
      split; [done|]. rewrite <-Ht0. apply (Ho t); [congruence|by eexists].
Qed.

(** ** [UnHook] *)

(** The state [UnHook] leaves when it finds the record. *)
Definition unhooked_state target (id : Z) (rec : HookRecord) v : Vm :=
  on_internal (propagate (backup_method rec) id)
    (on_methods (λ h, SetAccessFlags target (GetAccessFlags (methods v) target)
                        (CopyFrom target (Records.backup rec) h))
       (on_registry (ForgetHooked target (Records.backup rec) (class_of v target)) v)).

Lemma UnHook_eq target id rec v :
  hooked_methods_ (registry v) !! target = Some rec →
  UnHook GetClassDef true target id v = (true, unhooked_state target id rec v).
Proof. intros Hrec. unfold UnHook. cbn [negb]. by rewrite Hrec. Qed.

Section unhook.
Context (s : System) (target id : Z) (rec : HookRecord).
Hypothesis (Hs : sys_inv s) (Hrec : hooked_methods_ (registry (vm s)) !! target = Some rec).
Hypothesis Hquiet : quiet s target.

Abbreviation v' := (unhooked_state target id rec (vm s)).
Abbreviation s' := (mkSystem v' (initializing s)).

Lemma unhook_other t : t ≠ target → methods v' t = methods (vm s) t.
Proof.
  intros Ht. unfold unhooked_state. cbn [on_internal on_methods methods SetAccessFlags CopyFrom methods_store].
  by rewrite fn_lookup_alter_ne, fn_lookup_insert_ne by done.
Qed.

(** The method has the code and class of its backup. *)
Lemma unhook_target :
  native_code (methods v') target = native_code (methods (vm s)) (Records.backup rec) ∧
  declaring_class (methods v' target) = declaring_class (methods (vm s) (Records.backup rec)).
Proof.
  unfold unhooked_state, native_code. cbn [on_internal on_methods methods SetAccessFlags CopyFrom methods_store].
  by rewrite fn_lookup_alter, fn_lookup_insert.
Qed.

Lemma unhook_class t : declaring_class (methods v' t) = declaring_class (methods (vm s) t).
Proof using Hs Hrec.
  destruct (decide (t = target)) as [->|Ht]; [|by rewrite unhook_other].
  destruct unhook_target as [_ ->]. by destruct (si_backup _ _ _ _ s Hs target rec Hrec).
Qed.

Lemma unhook_lookup t :
  hooked_methods_ (registry v') !! t = if decide (t = target) then None else hooked_methods_ (registry (vm s)) !! t.
Proof. apply ForgetHooked_lookup. Qed.

Lemma unhook_settled t : t ≠ target → settled_entry s' t = settled_entry s t.
Proof using Hs Hrec.
  intros Ht. apply call_settled; [done|done|intros x _; apply unhook_class|]. unfold entry_of. by rewrite unhook_other.
Qed.

(** No method's code changes. *)
Lemma unhook_own_code t : app t → own_code s' t = own_code s t.
Proof using Hs Hrec Hquiet.
  intros Ht. pose proof (si_registry _ _ _ _ _ Hs) as Hr. destruct (decide (t = target)) as [->|Hne].
  - rewrite own_code_unhooked by (cbn [vm]; by rewrite unhook_lookup, decide_True).
    rewrite (own_code_hooked _ _ _ _ s target rec Hs Hrec). destruct unhook_target as [<- _].
    unfold native_code. f_equal. apply settled_quiet. unfold System.quiet in *. cbn [vm initializing].
    by rewrite (class_of_same _ (vm s)) by apply unhook_class.
  - unfold System.own_code. cbn [vm]. cbv zeta.
    assert (MayGetBackup (registry v') t = MayGetBackup (registry (vm s)) t) as ->.
    { unfold MayGetBackup, Records.IsHooked. by rewrite unhook_lookup, decide_False. }
    assert (MayGetBackup (registry (vm s)) t ≠ target) as Hm.
    { intros E. apply (MayGetBackup_not_hooked cur GetClassDef app runtime_code s t Hs). rewrite E. by eexists. }
    by rewrite unhook_settled, unhook_other.
Qed.

Lemma unhook_inv : sys_inv s'.
Proof using Hs Hrec Hquiet cur_supported.
  pose proof (si_registry _ _ _ _ _ Hs) as Hr. pose proof Hs as [H1 H2 H3 H4 H5 H6 H7 H8 H9 H10 H11 H12].
  assert (∀ t rec0, hooked_methods_ (registry v') !! t = Some rec0 →
    t ≠ target ∧ hooked_methods_ (registry (vm s)) !! t = Some rec0) as Hkeep.
  { intros t rec0. rewrite unhook_lookup. by case_decide. }
  apply call_inv; try done.
  - intros t _. apply unhook_class.
  - pose proof (UnHook_hooked cur GetClassDef cur_supported (settle s) target id rec H1 Hrec) as Hu.
    rewrite (UnHook_eq target id rec (settle s) Hrec) in Hu. destruct Hu as (_ & _ & _ & _ & _ & Ho & _ & Hapi).
    apply (methods_frame_inv cur GetClassDef cur_supported (unhooked_state target id rec (settle s)));
      try done; [by apply inv_registry in Hapi|].
    intros t [rec0 Ht]. destruct (Hkeep t rec0 Ht) as [Hne _]. unfold entry_of at 2. rewrite (Ho t Hne).
    split; [by apply unhook_settled|]. cbn. by rewrite fn_lookup_alter_ne, fn_lookup_insert_ne.
  - intros t rec0 H. destruct (Hkeep t rec0 H) as [Hne H0]. destruct (H2 t rec0 H0), (H3 t rec0 H0) as [Hc ?].
    split_and!; try done. rewrite !unhook_class. done.
  - intros t Ha. assert (t ≠ target) as Hne by (intros ->; by rewrite (aside_quiet _ s target Hquiet) in Ha).
    unfold entry_of. rewrite unhook_other by done. split; [|done].
    destruct (aside_of s t) as [old|] eqn:E; [|done]. destruct (aside_app _ _ _ _ s t old Hs E) as [_ [[rec0 Hh]|?]];
      [left|by right]. exists rec0. by rewrite unhook_lookup, decide_False.
  - intros t Ht Hor. destruct (decide (t = target)) as [->|Hne]; [by left|right]. split.
    + destruct Hor as [[rec0 H0]|?]; [left|by right]. destruct (Hkeep t rec0 H0). by eexists.
    + unfold IsStatic, GetAccessFlags. cbn [view methods_store]. by rewrite unhook_other.
  - intros t Ht. rewrite unhook_own_code by done. by apply H10.
Qed.

Lemma unhook_sim a : sim a s → sim (app_run [EvUnHook target] a) s'.
Proof using Hs Hrec Hquiet.
  intros [S1 S2 S3 S4]. split; cbn [app_run foldl app_step codes interpreted app_hooks vm]; [|done|..].
  - intros t Ht. rewrite unhook_own_code by done. by apply S1.
  - intros t. rewrite unhook_lookup, lookup_delete_None. case_decide; auto.
  - intros t rec0. rewrite unhook_lookup. case_decide as Hne; [done|]. rewrite lookup_delete_ne by done.
    rewrite unhook_settled by done. apply S4.
Qed.
End unhook.

Lemma unhook_step (ex : bool) target id a s :
  sys_inv s → sim a s → quiet s target →
  let '(ok, v') := UnHook GetClassDef ex target id (vm s) in
  step_ok a (if ok then [EvUnHook target] else []) (mkSystem v' (initializing s)).
Proof using cur_supported.
  intros Hs Ha Hq. destruct ex; [|by apply step_ok_same].
  destruct (hooked_methods_ (registry (vm s)) !! target) as [rec|] eqn:Hrec.
  - rewrite (UnHook_eq target id rec (vm s) Hrec). split; [by apply unhook_inv|by apply unhook_sim].
  - unfold UnHook. cbn [negb]. rewrite Hrec. by apply step_ok_same.
Qed.

(** ** [Deoptimize] *)

Section deoptimize.
Context (bridge : Z) (interp : option (Z → Methods → Methods)).
Hypothesis interpreter : interpreter_ok bridge interp runtime_code.

(** The state before the entry point is set, and the method it is set of. *)
Definition recorded_state m v : Vm :=
  on_registry (RecordDeoptimized (class_of v m) m (GetEntryPoint (methods v) m)) v.

Lemma Deoptimize_eq (ex : bool) m v :
  Deoptimize c GetClassDef bridge interp ex m v = (false, v) ∨
  Deoptimize c GetClassDef bridge interp ex m v =
    (true, (SetEntryPointsToInterpreter c bridge interp (MayGetBackup (registry v) m) (recorded_state m v)).2).
Proof.
  unfold Deoptimize. destruct ex; [|by left]. cbn [negb].
  destruct (CanSetEntryPointsToInterpreter bridge interp) eqn:E; cbn [negb]; [|by left].
  destruct (IsNative (methods v) m); [by left|right].
  change (if negb (Records.IsHooked (registry (recorded_state m v)) m =? 0) then _ else m)
    with (MayGetBackup (registry v) m). fold (recorded_state m v).
  unfold CanSetEntryPointsToInterpreter in E. unfold SetEntryPointsToInterpreter.
  destruct (negb (bridge =? 0)); [done|]. destruct interp; done.
Qed.

Context (s : System) (m : Z).
Hypothesis (Hs : sys_inv s) (Hm : app m) (Hquiet : quiet s m).

Abbreviation m' := (MayGetBackup (registry (vm s)) m).
Abbreviation v' := ((SetEntryPointsToInterpreter c bridge interp m' (recorded_state m (vm s))).2).
Abbreviation s' := (mkSystem v' (initializing s)).

Lemma deoptimized_shape : same_shape (recorded_state m (vm s)) v' ∧ ∀ t, data (methods v' t) = data (methods (vm s) t).
Proof using interpreter.
  by destruct (SetEntryPointsToInterpreter_only c runtime_code bridge interp interpreter m' (recorded_state m (vm s))).
Qed.

Lemma deoptimized_other t : t ≠ m' → entry_of v' t = entry_of (vm s) t.
Proof using interpreter.
  intros Ht. unfold entry_of. destruct interpreter as [_ Hother _ _].
  by rewrite (SetEntryPointsToInterpreter_other c bridge interp Hother).
Qed.

(** The method that is set is not hooked, and nothing is set aside for it. *)
Lemma deoptimized_method : ¬ hooked (vm s) m' ∧ aside_of s m' = None.
Proof using Hs Hquiet.
  split; [intros Hh; by apply (MayGetBackup_not_hooked cur GetClassDef app runtime_code s m Hs)|].
  pose proof (si_registry _ _ _ _ _ Hs) as Hr.
  destruct (hooked_methods_ (registry (vm s)) !! m) as [rec|] eqn:Hrec.
  - rewrite (MayGetBackup_hooked _ m rec Hr Hrec). apply (aside_not_app cur GetClassDef app runtime_code s _ Hs).
    by apply (si_app _ _ _ _ s Hs) in Hrec as [_ ?].
  - rewrite MayGetBackup_unhooked by done. by apply aside_quiet.
Qed.

Lemma deoptimized_settled t : t ≠ m' → settled_entry s' t = settled_entry s t.
Proof using Hs interpreter.
  intros Ht. destruct deoptimized_shape as [[Hr Hb _ _ Hsame] _].
  apply call_settled; [done|done| |by apply deoptimized_other]. intros x _. apply Hsame.
Qed.

Lemma deoptimized_own_code t :
  app t → own_code s' t = if t =? m then ((own_code s m).1, entry_of v' m') else own_code s t.
Proof using Hs Hm Hquiet interpreter.
  intros Ht. destruct deoptimized_shape as [[Hr Hb _ _ Hsame] Hd]. destruct deoptimized_method as [_ Ha].
  assert (MayGetBackup (registry v') t = MayGetBackup (registry (vm s)) t) as E by by rewrite Hr.
  pose proof (MayGetBackup_owner cur GetClassDef app runtime_code s t m Hs Ht) as Hmt.
  assert (code_owner (vm s) m = m) as Howner.
  { unfold code_owner, IsBackup. by rewrite (app_not_backup _ _ _ _ s m Hs Hm). }
  rewrite Howner in Hmt. unfold System.own_code at 1. cbn [vm]. cbv zeta. rewrite E, Hd.
  destruct (Z.eqb_spec t m) as [->|Hne].
  - unfold System.own_code. cbv zeta. cbn [fst]. f_equal. unfold System.settled_entry. cbn [vm].
    rewrite call_aside by (done || intros x _; apply Hsame). by rewrite Ha.
  - rewrite deoptimized_settled; [done|]. tauto.
Qed.

Lemma deoptimized_mono t : IsDeoptimized (registry v') t = true ↔
  t = m ∨ IsDeoptimized (registry (vm s)) t = true.
Proof using interpreter.
  destruct deoptimized_shape as [[-> _ _ _ _] _]. unfold IsDeoptimized. simpl. rewrite !bool_decide_eq_true.
  destruct (decide (t = m)) as [->|Hne].
  - rewrite lookup_emplace_same. naive_solver.
  - rewrite lookup_emplace_other by done. naive_solver.
Qed.

Lemma deoptimize_inv : sys_inv s'.
Proof using Hs Hm Hquiet interpreter cur_supported.
  pose proof (si_registry _ _ _ _ _ Hs) as Hr. pose proof Hs as [H1 H2 H3 H4 H5 H6 H7 H8 H9 H10 H11 H12].
  pose proof deoptimized_shape as [[Er Eb Ec Est Hsame] Hd]. destruct deoptimized_method as [Hnh Hna].
  assert (hooked_methods_ (registry v') = hooked_methods_ (registry (vm s))) as Eh by by rewrite Er.
  apply call_inv; try done.
  - intros t _. apply Hsame.
  - apply (methods_frame_inv cur GetClassDef cur_supported (settle s)); cbn [System.settle on_methods vm registry];
      rewrite ?Er; try done; [by apply RecordDeoptimized_ok|].
    intros t Ht. split; [|apply Hsame]. apply deoptimized_settled. by intros ->.
  - intros t rec. rewrite Eh. intros Hrec. destruct (H2 t rec Hrec), (H3 t rec Hrec) as [Hc Hdb].
    destruct (Hsame t) as [_ ->], (Hsame (Records.backup rec)) as [_ ->]. rewrite deoptimized_mono. auto.
  - intros t Ha. split; [|apply deoptimized_other; by intros ->]. unfold hooked. rewrite Eh, deoptimized_mono.
    destruct (aside_of s t) as [old|] eqn:E; [|done]. destruct (aside_app _ _ _ _ s t old Hs E) as [_ [|]]; auto.
  - intros t Ht. unfold hooked. rewrite Eh, deoptimized_mono, (static_same _ _ t Hsame).
    intros [|[->|]]; [right; auto|by left|right; auto].
  - intros t Ht. rewrite deoptimized_mono, Er. simpl. rewrite in_class_add. intros [->|Hdt]; [by right|left; by apply H7].
  - intros cd t. rewrite Er at 1. simpl. rewrite in_class_add, deoptimized_mono. intros [Hin|[-> ->]] Ht; [|by split; [|left]].
    destruct (H8 cd t Hin Ht). auto.
  - intros t Ht. rewrite deoptimized_own_code by done. destruct (Z.eqb_spec t m) as [->|Hne]; [|by apply H10].
    cbn [snd]. destruct (SetEntryPointsToInterpreter_entry c runtime_code bridge interp interpreter m'
      (recorded_state m (vm s))) as [->|]; [|done].
    pose proof (H10 m Ht) as Hcode. unfold System.own_code, System.settled_entry in Hcode. cbn [snd] in Hcode.
    by rewrite Hna in Hcode.
  - rewrite Est. done.
Qed.

Lemma deoptimize_sim a : sim a s → sim (app_run [EvDeoptimize m (entry_of v' m')] a) s'.
Proof using Hs Hm Hquiet interpreter.
  intros [S1 S2 S3 S4]. pose proof deoptimized_shape as [[Er _ Ec _ _] _]. destruct deoptimized_method as [Hnh _].
  split; cbn [app_run foldl app_step codes interpreted app_hooks vm].
  - intros t Ht. rewrite deoptimized_own_code by done.
    destruct (Z.eqb_spec t m) as [->|Hne]; by rewrite S1.
  - intros t Ht. rewrite deoptimized_mono, elem_of_union, elem_of_singleton, S2 by done. tauto.
  - intros t. rewrite Er. apply S3.
  - intros t rec. rewrite Er, Ec. intros Hrec. rewrite deoptimized_settled; [by apply S4|].
    intros ->. apply Hnh. by eexists.
Qed.
End deoptimize.
End calls.
