(* ===== verification/SystemHook.v ===== *)
(** * A hook keeps the invariant of the system

    The step of [System.v] that is a call of [HookMethod]: what the installed
    state is, and that hooking a method while other classes are initialized
    changes no code the application sees. *)

From S2P Require Import Prelude Memory Platform ArtMethod Records Trampoline Vm MirrorClass ClassLinker.
From S2P Require Import ClassInit HookApi HookSpec System SystemInv SystemRuntime SystemApi.

Section hook.
Context (cur : Arch) (c : Config) (SetNotIntrinsic_ : option (Z → Methods → Methods)) (GetClassDef : Z → Z).
Context (app runtime_code : Z → Prop).
Hypothesis cur_supported : cur ∈ supported.
Hypothesis intrinsic : intrinsic_frame SetNotIntrinsic_.
Implicit Types (v : Vm) (s : System) (h : Methods) (t m e self : Z) (a : App).

Abbreviation class_of := (class_def_of GetClassDef).
Abbreviation aside_of := (aside_of GetClassDef).
Abbreviation settled_entry := (settled_entry GetClassDef).
Abbreviation settle := (settle GetClassDef).
Abbreviation own_code := (own_code GetClassDef).
Abbreviation quiet := (quiet GetClassDef).
Abbreviation sys_inv := (sys_inv cur GetClassDef app runtime_code).
Abbreviation sim := (sim cur GetClassDef app).
Abbreviation step_ok := (step_ok cur GetClassDef app runtime_code).
Abbreviation ts := (kTrampolineSize cur).

(** What is true of the state [v'] after a hook of [target] was installed in [v]. *)
Record installed v v' (target hook backup slot bm entrypoint : Z) : Prop := {
  in_registry : registry_ok (registry v) → registry_ok (registry v');
  in_hooked : hooked_methods_ (registry v') =
    <[target := mkHookRecord hook backup slot bm true]> (hooked_methods_ (registry v));
  in_classes c' t : in_class (hooked_classes_ (registry v')) c' t →
    in_class (hooked_classes_ (registry v)) c' t ∨ c' = class_of v' t ∧ t = target;
  in_deoptimized : ∃ e, deoptimized_methods_ (registry v') = emplace backup e (deoptimized_methods_ (registry v));
  in_deoptimized_classes : ∃ cd, deoptimized_classes_ (registry v') =
    add_to_class cd backup (deoptimized_classes_ (registry v));
  in_backups : backup_methods_ v' = backup_methods_ v;
  in_stubs : stubs v' = entrypoint :: stubs v;
  in_target : entry_of v' target = entrypoint ∧
    declaring_class (methods v' target) = declaring_class (methods v target);
  in_backup : same_code (methods v' backup) (methods v target);
  in_other m : m ≠ target → m ≠ backup → methods v' m = methods v m;
  in_dispatch : trampoline_target cur (code v') entrypoint = hook ∧ slot = stub_slot cur (code v') entrypoint;
  in_form : ∃ ep, stub_code cur ep (code v') entrypoint;
  in_code x : x < entrypoint ∨ entrypoint + ts <= x → code v' x = code v x;
}.

Lemma DoHook_backups generated target hook backup v :
  backup_methods_ (DoHook cur c SetNotIntrinsic_ generated target hook backup v).2 = backup_methods_ v.
Proof. unfold DoHook. destruct generated; [|done]. by destruct (WriteTrampoline _ _ _ _ _). Qed.

(** The tables of deoptimized methods: the backup is one of them. *)
Lemma record_hook_deoptimized (q : TargetInfo) hook backup slot bm v :
  let v' := record_hook GetClassDef q hook backup slot bm v in
  backup_methods_ v' = backup_methods_ v ∧
  (∃ e, deoptimized_methods_ (registry v') = emplace backup e (deoptimized_methods_ (registry v))) ∧
  (∃ cd, deoptimized_classes_ (registry v') = add_to_class cd backup (deoptimized_classes_ (registry v))).
Proof.
  unfold record_hook. destruct (negb (IsProxyMethod q)); split_and!; try done; eexists; done.
Qed.

Lemma hook_installed v entrypoint (q : TargetInfo) hook backup bm :
  generated_methods cur v (target_method q) hook backup →
  hooked_methods_ (registry v) !! target_method q = None →
  backuped_methods_ (registry v) !! target_method q = None →
  let '(slot, v1) := DoHook cur c SetNotIntrinsic_ (Some entrypoint) (target_method q) hook backup v in
  installed v (record_hook GetClassDef q hook backup slot bm v1) (target_method q) hook backup slot bm entrypoint.
Proof using cur_supported intrinsic.
  intros [Ht0 [Hb0 Hbt] [Hbh Hbb] [Hph _]] Hth Htb.
  pose proof (DoHook_spec cur c SetNotIntrinsic_ cur_supported v entrypoint (target_method q) hook backup
    ltac:(congruence) Hph) as Hd.
  pose proof (DoHook_backups (Some entrypoint) (target_method q) hook backup v) as Hbk.
  destruct (DoHook _ _ _ _ _ _ _ _) as [slot v1]. cbn [snd] in Hbk.
  destruct Hd as (Hreg & Hstubs & Hmeth & Htarget & Hslot & Hform & Hcode).
  destruct (record_hook_registry cur SetNotIntrinsic_ GetClassDef intrinsic cur_supported q hook backup slot bm v1) as (Rh & Rb & Rc & Rm & Rcode & Rs & Rok).
  destruct (record_hook_deoptimized q hook backup slot bm v1) as (Eb & Ed & Edc). rewrite Hreg in Ed, Edc.
  revert Rh Rb Rc Rm Rcode Rs Rok Eb Ed Edc. generalize (record_hook GetClassDef q hook backup slot bm v1) as v'.
  intros v' Rh Rb Rc Rm Rcode Rs Rok Eb Ed Edc.
  destruct (hook_methods_target c SetNotIntrinsic_ intrinsic (target_method q) backup entrypoint (methods v)
    ltac:(congruence)) as (Ee & _ & Ecl).
  assert (class_of v1 (target_method q) = class_of v' (target_method q)) as Hcd by (unfold class_def_of; by rewrite Rm).
  rewrite Hreg in Rh, Rb, Rc, Rok. rewrite Hcd in Rc. unfold RecordHooked in Rh, Rb, Rc. simpl in Rh, Rb, Rc.
  rewrite emplace_absent in Rh by done. rewrite emplace_absent in Rb by done.
  split; rewrite ?Rcode, ?Rs, ?Rm, ?Hmeth; try done.
  - intros Hr. apply Rok; [apply RecordHooked_ok; try done; congruence|].
    unfold RecordHooked. simpl. rewrite emplace_absent by done. rewrite lookup_insert_eq. by eexists.
  - intros c' t Hc'. rewrite Rc in Hc'. by apply in_class_add in Hc' as [Hc'|[-> ->]]; [left|right].
  - congruence.
  - split; [|done]. unfold entry_of. by rewrite Rm, Hmeth.
  - apply (hook_methods_backup c SetNotIntrinsic_ intrinsic). congruence.
  - intros m Hm1 Hm2. by apply (hook_methods_other c SetNotIntrinsic_ intrinsic).
Qed.

(** ** The step *)

Section step.
Context (s : System) (v' : Vm) (target hook backup slot bm entrypoint : Z).
Hypothesis (Hs : sys_inv s) (Hquiet : quiet s target) (Htarget : app target) (Hbackup : ¬ app backup).
Hypothesis (Hin : installed (vm s) v' target hook backup slot bm entrypoint).
Hypothesis (Hgen : generated_methods cur (vm s) target hook backup) (Hfresh : stub_fresh cur (vm s) entrypoint).
Hypothesis (Hcode : ¬ runtime_code entrypoint).
Hypothesis (Hnh : hooked_methods_ (registry (vm s)) !! target = None).

Abbreviation s' := (mkSystem v' (initializing s)).

Lemma hook_class t : app t → declaring_class (methods v' t) = declaring_class (methods (vm s) t).
Proof using Hbackup Hin.
  intros Ht. destruct (decide (t = target)) as [->|Hne]; [by destruct (in_target _ _ _ _ _ _ _ _ Hin)|].
  rewrite (in_other _ _ _ _ _ _ _ _ Hin); [done|done|]. by intros ->.
Qed.

Lemma hook_aside t : aside_of s' t = aside_of s t.
Proof using Hs Hbackup Hin. exact (call_aside _ _ _ _ s v' Hs (in_backups _ _ _ _ _ _ _ _ Hin) hook_class t). Qed.

Lemma hook_settled t : t ≠ target → t ≠ backup → settled_entry s' t = settled_entry s t.
Proof using Hs Hbackup Hin.
  intros H1 H2. unfold System.settled_entry. rewrite hook_aside. unfold entry_of. cbn [vm].
  by rewrite (in_other _ _ _ _ _ _ _ _ Hin).
Qed.

Lemma hook_settled_target : settled_entry s' target = entrypoint.
Proof using Hs Hbackup Hin Hquiet.
  unfold System.settled_entry. rewrite hook_aside, (aside_quiet _ s target Hquiet).
  by destruct (in_target _ _ _ _ _ _ _ _ Hin).
Qed.

Lemma hook_lookup t : hooked_methods_ (registry v') !! t =
  if decide (t = target) then Some (mkHookRecord hook backup slot bm true) else hooked_methods_ (registry (vm s)) !! t.
Proof using Hin.
  rewrite (in_hooked _ _ _ _ _ _ _ _ Hin). case_decide as E; [subst; by rewrite lookup_insert_eq|by rewrite lookup_insert_ne].
Qed.

(** Neither the target nor the new backup is the backup of a hooked method. *)
Lemma hook_old_backup t rec :
  hooked_methods_ (registry (vm s)) !! t = Some rec → Records.backup rec ≠ target ∧ Records.backup rec ≠ backup.
Proof using Hs Htarget Hgen.
  intros Hrec. split; intros E.
  - apply (si_app _ _ _ _ s Hs) in Hrec as [_ Hn]. rewrite E in Hn. exact (Hn Htarget).
  - pose proof (gen_new _ _ _ _ _ Hgen) as [_ Hb]. pose proof (si_registry _ _ _ _ _ Hs) as Hr.
    pose proof (ok_backup _ Hr _ _ Hrec) as Hb'. rewrite E, Hb in Hb'. discriminate Hb'.
Qed.

Lemma hook_own_code t : app t → own_code s' t = own_code s t.
Proof using Hs Hbackup Hin Hquiet Htarget Hgen Hnh.
  intros Ht. pose proof (si_registry _ _ _ _ _ Hs) as Hr.
  pose proof (in_registry _ _ _ _ _ _ _ _ Hin Hr) as Hr'.
  assert (t ≠ backup) as Htb by by intros ->.
  unfold System.own_code at 1. cbn [vm]. cbv zeta. pose proof (hook_lookup t) as Hl. case_decide as E.
  - subst t. rewrite (MayGetBackup_hooked _ _ _ Hr' Hl). cbn [Records.backup].
    rewrite (own_code_unhooked _ s target Hnh), (settled_quiet _ s target Hquiet).
    unfold System.settled_entry. rewrite hook_aside, (aside_not_app _ _ _ _ s backup Hs Hbackup).
    destruct (in_backup _ _ _ _ _ _ _ _ Hin) as (-> & He & _). simpl. unfold entry_of. by rewrite He.
  - destruct (hooked_methods_ (registry (vm s)) !! t) as [rec|] eqn:Hrec.
    + destruct (hook_old_backup t rec Hrec). rewrite (MayGetBackup_hooked _ _ _ Hr' Hl), hook_settled by done.
      rewrite (in_other _ _ _ _ _ _ _ _ Hin) by done. unfold System.own_code. cbv zeta.
      by rewrite (MayGetBackup_hooked _ _ _ Hr Hrec).
    + rewrite MayGetBackup_unhooked, hook_settled by done. rewrite (in_other _ _ _ _ _ _ _ _ Hin) by done.
      by rewrite (own_code_unhooked _ s t Hrec).
Qed.

Lemma hook_deoptimized t : IsDeoptimized (registry v') t = true ↔ t = backup ∨ IsDeoptimized (registry (vm s)) t = true.
Proof using Hin.
  destruct (in_deoptimized _ _ _ _ _ _ _ _ Hin) as [e E]. unfold IsDeoptimized. rewrite E, !bool_decide_eq_true.
  destruct (decide (t = backup)) as [->|Hne]; [rewrite lookup_emplace_same|rewrite lookup_emplace_other by done]; naive_solver.
Qed.

Lemma hook_api_inv : api_inv cur GetClassDef (settle s').
Proof using Hs Hbackup Hin Hquiet Htarget Hgen Hfresh Hnh cur_supported.
  pose proof (si_registry _ _ _ _ _ Hs) as Hr. pose proof Hin as [I1 I2 I3 _ _ _ I7 _ _ I10 [I11 I12] Iform I13].
  apply (api_inv_new_hook cur GetClassDef cur_supported (settle s) (settle s') target hook backup slot bm entrypoint);
    try done.
  - apply (si_api _ _ _ _ s Hs).
  - by destruct Hgen; split.
  - by apply I1.
  - exact hook_settled_target.
  - intros m H1 H2. cbn. by rewrite hook_settled, I10.
Qed.

Lemma hook_inv : sys_inv s'.
Proof using Hs Hbackup Hin Hquiet Htarget Hgen Hfresh Hcode Hnh cur_supported.
  pose proof Hs as [H1 H2 H3 H4 H5 H6 H7 H8 H9 H10 H11 H12].
  pose proof (in_other _ _ _ _ _ _ _ _ Hin) as Hother.
  apply (call_inv _ _ _ _ s v' Hs (in_backups _ _ _ _ _ _ _ _ Hin) hook_class hook_api_inv).
  - intros t rec. rewrite hook_lookup. case_decide as E.
    + intros [= <-]. subst t. cbn [Records.backup]. split_and!; [done|done| |apply hook_deoptimized; by left].
      destruct (in_backup _ _ _ _ _ _ _ _ Hin) as (_ & _ & _ & ->).
      by destruct (in_target _ _ _ _ _ _ _ _ Hin) as [_ ->].
    + intros Hrec. destruct (H2 t rec Hrec) as [Ht Hb], (H3 t rec Hrec) as [Hc Hd], (hook_old_backup t rec Hrec).
      split_and!; [done|done| |apply hook_deoptimized; by right].
      rewrite !Hother; [done|done|by intros ->|done|done].
  - intros t Ha. destruct (aside_of s t) as [old|] eqn:E; [|done]. destruct (aside_app _ _ _ _ s t old Hs E) as [Ht Hor].
    assert (t ≠ target) as Hne by (intros ->; by rewrite (aside_quiet _ s target Hquiet) in E).
    unfold entry_of. rewrite Hother by (done || by intros ->). split; [|done]. unfold hooked.
    rewrite hook_lookup, decide_False, hook_deoptimized by done. tauto.
  - intros t Ht Hor. destruct (decide (t = target)) as [->|Hne]; [by left|right]. split.
    + unfold hooked in Hor. rewrite hook_lookup, decide_False, hook_deoptimized in Hor by done.
      destruct Hor as [|[->|]]; auto.
    + unfold IsStatic, GetAccessFlags. cbn [view methods_store]. rewrite Hother; [done|done|by intros ->].
  - intros t Ht. rewrite hook_deoptimized. destruct (in_deoptimized_classes _ _ _ _ _ _ _ _ Hin) as [cd ->].
    rewrite in_class_add. intros [->|]; [done|]. left. by apply H7.
  - intros cd t. destruct (in_deoptimized_classes _ _ _ _ _ _ _ _ Hin) as [cd' ->].
    rewrite in_class_add, hook_deoptimized. intros [Hc|[_ ->]] Ht; [|done]. destruct (H8 cd t Hc Ht). auto.
  - intros t Ht. rewrite hook_own_code by done. by apply H10.
  - rewrite (in_stubs _ _ _ _ _ _ _ _ Hin). intros stub [->|]%elem_of_cons; auto.
Qed.

Lemma hook_sim a : sim a s → sim (app_run [EvHook target hook] a) s'.
Proof using Hs Hbackup Hin Hquiet Htarget Hgen Hfresh Hnh cur_supported.
  intros [S1 S2 S3 S4]. split; cbn [app_run foldl app_step codes interpreted app_hooks vm].
  - intros t Ht. rewrite hook_own_code by done. by apply S1.
  - intros t Ht. rewrite hook_deoptimized, S2 by done. split; [by right|]. by intros [->|].
  - intros t. rewrite hook_lookup. case_decide as E; [done|]. intros Hn. rewrite lookup_insert_ne by done. by apply S3.
  - intros t rec. rewrite hook_lookup. case_decide as E.
    + intros [= <-]. subst t. exists true. rewrite lookup_insert_eq, hook_settled_target. split; [done|].
      by destruct (in_dispatch _ _ _ _ _ _ _ _ Hin).
    + intros Hrec. rewrite lookup_insert_ne by done. destruct (S4 t rec Hrec) as (runs & Ha & Ht). exists runs.
      split; [done|]. destruct (si_app _ _ _ _ s Hs t rec Hrec) as [Happ _].
      rewrite hook_settled by (done || by intros ->). rewrite <-Ht.
      assert (settled_entry s t ∈ stubs (vm s)) as Hstub by (apply (settled_in_stubs _ _ _ _ s t Hs); by eexists).
      destruct Hfresh as (_ & _ & Hfar). apply (trampoline_target_ext cur).
      intros x Hx. apply (in_code _ _ _ _ _ _ _ _ Hin). destruct (Hfar _ Hstub); lia.
Qed.
End step.
End hook.
