(* ===== verification/SystemSpec.v ===== *)
(** * What the system guarantees

    The theorems about [System.v]: every run of the system is a run of the
    application's view, in which hooking changes nothing but what calls of the
    hooked method do; and the races the guards of the steps leave out. *)

From S2P Require Import Prelude Memory Platform ArtMethod Records Trampoline Vm MirrorClass ClassLinker.
From S2P Require Import ClassInit Instrumentation Jit HookApi HookSpec System SystemInv SystemRuntime.
From S2P Require Import SystemClass SystemApi SystemHook.

Section spec.
Context (cur : Arch) (c : Config) (SetNotIntrinsic_ : option (Z → Methods → Methods)) (GetClassDef : Z → Z).
Context (bridge : Z) (interp : option (Z → Methods → Methods)).
Context (init_status : Z) (MoveObsoleteMethod_ : option (Z → Z → Methods → Methods)).
Context (app runtime_code : Z → Prop).
Hypothesis cur_supported : cur ∈ supported.
Hypothesis intrinsic : intrinsic_frame SetNotIntrinsic_.
Hypothesis interpreter : interpreter_ok bridge interp runtime_code.
Hypothesis movement : movement_ok MoveObsoleteMethod_.
Implicit Types (v : Vm) (s : System) (h : Methods) (t m e self : Z) (a : App).

Abbreviation own_code := (own_code GetClassDef).
Abbreviation quiet := (quiet GetClassDef).
Abbreviation sys_inv := (sys_inv cur GetClassDef app runtime_code).
Abbreviation sim := (sim cur GetClassDef app).
Abbreviation step_ok := (step_ok cur GetClassDef app runtime_code).
Abbreviation sys_step := (sys_step cur c SetNotIntrinsic_ GetClassDef bridge interp init_status
  MoveObsoleteMethod_ app runtime_code).

(** ** Every step *)

Section hook_step.
Context (sdk_int : Z) (GetShorty : Z → string) (source_name_empty : bool)
        (BuildDex : DexRequest → Z * Z * Z * Z) (backup_of : Z → Z) (has_native_field : bool).

Lemma hook_step q cb obj generated a s :
  sys_inv s → sim a s → generated_ok cur (vm s) generated → dex_ok cur BuildDex backup_of (vm s) q →
  (∀ stub, generated = Some stub → ¬ runtime_code stub) → (∀ bm, bm ≠ 0 → ¬ app (backup_of bm)) →
  app (target_method q) → quiet s (target_method q) →
  let '(outcome, effects, v') := HookMethod cur c SetNotIntrinsic_ GetClassDef sdk_int GetShorty source_name_empty
    BuildDex backup_of has_native_field q obj cb generated (vm s) in
  step_ok a (hook_events outcome (target_method q) v') (mkSystem v' (initializing s)).
Proof using cur_supported intrinsic.
  intros Hs Ha Hg Hd Hcode Happ Ht Hq. pose proof (si_registry _ _ _ _ _ Hs) as Hr.
  destruct (accepted_dec (vm s) q cb) as [[pack Hacc]|Hno].
  2: { rewrite HookMethod_rejected by done. by apply step_ok_same. }
  assert (hooked_methods_ (registry (vm s)) !! target_method q = None ∧
    backuped_methods_ (registry (vm s)) !! target_method q = None) as [Hnh Hnb].
  { destruct Hacc as (_ & _ & _ & H4 & H5 & _). split; [by apply IsHooked_null|by apply IsBackup_null]. }
  rewrite (HookMethod_accepted cur c SetNotIntrinsic_ GetClassDef sdk_int GetShorty source_name_empty BuildDex
    backup_of has_native_field (vm s) q cb pack obj generated Hacc). cbv zeta.
  destruct (BuildDex _) as [[[cls field] hook] bm] eqn:Edex.
  destruct ((cls =? 0) || (field =? 0) || (hook =? 0) || (bm =? 0)) eqn:Enull; [by apply step_ok_same|].
  apply orb_false_iff in Enull as [[[E1 E2]%orb_false_iff E3]%orb_false_iff E4].
  apply Z.eqb_neq in E1, E2, E3, E4. destruct generated as [entrypoint|]; [|by apply step_ok_same].
  specialize (Hd _ _ _ _ _ Edex E1 E2 E3 E4). specialize (Happ bm E4). specialize (Hcode entrypoint eq_refl).
  simpl in Hg.
  pose proof (hook_installed cur c SetNotIntrinsic_ GetClassDef cur_supported intrinsic (vm s) entrypoint q hook
    (backup_of bm) bm Hd Hnh Hnb) as Hin.
  destruct (DoHook _ _ _ _ _ _ _ _) as [slot v1].
  assert (slot ≠ 0) as Hslot.
  { destruct (in_dispatch _ _ _ _ _ _ _ _ _ _ Hin) as [_ ->]. unfold stub_slot.
    destruct (stub_size cur cur_supported) as (? & ? & ?). destruct Hg as (? & _). case_match; lia. }
  rewrite (proj2 (Z.eqb_neq _ _) Hslot). unfold hook_events.
  rewrite (in_hooked _ _ _ _ _ _ _ _ _ _ Hin), lookup_insert_eq. cbn [Records.hook].
  split; [by eapply hook_inv|by eapply hook_sim].
Qed.
End hook_step.

Lemma system_step_ok a s evs s' : sys_inv s → sim a s → sys_step s evs s' → step_ok a evs s'.
Proof using cur_supported intrinsic interpreter movement.
  intros Hs Ha Hstep. destruct Hstep as
    [v v' i sdk_int GetShorty sne BuildDex backup_of hnf q obj cb generated outcome effects Hg Hd Hcode Happ Ht Hq Heq
    |v v' i ex target id ok Hq Heq |v v' i ex target enable ok Heq |v v' i ex m ok Ht Hq Heq
    |v i cd self Hcd Hself Hnew Hmem |v i h' Hw |v i cd self popped v'
    |v i A backup m e args Hw He |v i backup m q Hq Hw v' |v i A R backup m args Hm v' Hw
    |v w i R backup lookup valid l r E Hone Hnc Hw |v w i R backup valid ms r E Hnc Hw |v i Hl].
  - pose proof (hook_step sdk_int GetShorty sne BuildDex backup_of hnf q cb obj generated a (mkSystem v i)
      Hs Ha Hg Hd Hcode Happ Ht Hq) as H. cbn [vm] in H. by rewrite Heq in H.
  - pose proof (unhook_step cur GetClassDef app runtime_code cur_supported ex target id a (mkSystem v i) Hs Ha Hq) as H.
    cbn [vm] in H. by rewrite Heq in H.
  - pose proof (set_enabled_step cur c GetClassDef app runtime_code cur_supported ex target enable a (mkSystem v i) Hs Ha) as H.
    cbn [vm] in H. by rewrite Heq in H.
  - destruct (Deoptimize_eq c GetClassDef runtime_code bridge interp interpreter ex m v) as [E|E]; rewrite Heq in E; injection E as -> ->.
    + exact (conj Hs Ha).
    + split; [by apply (deoptimize_inv cur c GetClassDef app runtime_code cur_supported bridge interp interpreter (mkSystem v i))|].
      by apply (deoptimize_sim cur c GetClassDef app runtime_code bridge interp interpreter (mkSystem v i)).
  - by apply (set_status_step cur GetClassDef app runtime_code cur_supported (mkSystem v i) cd self).
  - by apply (rewrite_step cur GetClassDef app runtime_code cur_supported h' a (mkSystem v i)).
  - by apply (restore_step cur c GetClassDef app runtime_code cur_supported bridge interp interpreter (mkSystem v i)).
  - by apply (update_code_step cur c GetClassDef app runtime_code cur_supported backup m e args a (mkSystem v i)).
  - by apply (initialize_code_step cur GetClassDef app runtime_code cur_supported backup m q a (mkSystem v i)).
  - by apply (register_native_step cur GetClassDef app runtime_code cur_supported m v' a (mkSystem v i)).
  - unfold RegisterNativesJNIEnv. cbv zeta. rewrite E. cbn [snd].
    apply (register_natives_step cur c GetClassDef app runtime_code cur_supported _ (named lookup valid l) w a (mkSystem v i)); try done.
    + apply Updater_of_natives_ok, (si_registry _ _ _ _ _ Hs).
    + intros t Ht Hreg Hn. apply Updater_of_natives_saves; auto. apply (si_registry _ _ _ _ _ Hs).
  - unfold UnregisterNativesJNIEnv. cbv zeta. rewrite E. cbn [snd].
    apply (register_natives_step cur c GetClassDef app runtime_code cur_supported _ (of_class valid ms) w a (mkSystem v i)); try done.
    + apply Updater_of_class_ok, (si_registry _ _ _ _ _ Hs).
    + intros t Ht Hreg Hn. apply Updater_of_class_saves; auto. apply (si_registry _ _ _ _ _ Hs).
  - by apply (move_obsolete_step cur GetClassDef app runtime_code cur_supported MoveObsoleteMethod_ movement a (mkSystem v i)).
Qed.

(** ** Runs *)

Inductive sys_run : System → list Event → System → Prop :=
  | run_nil s : sys_run s [] s
  | run_step s evs s' evs' s'' : sys_step s evs s' → sys_run s' evs' s'' → sys_run s (evs ++ evs') s''.

(** The library is loaded: nothing is hooked, every method has code of the runtime. *)
Definition initial_system h (code0 : mem) (ids : list Z) : System := mkSystem (initial_vm h code0 ids) ∅.
Definition initial_app h : App := mkApp (native_code h) ∅ ∅.

Lemma run_vm0_ok h code0 ids :
  (∀ t, app t → runtime_code (entry_point (h t))) →
  step_ok (initial_app h) [] (initial_system h code0 ids).
Proof.
  intros Hcode.
  assert (∀ t, aside_of GetClassDef (initial_system h code0 ids) t = None) as Ha by done.
  split; split; cbn [vm initializing initial_system initial_vm registry backup_methods_ stubs]; try done.
  - apply (initial_api_inv cur GetClassDef _ code0 ids).
  - intros t _ _. by left.
  - intros cd t (x & Hx & _). simpl in Hx. by rewrite lookup_empty in Hx.
  - intros stub Hin. by apply elem_of_nil in Hin.
Qed.

Lemma sys_run_ok a s evs s' : sys_inv s → sim a s → sys_run s evs s' → step_ok a evs s'.
Proof using cur_supported intrinsic interpreter movement.
  intros Hs Ha Hrun. revert a Ha. induction Hrun as [s|s evs s1 evs' s2 Hstep _ IH]; intros a Ha; [by split|].
  destruct (system_step_ok a s evs s1 Hs Ha Hstep) as [Hs1 Ha1].
  destruct (IH Hs1 _ Ha1) as [Hs2 Ha2]. split; [done|]. unfold app_run in *. by rewrite foldl_app.
Qed.

Lemma sys_reachable_ok h code0 ids evs s :
  (∀ t, app t → runtime_code (entry_point (h t))) → sys_run (initial_system h code0 ids) evs s →
  step_ok (initial_app h) evs s.
Proof using cur_supported intrinsic interpreter movement.
  intros Hcode Hrun. destruct (run_vm0_ok h code0 ids Hcode) as [Hs Ha]. by eapply sys_run_ok.
Qed.

(** Where a call of a method of the application goes, when no initialization of
    its class is going on. *)
Lemma quiet_target a s t :
  sys_inv s → sim a s → app t → quiet s t →
  match hooked_methods_ (registry (vm s)) !! t with
  | Some rec => ∃ runs, app_hooks a !! t = Some (mkAppHook (Records.hook rec) runs (enabled rec)) ∧
      callee cur (vm s) t = if runs then Records.hook rec else Records.backup rec
  | None => app_hooks a !! t = None ∧ callee cur (vm s) t = t
  end.
Proof.
  intros Hs Ha Ht Hq. pose proof (si_code _ _ _ _ s Hs t Ht) as Hcode. unfold callee.
  pose proof (settled_quiet _ s t Hq) as Hsettled.
  destruct (hooked_methods_ (registry (vm s)) !! t) as [rec|] eqn:Hrec.
  - destruct (sim_hooked _ _ _ _ _ Ha t rec Hrec) as (runs & Hh & Htarget). exists runs. split; [done|].
    assert (settled_entry GetClassDef s t ∈ stubs (vm s)) as Hin.
    { apply (settled_in_stubs _ _ _ _ s t Hs). by eexists. }
    rewrite Hsettled in *. by rewrite bool_decide_eq_true_2.
  - split; [by apply (sim_unhooked _ _ _ _ _ Ha)|].
    rewrite (own_code_unhooked _ s t Hrec), Hsettled in Hcode.
    rewrite bool_decide_eq_false_2; [done|]. intros Hin. by apply (si_stubs _ _ _ _ s Hs) in Hin.
Qed.

(** What such a call runs. *)
Lemma quiet_callee a s t :
  sys_inv s → sim a s → app t → quiet s t →
  match app_hooks a !! t with
  | Some (mkAppHook hook true _) => callee cur (vm s) t = hook
  | _ => native_code (methods (vm s)) (callee cur (vm s) t) = codes a t
  end.
Proof.
  intros Hs Ha Ht Hq. pose proof (quiet_target a s t Hs Ha Ht Hq) as H.
  destruct (hooked_methods_ (registry (vm s)) !! t) as [rec|] eqn:Hrec.
  - destruct H as (runs & -> & ->). destruct runs; [done|].
    by rewrite (sim_codes _ _ _ _ _ Ha t Ht), (own_code_hooked _ _ _ _ s t rec Hs Hrec).
  - destruct H as [-> ->]. rewrite (sim_codes _ _ _ _ _ Ha t Ht), (own_code_unhooked _ s t Hrec).
    by rewrite (settled_quiet _ s t Hq).
Qed.

Lemma sim_IsHooked a s t :
  sys_inv s → sim a s → HookApi.IsHooked true t (vm s) = bool_decide (is_Some (app_hooks a !! t)).
Proof.
  intros Hs Ha. unfold HookApi.IsHooked, Records.IsHooked. cbn [negb].
  destruct (hooked_methods_ (registry (vm s)) !! t) as [rec|] eqn:Hrec.
  - destruct (sim_hooked _ _ _ _ _ Ha t rec Hrec) as (runs & -> & _).
    rewrite bool_decide_eq_true_2 by by eexists.
    destruct (ok_nonnull _ (si_registry _ _ _ _ s Hs) _ _ Hrec) as [_ Hb]. by rewrite (proj2 (Z.eqb_neq _ _) Hb).
  - rewrite (sim_unhooked _ _ _ _ _ Ha t Hrec). by rewrite bool_decide_eq_false_2 by apply is_Some_None.
Qed.


End spec.

(** ** A concrete run *)

(** The static method 0x100 is hooked, its class is initialized while the
    runtime gives it code at 0x6000, its code is compiled to 0x7000, and the
    hook is switched off and removed. *)
Definition run_methods : Methods := λ p,
  if p =? 0x100 then mkMethod (Z.lor kAccPublic kAccStatic) 0x7000 0x5000 0 0x10
  else mkMethod kAccPublic 0 0x6000 0 0x20.

Definition run_app (t : Z) : Prop := t = 0x100.
Definition run_code (e : Z) : Prop := e ∈ [0x5000; 0x6000; 0x7000].

Definition run_vm0 : Vm := initial_vm run_methods (λ _, 0) [0x100].

Definition run_hook := HookMethod kArm64 arm64_config None id 34 (λ _, "VL"%string) true sample_dex
  (λ _, 0x200) false sample_target 0x40 sample_callback (Some 0x9000) run_vm0.

Definition run_vm1 : Vm := run_hook.2.
Definition run_vm2 : Vm := SetStatus 15 (λ v, v) 0x10 15 0x77 run_vm1.
Definition run_vm3 : Vm := on_methods (λ h, SetEntryPoint arm64_config 0x100 0x6000 h) run_vm2.
Definition run_vm4 : Vm := RestoreBackup arm64_config 0 None 0x10 0x77 run_vm3.

Definition run_install (m e : Z) (_ : unit) : Vm → Vm := on_methods (SetEntryPoint arm64_config m e).
Definition run_vm5 : Vm := UpdateMethodsCode arm64_config run_install 0x100 0x7000 tt run_vm4.

Definition run_classes : gmap Z Z := <[0x10 := 0x77]> ∅.

Abbreviation run_sys_step := (sys_step kArm64 arm64_config None id 0 None 15 None run_app run_code).

Lemma run_hooked v t : hooked_methods_ (registry v) = {[0x100 := sample_record]} → hooked v t → t = 0x100.
Proof. intros E [rec Hrec]. rewrite E in Hrec. by apply lookup_singleton_Some in Hrec as [<- _]. Qed.

Lemma run_interpreter : interpreter_ok 0 None run_code.
Proof. by split. Qed.

Lemma run_movement : movement_ok None.
Proof. done. Qed.

Lemma run_initial_code t : run_app t → run_code (entry_point (run_methods t)).
Proof. intros ->. by left. Qed.

Lemma run_generated : dex_ok kArm64 sample_dex (λ _, 0x200) run_vm0 sample_target.
Proof. intros r ? ? ? ? [= <- <- <- <-] _ _ _ _. by split. Qed.

Lemma run_step1 : run_sys_step (mkSystem run_vm0 ∅) [EvHook 0x100 0x300] (mkSystem run_vm1 ∅).
Proof.
  eapply (sys_hook _ _ _ _ _ _ _ _ _ _ run_vm0 run_vm1 ∅ 34 (λ _, "VL"%string) true sample_dex (λ _, 0x200) false
    sample_target 0x40 sample_callback (Some 0x9000) run_hook.1.1 run_hook.1.2).
  - split_and!; [done|done|]. by intros b Hb%elem_of_nil.
  - apply run_generated.
  - intros stub [= <-] Hc. unfold run_code in Hc. rewrite !elem_of_cons, elem_of_nil in Hc. lia.
  - intros bm _ E. unfold run_app in E. lia.
  - done.
  - done.
  - change (run_hook = (run_hook.1.1, run_hook.1.2, run_hook.2)). by destruct run_hook as [[]].
Qed.

Lemma run_tables : hooked_methods_ (registry run_vm1) = {[0x100 := sample_record]} ∧
  hooked_classes_ (registry run_vm1) = {[0x10 := {[0x100]}]} ∧
  (∀ t, in_class (deoptimized_classes_ (registry run_vm1)) 0x10 t → False).
Proof.
  split_and!; [by vm_compute|by vm_compute|]. intros t (x & Hx & _).
  assert (deoptimized_classes_ (registry run_vm1) !! 0x10 = None) as E by by vm_compute. congruence.
Qed.

Lemma run_step2 : run_sys_step (mkSystem run_vm1 ∅) [] (mkSystem run_vm2 run_classes).
Proof.
  unfold run_vm2, run_classes. apply (sys_set_status _ _ _ _ _ _ _ _ _ _ run_vm1 ∅ 0x10 0x77); [lia|lia|apply lookup_empty|].
  destruct run_tables as (_ & Hc & Hd). intros t [(x & Hx & Ht)|Ht]; [|by destruct (Hd t)].
  rewrite Hc in Hx. apply lookup_singleton_Some in Hx as [_ <-]. by apply elem_of_singleton in Ht.
Qed.

Lemma run_step3 : run_sys_step (mkSystem run_vm2 run_classes)
  (rewrite_events id (mkSystem run_vm2 run_classes) (methods run_vm3)) (mkSystem run_vm3 run_classes).
Proof.
  unfold run_vm3 at 2. apply (sys_rewrite _ _ _ _ _ _ _ _ _ _ run_vm2 run_classes (methods run_vm3)).
  assert (∀ t, t ≠ 0x100 → methods run_vm3 t = methods run_vm2 t) as Ho by (intros t Ht; by apply SetEntryPoint_other).
  split.
  - apply SetEntryPoint_same.
  - intros t. apply data_SetEntryPoint.
  - intros t -> [Hq|Hst]; [by vm_compute in Hq|by vm_compute in Hst].
  - intros t Ht. apply run_hooked in Ht as ->; [by vm_compute|]. by vm_compute.
  - intros t ->. right. cbn [run_vm3 on_methods methods]. rewrite SetEntryPoint_entry. right. by left.
Qed.

Lemma run_step4 : run_sys_step (mkSystem run_vm3 run_classes)
  (restore_events (mkSystem run_vm3 run_classes) (PopBackup 0x10 0x77 run_vm3).1 run_vm4)
  (mkSystem run_vm4 (restored 0x10 0x77 run_classes)).
Proof. unfold run_vm4. exact (sys_restore _ _ _ _ _ _ _ _ _ _ run_vm3 run_classes 0x10 0x77). Qed.

Lemma run_step5 i : run_sys_step (mkSystem run_vm4 i) (update_events run_vm4 0x100 0x7000) (mkSystem run_vm5 i).
Proof.
  unfold run_vm5. apply (sys_update_code _ _ _ _ _ _ _ _ _ _ run_vm4 i unit run_install 0x100 0x7000 tt).
  - split.
    + apply same_shape_methods, SetEntryPoint_same.
    + intros t Ht. unfold native_code, run_install. cbn [on_methods methods]. by rewrite SetEntryPoint_other.
    + intros _. apply data_SetEntryPoint.
    + unfold entry_of, run_install. cbn [on_methods methods]. rewrite SetEntryPoint_entry. right. right. by left.
  - apply SetEntryPoint_entry.
Qed.

(** The run and what the application sees at its end. *)
Lemma sample_run_ok : sys_run kArm64 arm64_config None id 0 None 15 None run_app run_code
  (initial_system run_methods (λ _, 0) [0x100])
  ([EvHook 0x100 0x300] ++ [] ++ rewrite_events id (mkSystem run_vm2 run_classes) (methods run_vm3) ++
   restore_events (mkSystem run_vm3 run_classes) (PopBackup 0x10 0x77 run_vm3).1 run_vm4 ++
   update_events run_vm4 0x100 0x7000 ++ [])
  (mkSystem run_vm5 (restored 0x10 0x77 run_classes)).
Proof.
  repeat (eapply run_step; [first [apply run_step1|apply run_step2|apply run_step3|apply run_step4|apply run_step5]|]).
  apply run_nil.
Qed.


