(* ===== verification/SystemRaces.v ===== *)
(** * Races the guards of the system leave out

    Calls of the API for a method whose class is in the middle of its
    initialization, and a collection of the code cache after a hook was
    removed: what then goes wrong, proved of the same functions. *)

From S2P Require Import Prelude Memory Platform ArtMethod Records Trampoline Vm MirrorClass ClassLinker.
From S2P Require Import ClassInit Jit HookApi HookSpec System SystemInv SystemRuntime SystemClass SystemSpec.

Section races.
Context (cur : Arch) (c : Config) (GetClassDef : Z → Z).
Context (bridge : Z) (interp : option (Z → Methods → Methods)).
Hypothesis interp_frame : interpreter_frame interp.
Implicit Types (v : Vm) (h : Methods) (t m e self : Z).

Abbreviation restore_one := (restore_one c bridge interp).

(** A method that is not hooked, no backup and not deoptimized gets exactly
    what was set aside for it. *)
Lemma restore_all_compiled l v t :
  registry_ok (registry v) → hooked_methods_ (registry v) !! t = None →
  backuped_methods_ (registry v) !! t = None → IsDeoptimized (registry v) t = false → NoDup l.*1 →
  entry_of (foldl restore_one v l) t = default (entry_of v t) (list_to_map (M:=gmap Z Z) l !! t).
Proof using interp_frame.
  intros Hr Hh Hb Hd. revert v Hr Hh Hb Hd. induction l as [|[m old] l IH]; intros v Hr Hh Hb Hd Hnd; [done|].
  apply NoDup_cons in Hnd as [Hm Hnd]. cbn [foldl fst] in *.
  rewrite IH; rewrite ?restore_one_registry; try done.
  change (list_to_map ((m, old) :: l)) with (<[m := old]> (list_to_map (M:=gmap Z Z) l)).
  assert (entry_of (restore_one v (m, old)) t = if decide (t = m) then old else entry_of v t) as ->.
  { unfold ClassLinker.restore_one. cbv zeta. case_decide as Ht.
    - subst m. unfold Records.IsHooked. cbn [on_methods registry]. rewrite Hh, Hd. cbn [negb Z.eqb].
      unfold entry_of. cbn [on_methods methods]. apply SetEntryPoint_entry.
    - assert (t ≠ Records.IsHooked (registry v) m ∨ Records.IsHooked (registry v) m = 0) as Hm'.
      { unfold Records.IsHooked. destruct (hooked_methods_ (registry v) !! m) as [rec|] eqn:E; [left|by right].
        intros ->. by rewrite (ok_backup _ Hr _ _ E) in Hb. }
      cbn [on_methods registry]. destruct (Z.eqb_spec (Records.IsHooked (registry v) m) 0) as [|Hn]; cbn [negb].
      + repeat case_match; unfold entry_of; rewrite ?SetEntryPointsToInterpreter_other by done;
          cbn [on_methods methods]; by rewrite SetEntryPoint_other.
      + destruct Hm' as [Hm'|]; [|done].
        repeat case_match; unfold entry_of; cbn [on_methods methods]; by rewrite !SetEntryPoint_other. }
  destruct (decide (t = m)) as [->|Hne].
  - by rewrite (not_elem_of_list_to_map_1 l m), lookup_insert_eq by done.
  - by rewrite lookup_insert_ne.
Qed.

(** The hook of the fixup, after anything that leaves what is set aside alone. *)
Lemma fixup_popped v v2 class_def self fixup :
  backup_methods_ v = ∅ → class_def ≠ 0 → self ≠ 0 →
  backup_methods_ v2 = backup_methods_ (BackupClassMethods class_def self v) →
  ∃ w, FixupStaticTrampolines c bridge interp (on_methods fixup) class_def self v2 =
         foldl restore_one w (map_to_list (set_aside v class_def)) ∧
       registry w = registry v2 ∧ methods w = fixup (methods v2).
Proof.
  intros Hb Hc Hs Hb2. pose proof (PopBackup_set_aside v class_def self false Hb Hc Hs) as Hpop. simpl in Hpop.
  unfold FixupStaticTrampolines, RestoreBackup.
  destruct (PopBackup class_def self (on_methods fixup v2)) as [ms w] eqn:E. exists w.
  assert (ms = set_aside v class_def) as ->.
  { apply (f_equal fst) in Hpop. apply (f_equal fst) in E. simpl in *. rewrite <-Hpop, <-E.
    unfold PopBackup. cbn [on_methods backup_methods_]. rewrite Hb2. by repeat case_match. }
  split; [done|]. apply (f_equal snd) in E. simpl in E. subst w.
  destruct (PopBackup_fields class_def self (on_methods fixup v2)) as (-> & -> & _). done.
Qed.

(** when a static method is unhooked between the change of its class's status
    and the restoration of entry points, its old stub is written back: it is
    no longer hooked, and enters the stub nonetheless. *)
Theorem unhook_undone_by_initialization init_status fixup class_def self t id rec v :
  registry_ok (registry v) → backup_methods_ v = ∅ → class_def ≠ 0 → self ≠ 0 →
  hooked_methods_ (registry v) !! t = Some rec → in_class (hooked_classes_ (registry v)) class_def t →
  class_def_of GetClassDef v t = class_def →
  IsStatic (methods v) t = true → IsDeoptimized (registry v) t = false →
  let v1 := SetStatus init_status (λ v, v) class_def init_status self v in
  let v2 := (UnHook GetClassDef true t id v1).2 in
  let v3 := FixupStaticTrampolines c bridge interp (on_methods fixup) class_def self v2 in
  HookApi.IsHooked true t v3 = false ∧ entry_of v3 t = entry_of v t.
Proof using interp_frame.
  intros Hr Hb Hc Hs Hrec Hin Hclass Hst Hd v1 v2 v3.
  assert (v1 = BackupClassMethods class_def self v) as Hv1 by (unfold v1, SetStatus; by rewrite Z.eqb_refl).
  destruct (BackupClassMethods_fields v class_def self) as (Em & Er & _ & _).
  assert (registry v2 = ForgetHooked t (Records.backup rec) class_def (registry v) ∧
    backup_methods_ v2 = backup_methods_ v1) as [Er2 Eb2].
  { unfold v2, UnHook. cbn [negb]. rewrite Hv1, Er, Hrec. cbn. rewrite Er. split; [|done].
    unfold class_def_of in *. by rewrite Em, Hclass. }
  rewrite Hv1 in Eb2. destruct (fixup_popped v v2 class_def self fixup Hb Hc Hs Eb2) as (w & E3 & Erw & Emw).
  fold v3 in E3. rewrite Er2 in Erw.
  assert (registry v3 = registry w) as Er3 by by rewrite E3, restore_all_registry.
  assert (hooked_methods_ (registry w) !! t = None) as Hnone by (rewrite Erw; simpl; apply lookup_delete_eq).
  split.
  - unfold HookApi.IsHooked, Records.IsHooked. cbn [negb]. by rewrite Er3, Hnone.
  - assert (backuped_methods_ (registry v) !! t = None) as Hnb by (apply (ok_apart _ Hr); by eexists).
    rewrite E3, restore_all_compiled; try done; rewrite ?Erw; try done; [|by apply ForgetHooked_ok| |apply NoDup_fst_map_to_list].
    + rewrite list_to_map_to_list. destruct (set_aside_lookup v class_def t) as [Hval Hdom].
      destruct (proj2 Hdom) as [e He]; [by split; [left|]|]. rewrite He. simpl. by apply Hval.
    + simpl. by apply lookup_delete_None; right.
Qed.

(** a static method that is hooked between the change of its class's status
    and the end of the fixup loses its stub: it is recorded as hooked and has
    the code the runtime gave it. *)
Theorem hook_lost_by_initialization init_status fixup class_def self t v v2 :
  backup_methods_ v = ∅ → class_def ≠ 0 → self ≠ 0 → set_aside v class_def !! t = None →
  let v1 := SetStatus init_status (λ v, v) class_def init_status self v in
  backup_methods_ v2 = backup_methods_ v1 → registry_ok (registry v2) → hooked v2 t →
  let v3 := FixupStaticTrampolines c bridge interp (on_methods fixup) class_def self v2 in
  HookApi.IsHooked true t v3 = true ∧ entry_of v3 t = entry_point (fixup (methods v2) t).
Proof using interp_frame.
  intros Hb Hc Hs Hnone v1 Eb2 Hr Ht v3.
  assert (v1 = BackupClassMethods class_def self v) as Hv1 by (unfold v1, SetStatus; by rewrite Z.eqb_refl).
  rewrite Hv1 in Eb2. destruct (fixup_popped v v2 class_def self fixup Hb Hc Hs Eb2) as (w & E3 & Erw & Emw).
  fold v3 in E3. assert (registry v3 = registry v2) as Er3 by by rewrite E3, restore_all_registry.
  split.
  - unfold HookApi.IsHooked. cbn [negb]. rewrite Er3.
    by rewrite (proj2 (Z.eqb_neq _ _)) by by apply (hooked_IsHooked v2 t Hr).
  - rewrite E3, restore_all_hooked; try done; [|by rewrite Erw|unfold hooked; by rewrite Erw|apply NoDup_fst_map_to_list].
    rewrite list_to_map_to_list, Hnone. unfold entry_of. by rewrite Emw.
Qed.

(** removing a hook leaves its JIT movement pending: without the runtime's
    [MoveObsoleteMethod], the next collection of the code cache clears the data
    of the method that is not hooked any more — the function of a native
    method, which [GetNativeFunction] then reports as null. *)
Theorem movement_after_unhook t id rec v :
  hooked_methods_ (registry v) !! t = Some rec → t ∈ (jit_movements_ (registry v)).*1 →
  let v' := MoveObsoleteMethods None (UnHook GetClassDef true t id v).2 in
  HookApi.IsHooked true t v' = false ∧ data (methods v' t) = 0 ∧ GetNativeFunction true t v' = 0.
Proof.
  intros Hrec Ht v'. set (w := (UnHook GetClassDef true t id v).2).
  assert (jit_movements_ (registry w) = jit_movements_ (registry v) ∧ hooked_methods_ (registry w) !! t = None)
    as [Ej Eh].
  { unfold w, UnHook. cbn [negb]. rewrite Hrec. cbn. by rewrite lookup_delete_eq. }
  destruct (MoveObsoleteMethods_spec None w ltac:(done)) as (_ & _ & Hd). fold v' in Hd.
  specialize (Hd eq_refl t). rewrite Ej, (bool_decide_eq_true_2 _ Ht) in Hd.
  split_and!; [|exact Hd|].
  - unfold HookApi.IsHooked, Records.IsHooked. cbn [negb].
    change (hooked_methods_ (registry v')) with (hooked_methods_ (registry w)). by rewrite Eh.
  - unfold GetNativeFunction. cbn [negb]. case_match; [done|]. exact Hd.
Qed.
End races.

(** ** Concrete runs *)

Lemma run_vm1_ok : registry_ok (registry run_vm1).
Proof.
  destruct (sys_reachable_ok kArm64 arm64_config None id 0 None 15 None run_app run_code arm64_supported no_intrinsic
    run_interpreter run_movement run_methods (λ _, 0) [0x100] _ _ run_initial_code
    (run_step _ _ _ _ _ _ _ _ _ _ _ _ _ _ _ run_step1 (run_nil _ _ _ _ _ _ _ _ _ _ _))) as [Hs _].
  exact (si_registry _ _ _ _ _ Hs).
Qed.

Lemma run_vm1_record : hooked_methods_ (registry run_vm1) !! 0x100 = Some sample_record.
Proof. by vm_compute. Qed.

Definition run_fixup (h : Methods) : Methods := SetEntryPoint arm64_config 0x100 0x6000 h.

(** After the hook was removed the method still enters the stub at 0x9000. *)
Example unhook_undone_by_initialization_witness :
  let v1 := SetStatus 15 (λ v, v) 0x10 15 0x77 run_vm1 in
  let v2 := (UnHook id true 0x100 0x100 v1).2 in
  entry_of (FixupStaticTrampolines arm64_config 0 None (on_methods run_fixup) 0x10 0x77 v2) 0x100 = 0x9000.
Proof.
  destruct (unhook_undone_by_initialization arm64_config id 0 None no_interpreter 15 run_fixup 0x10 0x77 0x100 0x100
    sample_record run_vm1 run_vm1_ok) as [_ H].
  - by vm_compute.
  - lia.
  - lia.
  - exact run_vm1_record.
  - destruct run_tables as (_ & -> & _). exists {[0x100]}. split; [by vm_compute|by apply elem_of_singleton].
  - by vm_compute.
  - by vm_compute.
  - by vm_compute.
  - cbv zeta. etransitivity; [exact H|]. by vm_compute.
Defined.

(** The method is hooked, and enters the runtime's code at 0x6000. *)
Example hook_lost_by_initialization_witness :
  let v3 := FixupStaticTrampolines arm64_config 0 None (on_methods run_fixup) 0x10 0x77 run_vm1 in
  HookApi.IsHooked true 0x100 v3 = true ∧ entry_of v3 0x100 = 0x6000.
Proof.
  destruct (hook_lost_by_initialization arm64_config 0 None no_interpreter 15 run_fixup 0x10 0x77 0x100 run_vm0 run_vm1)
    as [H1 H2].
  - by vm_compute.
  - lia.
  - lia.
  - by vm_compute.
  - by vm_compute.
  - exact run_vm1_ok.
  - by exists sample_record; apply run_vm1_record.
  - split; [exact H1|]. etransitivity; [exact H2|]. apply SetEntryPoint_entry.
Defined.

(** The data of the method, 0x7000 before, is gone. *)
Example movement_after_unhook_witness :
  data (methods run_vm1 0x100) = 0x7000 ∧
  data (methods (MoveObsoleteMethods None (UnHook id true 0x100 0x100 run_vm1).2) 0x100) = 0.
Proof.
  destruct (movement_after_unhook id 0x100 0x100 sample_record run_vm1 run_vm1_record) as (_ & H & _).
  - assert ((jit_movements_ (registry run_vm1)).*1 = [0x100]) as -> by by vm_compute. by left.
  - split; [by vm_compute|exact H].
Defined.
