(* ===== verification/HookerDex.v ===== *)
(** * Generated hooker methods

    [BuildDex] of [lsplant.cc] as the calls it makes on the method builders,
    and the entry of fast-native hookers: [VNativeHookerEntry],
    [ScopedNonNativeTargetMethod].  The DEX builder is a library outside the
    repository: what it is asked to emit is data here, and the theorems give
    the instructions the meaning the Dalvik documentation gives them. *)

From S2P Require Import Prelude Memory Platform ArtMethod ObjectCollections Reflection HookApi.
From Stdlib Require Import Ascii.

(** ** The builder calls *)

(** A register: one from [AllocRegister], in order, or a [Value::Parameter]. *)
Inductive Reg : Type := Allocated (n : Z) | Param (n : Z).

#[global] Instance Reg_eq_dec : EqDecision Reg.
Proof. solve_decision. Defined.

Inductive Insn : Type :=
  | BuildConst (dst : Reg) (v : Z)
  | BuildConstWide (dst : Reg) (v : Z)
  | BuildNewArray (dst size : Reg)
  | BuildBoxIfPrimitive (dst : Reg) (type : ascii) (src : Reg)
  | BuildAputObject (array value index : Reg)
  | GetStaticObjectField (dst : Reg)
  | InvokeVirtualObject (dst : Reg) (args : list Reg)
  | InvokeStaticObject (dst : Reg) (args : list Reg)
  | CastToBox (reg : Reg) (type : ascii)
  | BuildUnBoxIfPrimitive (dst : Reg) (type : ascii) (src : Reg)
  | BuildReturnVoid
  | BuildReturn (src : Reg) (is_object is_wide : bool).

Definition is_wide (type : ascii) : bool := Ascii.eqb type "J" || Ascii.eqb type "D".
Definition is_primitive (type : ascii) : bool := negb (Ascii.eqb type "L").

Definition parameter_types_of (params : list ascii) (is_static : bool) : list ascii :=
  (if is_static then [] else ["L"%char]) ++ params.

(** The loops that fill the array: from parameter [i] in register [j] on;
    indices start at [skip]. *)
Fixpoint emit_args (skip i j : Z) (tmp hook_params_array : Reg) (types : list ascii) : list Insn :=
  match types with
  | [] => []
  | t :: types =>
      [ BuildBoxIfPrimitive (Param j) t (Param j);
        BuildConst tmp (i - skip);
        BuildAputObject hook_params_array (Param j) tmp ] ++
      emit_args skip (i + 1) (if is_wide t then j + 1 + 1 else j + 1) tmp hook_params_array types
  end.

(** The invocation of the callback. *)
Definition emit_call (size : Z) (is_static is_native_api should_pack : bool)
    (tmp hook_params_array zero_local : Reg) : list Insn :=
  if should_pack then [InvokeVirtualObject tmp [tmp; hook_params_array]]
  else if is_static then
    let zero := if size =? 1 then zero_local else Param 0 in
    [ BuildConst zero 0;
      if is_native_api then InvokeStaticObject tmp [zero; hook_params_array; tmp]
      else InvokeVirtualObject tmp [tmp; zero; hook_params_array] ]
  else if is_native_api then [InvokeStaticObject tmp [Param 0; hook_params_array; tmp]]
  else [InvokeVirtualObject tmp [tmp; Param 0; hook_params_array]].

Definition emit_return (return_type : ascii) (tmp : Reg) : list Insn :=
  if Ascii.eqb return_type "V" then [BuildReturnVoid]
  else if is_primitive return_type then
    [ CastToBox tmp return_type; BuildUnBoxIfPrimitive tmp return_type tmp;
      BuildReturn tmp false (is_wide return_type) ]
  else [BuildReturn tmp true false].

(** The body of a hook method that is not fast native. *)
Definition hook_body (return_type : ascii) (params : list ascii)
    (is_static is_native_api should_pack : bool) : list Insn :=
  let parameter_types := parameter_types_of params is_static in
  let size := Z.of_nat (length params) + 1 in
  let tmp := Allocated 0 in
  let hook_params_array := Allocated 1 in
  [ BuildConst tmp (if should_pack then Z.of_nat (length parameter_types) else size - 1);
    BuildNewArray hook_params_array tmp ] ++
  (if should_pack then emit_args 0 0 0 tmp hook_params_array parameter_types
   else
     let start := if is_static then 0 else 1 in
     emit_args start start start tmp hook_params_array (drop (Z.to_nat start) parameter_types)) ++
  [GetStaticObjectField tmp] ++
  emit_call size is_static is_native_api should_pack tmp hook_params_array (Allocated 2) ++
  emit_return return_type tmp.

(** The body of the backup method. *)
Definition backup_body (return_type : ascii) (params : list ascii) (is_static should_pack : bool)
    : list Insn :=
  let size := Z.of_nat (length params) + 1 in
  let zero_parameter := Param (if is_static then 0 else 1) in
  if Ascii.eqb return_type "V" then [BuildReturnVoid]
  else if is_wide return_type then
    let zero := if negb should_pack && (2 <? size) then zero_parameter else Allocated 0 in
    [BuildConstWide zero 0; BuildReturn zero false true]
  else
    let zero := if negb should_pack && (1 <? size) then zero_parameter else Allocated 0 in
    [BuildConst zero 0; BuildReturn zero (negb (is_primitive return_type)) false].

(** What [BuildDex] asks of the builder for one hooker class. *)
Record HookerClass := {
  hook_name : string;
  hook_code : option (list Insn);        (* none for a native hook method *)
  backup_name : string;
  backup_code : list Insn;
  native_field : option string;          (* the data field of a fast-native hooker *)
  native_method : option string;         (* the native callback *)
  object_field_is_object : bool;         (* the type of the hooker field *)
}.

Definition class_of_request (generated_method_name native_field_name : string) (return_type : ascii)
    (params : list ascii) (q : DexRequest) : HookerClass :=
  let hook_method_name :=
    if String.eqb generated_method_name "{target}" then dex_method_name q else generated_method_name in
  {| hook_name := hook_method_name;
     hook_code :=
       if dex_is_fast_native q then None
       else Some (hook_body return_type params (dex_is_static q) (dex_is_native_api q) (dex_should_pack q));
     backup_name := if String.eqb hook_method_name "backup" then "backup2" else "backup";
     backup_code := backup_body return_type params (dex_is_static q) (dex_should_pack q);
     native_field := if dex_is_fast_native q then Some native_field_name else None;
     native_method :=
       if dex_is_native_api q && negb (dex_is_fast_native q) then Some (dex_callback_name q) else None;
     object_field_is_object := dex_is_native_api q |}.

(** The native entry [BuildDex] registers for a fast-native hook, by the type it
    returns; [None] is [abort]. *)
Definition native_entry_type (return_type : ascii) : option ascii :=
  if bool_decide (return_type ∈ ["Z"; "B"; "S"; "I"; "F"; "J"; "D"; "L"; "V"]%char)
  then Some return_type else None.

(** ** The fast-native entry *)

Section native.
Context (c : Config).

(** [ScopedNonNativeTargetMethod]: whether it is active, the data and the
    methods after its constructor, and after its destructor. *)
Definition with_references (n : Z) (d : NativeHookerData) : NativeHookerData :=
  mkNativeHookerData (should_pack_receiver_and_args d) (is_static d) n (data_field d)
    (callback_method d) (native_entry d) (hooker_target d) (shorty d).

Definition enter_scope (d : NativeHookerData) (h : Methods) : bool * NativeHookerData * Methods :=
  if (references d =? 0) && negb (IsNative h (hooker_target d)) then (false, d, h)
  else
    let n := wrap 32 (references d + 1) in
    (true, with_references n d, if n =? 1 then SetNonNative (hooker_target d) h else h).

Definition leave_scope (active : bool) (d : NativeHookerData) (h : Methods) : NativeHookerData * Methods :=
  if active then
    let n := wrap 32 (references d - 1) in
    (with_references n d, if n =? 0 then SetNative (hooker_target d) h else h)
  else (d, h).

Context (valueOf : ascii → Z → Z) (xxxValue : ascii → Z → Z).

(** The loop over the parameters: from parameter [i] on. *)
Fixpoint wrap_params (i arg_index : Z) (types : list ascii) (va : list Z) (args : list Z) : option (list Z) :=
  match types, va with
  | [], _ => Some args
  | t :: types, value :: va =>
      let wrapped := if is_value t then Some (valueOf t value)
                     else if Ascii.eqb t "L" then Some value else None in
      match wrapped with
      | None => None
      | Some w => wrap_params (i + 1) arg_index types va (SetObjectArrayElement args (i + arg_index) w)
      end
  | _ :: _, [] => None
  end.

(** The arguments of the callback: receiver and array. *)
Definition native_arguments (should_pack is_static : bool) (params : list ascii) (va : list Z)
    : option (Z * list Z) :=
  let parameter_count := Z.of_nat (length params) in
  let args := NewObjectArray (parameter_count + Z.b2z should_pack) in
  let '(receiver, args, arg_index, va) :=
    if negb is_static then
      if should_pack then (0, SetObjectArrayElement args 0 (default 0 (head va)), 1, tail va)
      else (default 0 (head va), args, 0, tail va)
    else (0, args, 0, va) in
  args ← wrap_params 0 arg_index params va args; Some (receiver, args).

(** The result for a return type, from the object the callback returned. *)
Definition native_result (return_type : ascii) (wrapped_result : Z) : option Z :=
  if is_value return_type then Some (if wrapped_result =? 0 then 0 else xxxValue return_type wrapped_result)
  else if Ascii.eqb return_type "L" then Some wrapped_result
  else if Ascii.eqb return_type "V" then Some 0
  else None.

(** What the callback returns for the arguments, with the data of the class and
    the object in its data field; [native] and [java] are the callbacks. *)
Definition wrapped_result (d : NativeHookerData) (params : list ascii) (field_object : Z)
    (native : Z → Z → list Z → Z → Z) (java : Z → Z → option Z → list Z → Z) (va : list Z) : option Z :=
  match native_arguments (should_pack_receiver_and_args d) (is_static d) params va with
  | None => None
  | Some (receiver, args) =>
      Some (if negb (native_entry d =? 0) then native (native_entry d) receiver args field_object
            else if negb (field_object =? 0) then
              if should_pack_receiver_and_args d
              then java field_object (callback_method d) None args
              else java field_object (callback_method d) (Some receiver) args
            else 0)
  end.

(** [VNativeHookerEntry]: the value it leaves in its result, 0 where it leaves it
    alone ([NativeEntry] has the result as a [jvalue]). *)
Definition VNativeHookerEntry (d : option NativeHookerData) (return_type : ascii) (params : list ascii)
    (field_object : Z) (native : Z → Z → list Z → Z → Z) (java : Z → Z → option Z → list Z → Z)
    (va : list Z) : option Z :=
  match d with
  | None => Some 0
  | Some d => o ← wrapped_result d params field_object native java va; native_result return_type o
  end.
End native.

(** ** The meaning of the instructions *)

Inductive Val : Type :=
  | VNone                      (* nothing, or the second register of a wide value *)
  | VPrim (v : Z)
  | VRef (o : Z)
  | VArray (l : list Z).

(** Registers, the invocation made (whether virtual, and its arguments), and
    the value returned. *)
Record Machine := mkMachine {
  regs : Reg → Val;
  called : option (bool * list Val);
  returned : option Val;
}.

Section machine.
Context (valueOf : ascii → Z → Z) (xxxValue : ascii → Z → Z).
(** The object in the hooker field, and the callback. *)
Context (field_object : Z) (callback : bool → list Val → Z).

Definition set_reg (r : Reg) (v : Val) (m : Machine) : Machine :=
  mkMachine (<[r := v]> (regs m)) (called m) (returned m).

Definition invoke (virtual : bool) (dst : Reg) (args : list Reg) (m : Machine) : Machine :=
  let vs := map (regs m) args in
  mkMachine (<[dst := VRef (callback virtual vs)]> (regs m)) (Some (virtual, vs)) (returned m).

Definition exec (i : Insn) (m : Machine) : option Machine :=
  match i with
  | BuildConst dst v | BuildConstWide dst v => Some (set_reg dst (VPrim v) m)
  | BuildNewArray dst size =>
      match regs m size with VPrim n => Some (set_reg dst (VArray (NewObjectArray n)) m) | _ => None end
  | BuildBoxIfPrimitive dst t src =>
      if is_value t then
        match regs m src with VPrim v => Some (set_reg dst (VRef (valueOf t v)) m) | _ => None end
      else Some (set_reg dst (regs m src) m)
  | BuildAputObject a v k =>
      match regs m a, regs m v, regs m k with
      | VArray l, VRef o, VPrim n =>
          if (0 <=? n) && (n <? Z.of_nat (length l))
          then Some (set_reg a (VArray (SetObjectArrayElement l n o)) m) else None
      | _, _, _ => None
      end
  | GetStaticObjectField dst => Some (set_reg dst (VRef field_object) m)
  | InvokeVirtualObject dst args => Some (invoke true dst args m)
  | InvokeStaticObject dst args => Some (invoke false dst args m)
  | CastToBox _ _ => Some m
  | BuildUnBoxIfPrimitive dst t src =>
      if is_value t then
        match regs m src with VRef o => Some (set_reg dst (VPrim (xxxValue t o)) m) | _ => None end
      else Some m
  | BuildReturnVoid => Some (mkMachine (regs m) (called m) (Some VNone))
  | BuildReturn src _ _ => Some (mkMachine (regs m) (called m) (Some (regs m src)))
  end.

Fixpoint exec_all (l : list Insn) (m : Machine) : option Machine :=
  match l with
  | [] => Some m
  | i :: l => match exec i m with Some m => exec_all l m | None => None end
  end.

Lemma exec_all_app l1 l2 m :
  exec_all (l1 ++ l2) m = match exec_all l1 m with Some m => exec_all l2 m | None => None end.
Proof. revert m. induction l1 as [|i l1 IH]; intros m; simpl; [done|]. by destruct (exec i m). Qed.

(** The registers an argument of a type takes, and its box. *)
Definition layout (t : ascii) (v : Z) : list Val :=
  if is_wide t then [VPrim v; VNone] else if is_value t then [VPrim v] else [VRef v].
Definition boxed (t : ascii) (v : Z) : Z := if is_value t then valueOf t v else v.

Fixpoint layouts (types : list ascii) (values : list Z) : list Val :=
  match types, values with
  | t :: types, v :: values => layout t v ++ layouts types values
  | _, _ => []
  end.

Definition box_all (types : list ascii) (values : list Z) : list Z := zip_with boxed types values.

(** The registers a method starts with: its parameters, receiver first. *)
Definition start (params : list Val) : Machine :=
  mkMachine (λ r, match r with Param k => default VNone (params !! Z.to_nat k) | Allocated _ => VNone end)
    None None.

Lemma wide_value t : is_wide t = true → is_value t = true.
Proof. unfold is_wide. intros [->%Ascii.eqb_eq | ->%Ascii.eqb_eq]%orb_true_iff; done. Qed.

Lemma exec_aput a v k l o n m :
  regs m a = VArray l → regs m v = VRef o → regs m k = VPrim n → 0 <= n < Z.of_nat (length l) →
  exec (BuildAputObject a v k) m = Some (set_reg a (VArray (SetObjectArrayElement l n o)) m).
Proof.
  intros Ha Hv Hk Hn. simpl. rewrite Ha, Hv, Hk.
  by rewrite (proj2 (Z.leb_le 0 n)), (proj2 (Z.ltb_lt n _)) by lia.
Qed.

Lemma exec_new_array dst size n m :
  regs m size = VPrim n → exec (BuildNewArray dst size) m = Some (set_reg dst (VArray (NewObjectArray n)) m).
Proof. intros H. simpl. by rewrite H. Qed.

(** The loops store the boxed arguments. *)
Lemma exec_emit_args skip types values i j m done_ :
  length types = length values → i - skip = Z.of_nat (length done_) → 0 <= j →
  (∀ k : nat, (k < length (layouts types values))%nat →
     regs m (Param (j + Z.of_nat k)) = default VNone (layouts types values !! k)) →
  regs m (Allocated 1) = VArray (done_ ++ replicate (length types) 0) →
  ∃ m', exec_all (emit_args skip i j (Allocated 0) (Allocated 1) types) m = Some m' ∧
    regs m' (Allocated 1) = VArray (done_ ++ box_all types values) ∧
    called m' = called m ∧ returned m' = returned m ∧
    (∀ k, k < j → regs m' (Param k) = regs m (Param k)).
Proof.
  revert values i j m done_. induction types as [|t types IH]; intros [|v values] i j m done_ Hlen Hi Hj Hl Ha;
    try done; [by exists m|]. simpl in Hlen, Hl, Ha. injection Hlen as Hlen.
  assert (regs m (Param j) = if is_value t then VPrim v else VRef v) as Hj0.
  { pose proof (Hl 0%nat) as H0. rewrite Z.add_0_r in H0. unfold layout in H0.
    destruct (is_wide t) eqn:Ew; [rewrite (wide_value _ Ew)|destruct (is_value t)]; apply H0; simpl; lia. }
  set (m1 := set_reg (Param j) (VRef (boxed t v)) m).
  assert (exec (BuildBoxIfPrimitive (Param j) t (Param j)) m = Some m1) as Hbox.
  { simpl. unfold m1, boxed. destruct (is_value t); by rewrite Hj0. }
  set (m1' := set_reg (Allocated 0) (VPrim (i - skip)) m1).
  set (l' := SetObjectArrayElement (done_ ++ 0 :: replicate (length types) 0) (i - skip) (boxed t v)).
  set (m2 := set_reg (Allocated 1) (VArray l') m1').
  assert (exec (BuildAputObject (Allocated 1) (Param j) (Allocated 0)) m1' = Some m2) as Haput.
  { apply exec_aput.
    - unfold m1', m1. simpl. by rewrite !fn_lookup_insert_ne.
    - unfold m1', m1. simpl. by rewrite fn_lookup_insert_ne, fn_lookup_insert.
    - unfold m1'. simpl. by rewrite fn_lookup_insert.
    - rewrite length_app. simpl. rewrite length_replicate. lia. }
  cbn [emit_args app exec_all]. rewrite Hbox. change (exec (BuildConst (Allocated 0) (i - skip)) m1) with (Some m1').
  cbv iota. rewrite Haput.
  assert (∀ k, k ≠ j → regs m2 (Param k) = regs m (Param k)) as Hm2.
  { intros k Hk. unfold m2, m1', m1. simpl. rewrite !fn_lookup_insert_ne by congruence. done. }
  assert (regs m2 (Allocated 1) = VArray ((done_ ++ [boxed t v]) ++ replicate (length types) 0)) as Ha2.
  { unfold m2. simpl. rewrite fn_lookup_insert. unfold l'. rewrite Hi. f_equal. by apply Set_middle. }
  destruct (IH values (i + 1) (if is_wide t then j + 1 + 1 else j + 1) m2 (done_ ++ [boxed t v]))
    as (m' & Hrun & Harr & Hc & Hr & Hp); [done| | | |done|].
  - rewrite length_app. simpl. lia.
  - destruct (is_wide t); lia.
  - intros k Hk. unfold layout in Hl. rewrite Hm2 by (destruct (is_wide t); lia).
    destruct (is_wide t).
    + replace (j + 1 + 1 + Z.of_nat k) with (j + Z.of_nat (S (S k))) by lia. apply (Hl (S (S k))). simpl. lia.
    + replace (j + 1 + Z.of_nat k) with (j + Z.of_nat (S k)) by lia.
      destruct (is_value t); apply (Hl (S k)); simpl; lia.
  - exists m'. rewrite Hrun. split_and!; [done| |by rewrite Hc|by rewrite Hr|].
    + by rewrite Harr, <-app_assoc.
    + intros k Hk. rewrite Hp, Hm2 by (destruct (is_wide t); lia). done.
Qed.
(** The array is made and filled. *)
Lemma exec_fill skip types values m :
  length types = length values → 0 <= skip →
  (∀ k : nat, (k < length (layouts types values))%nat →
     regs m (Param (skip + Z.of_nat k)) = default VNone (layouts types values !! k)) →
  ∃ m', exec_all ([BuildConst (Allocated 0) (Z.of_nat (length types));
      BuildNewArray (Allocated 1) (Allocated 0)] ++
      emit_args skip skip skip (Allocated 0) (Allocated 1) types) m = Some m' ∧
    regs m' (Allocated 1) = VArray (box_all types values) ∧
    (∀ k, k < skip → regs m' (Param k) = regs m (Param k)).
Proof.
  intros Hlen Hskip Hl. set (n := Z.of_nat (length types)).
  set (m0 := set_reg (Allocated 1) (VArray (NewObjectArray n)) (set_reg (Allocated 0) (VPrim n) m)).
  rewrite exec_all_app.
  assert (exec_all [BuildConst (Allocated 0) n; BuildNewArray (Allocated 1) (Allocated 0)] m = Some m0) as ->.
  { cbn [exec_all]. change (exec (BuildConst (Allocated 0) n) m) with (Some (set_reg (Allocated 0) (VPrim n) m)).
    cbv iota. rewrite (exec_new_array (Allocated 1) (Allocated 0) n); [done|]. simpl. by rewrite fn_lookup_insert. }
  assert (∀ k, regs m0 (Param k) = regs m (Param k)) as Hp.
  { intros k. unfold m0. simpl. by rewrite !fn_lookup_insert_ne. }
  destruct (exec_emit_args skip types values skip skip m0 []) as (m' & Hrun & Harr & _ & _ & Hk);
    [done|simpl; lia|done| | |].
  - intros k Hlt. rewrite Hp. by apply Hl.
  - unfold m0. simpl. rewrite fn_lookup_insert. unfold n, NewObjectArray. by rewrite Nat2Z.id.
  - exists m'. split_and!; [done|done|]. intros k Hlt. by rewrite Hk.
Qed.

Definition result_of (return_type : ascii) (o : Z) : Val :=
  if Ascii.eqb return_type "V" then VNone
  else if is_value return_type then VPrim (xxxValue return_type o) else VRef o.

Definition is_return (t : ascii) : Prop := is_value t = true ∨ t = "L"%char ∨ t = "V"%char.

Lemma exec_return t o m :
  is_return t → regs m (Allocated 0) = VRef o →
  ∃ m', exec_all (emit_return t (Allocated 0)) m = Some m' ∧ called m' = called m ∧
    returned m' = Some (result_of t o).
Proof.
  intros Ht Ho. unfold emit_return, result_of, is_primitive.
  destruct (Ascii.eqb_spec t "V") as [->|HV]; [by eexists|].
  destruct Ht as [Hv|[->|?]]; [| |done].
  - destruct (Ascii.eqb_spec t "L") as [->|HL]; [done|]. simpl. rewrite Hv, Ho. eexists. split; [done|].
    simpl. by rewrite fn_lookup_insert.
  - simpl. eexists. split; [done|]. simpl. by rewrite Ho.
Qed.

(** The arguments the callback is meant to get. *)
Definition expected_array (is_static should_pack : bool) (receiver : Z) (params : list ascii)
    (values : list Z) : list Z :=
  (if should_pack && negb is_static then [receiver] else []) ++ box_all params values.

Definition expected_args (is_static is_native_api should_pack : bool) (receiver : Z) (array : list Z)
    : list Val :=
  let this := if is_static then VPrim 0 else VRef receiver in
  if should_pack then [VRef field_object; VArray array]
  else if is_native_api then [this; VArray array; VRef field_object]
  else [VRef field_object; this; VArray array].

Lemma exec_tail t size is_static is_native_api should_pack receiver array m :
  is_return t → (should_pack = true → is_native_api = false) →
  regs m (Allocated 1) = VArray array →
  (is_static = false → should_pack = false → regs m (Param 0) = VRef receiver) →
  let args := expected_args is_static is_native_api should_pack receiver array in
  ∃ m', exec_all ([GetStaticObjectField (Allocated 0)] ++
      emit_call size is_static is_native_api should_pack (Allocated 0) (Allocated 1) (Allocated 2) ++
      emit_return t (Allocated 0)) m = Some m' ∧
    called m' = Some (negb is_native_api, args) ∧
    returned m' = Some (result_of t (callback (negb is_native_api) args)).
Proof.
  intros Ht Hpack Harr Hrec args. rewrite !exec_all_app. cbn [exec_all exec].
  set (m1 := set_reg (Allocated 0) (VRef field_object) m).
  assert (∃ m2, exec_all (emit_call size is_static is_native_api should_pack (Allocated 0) (Allocated 1)
      (Allocated 2)) m1 = Some m2 ∧ called m2 = Some (negb is_native_api, args) ∧
      regs m2 (Allocated 0) = VRef (callback (negb is_native_api) args)) as (m2 & Hrun & Hcalled & Hreg).
  { unfold emit_call, args, expected_args.
    destruct should_pack; [rewrite (Hpack eq_refl)|destruct is_static; [destruct (size =? 1), is_native_api|
      specialize (Hrec eq_refl eq_refl); destruct is_native_api]];
      eexists; (split; [reflexivity|]); unfold invoke, m1; simpl;
      rewrite ?fn_lookup_insert; rewrite ?fn_lookup_insert_ne by done; rewrite ?fn_lookup_insert;
      rewrite ?fn_lookup_insert_ne by done; rewrite ?fn_lookup_insert, ?Harr, ?Hrec; done. }
  rewrite exec_all_app, Hrun. destruct (exec_return t _ m2 Ht Hreg) as (m' & Hret & Hc & Hr).
  exists m'. by rewrite Hc.
Qed.
End machine.

(** The generated body of a hook method calls the callback once, with the
    receiver and the boxed arguments in the order of the method's parameters,
    whatever registers wide arguments take, and returns the unboxed result. *)
Theorem hook_body_calls valueOf xxxValue field_object callback return_type params is_static
    is_native_api should_pack receiver values :
  length params = length values → is_return return_type → (should_pack = true → is_native_api = false) →
  let args := expected_args field_object is_static is_native_api should_pack receiver
    (expected_array valueOf is_static should_pack receiver params values) in
  ∃ m, exec_all valueOf xxxValue field_object callback
      (hook_body return_type params is_static is_native_api should_pack)
      (start ((if is_static then [] else [VRef receiver]) ++ layouts params values)) = Some m ∧
    called m = Some (negb is_native_api, args) ∧
    returned m = Some (result_of xxxValue return_type (callback (negb is_native_api) args)).
Proof.
  intros Hlen Hret Hpack args. unfold hook_body. cbv zeta.
  rewrite (app_assoc [BuildConst _ _; BuildNewArray _ _]), exec_all_app.
  set (m0 := start _). set (array := expected_array _ _ _ _ _ _) in args.
  assert (∃ m1, exec_all valueOf xxxValue field_object callback ([BuildConst (Allocated 0)
        (if should_pack then Z.of_nat (length (parameter_types_of params is_static))
         else Z.of_nat (length params) + 1 - 1); BuildNewArray (Allocated 1) (Allocated 0)] ++
      (if should_pack then emit_args 0 0 0 (Allocated 0) (Allocated 1) (parameter_types_of params is_static)
       else emit_args (if is_static then 0 else 1) (if is_static then 0 else 1) (if is_static then 0 else 1)
         (Allocated 0) (Allocated 1)
         (drop (Z.to_nat (if is_static then 0 else 1)) (parameter_types_of params is_static)))) m0 = Some m1 ∧
    regs m1 (Allocated 1) = VArray array ∧
    (is_static = false → should_pack = false → regs m1 (Param 0) = VRef receiver)) as (m1 & Hfill & Harr & Hrec).
  { rewrite Z.add_simpl_r. unfold parameter_types_of. destruct is_static.
    - destruct (exec_fill valueOf xxxValue field_object callback 0 params values m0) as (m1 & H1 & H2 & _);
        [done|done| |].
      { intros k _. unfold m0. rewrite Z.add_0_l. cbn [start regs]. by rewrite Nat2Z.id. }
      exists m1. unfold array, expected_array. rewrite andb_false_r. by destruct should_pack.
    - destruct should_pack.
      + destruct (exec_fill valueOf xxxValue field_object callback 0 ("L"%char :: params) (receiver :: values) m0)
          as (m1 & H1 & H2 & _); [simpl; congruence|done| |by exists m1].
        intros k _. unfold m0. rewrite Z.add_0_l. cbn [start regs]. by rewrite Nat2Z.id.
      + destruct (exec_fill valueOf xxxValue field_object callback 1 params values m0) as (m1 & H1 & H2 & H3);
          [done|done| |].
        { intros k _. unfold m0. simpl. replace (Z.to_nat (1 + Z.of_nat k)) with (S k) by lia. done. }
        exists m1. split_and!; [done|done|]. intros _ _. by rewrite H3. }
  match goal with |- context [exec_all _ _ _ _ ?l m0] => replace (exec_all valueOf xxxValue field_object callback l m0)
    with (Some m1) end.
  by apply exec_tail.
Qed.

(** ** The fast-native entry *)

Definition is_parameter (t : ascii) : Prop := is_value t = true ∨ t = "L"%char.

Lemma wrap_params_spec valueOf i arg_index types values done_ rest :
  Forall is_parameter types → length types = length values → i + arg_index = Z.of_nat (length done_) →
  wrap_params valueOf i arg_index types values (done_ ++ replicate (length types) 0 ++ rest) =
    Some (done_ ++ box_all valueOf types values ++ rest).
Proof.
  revert i values done_. induction types as [|t types IH]; intros i values done_ Hok Hlen Hi.
  { by destruct values. }
  destruct values as [|v values]; [done|]. apply Forall_cons in Hok as [Ht Hok].
  injection Hlen as Hlen. cbn [wrap_params length replicate app].
  assert ((if is_value t then Some (valueOf t v) else if Ascii.eqb t "L" then Some v else None) =
    Some (boxed valueOf t v)) as ->.
  { unfold boxed. destruct (is_value t) eqn:E; [done|]. destruct Ht as [Ht|Ht]; [congruence|].
    by rewrite (proj2 (Ascii.eqb_eq t "L") Ht). }
  rewrite Hi, Set_middle by done. rewrite IH; [|done|done|rewrite length_app; simpl; lia].
  by rewrite <-!app_assoc.
Qed.

(** What the entry of a fast-native hooker collects: the array of the generated body;
    but for a static method whose callback takes only the array, a null element
    follows the arguments. *)
Lemma native_arguments_spec valueOf params is_static should_pack receiver values :
  Forall is_parameter params → length params = length values →
  native_arguments valueOf should_pack is_static params ((if is_static then [] else [receiver]) ++ values) =
    Some (if is_static || should_pack then 0 else receiver,
          expected_array valueOf is_static should_pack receiver params values ++
          (if should_pack && is_static then [0] else [])).
Proof.
  intros Hok Hlen. unfold native_arguments, expected_array, NewObjectArray.
  assert (∀ n : nat, Z.to_nat (Z.of_nat n + 1) = (n + 1)%nat) as Hn by lia.
  destruct is_static, should_pack; cbn [negb andb orb app head tail default Z.b2z]; rewrite ?Hn, ?Z.add_0_r, ?Nat2Z.id.
  - rewrite replicate_add.
    pose proof (wrap_params_spec valueOf 0 0 params values [] [0] Hok Hlen eq_refl) as H.
    cbn [app] in H. change (replicate 1 0) with [0]. by rewrite H.
  - pose proof (wrap_params_spec valueOf 0 0 params values [] [] Hok Hlen eq_refl) as H.
    rewrite !app_nil_r in H. cbn [app] in H. rewrite H. simpl. by rewrite app_nil_r.
  - rewrite Nat.add_1_r. cbn [replicate].
    change (SetObjectArrayElement (0 :: replicate (length params) 0) 0 (id receiver))
      with (receiver :: replicate (length params) 0).
    pose proof (wrap_params_spec valueOf 0 1 params values [receiver] [] Hok Hlen eq_refl) as H.
    rewrite !app_nil_r in H. cbn [app] in H. rewrite H. simpl. by rewrite app_nil_r.
  - pose proof (wrap_params_spec valueOf 0 0 params values [] [] Hok Hlen eq_refl) as H.
    rewrite !app_nil_r in H. cbn [app] in H. rewrite H. simpl. by rewrite app_nil_r.
Qed.

(** C36: the entry of a fast-native hooker passes on what the generated body of an
    ordinary hooker of the same method passes to its callback: the same receiver and
    the same array, but for a static method whose callback takes only the array, where
    a null element follows the arguments. *)
Theorem native_arguments_agree valueOf xxxValue field_object callback return_type params is_static
    is_native_api should_pack receiver values :
  Forall is_parameter params → length params = length values → is_return return_type →
  (should_pack = true → is_native_api = false) →
  ∃ native_receiver array m,
    native_arguments valueOf should_pack is_static params ((if is_static then [] else [receiver]) ++ values) =
      Some (native_receiver, array) ∧
    exec_all valueOf xxxValue field_object callback
      (hook_body return_type params is_static is_native_api should_pack)
      (start ((if is_static then [] else [VRef receiver]) ++ layouts params values)) = Some m ∧
    called m = Some (negb is_native_api, expected_args field_object is_static is_native_api should_pack native_receiver
      (if should_pack && is_static then removelast array else array)).
Proof.
  intros Hok Hlen Hret Hpack.
  destruct (hook_body_calls valueOf xxxValue field_object callback return_type params is_static is_native_api should_pack
    receiver values Hlen Hret Hpack) as (m & Hrun & Hcalled & _).
  eexists _, _, m. split; [by apply native_arguments_spec|]. split; [done|]. rewrite Hcalled. unfold expected_args.
  destruct is_static, should_pack; cbn [andb orb]; by rewrite ?removelast_last, ?app_nil_r.
Qed.

(** ** Concrete hookers *)

(** A method with a receiver, a [long] and an [int], whose callback takes the
    packed array. *)
Example hook_body_calls_witness :
  ∃ m, exec_all (λ _ v, v + 1000) (λ _ o, o - 1000) 7 (λ _ _, 1005)
      (hook_body "I" ["J"; "I"]%char false false true)
      (start [VRef 9; VPrim 5; VNone; VPrim 6]) = Some m ∧
    called m = Some (true, [VRef 7; VArray [9; 1005; 1006]]) ∧ returned m = Some (VPrim 5).
Proof.
  apply (hook_body_calls (λ _ v, v + 1000) (λ _ o, o - 1000) 7 (λ _ _, 1005) "I" ["J"; "I"]%char false
    false true 9 [5; 6]); [done|by left|done].
Defined.

Example native_arguments_agree_witness :
  ∃ m, exec_all (λ _ v, v + 1000) (λ _ o, o - 1000) 7 (λ _ _, 1005)
      (hook_body "I" ["J"; "L"]%char true false true) (start [VPrim 5; VNone; VRef 6]) = Some m ∧
    called m = Some (true, [VRef 7; VArray [1005; 6]]).
Proof.
  destruct (native_arguments_agree (λ _ v, v + 1000) (λ _ o, o - 1000) 7 (λ _ _, 1005) "I" ["J"; "L"]%char true
    false true 9 [5; 6]) as (r & array & m & Ha & Hrun & Hcalled); [|done|by left|done|].
  - apply Forall_cons; split; [by left|]. apply Forall_cons; split; [by right|]. apply Forall_nil_2.
  - exists m. split; [exact Hrun|]. rewrite Hcalled.
    assert (native_arguments (λ _ v, v + 1000) true true ["J"; "L"]%char [5; 6] = Some (0, [1005; 6; 0])) as E by reflexivity.
    cbn [app] in Ha. rewrite E in Ha. injection Ha as <- <-. reflexivity.
Defined.
