(* ===== verification/Invoke.v ===== *)
(** * Invoking a method without virtual dispatch

    [InvokeSpecial] of [lsplant.cc]: the checks on the receiver and the
    arguments, the unboxing of the arguments, the JNI call made and what
    becomes of its result or exception; [ThrowNewException], with the messages of
    the errors it throws.  What JNI answers is a parameter. *)

From stdpp Require Import pretty.
From S2P Require Import Prelude Memory Platform ArtMethod Records Vm Reflection HookApi.
From Stdlib Require Import Ascii.

(** The families of JNI calls. *)
Inductive CallKind : Type :=
  | CallStatic (clazz : Z)
  | CallNonvirtual (receiver declaring_class : Z)
  | CallVirtual (receiver : Z).

(** The exceptions [InvokeSpecial] throws itself. *)
Inductive ThrownError : Type :=
  | NullMethod | NullArtMethod | NotInherited | NullReceiver | WrongNumberOfArguments (expected got : Z).

(** [Failed]: a null result with a pending exception; [Unexpected]: the
    exception of the callee. *)
Inductive InvokeResult : Type :=
  | Returned (o : Z)
  | Failed (e : ThrownError)
  | Unexpected (exception : Z).

(** The arguments of a call. *)
Record Invocation := {
  executable : TargetInfo;          (* the executable and its ArtMethod; null when target_id is 0 *)
  declaring_class : Z;
  receiver : Z;
  args_array : option (list Z);
}.

(** ** [ThrowNewException] *)

(** The exceptions' classes and messages, with what the formats stand for; the
    classes of [NotInherited] are the two [Class.getName] answers, in the order the
    code passes them. *)
Definition kNullPointerException : string := "java/lang/NullPointerException".
Definition kIllegalArgumentException : string := "java/lang/IllegalArgumentException".

(** The message, and whether it comes from a format with arguments. *)
Definition message_of (declaring_class_name class_name : string) (e : ThrownError) : string * string * bool :=
  match e with
  | NullMethod => (kNullPointerException, "null method", false)
  | NullArtMethod => (kNullPointerException, "Executable.artMethod", false)
  | NullReceiver => (kNullPointerException, "null receiver", false)
  | NotInherited =>
      (kIllegalArgumentException, declaring_class_name +:+ " is not inherited from " +:+ class_name, true)
  | WrongNumberOfArguments expected got =>
      (kIllegalArgumentException,
       "Wrong number of arguments; expected " +:+ pretty expected +:+ ", got " +:+ pretty got, true)
  end%string.

(** [snprintf] into [size] bytes: what it leaves before the zero byte. *)
Definition snprintf (size : nat) (s : string) : string := String.substring 0 (size - 1) s.

(** The exception that is pending, and the live local references. *)
Record Pending := mkPending { pending : option (string * string); locals : gset Z }.

(** ** Messages *)

Lemma length_append a b : String.length (a +:+ b) = (String.length a + String.length b)%nat.
Proof. induction a as [|x a IH]; [done|]. change (S (String.length (a +:+ b)) = S (String.length a + String.length b)). by rewrite IH. Qed.

Lemma length_pretty_N_go k x acc :
  (x < 10 ^ N.of_nat k)%N → (String.length (pretty_N_go x acc) <= k + String.length acc)%nat.
Proof.
  revert x acc. induction k as [|k IH]; intros x acc Hx.
  - assert (x = 0)%N as -> by (cbn in Hx; lia). by rewrite pretty_N_go_0.
  - destruct (decide (x = 0%N)) as [->|Hne]; [rewrite pretty_N_go_0; lia|].
    rewrite pretty_N_go_step by lia.
    etrans; [apply IH|cbn; lia]. apply N.Div0.div_lt_upper_bound.
    rewrite <-N.pow_succ_r'. by rewrite <-Nat2N.inj_succ.
Qed.

(** A number of a [jint] has at most eleven characters. *)
Lemma length_pretty z : - 2 ^ 31 <= z < 2 ^ 31 → (String.length (pretty z) <= 11)%nat.
Proof.
  intros Hz. assert (∀ x : positive, (N.pos x < 10 ^ N.of_nat 10)%N → (String.length (pretty (N.pos x)) <= 10)%nat) as H.
  { intros x Hx. pose proof (length_pretty_N_go 10 (N.pos x) EmptyString Hx). by cbn in *. }
  destruct z as [|x|x]; [cbn; lia| |].
  - change (pretty (Z.pos x)) with (pretty (N.pos x)). specialize (H x). lia.
  - change (pretty (Z.neg x)) with ("-" +:+ pretty (N.pos x))%string. rewrite length_append.
    specialize (H x). cbn [String.length]. lia.
Qed.

Section throw.
(** [FindClass]: a new reference, or 0 with an exception of its own. *)
Context (FindClass : string → Z) (no_class : string * string).

Definition ThrowNewException (exception message : string) (formatted : bool) (p : Pending) : Pending :=
  let exception_class := FindClass exception in
  if exception_class =? 0 then mkPending (Some no_class) (locals p)
  else
    let locals := {[exception_class]} ∪ locals p in
    let message := if formatted then snprintf 1024 message else message in
    mkPending (Some (exception, message)) (locals ∖ {[exception_class]}).

(** The throw leaves exactly one exception, of the class asked for when there is
    such a class, and no reference. *)
Lemma ThrowNewException_spec exception message formatted p :
  FindClass exception ∉ locals p → (formatted = true → (String.length message < 1024)%nat) →
  ThrowNewException exception message formatted p =
    mkPending (Some (if FindClass exception =? 0 then no_class else (exception, message))) (locals p).
Proof.
  intros Hfresh Hlen. unfold ThrowNewException, snprintf. destruct (FindClass exception =? 0); [done|].
  f_equal; [|set_solver]. destruct formatted; [|done]. specialize (Hlen eq_refl). do 2 f_equal.
  assert (∀ n, (String.length message <= n)%nat → String.substring 0 n message = message) as E; [|apply E; lia].
  clear. induction message as [|x s IH]; intros [|n] H; try done; cbn in *; [lia|]. f_equal. apply IH. lia.
Qed.

(** An error of [InvokeSpecial] is thrown. *)
Definition throw (declaring_class_name class_name : string) (e : ThrownError) (p : Pending) : Pending :=
  let '(exception, message, formatted) := message_of declaring_class_name class_name e in
  ThrowNewException exception message formatted p.

(** The messages fit the buffer, but for the one with the names of two classes. *)
Lemma throw_message declaring_class_name class_name e p :
  (∀ name, FindClass name ≠ 0 ∧ FindClass name ∉ locals p) →
  match e with
  | NotInherited => False
  | WrongNumberOfArguments expected got => - 2 ^ 31 <= expected < 2 ^ 31 ∧ - 2 ^ 31 <= got < 2 ^ 31
  | _ => True
  end →
  throw declaring_class_name class_name e p =
    mkPending (Some (message_of declaring_class_name class_name e).1) (locals p).
Proof.
  intros Hclass He. unfold throw. destruct (message_of _ _ e) as [[exception message] formatted] eqn:E.
  destruct (Hclass exception) as [Hc Hfresh]. rewrite ThrowNewException_spec; [|done|].
  - by rewrite (proj2 (Z.eqb_neq _ _) Hc).
  - destruct e as [| | | |expected got]; simplify_eq/=; try done. intros _. destruct He as [H1 H2].
    apply length_pretty in H1, H2. rewrite !length_append. cbn [String.length]. lia.
Qed.
End throw.

Section invoke.
Context (c : Config) (GetShorty : Z → string) (valueOf : ascii → Z → Z) (xxxValue : ascii → Z → Z).
(** [GetObjectClass], the class of a method, [IsAssignableFrom], [AllocObject]. *)
Context (GetObjectClass : Z → Z) (class_of_method : Z → Z) (IsAssignableFrom : Z → Z → bool)
        (AllocObject : Z → Z).
(** The JNI call with a method id: its value, and the exception it left, 0 when
    there is none. *)
Context (jni_call : CallKind → list Z → Z * Z).
Implicit Types (v : Vm).

(** The arguments, unboxed for their letters; [None] is [abort]. *)
Fixpoint unwrap_args (types : list ascii) (wrapped : list Z) : option (list Z) :=
  match types, wrapped with
  | [], _ => Some []
  | t :: types, w :: wrapped =>
      match (if Ascii.eqb t "L" then Some w else Unwrap xxxValue t w), unwrap_args types wrapped with
      | Some x, Some l => Some (x :: l)
      | _, _ => None
      end
  | _ :: _, [] => None
  end.

(** One case of the switches: the result for a return letter. *)
Definition finish (return_type : ascii) (r : Z * Z) : option InvokeResult :=
  let '(value, exception) := r in
  if Ascii.eqb return_type "F" || Ascii.eqb return_type "D" then
    if negb (exception =? 0) then Some (Unexpected exception)
    else Some (Returned (valueOf return_type value))
  else if is_value return_type then
    if (value =? 0) && negb (exception =? 0) then Some (Unexpected exception)
    else Some (Returned (valueOf return_type value))
  else if Ascii.eqb return_type "L" then
    if (value =? 0) && negb (exception =? 0) then Some (Unexpected exception) else Some (Returned value)
  else if Ascii.eqb return_type "V" then
    if negb (exception =? 0) then Some (Unexpected exception) else Some (Returned 0)
  else None.

Definition InvokeSpecial (i : Invocation) v : option InvokeResult :=
  let t := executable i in
  let method := target_method t in
  if target_id t =? 0 then Some (Failed NullMethod)
  else if method =? 0 then Some (Failed NullArtMethod)
  else
    let is_static := IsStatic (methods v) method in
    let clazz :=
      if declaring_class i =? 0 then
        if negb (receiver i =? 0) && negb is_static then GetObjectClass (receiver i)
        else class_of_method method
      else declaring_class i in
    if negb (declaring_class i =? 0) && negb (clazz =? declaring_class i) &&
       negb (IsAssignableFrom clazz (declaring_class i)) then Some (Failed NotInherited)
    else
      let is_constructor := IsConstructor (methods v) method in
      if (receiver i =? 0) && negb is_constructor && negb is_static then Some (Failed NullReceiver)
      else
        let receiver :=
          if (receiver i =? 0) && is_constructor
          then AllocObject (if declaring_class i =? 0 then clazz else declaring_class i)
          else receiver i in
        let letters := String.list_ascii_of_string (target_shorty c GetShorty v t) in
        let parameter_count := Z.of_nat (length letters) - 1 in
        let args_count := match args_array i with Some a => Z.of_nat (length a) | None => 0 end in
        if negb (args_count =? parameter_count)
        then Some (Failed (WrongNumberOfArguments parameter_count args_count))
        else match letters, default [] (args_array i) with
        | return_type :: types, wrapped =>
            match unwrap_args types wrapped with
            | None => None
            | Some args =>
                let kind :=
                  if is_static then CallStatic clazz
                  else if negb (declaring_class i =? 0) then CallNonvirtual receiver (declaring_class i)
                  else CallVirtual receiver in
                finish return_type (jni_call kind args)
            end
        | [], _ => None
        end.

(** ** What it guarantees *)

(** JNI returns 0 from a call that left an exception. *)
Definition jni_ok : Prop := ∀ kind args, (jni_call kind args).2 ≠ 0 → (jni_call kind args).1 = 0.

(** The result of a call: the boxed value, or the exception. *)
Definition outcome_of (return_type : ascii) (r : Z * Z) : InvokeResult :=
  if negb (r.2 =? 0) then Unexpected r.2
  else Returned (if is_value return_type then valueOf return_type r.1
                 else if Ascii.eqb return_type "L" then r.1 else 0).

Definition return_letter (t : ascii) : Prop := is_value t = true ∨ t = "L"%char ∨ t = "V"%char.
Definition parameter_letter (t : ascii) : Prop := is_value t = true ∨ t = "L"%char.

Lemma finish_outcome t r :
  return_letter t → (r.2 ≠ 0 → r.1 = 0) → finish t r = Some (outcome_of t r).
Proof.
  destruct r as [value exn]. simpl. intros Ht He. unfold finish, outcome_of. simpl.
  assert (is_value "L" = false ∧ is_value "V" = false) as [HL HV] by done.
  destruct (Z.eqb_spec exn 0) as [->|Hex]; cbn [negb].
  - rewrite andb_false_r.
    destruct (Ascii.eqb_spec t "F"), (Ascii.eqb_spec t "D"); subst; try done. cbn [orb].
    destruct Ht as [-> |[-> | ->]]; done.
  - rewrite (He Hex). cbn [Z.eqb andb].
    destruct (Ascii.eqb_spec t "F"), (Ascii.eqb_spec t "D"); subst; try done. cbn [orb].
    destruct Ht as [-> |[-> | ->]]; done.
Qed.

Lemma finish_not_failed t r e : finish t r ≠ Some (Failed e).
Proof. unfold finish. destruct r. intros H. repeat case_match; simplify_eq. Qed.

Lemma unwrap_args_total types wrapped :
  Forall parameter_letter types → length types = length wrapped →
  unwrap_args types wrapped =
    Some (zip_with (λ t w, if Ascii.eqb t "L" then w else xxxValue t w) types wrapped).
Proof.
  revert wrapped. induction types as [|t types IH]; intros [|w wrapped] Hok Hlen; simplify_eq/=; [done|].
  apply Forall_cons in Hok as [Ht Hok]. rewrite IH by done.
  destruct (Ascii.eqb_spec t "L"); [done|]. unfold Unwrap. destruct Ht as [-> |?]; done.
Qed.

(** The object an instance method is called on: a new one for a constructor that
    is given none. *)
Definition receiver_of (i : Invocation) : Z :=
  if receiver i =? 0
  then AllocObject (if declaring_class i =? 0 then class_of_method (target_method (executable i)) else declaring_class i)
  else receiver i.

(** The JNI call made for a method. *)
Definition kind_of (i : Invocation) v : CallKind :=
  let method := target_method (executable i) in
  if IsStatic (methods v) method
  then CallStatic (if declaring_class i =? 0 then class_of_method method else declaring_class i)
  else if declaring_class i =? 0 then CallVirtual (receiver_of i)
  else CallNonvirtual (receiver_of i) (declaring_class i).

Definition unboxed (types : list ascii) (args : list Z) : list Z :=
  zip_with (λ t w, if Ascii.eqb t "L" then w else xxxValue t w) types args.

(** A call of a static method, of a constructor, or with a receiver, and with as
    many arguments as the method has parameters. *)
Record invocation_ok (i : Invocation) v (return_type : ascii) (types : list ascii) (args : list Z) : Prop := {
  inv_id : target_id (executable i) ≠ 0;
  inv_method : target_method (executable i) ≠ 0;
  inv_shorty : String.list_ascii_of_string (target_shorty c GetShorty v (executable i)) = return_type :: types;
  inv_return : return_letter return_type;
  inv_parameters : Forall parameter_letter types;
  inv_args : args_array i = Some args;
  inv_length : length args = length types;
  inv_receiver : receiver i = 0 → IsStatic (methods v) (target_method (executable i)) = false →
    IsConstructor (methods v) (target_method (executable i)) = true;
}.

Lemma InvokeSpecial_one_call i v return_type types args :
  jni_ok → invocation_ok i v return_type types args →
  InvokeSpecial i v = Some (outcome_of return_type (jni_call (kind_of i v) (unboxed types args))).
Proof.
  intros Hjni [Hid Hm Hsh Hret Htypes Hargs Hlen Hrec].
  unfold InvokeSpecial, kind_of. rewrite (proj2 (Z.eqb_neq _ 0) Hid), (proj2 (Z.eqb_neq _ 0) Hm), Hsh, Hargs.
  rewrite Hlen. cbn [length default]. replace (Z.of_nat (S (length types)) - 1) with (Z.of_nat (length types)) by lia.
  rewrite Z.eqb_refl. unfold id. rewrite (unwrap_args_total _ _ Htypes (eq_sym Hlen)). fold (unboxed types args).
  unfold receiver_of. destruct (Z.eqb_spec (receiver i) 0) as [E|E], (IsStatic _ _);
    try rewrite (Hrec E eq_refl); destruct (Z.eqb_spec (declaring_class i) 0); cbn [negb andb];
    rewrite ?Z.eqb_refl, ?andb_false_r; cbn [negb andb]; try by rewrite finish_outcome by auto.
Qed.

(** A call with the right number of arguments makes one JNI call: static for
    a static method, without dispatch on the class given, and virtual when none is
    given; a constructor without a receiver is called on a new object; the arguments
    are unboxed for their types, and the value is boxed or the exception returned. *)
Theorem InvokeSpecial_calls i v return_type types args :
  jni_ok → invocation_ok i v return_type types args →
  let call kind := Some (outcome_of return_type
    (jni_call kind (zip_with (λ t w, if Ascii.eqb t "L" then w else xxxValue t w) types args))) in
  let clazz := if declaring_class i =? 0 then class_of_method (target_method (executable i)) else declaring_class i in
  let this := if receiver i =? 0 then AllocObject clazz else receiver i in
  if IsStatic (methods v) (target_method (executable i)) then InvokeSpecial i v = call (CallStatic clazz)
  else if declaring_class i =? 0 then InvokeSpecial i v = call (CallVirtual this)
  else InvokeSpecial i v = call (CallNonvirtual this (declaring_class i)).
Proof.
  intros Hjni Hi call clazz this. pose proof (InvokeSpecial_one_call i v _ _ _ Hjni Hi) as E.
  unfold kind_of, receiver_of in E.
  destruct (IsStatic _ _); [done|]. by destruct (declaring_class i =? 0).
Qed.

(** The check that the receiver's class inherits from the class given never
    fails: the class compared is the one given. *)
Theorem InvokeSpecial_never_NotInherited i v : InvokeSpecial i v ≠ Some (Failed NotInherited).
Proof.
  unfold InvokeSpecial. destruct (target_id (executable i) =? 0); [done|].
  destruct (target_method (executable i) =? 0); [done|].
  destruct (Z.eqb_spec (declaring_class i) 0) as [E|E]; cbn [negb andb];
    [|rewrite Z.eqb_refl; cbn [negb andb]];
    repeat (case_match; try done); apply finish_not_failed.
Qed.
End invoke.

Section failures.
Context (c : Config) (GetShorty : Z → string) (valueOf xxxValue : ascii → Z → Z).
Context (GetObjectClass class_of_method : Z → Z) (IsAssignableFrom : Z → Z → bool) (AllocObject : Z → Z).
Implicit Types (v : Vm).

Abbreviation InvokeSpecial := (InvokeSpecial c GetShorty valueOf xxxValue GetObjectClass class_of_method
  IsAssignableFrom AllocObject).

Definition parameter_count_of i v : Z := Z.of_nat (String.length (target_shorty c GetShorty v (executable i))) - 1.
Definition args_count_of (i : Invocation) : Z := Z.of_nat (length (default [] (args_array i))).

Lemma length_letters s : length (String.list_ascii_of_string s) = String.length s.
Proof. induction s as [|x s IH]; cbn; congruence. Qed.

(** The error of a call, in the order of the checks. *)
Definition failure_of i v : option ThrownError :=
  let method := target_method (executable i) in
  if target_id (executable i) =? 0 then Some NullMethod
  else if method =? 0 then Some NullArtMethod
  else if (receiver i =? 0) && negb (IsConstructor (methods v) method) && negb (IsStatic (methods v) method)
  then Some NullReceiver
  else if args_count_of i =? parameter_count_of i v then None
  else Some (WrongNumberOfArguments (parameter_count_of i v) (args_count_of i)).

Lemma InvokeSpecial_failure i v :
  match failure_of i v with
  | Some e => ∀ jni_call, InvokeSpecial jni_call i v = Some (Failed e)
  | None => ∀ jni_call e, InvokeSpecial jni_call i v ≠ Some (Failed e)
  end.
Proof.
  unfold Invoke.InvokeSpecial, failure_of, parameter_count_of, args_count_of. cbv zeta.
  destruct (Z.eqb_spec (target_id (executable i)) 0) as [?|Hid]; [done|].
  destruct (Z.eqb_spec (target_method (executable i)) 0) as [?|Hm]; [done|].
  assert (∀ a b, negb (declaring_class i =? 0) && negb ((if declaring_class i =? 0 then a else declaring_class i) =?
    declaring_class i) && b = false) as ->.
  { intros a b. by destruct (Z.eqb_spec (declaring_class i) 0); cbn [negb andb]; rewrite ?Z.eqb_refl. }
  destruct (_ && _ && _) eqn:Hrec; [done|].
  rewrite length_letters. set (expected := _ - 1). replace (match args_array i with Some a => _ | None => 0 end)
    with (Z.of_nat (length (default [] (args_array i)))) by by destruct (args_array i).
  destruct (Z.eqb_spec (Z.of_nat (length (default [] (args_array i)))) expected) as [E|E]; cbn [negb]; [|done].
  intros jni_call e. destruct (String.list_ascii_of_string _); [done|].
  destruct (unwrap_args _ _ _); [|done]. apply finish_not_failed.
Qed.

(** C23: what [InvokeSpecial] throws itself.  A null method, an executable
    without an [ArtMethod], an instance method that is not a constructor without
    a receiver, and a number of arguments other than that of the parameters, in
    this order, make it fail whatever the call of the method would answer; the one
    exception that is then pending is of the class and has the whole message given
    here, and no local reference is left.  In every other case it does not fail. *)
Theorem InvokeSpecial_throws i v FindClass no_class p names :
  parameter_count_of i v < 2 ^ 31 → args_count_of i < 2 ^ 31 →
  (∀ name, FindClass name ≠ 0 ∧ FindClass name ∉ locals p) →
  let method := target_method (executable i) in
  let throws exception message := ∃ e, (∀ jni_call, InvokeSpecial jni_call i v = Some (Failed e)) ∧
    throw FindClass no_class names.1 names.2 e p = mkPending (Some (exception, message)) (locals p) in
  if target_id (executable i) =? 0 then throws "java/lang/NullPointerException" "null method"
  else if method =? 0 then throws "java/lang/NullPointerException" "Executable.artMethod"
  else if (receiver i =? 0) && negb (IsStatic (methods v) method || IsConstructor (methods v) method)
  then throws "java/lang/NullPointerException" "null receiver"
  else if negb (args_count_of i =? parameter_count_of i v)
  then throws "java/lang/IllegalArgumentException"
         ("Wrong number of arguments; expected " +:+ pretty (parameter_count_of i v) +:+
          ", got " +:+ pretty (args_count_of i))
  else ∀ jni_call e, InvokeSpecial jni_call i v ≠ Some (Failed e).
Proof.
  intros Hparams Hargs Hclass. cbv zeta. pose proof (InvokeSpecial_failure i v) as H. unfold failure_of in H.
  cbv zeta in H. rewrite negb_orb, (andb_comm (negb (IsStatic _ _))), andb_assoc.
  assert (∀ e, match e with NotInherited => False
    | WrongNumberOfArguments expected got => - 2 ^ 31 <= expected < 2 ^ 31 ∧ - 2 ^ 31 <= got < 2 ^ 31 | _ => True end →
    throw FindClass no_class names.1 names.2 e p = mkPending (Some (message_of names.1 names.2 e).1) (locals p)) as Ht.
  { intros e He. by apply throw_message. }
  destruct (target_id _ =? 0); [by eexists; split; [exact H|by apply Ht]|].
  destruct (target_method _ =? 0); [by eexists; split; [exact H|by apply Ht]|].
  destruct (_ && _ && _); [by eexists; split; [exact H|by apply Ht]|].
  destruct (args_count_of i =? parameter_count_of i v); cbn [negb]; [exact H|].
  eexists; split; [exact H|apply Ht]. unfold parameter_count_of, args_count_of in *. lia.
Qed.
End failures.

(** A static method and an instance method, both of shorty "IL"; every call
    returns 21, but the one without dispatch throws. *)
Definition sample_methods : Methods := λ p,
  if p =? 0x100 then mkMethod kAccStatic 0 0 0 0 else mkMethod 0 0 0 0 0.
Definition sample_executable (method : Z) : TargetInfo := {|
  target_executable := true; target_method := method; target_id := 1; target_name := "f";
  declaring_is_proxy := Some false; declaring_and_proxy_known := true; proxy_assignable := false;
  reflected_shorty := "IL" |}.
Definition sample_call (kind : CallKind) (args : list Z) : Z * Z :=
  match kind with CallNonvirtual _ _ => (0, 66) | _ => (21, 0) end.
Definition sample_vm : Vm := mkVm sample_methods empty_registry ∅ (λ _, 0) [] [].

Definition sample_invocation : Invocation :=
  {| executable := sample_executable 0x200; declaring_class := 8; receiver := 9; args_array := Some [7] |}.

Example InvokeSpecial_calls_witness :
  InvokeSpecial arm64_config (λ _, "IL"%string) (λ _ v, v + 1000) (λ _ o, o - 1000) (λ _, 3) (λ _, 4)
    (λ _ _, false) (λ _, 5) sample_call sample_invocation sample_vm = Some (Unexpected 66).
Proof.
  apply (InvokeSpecial_calls arm64_config (λ _, "IL"%string) (λ _ v, v + 1000) (λ _ o, o - 1000)
    (λ _, 3) (λ _, 4) (λ _ _, false) (λ _, 5) sample_call sample_invocation sample_vm "I" ["L"%char] [7]);
    [by intros []|].
  split; try done; [by left|]. apply Forall_singleton. by right.
Defined.

Definition two_arguments : Invocation :=
  {| executable := sample_executable 0x200; declaring_class := 8; receiver := 9; args_array := Some [7; 7] |}.

Example InvokeSpecial_throws_witness :
  ∃ e, InvokeSpecial arm64_config (λ _, "IL"%string) (λ _ v, v + 1000) (λ _ o, o - 1000) (λ _, 3) (λ _, 4)
    (λ _ _, false) (λ _, 5) sample_call two_arguments sample_vm = Some (Failed e) ∧
  throw (λ _, 40) ("", "")%string "A" "B" e (mkPending None {[7]}) =
  mkPending (Some ("java/lang/IllegalArgumentException", "Wrong number of arguments; expected 1, got 2")%string) {[7]}.
Proof.
  destruct (InvokeSpecial_throws arm64_config (λ _, "IL"%string) (λ _ v, v + 1000) (λ _ o, o - 1000) (λ _, 3) (λ _, 4)
    (λ _ _, false) (λ _, 5) two_arguments sample_vm (λ _, 40) ("", "")%string (mkPending None {[7]}) ("A", "B")%string)
    as (e & He & Ht); [done|done| |].
  - intros name. cbn [locals]. set_solver.
  - exists e. split; [apply He|]. etrans; [exact Ht|by vm_compute].
Defined.
