(* ===== verification/Arena.v ===== *)
(** * Arena allocation

    [art/base/arena_allocator.cxx]: arenas of zeroed memory, the pool that maps
    and recycles them, and the bump allocator that hands out blocks.  [next_] is
    the order of a list; the head of a chain is the head of its list.  The
    answers of [mmap] and [malloc] are arguments of the calls. *)

From S2P Require Import Prelude Memory Platform.

(** ** Arenas *)

Definition kArenaDefaultSize : Z := 64 * 1024.

(** The alignment guaranteed for individual allocations. *)
Definition kAlignment : Z := 8.

(** [class Arena], without [next_]. *)
Record Arena := MkArena { bytes_allocated_ : Z; memory_ : Z; size_ : Z }.

Definition with_bytes_allocated (b : Z) (a : Arena) : Arena := MkArena b (memory_ a) (size_ a).

Section arena.
Context (cur : Arch).
Abbreviation w := (kPointerBits cur).

Definition Begin (a : Arena) : Z := memory_ a.
Definition End (a : Arena) : Z := wrap w (memory_ a + size_ a).
Definition Size (a : Arena) : Z := size_ a.
Definition RemainingSpace (a : Arena) : Z := wrap w (Size a - bytes_allocated_ a).
Definition Arena_Contains (a : Arena) (ptr : Z) : bool :=
  (memory_ a <=? ptr) && (ptr <? wrap w (memory_ a + size_ a)).

(** [Arena::Reset]: [memset] of what was allocated. *)
Definition Reset (a : Arena) (m : mem) : Arena * mem :=
  if bytes_allocated_ a >? 0
  then (with_bytes_allocated 0 a, memset0 m (Begin a) (Z.to_nat (bytes_allocated_ a)))
  else (a, m).

(** ** The pool *)

Context (getpagesize : Z).
Context (madvise : mem → Z → Z → mem).

(** [MemMapArena::Release]; [madvise] is the memory after [MADV_DONTNEED]. *)
Definition Release (a : Arena) (m : mem) : Arena * mem :=
  if bytes_allocated_ a >? 0
  then (with_bytes_allocated 0 a, madvise m (memory_ a) (size_ a))
  else (a, m).

(** The length [MemMapArena::Allocate] asks [mmap] for. *)
Definition map_length (size : Z) : Z := align_up w size getpagesize.

(** [MemMapArena::Allocate] and [new MemMapArena]; [mapped] is the answer of
    [mmap], [None] for [MAP_FAILED].  The arena has the size before rounding. *)
Definition new_arena (mapped : option Z) (size : Z) : option Arena :=
  match mapped with
  | Some map => Some (MkArena 0 map size)
  | None => None
  end.

(** [free_arenas_], linked by [next_]. *)
Definition MemMapArenaPool := list Arena.

(** [MemMapArenaPool::AllocArena]. *)
Definition AllocArena (mapped : option Z) (size : Z) (free_arenas_ : MemMapArenaPool) (m : mem) :
    option Arena * MemMapArenaPool * mem :=
  match free_arenas_ with
  | ret :: next =>
      if Size ret >=? size
      then let '(ret, m) := Reset ret m in (Some ret, next, m)
      else (new_arena mapped size, free_arenas_, m)
  | [] => (new_arena mapped size, free_arenas_, m)
  end.

(** [FreeArenaChain]: the last arena of the chain is linked to the free list. *)
Definition FreeArenaChain (first free_arenas_ : MemMapArenaPool) : MemMapArenaPool :=
  match first with
  | [] => free_arenas_
  | _ => first ++ free_arenas_
  end.

Definition GetBytesAllocated (free_arenas_ : MemMapArenaPool) : Z :=
  fold_left (λ total arena, wrap w (total + bytes_allocated_ arena)) free_arenas_ 0.

(** [ReclaimMemory]: the calls of [munmap], in order. *)
Fixpoint ReclaimMemory (free_arenas_ : MemMapArenaPool) : list (Z * Z) :=
  match free_arenas_ with
  | [] => []
  | arena :: next => (memory_ arena, size_ arena) :: ReclaimMemory next
  end.

Fixpoint TrimMaps (free_arenas_ : MemMapArenaPool) (m : mem) : MemMapArenaPool * mem :=
  match free_arenas_ with
  | [] => ([], m)
  | arena :: next =>
      let '(arena, m) := Release arena m in
      let '(next, m) := TrimMaps next m in
      (arena :: next, m)
  end.

(** ** The allocator *)

(** [class ArenaAllocator]; [arena_head_] is the chain from the head on. *)
Record ArenaAllocator := MkAllocator {
  pool_ : MemMapArenaPool;
  begin_ : Z;
  end_ : Z;
  ptr_ : Z;
  arena_head_ : list Arena
}.

(** The constructor, on a pool. *)
Definition new_allocator (pool : MemMapArenaPool) : ArenaAllocator := MkAllocator pool 0 0 0 [].

(** The bytes left in the current arena, a [size_t]. *)
Definition CurrentArenaUnusedBytes (s : ArenaAllocator) : Z := wrap w (end_ s - ptr_ s).

Definition with_ptr (p : Z) (s : ArenaAllocator) : ArenaAllocator :=
  MkAllocator (pool_ s) (begin_ s) (end_ s) p (arena_head_ s).

Definition UpdateBytesAllocated (s : ArenaAllocator) : ArenaAllocator :=
  match arena_head_ s with
  | head :: next =>
      MkAllocator (pool_ s) (begin_ s) (end_ s) (ptr_ s)
        (with_bytes_allocated (wrap w (ptr_ s - begin_ s)) head :: next)
  | [] => s
  end.

(** [AllocFromNewArena]: the address, 0 for the null pointer; [None] where
    [arena_head_->next_] would dereference a null pointer. *)
Definition AllocFromNewArena (mapped : option Z) (bytes : Z) (s : ArenaAllocator) (m : mem) :
    option (Z * ArenaAllocator * mem) :=
  let '(r, pool, m) := AllocArena mapped (Z.max kArenaDefaultSize bytes) (pool_ s) m in
  let s := MkAllocator pool (begin_ s) (end_ s) (ptr_ s) (arena_head_ s) in
  match r with
  | None => Some (0, s, m)
  | Some new_arena =>
      if CurrentArenaUnusedBytes s >? wrap w (Size new_arena - bytes) then
        match arena_head_ s with
        | [] => None
        | head :: next =>
            let new_arena := with_bytes_allocated bytes new_arena in
            Some (Begin new_arena,
                  MkAllocator pool (begin_ s) (end_ s) (ptr_ s) (head :: new_arena :: next), m)
        end
      else
        let s := UpdateBytesAllocated s in
        let begin := Begin new_arena in
        Some (begin,
              MkAllocator pool begin (End new_arena) (wrap w (begin + bytes))
                (new_arena :: arena_head_ s), m)
  end.

(** [Alloc]; [memory] is what [malloc] returns, where it is called. *)
Definition Alloc (mapped : option Z) (malloc : Z) (bytes : Z) (s : ArenaAllocator) (m : mem) :
    option (Z * ArenaAllocator * mem) :=
  let bytes := align_up w bytes kAlignment in
  if bytes >? CurrentArenaUnusedBytes s then
    '(memory, s, m) ← AllocFromNewArena mapped bytes s m;
    if negb (memory =? 0) then Some (memory, s, m) else Some (malloc, s, m)
  else
    let ret := ptr_ s in
    Some (ret, with_ptr (wrap w (ptr_ s + bytes)) s, m).

(** [AllocAlign16]; [memalign] is what that function returns. *)
Definition AllocAlign16 (mapped : option Z) (memalign : Z) (bytes : Z) (s : ArenaAllocator)
    (m : mem) : option (Z * ArenaAllocator * mem) :=
  let padding := wrap w (align_up w (ptr_ s) 16 - ptr_ s) in
  if wrap w (padding + bytes) >? CurrentArenaUnusedBytes s then
    '(memory, s, m) ← AllocFromNewArena mapped bytes s m;
    if negb (memory =? 0) then Some (memory, s, m) else Some (memalign, s, m)
  else
    let s := with_ptr (wrap w (ptr_ s + padding)) s in
    let ret := ptr_ s in
    Some (ret, with_ptr (wrap w (ptr_ s + bytes)) s, m).

(** [Realloc]; [None] also where [memcpy] is given the null pointer. *)
Definition Realloc (mapped : option Z) (malloc : Z) (ptr ptr_size new_size : Z)
    (s : ArenaAllocator) (m : mem) : option (Z * ArenaAllocator * mem) :=
  let aligned_ptr_size := align_up w ptr_size kAlignment in
  let endp := wrap w (ptr + aligned_ptr_size) in
  let aligned_new_size := align_up w new_size kAlignment in
  let size_delta := wrap w (aligned_new_size - aligned_ptr_size) in
  let remain := CurrentArenaUnusedBytes s in
  if (endp =? ptr_ s) && (remain >=? size_delta)
  then Some (ptr, with_ptr (wrap w (ptr_ s + size_delta)) s, m)
  else
    '(new_ptr, s, m) ← Alloc mapped malloc new_size s m;
    if (new_ptr =? 0) && negb (ptr_size =? 0) then None
    else Some (new_ptr, s, memcpy m new_ptr ptr (Z.to_nat ptr_size)).

(** [AllocArray<T>], for [sizeof(T)]. *)
Definition AllocArray (mapped : option Z) (malloc : Z) (sizeof_T length : Z)
    (s : ArenaAllocator) (m : mem) : option (Z * ArenaAllocator * mem) :=
  Alloc mapped malloc (wrap w (length * sizeof_T)) s m.

(** [BytesUsed]. *)
Definition BytesUsed (s : ArenaAllocator) : Z :=
  fold_left (λ total cur_arena, wrap w (total + bytes_allocated_ cur_arena))
    (tl (arena_head_ s)) (wrap w (ptr_ s - begin_ s)).

Definition ResetCurrentArena (s : ArenaAllocator) : ArenaAllocator :=
  let s := UpdateBytesAllocated s in
  MkAllocator (pool_ s) 0 0 0 (arena_head_ s).

Definition Contains (s : ArenaAllocator) (ptr : Z) : bool :=
  ((begin_ s <=? ptr) && (ptr <? end_ s))
  || existsb (λ cur_arena, Arena_Contains cur_arena ptr) (arena_head_ s).

(** The body of [~ArenaAllocator]: the pool after it; the destructor of the
    pool then runs [ReclaimMemory]. *)
Definition free_arenas (s : ArenaAllocator) : MemMapArenaPool :=
  let s := UpdateBytesAllocated s in
  FreeArenaChain (arena_head_ s) (pool_ s).
End arena.
