(* ===== verification/ArenaSpec.v ===== *)
(** * Arena allocation: the theorems

    The blocks of an allocator never overlap and are zero when they are given
    out, in every execution of [Arena]'s functions: an invariant of the state
    [Sys], kept by each of them, and what the destructors leave behind. *)

From S2P Require Import Prelude Memory Platform Arena.

Create Rewrite HintDb lsp_cover.

(** ** Ranges *)

(** A range of addresses, by first address and length. *)
Definition covers (x : Z) (r : Z * Z) : bool := (r.1 <=? x) && (x <? r.1 + r.2).

(** How many of the ranges hold the address. *)
Definition cover (x : Z) (l : list (Z * Z)) : Z := count_if (covers x) l.

Definition arena_range (a : Arena) : Z * Z := (memory_ a, size_ a).

Definition arena_ranges (l : list Arena) : list (Z * Z) := map arena_range l.

(** The part of a chain that [bytes_allocated_] and the cursor record as used. *)
Definition used_ranges (s : ArenaAllocator) : list (Z * Z) :=
  match arena_head_ s with
  | [] => []
  | head :: next =>
      (memory_ head, ptr_ s - begin_ s) :: map (λ a, (memory_ a, bytes_allocated_ a)) next
  end.

Lemma cover_nonneg x l : 0 <= cover x l.
Proof. apply count_if_nonneg. Qed.

Lemma cover_cons x r l : cover x (r :: l) = (if covers x r then 1 else 0) + cover x l.
Proof. done. Qed.

Lemma cover_nil x : cover x [] = 0.
Proof. done. Qed.

Lemma cover_app x l k : cover x (l ++ k) = cover x l + cover x k.
Proof. unfold cover. induction l as [|r l IH]; simpl; [done|]. rewrite IH. lia. Qed.

Lemma covers_spec x r : covers x r = true ↔ r.1 <= x < r.1 + r.2.
Proof. unfold covers. lia. Qed.

Lemma cover_pos x l : 0 < cover x l ↔ ∃ r, r ∈ l ∧ r.1 <= x < r.1 + r.2.
Proof.
  unfold cover. split.
  - intros (i & r & Hr & Hx)%count_if_pos_inv. apply covers_spec in Hx.
    exists r. split; [by eapply list_elem_of_lookup_2|done].
  - intros (r & Hr & Hx). apply list_elem_of_lookup in Hr as [i Hr].
    pose proof (count_if_lookup _ _ _ _ Hr (proj2 (covers_spec x r) Hx)). lia.
Qed.

Lemma arena_ranges_cons a l : arena_ranges (a :: l) = arena_range a :: arena_ranges l.
Proof. done. Qed.

Lemma arena_ranges_app l k : arena_ranges (l ++ k) = arena_ranges l ++ arena_ranges k.
Proof. apply map_app. Qed.

#[export] Hint Rewrite cover_cons cover_nil cover_app arena_ranges_cons arena_ranges_app
  : lsp_cover.

Lemma covers_false x r : covers x r = false ↔ ¬ (r.1 <= x < r.1 + r.2).
Proof. by rewrite <-covers_spec, not_true_iff_false. Qed.

(** Case analysis on whether a range holds an address. *)
Ltac cover_cases :=
  autorewrite with lsp_cover in *;
  repeat match goal with
  | H : context [covers ?x ?r] |- _ =>
      let E := fresh "E" in
      destruct (covers x r) eqn:E; [apply covers_spec in E|apply covers_false in E]; try discriminate
  | |- context [covers ?x ?r] =>
      let E := fresh "E" in
      destruct (covers x r) eqn:E; [apply covers_spec in E|apply covers_false in E]; try discriminate
  end; cbn [fst snd arena_range memory_ size_ with_bytes_allocated] in *.

(** ** States of an allocator in use *)

(** The allocator, the memory, the blocks its callers hold, and those of them
    that came from [malloc]. *)
Record Sys := MkSys {
  alloc : ArenaAllocator;
  bytes : mem;
  blocks : list (Z * Z);
  heap : list (Z * Z)
}.

(** What is mapped or allocated. *)
Definition regions (g : Sys) : list (Z * Z) :=
  arena_ranges (arena_head_ (alloc g)) ++ arena_ranges (pool_ (alloc g)) ++ heap g.

(** The bytes of an arena past [bytes_allocated_] are zero. *)
Definition clean (m : mem) (a : Arena) : Prop :=
  ∀ x, memory_ a + bytes_allocated_ a <= x < memory_ a + size_ a → m x = 0.

Section invariant.
Context (cur : Arch) (page_bits : Z).
Abbreviation w := (kPointerBits cur).
Abbreviation getpagesize := (2 ^ page_bits).
Implicit Types (s : ArenaAllocator) (g : Sys) (m : mem).

(** An arena is inside the address space, and aligned. *)
Record arena_ok (a : Arena) : Prop := {
  arena_at : 0 < memory_ a;
  arena_aligned : (16 | memory_ a);
  arena_used : 0 <= bytes_allocated_ a <= size_ a;
  arena_end : memory_ a + size_ a < 2 ^ w
}.

(** The cursor is in the head arena, or null: before the first block, and after
    [ResetCurrentArena], which [rst] allows. *)
Definition cursor_ok (rst : bool) s : Prop :=
  match arena_head_ s with
  | head :: _ =>
      (rst = true ∧ begin_ s = 0 ∧ end_ s = 0 ∧ ptr_ s = 0) ∨
      (begin_ s = memory_ head ∧ end_ s = memory_ head + size_ head ∧
       begin_ s <= ptr_ s <= end_ s ∧ (kAlignment | ptr_ s))
  | [] => begin_ s = 0 ∧ end_ s = 0 ∧ ptr_ s = 0
  end.

Record sys_ok (rst : bool) (g : Sys) : Prop := {
  ok_regions : ∀ x, cover x (regions g) <= 1;
  ok_chain : Forall arena_ok (arena_head_ (alloc g));
  ok_pool : Forall (λ a, arena_ok a ∧ clean (bytes g) a) (pool_ (alloc g));
  ok_cursor : cursor_ok rst (alloc g);
  ok_zero : ∀ x, ptr_ (alloc g) <= x < end_ (alloc g) → bytes g x = 0;
  ok_blocks : ∀ x, cover x (blocks g) <= 1;
  ok_inside : ∀ x, 0 < cover x (blocks g) →
    0 < cover x (heap g) ∨
    (0 < cover x (arena_ranges (arena_head_ (alloc g))) ∧
     ¬ (ptr_ (alloc g) <= x < end_ (alloc g)));
  ok_used : rst = false → ∀ x, 0 < cover x (arena_ranges (arena_head_ (alloc g))) →
    cover x (used_ranges (alloc g)) = 0 → bytes g x = 0 ∧ cover x (blocks g) = 0
}.

(** [mmap] gives a zeroed mapping of its own at a page boundary, and refuses
    the length 0. *)
Definition mmap_ok g (mapped : option Z) (size : Z) : Prop :=
  ∀ a, mapped = Some a →
    let n := map_length cur getpagesize size in
    0 < a ∧ (getpagesize | a) ∧ 0 < n ∧ a + n < 2 ^ w ∧
    ∀ x, a <= x < a + n → bytes g x = 0 ∧ cover x (regions g) = 0.

(** [malloc] and [memalign] give aligned memory of its own, or null. *)
Definition malloc_ok g (alignment p n : Z) : Prop :=
  p = 0 ∨ (0 < p ∧ (alignment | p) ∧ p + n < 2 ^ w ∧
           ∀ x, p <= x < p + n → cover x (regions g) = 0).

(** ** Taking an arena *)

Lemma memset0_spec m a n x :
  0 <= n → memset0 m a (Z.to_nat n) x = if covers x (a, n) then 0 else m x.
Proof.
  intros Hn. unfold memset0. destruct (covers x (a, n)) eqn:E.
  - apply covers_spec in E. simpl in E. replace x with (a + Z.of_nat (Z.to_nat (x - a))) by lia.
    rewrite write_bytes_in by (rewrite repeat_length; lia). by rewrite nth_repeat.
  - apply write_bytes_out. rewrite repeat_length. apply not_true_iff_false in E.
    rewrite covers_spec in E. simpl in E. lia.
Qed.

Lemma kPointerBits_cases : w = 64 ∨ w = 32.
Proof. destruct (kPointerSize_cases cur) as [E|E]; unfold kPointerBits; rewrite E; lia. Qed.

(** [mmap] was asked for at least the size, if it gave anything. *)
Lemma map_length_ge size :
  0 <= page_bits < w → 0 <= size < 2 ^ w → 0 < map_length cur getpagesize size →
  size <= map_length cur getpagesize size.
Proof.
  intros Hp Hs Hn. destruct (Z.ltb_spec (size + (2 ^ page_bits - 1)) (2 ^ w)).
  - apply (align_up_spec w size page_bits); lia.
  - exfalso. unfold map_length, align_up in Hn.
    assert (2 ^ page_bits < 2 ^ w) by (apply Z.pow_lt_mono_r; lia).
    pose proof (Z.pow_pos_nonneg 2 page_bits).
    replace (wrap w (size + (2 ^ page_bits - 1))) with (size + (2 ^ page_bits - 1) - 2 ^ w) in Hn.
    + rewrite align_down_mod, Z.mod_small in Hn; lia.
    + unfold wrap. apply (Z.mod_unique_pos _ _ 1); lia.
Qed.

(** An arena ready for the allocator: mapped, not in use, zero. *)
Record fresh_arena g (size : Z) (a : Arena) (pool : MemMapArenaPool) m : Prop := {
  fresh_ok : arena_ok a;
  fresh_empty : bytes_allocated_ a = 0;
  fresh_size : size <= size_ a;
  fresh_zero : ∀ x, covers x (arena_range a) = true → m x = 0;
  fresh_frame : ∀ x, covers x (arena_range a) = false → m x = bytes g x;
  fresh_pool : Forall (λ a, arena_ok a ∧ clean m a) pool;
  fresh_regions : ∀ x, cover x (arena_range a :: arena_ranges (arena_head_ (alloc g)) ++
                                arena_ranges pool ++ heap g) <= 1
}.

Lemma clean_frame m m' a r pool :
  (∀ x, covers x r = false → m' x = m x) →
  (∀ x, cover x (r :: arena_ranges pool) <= 1) → Forall (λ a, arena_ok a ∧ clean m a) pool →
  a ∈ pool → arena_ok a ∧ clean m' a.
Proof.
  intros Hm Hr Hp Ha. rewrite Forall_forall in Hp. destruct (Hp a Ha) as [Hok Hc].
  split; [done|]. intros x Hx. rewrite Hm; [by apply Hc|].
  assert (0 < cover x (arena_ranges pool)).
  { apply cover_pos. exists (arena_range a). split; [by apply list_elem_of_fmap_2|].
    destruct Hok as [_ _ ? _]. simpl. lia. }
  specialize (Hr x). cover_cases; [lia|done].
Qed.

Lemma AllocArena_spec rst g mapped size :
  4 <= page_bits < w → 0 <= size < 2 ^ w → sys_ok rst g → mmap_ok g mapped size →
  match AllocArena mapped size (pool_ (alloc g)) (bytes g) with
  | (Some a, pool, m) => fresh_arena g size a pool m
  | (None, pool, m) => pool = pool_ (alloc g) ∧ m = bytes g
  end.
Proof.
  intros Hp Hs [Hreg Hchain Hpool Hcur Hzero Hblocks Hin Hused] Hmap.
  assert (match new_arena mapped size with
          | Some a => fresh_arena g size a (pool_ (alloc g)) (bytes g)
          | None => True
          end) as Hnew.
  { destruct mapped as [a|]; simpl; [|done]. destruct (Hmap a eq_refl) as (H0 & Ha & Hn & He & Hx).
    pose proof (map_length_ge size ltac:(lia) Hs Hn) as Hle.
    assert ((16 | a)) by (etrans; [|exact Ha]; exists (2 ^ (page_bits - 4));
      rewrite <-(Z.pow_add_r 2 _ 4) by lia; f_equal; lia).
    split; simpl; try done; [split; simpl; done || lia| |].
    - intros x Hc. apply covers_spec in Hc. simpl in Hc. apply Hx. lia.
    - intros x. specialize (Hreg x). unfold regions in Hreg. cover_cases; [|lia].
      destruct (Hx x ltac:(lia)) as [_ Hz]. unfold regions in Hz. cover_cases. lia. }
  unfold AllocArena. destruct (pool_ (alloc g)) as [|ret next] eqn:Ep.
  { by destruct (new_arena mapped size). }
  destruct (Z.geb_spec (Size ret) size) as [Hge|Hlt].
  2:{ by destruct (new_arena mapped size). }
  apply Forall_cons in Hpool as [[Hret Hcl] Hnext]. pose proof Hret as [? ? ? ?].
  assert (∀ m', (∀ x, m' x = if covers x (memory_ ret, bytes_allocated_ ret) then 0 else bytes g x) →
    fresh_arena g size (with_bytes_allocated 0 ret) next m') as Hfin.
  { intros m' Hm. assert (∀ x, covers x (arena_range ret) = false → m' x = bytes g x) as Hfr.
    { intros x Hx. rewrite Hm. cover_cases; [lia|done]. }
    assert (∀ x, cover x (arena_range ret :: arena_ranges (arena_head_ (alloc g)) ++
                          arena_ranges next ++ heap g) <= 1) as Hr.
    { intros x. specialize (Hreg x). unfold regions in Hreg. rewrite Ep in Hreg. cover_cases; lia. }
    split; simpl; try done; [split; simpl; done || lia| |].
    - intros x Hx. rewrite Hm. destruct (covers x (_, bytes_allocated_ _)) eqn:E; [done|].
      apply Hcl. cover_cases. lia.
    - apply Forall_forall. intros a Ha. eapply clean_frame; [exact Hfr| |exact Hnext|done].
      intros x. specialize (Hr x). pose proof (cover_nonneg x (heap g)).
      pose proof (cover_nonneg x (arena_ranges (arena_head_ (alloc g)))). cover_cases; lia. }
  unfold Reset. destruct (Z.gtb_spec (bytes_allocated_ ret) 0).
  - apply Hfin. intros x. apply memset0_spec. lia.
  - replace ret with (with_bytes_allocated 0 ret) by (destruct ret; simpl in *; unfold with_bytes_allocated; simpl; f_equal; lia).
    apply Hfin. intros x. replace (bytes_allocated_ ret) with 0 by lia. cover_cases; [lia|done].
Qed.

(** ** New arenas *)

Lemma wrap_diff a b : 0 <= a - b < 2 ^ w → wrap w (a - b) = a - b.
Proof. apply wrap_small. Qed.

Lemma unused_spec rst g :
  sys_ok rst g → CurrentArenaUnusedBytes cur (alloc g) = end_ (alloc g) - ptr_ (alloc g) ∧
  0 <= end_ (alloc g) - ptr_ (alloc g).
Proof.
  intros [_ Hchain _ Hcur _ _ _ _]. unfold CurrentArenaUnusedBytes, cursor_ok in *.
  destruct (arena_head_ (alloc g)) as [|h t]; [destruct Hcur as (_ & -> & ->); done|].
  apply Forall_cons in Hchain as [[? ? ? ?] _].
  destruct Hcur as [(_ & _ & -> & ->)|(? & ? & ? & _)]; [done|]. rewrite wrap_diff; lia.
Qed.

(** The unallocated part of the current arena is part of the chain. *)
Lemma unallocated_in_chain rst g x :
  sys_ok rst g → ptr_ (alloc g) <= x < end_ (alloc g) →
  0 < cover x (arena_ranges (arena_head_ (alloc g))).
Proof.
  intros [_ Hchain _ Hcur _ _ _ _] Hx. unfold cursor_ok in Hcur.
  destruct (arena_head_ (alloc g)) as [|h t]; [lia|].
  pose proof (cover_nonneg x (arena_ranges t)). cover_cases; lia.
Qed.

(** A byte of a block is in a region, and not in the unallocated part. *)
Lemma block_in_regions rst g x :
  sys_ok rst g → 0 < cover x (blocks g) →
  0 < cover x (arena_ranges (arena_head_ (alloc g))) + cover x (heap g).
Proof.
  intros Hok Hx. pose proof (cover_nonneg x (heap g)).
  pose proof (cover_nonneg x (arena_ranges (arena_head_ (alloc g)))).
  destruct (ok_inside _ _ Hok x Hx) as [?|[? _]]; lia.
Qed.

(** Nothing but the new arena has its addresses. *)
Lemma fresh_arena_apart rst g size a pool m x :
  sys_ok rst g → fresh_arena g size a pool m → covers x (arena_range a) = true →
  cover x (arena_ranges (arena_head_ (alloc g))) = 0 ∧ cover x (heap g) = 0 ∧
  cover x (blocks g) = 0 ∧ ¬ (ptr_ (alloc g) <= x < end_ (alloc g)).
Proof.
  intros Hok Hf Hx. pose proof (fresh_regions _ _ _ _ _ Hf x) as Hr.
  rewrite cover_cons, !cover_app, Hx in Hr. pose proof (cover_nonneg x (heap g)).
  pose proof (cover_nonneg x (arena_ranges (arena_head_ (alloc g)))).
  pose proof (cover_nonneg x (arena_ranges pool)). pose proof (cover_nonneg x (blocks g)).
  pose proof (block_in_regions _ _ x Hok). pose proof (unallocated_in_chain _ _ x Hok).
  split_and!; lia.
Qed.

(** The arena taken, in use: the block is at its start, and the arena is a new
    element of the chain. *)
Definition adopted g a bytes (pool : MemMapArenaPool) (keep : bool) : ArenaAllocator :=
  let s := alloc g in
  match keep, arena_head_ s with
  | true, h :: t =>
      MkAllocator pool (begin_ s) (end_ s) (ptr_ s) (h :: with_bytes_allocated bytes a :: t)
  | _, chain =>
      MkAllocator pool (memory_ a) (memory_ a + size_ a) (memory_ a + bytes)
        (a :: match chain with
              | h :: t => with_bytes_allocated (wrap w (ptr_ s - begin_ s)) h :: t
              | [] => []
              end)
  end.

Lemma adopted_ranges g a n pool keep x :
  cover x (arena_ranges (arena_head_ (adopted g a n pool keep))) =
  (if covers x (arena_range a) then 1 else 0) + cover x (arena_ranges (arena_head_ (alloc g))).
Proof.
  unfold adopted. destruct keep, (arena_head_ (alloc g)) as [|h t]; simpl;
    rewrite ?arena_ranges_cons, ?cover_cons; unfold arena_range; simpl; lia.
Qed.

(** The addresses still to be given out. *)
Lemma adopted_unallocated rst g size a n pool keep m x :
  sys_ok rst g → fresh_arena g size a pool m → 0 <= n →
  (keep = true → arena_head_ (alloc g) ≠ []) →
  ptr_ (adopted g a n pool keep) <= x < end_ (adopted g a n pool keep) →
  (ptr_ (alloc g) <= x < end_ (alloc g) ∧ covers x (arena_range a) = false) ∨
  (covers x (arena_range a) = true ∧ memory_ a + n <= x).
Proof.
  intros Hok Hf Hn Hk Hx. unfold adopted in Hx.
  destruct keep, (arena_head_ (alloc g)) as [|h t] eqn:E; simpl in Hx; try (by destruct (Hk eq_refl));
    [|right; rewrite covers_spec; simpl; lia..].
  left. split; [done|]. apply not_true_iff_false. intros Hc.
  by destruct (fresh_arena_apart _ _ _ _ _ _ _ Hok Hf Hc) as (_ & _ & _ & []).
Qed.

Lemma adopted_cursor rst g size a n pool keep m :
  sys_ok rst g → fresh_arena g size a pool m → 0 <= n <= size → (kAlignment | n) →
  (keep = true → arena_head_ (alloc g) ≠ []) → cursor_ok rst (adopted g a n pool keep).
Proof.
  intros Hok [Ha _ Hs _ _ _ _] Hn H8 Hk. pose proof (ok_cursor _ _ Hok) as Hc. destruct Ha as [? H16 ? ?].
  assert (kAlignment | memory_ a + n).
  { apply Z.divide_add_r; [|done]. etrans; [|exact H16]. by exists 2. }
  unfold cursor_ok, adopted in *.
  destruct keep, (arena_head_ (alloc g)) as [|h t]; simpl; try (by destruct (Hk eq_refl)); [done|..];
    right; split_and!; done || lia.
Qed.

Lemma adopted_chain rst g size a n pool keep m :
  sys_ok rst g → fresh_arena g size a pool m → 0 <= n <= size →
  Forall arena_ok (arena_head_ (adopted g a n pool keep)).
Proof.
  intros Hok [Ha _ Hs _ _ _ _] Hn. pose proof (ok_chain _ _ Hok) as Hch.
  pose proof (ok_cursor _ _ Hok) as Hc. unfold adopted, cursor_ok in *.
  assert (arena_ok (with_bytes_allocated n a)) by (destruct Ha; split; simpl; done || lia).
  destruct (arena_head_ (alloc g)) as [|h t]; [destruct keep; by constructor|].
  apply Forall_cons in Hch as [Hh Ht]. pose proof Hh as [? ? ? ?].
  destruct keep; [by do 2 (constructor; [done|])|]. constructor; [done|]. constructor; [|done].
  destruct Hc as [(_ & -> & _ & ->)|(-> & He & ? & _)].
  - split; simpl; try done. change (wrap w (0 - 0)) with 0. lia.
  - split; simpl; try done. rewrite wrap_diff; lia.
Qed.

Lemma adopted_used g a n pool keep x :
  cursor_ok false (alloc g) → Forall arena_ok (arena_head_ (alloc g)) →
  (keep = true → arena_head_ (alloc g) ≠ []) →
  cover x (used_ranges (adopted g a n pool keep)) =
  (if covers x (memory_ a, n) then 1 else 0) + cover x (used_ranges (alloc g)).
Proof.
  intros Hc Hch Hk. unfold adopted, used_ranges, cursor_ok in *.
  destruct (arena_head_ (alloc g)) as [|h t].
  { destruct keep; [by destruct (Hk eq_refl)|]. simpl. rewrite cover_cons, cover_nil.
    by replace (memory_ a + n - memory_ a) with n by lia. }
  apply Forall_cons in Hch as [[? ? ? ?] Ht]. destruct Hc as [[? _]|(Hb & He & ? & _)]; [done|].
  destruct keep; simpl; rewrite !cover_cons; [lia|]. rewrite wrap_diff by lia.
  replace (memory_ a + n - memory_ a) with n by lia. done.
Qed.

Lemma AllocFromNewArena_adopts rst g mapped n :
  4 <= page_bits < w → 0 <= n < 2 ^ w → sys_ok rst g →
  mmap_ok g mapped (Z.max kArenaDefaultSize n) →
  ∃ p s m, AllocFromNewArena cur mapped n (alloc g) (bytes g) = Some (p, s, m) ∧
    ((p = 0 ∧ s = alloc g ∧ m = bytes g) ∨
     ∃ a pool keep, fresh_arena g n a pool m ∧ 0 < size_ a ∧ (keep = true → arena_head_ (alloc g) ≠ []) ∧
       p = memory_ a ∧ s = adopted g a n pool keep).
Proof.
  intros Hp Hn Hok Hmap. pose proof (unused_spec _ _ Hok) as [Hun Hge].
  assert (kArenaDefaultSize < 2 ^ w) by by destruct kPointerBits_cases as [-> | ->].
  assert (0 < kArenaDefaultSize) by done.
  pose proof (AllocArena_spec rst g mapped (Z.max kArenaDefaultSize n) Hp ltac:(lia) Hok Hmap) as Hspec.
  unfold AllocFromNewArena.
  destruct (AllocArena _ _ _ _) as [[[a|] pool] m].
  2:{ destruct Hspec as [-> ->]. eexists _, _, _. split; [done|]. left. by destruct (alloc g). }
  assert (fresh_arena g n a pool m) as Hf by (destruct Hspec; split; done || lia).
  pose proof Hf as [[? ? ? ?] _ ? _ _ _ _].
  assert (0 < size_ a) by (pose proof (fresh_size _ _ _ _ _ Hspec); lia).
  change (CurrentArenaUnusedBytes cur _) with (CurrentArenaUnusedBytes cur (alloc g)). rewrite Hun.
  unfold Size. rewrite wrap_diff by lia. destruct (Z.gtb_spec (end_ (alloc g) - ptr_ (alloc g)) (size_ a - n)).
  - pose proof (ok_cursor _ _ Hok) as Hc. unfold cursor_ok in Hc. simpl.
    destruct (arena_head_ (alloc g)) as [|h t] eqn:E; [lia|].
    eexists _, _, _. split; [done|]. right. exists a, pool, true. split_and!; try done.
    unfold adopted. by rewrite E.
  - eexists _, _, _. split; [done|]. right. exists a, pool, false. split_and!; try done.
    unfold adopted, UpdateBytesAllocated, Begin, End. simpl. rewrite !wrap_small by lia.
    by destruct (arena_head_ (alloc g)).
Qed.

Lemma adopted_ok rst g size a n pool keep m :
  sys_ok rst g → fresh_arena g size a pool m → 0 <= n <= size → (kAlignment | n) →
  (keep = true → arena_head_ (alloc g) ≠ []) →
  sys_ok rst (MkSys (adopted g a n pool keep) m ((memory_ a, n) :: blocks g) (heap g)).
Proof.
  intros Hok Hf Hn H8 Hk.
  assert (∀ x, covers x (memory_ a, n) = true → covers x (arena_range a) = true) as Hsub.
  { intros x. rewrite !covers_spec. pose proof (fresh_size _ _ _ _ _ Hf). simpl. lia. }
  assert (∀ x, covers x (memory_ a, n) = true → cover x (blocks g) = 0) as Hnew.
  { intros x Hx. by apply (fresh_arena_apart _ _ _ _ _ _ _ Hok Hf (Hsub x Hx)). }
  split; simpl.
  - intros x. pose proof (fresh_regions _ _ _ _ _ Hf x) as Hr. unfold regions. simpl.
    rewrite !cover_app, adopted_ranges. rewrite cover_cons, !cover_app in Hr.
    replace (pool_ _) with pool by (unfold adopted; by destruct keep, (arena_head_ (alloc g))). lia.
  - by eapply adopted_chain.
  - replace (pool_ _) with pool by (unfold adopted; by destruct keep, (arena_head_ (alloc g))).
    apply (fresh_pool _ _ _ _ _ Hf).
  - by eapply adopted_cursor.
  - intros x Hx. destruct (adopted_unallocated _ _ _ _ n _ _ _ _ Hok Hf ltac:(lia) Hk Hx) as [[Hp Hc]|[Hc _]].
    + rewrite (fresh_frame _ _ _ _ _ Hf x Hc). by apply (ok_zero _ _ Hok).
    + by apply (fresh_zero _ _ _ _ _ Hf).
  - intros x. rewrite cover_cons. pose proof (ok_blocks _ _ Hok x). specialize (Hnew x).
    destruct (covers _ _); [specialize (Hnew eq_refl)|]; lia.
  - intros x Hx. rewrite adopted_ranges. rewrite cover_cons in Hx.
    pose proof (cover_nonneg x (arena_ranges (arena_head_ (alloc g)))).
    pose proof (adopted_unallocated rst g size a n pool keep m x Hok Hf ltac:(lia) Hk) as Hun.
    destruct (covers x (memory_ a, n)) eqn:E.
    { pose proof (Hsub x E) as Hc. rewrite Hc. right. split; [lia|]. apply covers_spec in E.
      simpl in E. intros [[_ ?]|[_ ?]]%Hun; [congruence|lia]. }
    destruct (ok_inside _ _ Hok x ltac:(lia)) as [?|[? Hnp]]; [by left|right].
    split; [destruct (covers x (arena_range a)); lia|]. intros [[? _]|[Hc _]]%Hun; [done|].
    destruct (fresh_arena_apart _ _ _ _ _ _ _ Hok Hf Hc). lia.
  - intros -> x. rewrite adopted_ranges, adopted_used by (done || apply (ok_chain _ _ Hok) || apply (ok_cursor _ _ Hok)).
    intros Hx Hu. pose proof (cover_nonneg x (used_ranges (alloc g))). rewrite cover_cons.
    destruct (covers x (memory_ a, n)); [lia|]. destruct (covers x (arena_range a)) eqn:Hc.
    + split; [by apply (fresh_zero _ _ _ _ _ Hf)|].
      by destruct (fresh_arena_apart _ _ _ _ _ _ _ Hok Hf Hc) as (_ & _ & -> & _).
    + rewrite (fresh_frame _ _ _ _ _ Hf x Hc). apply (ok_used _ _ Hok eq_refl x); lia.
Qed.

(** ** Preservation *)

Lemma block_apart rst g x :
  sys_ok rst g → 0 < cover x (blocks g) →
  ¬ (ptr_ (alloc g) <= x < end_ (alloc g)) ∧ cover x (arena_ranges (pool_ (alloc g))) = 0.
Proof.
  intros Hok Hx. pose proof (ok_regions _ _ Hok x) as Hr. unfold regions in Hr.
  rewrite !cover_app in Hr. pose proof (cover_nonneg x (heap g)).
  pose proof (cover_nonneg x (arena_ranges (arena_head_ (alloc g)))).
  pose proof (cover_nonneg x (arena_ranges (pool_ (alloc g)))).
  pose proof (unallocated_in_chain _ _ x Hok).
  destruct (ok_inside _ _ Hok x Hx) as [?|[? ?]]; split; lia.
Qed.

(** Callers may write to their blocks. *)
Lemma write_ok rst g m :
  sys_ok rst g → (∀ x, cover x (blocks g) = 0 → m x = bytes g x) →
  sys_ok rst (MkSys (alloc g) m (blocks g) (heap g)).
Proof.
  intros Hok Hm.
  assert (∀ x, ¬ 0 < cover x (blocks g) → m x = bytes g x) as Hm'.
  { intros x Hx. apply Hm. pose proof (cover_nonneg x (blocks g)). lia. }
  pose proof Hok as [Hreg Hchain Hpool Hcur Hzero Hblocks Hin Hused]. split; simpl; try done.
  - apply Forall_forall. intros a Ha. rewrite Forall_forall in Hpool.
    destruct (Hpool a Ha) as [Haok Hc]. split; [done|]. intros x Hx. rewrite Hm'; [by apply Hc|].
    intros Hb. destruct (block_apart _ _ _ Hok Hb) as [_ Hz].
    assert (0 < cover x (arena_ranges (pool_ (alloc g)))); [|lia].
    apply cover_pos. exists (arena_range a). split; [by apply list_elem_of_fmap_2|].
    destruct Haok. simpl. lia.
  - intros x Hx. rewrite Hm'; [by apply Hzero|]. by intros [? _]%(block_apart _ _ _ Hok).
  - intros Hr x Hx Hu. destruct (Hused Hr x Hx Hu) as [Hz Hb]. by rewrite Hm.
Qed.

(** The cursor may move over bytes that become part of a block, or padding. *)
Lemma advance_ok rst g q n bl :
  sys_ok rst g → ptr_ (alloc g) <= q → 0 <= n → q + n <= end_ (alloc g) →
  (kAlignment | q + n) → (∀ x, cover x bl = (if covers x (q, n) then 1 else 0) + cover x (blocks g)) →
  sys_ok rst (MkSys (with_ptr (q + n) (alloc g)) (bytes g) bl (heap g)).
Proof.
  intros Hok Hq Hn Hle H8 Hbl. pose proof Hok as [Hreg Hchain Hpool Hcur Hzero Hblocks Hin Hused].
  assert (∀ x, covers x (q, n) = true → ptr_ (alloc g) <= x < end_ (alloc g)) as Hsub.
  { intros x. rewrite covers_spec. simpl. lia. }
  split; simpl; try done.
  - unfold cursor_ok in *. simpl. destruct (arena_head_ (alloc g)); [lia|].
    destruct Hcur as [(-> & ? & ? & ?)|(? & ? & ? & ?)]; [left; split_and!; done || lia|].
    right. split_and!; done || lia.
  - intros x Hx. apply Hzero. lia.
  - intros x. rewrite Hbl. specialize (Hblocks x). pose proof (block_apart _ _ x Hok) as Ha.
    destruct (covers x (q, n)) eqn:E; [specialize (Hsub x E)|lia].
    pose proof (cover_nonneg x (blocks g)). destruct (Z.ltb_spec 0 (cover x (blocks g))); [|lia].
    by destruct Ha as [[] _].
  - intros x. rewrite Hbl. specialize (Hsub x). pose proof (unallocated_in_chain _ _ x Hok).
    destruct (covers x (q, n)) eqn:E; intros Hx.
    + right. apply covers_spec in E. simpl in E. split; [auto|lia].
    + destruct (Hin x Hx) as [?|[? ?]]; [by left|]. right. split; [done|lia].
  - intros Hr x Hx. unfold used_ranges, cursor_ok in *. simpl.
    destruct (arena_head_ (alloc g)) as [|h t]; [done|].
    destruct Hcur as [[? _]|(Hb & He & ? & _)]; [congruence|]. specialize (Hused Hr x Hx). rewrite Hbl.
    pose proof (cover_nonneg x (map (λ a, (memory_ a, bytes_allocated_ a)) t)).
    rewrite cover_cons in *. intros Hu.
    destruct (covers x (q, n)) eqn:E1, (covers x (memory_ h, ptr_ (alloc g) - begin_ (alloc g))) eqn:E2,
      (covers x (memory_ h, q + n - begin_ (alloc g))) eqn:E3; rewrite ?covers_spec, ?covers_false in *;
      simpl in *; try lia; apply Hused; lia.
Qed.

Lemma heap_ok rst g al p n :
  sys_ok rst g → malloc_ok g al p n → p ≠ 0 →
  sys_ok rst (MkSys (alloc g) (bytes g) ((p, n) :: blocks g) ((p, n) :: heap g)).
Proof.
  intros Hok [|(_ & _ & _ & Hfree)] Hp; [done|].
  assert (∀ x, covers x (p, n) = true → cover x (regions g) = 0) as Hz.
  { intros x ?%covers_spec. by apply Hfree. }
  pose proof Hok as [Hreg Hchain Hpool Hcur Hzero Hblocks Hin Hused].
  assert (∀ x, covers x (p, n) = true → cover x (blocks g) = 0 ∧ cover x (arena_ranges (arena_head_ (alloc g))) = 0) as Hb.
  { intros x Hx. specialize (Hz x Hx). unfold regions in Hz. rewrite !cover_app in Hz.
    pose proof (block_in_regions _ _ x Hok). pose proof (cover_nonneg x (heap g)).
    pose proof (cover_nonneg x (arena_ranges (arena_head_ (alloc g)))).
    pose proof (cover_nonneg x (arena_ranges (pool_ (alloc g)))). pose proof (cover_nonneg x (blocks g)). lia. }
  split; simpl; try done.
  - intros x. specialize (Hreg x). specialize (Hz x). unfold regions in *. simpl.
    rewrite !cover_app, cover_cons in *. destruct (covers x (p, n)); [specialize (Hz eq_refl)|]; lia.
  - intros x. specialize (Hblocks x). specialize (Hb x). rewrite cover_cons.
    destruct (covers x (p, n)); [destruct (Hb eq_refl)|]; lia.
  - intros x. specialize (Hin x). rewrite !cover_cons. pose proof (cover_nonneg x (heap g)).
    destruct (covers x (p, n)); [by left; lia|]. done.
  - intros Hr x Hx Hu. destruct (Hused Hr x Hx Hu) as [? ?]. rewrite cover_cons. split; [done|].
    destruct (covers x (p, n)) eqn:E; [destruct (Hb x E); lia|lia].
Qed.

Lemma reset_ok g :
  sys_ok true g → sys_ok true (MkSys (ResetCurrentArena cur (alloc g)) (bytes g) (blocks g) (heap g)).
Proof.
  intros [Hreg Hchain Hpool Hcur Hzero Hblocks Hin _].
  destruct g as [[pool b e p [|h t]] m bl hp]; unfold cursor_ok in Hcur; simpl in *.
  - destruct Hcur as (-> & -> & ->). by split.
  - assert (∀ x, ¬ (0 <= x < 0)) as Hno by lia.
    split; simpl; try done; [|by left|by intros x []%Hno|].
    + apply Forall_cons in Hchain as [[? ? ? ?] Ht]. constructor; [|done].
      destruct Hcur as [(_ & -> & _ & ->)|(-> & ? & ? & _)]; split; simpl; try done.
      * change (wrap w (0 - 0)) with 0. lia.
      * rewrite wrap_diff; lia.
    + intros x Hx. destruct (Hin x Hx) as [|[? _]]; [by left|right; by split].
Qed.

(** ** Calls *)

(** The caller takes the block a call returned, unless it is the null pointer;
    a block outside the arenas is from [malloc]. *)
Definition hold (p n : Z) s m g : Sys :=
  if p =? 0 then MkSys s m (blocks g) (heap g)
  else MkSys s m ((p, n) :: blocks g) (if Contains cur s p then heap g else (p, n) :: heap g).

(** What a call that returned [p] for [n] bytes did. *)
Record allocated rst g alignment (p n : Z) s m : Prop := {
  allocated_ok : sys_ok rst (hold p n s m g);
  allocated_frame : ∀ x, 0 < cover x (blocks g) → m x = bytes g x;
  allocated_apart : p ≠ 0 → ∀ x, p <= x < p + n → cover x (blocks g) = 0;
  allocated_aligned : (alignment | p) ∧ 0 <= p ∧ p + n < 2 ^ w;
  allocated_zero : Contains cur s p = true → ∀ x, p <= x < p + n → m x = 0
}.

(** Ranges of no bytes do not matter. *)
Lemma heap_empty rst g p : sys_ok rst g → sys_ok rst (MkSys (alloc g) (bytes g) (blocks g) ((p, 0) :: heap g)).
Proof.
  intros [Hreg Hchain Hpool Hcur Hzero Hblocks Hin Hused].
  assert (∀ x, covers x (p, 0) = false) as Hz by (intros x; apply covers_false; simpl; lia).
  split; simpl; try done; unfold regions in *; simpl.
  - intros x. specialize (Hreg x). rewrite !cover_app, cover_cons, Hz in *. lia.
  - intros x. rewrite cover_cons, Hz. apply Hin.
Qed.

Lemma arena_contains_spec a p :
  arena_ok a → Arena_Contains cur a p = covers p (arena_range a).
Proof. intros [? ? ? ?]. unfold Arena_Contains, covers. simpl. by rewrite wrap_small by lia. Qed.

Lemma Contains_spec rst g p :
  sys_ok rst g →
  Contains cur (alloc g) p = true ↔ 0 < cover p (arena_ranges (arena_head_ (alloc g))).
Proof.
  intros [_ Hchain _ Hcur _ _ _ _]. unfold Contains. rewrite orb_true_iff, existsb_exists, cover_pos.
  rewrite Forall_forall in Hchain. unfold cursor_ok in Hcur. split.
  - intros [H|(a & Ha%list_elem_of_In & Hp)].
    + destruct (arena_head_ (alloc g)) as [|h t]; [lia|]. exists (arena_range h).
      split; [left|]. simpl. lia.
    + exists (arena_range a). rewrite arena_contains_spec in Hp by auto.
      split; [by apply list_elem_of_fmap_2|by apply covers_spec].
  - intros (r & (a & -> & Ha)%list_elem_of_fmap & Hp). right. exists a.
    rewrite <-list_elem_of_In, arena_contains_spec by auto. split; [done|by apply covers_spec].
Qed.

Lemma Contains_same rst g g' p :
  sys_ok rst g → sys_ok rst g' →
  (∀ x, cover x (arena_ranges (arena_head_ (alloc g'))) = cover x (arena_ranges (arena_head_ (alloc g)))) →
  Contains cur (alloc g') p = Contains cur (alloc g) p.
Proof.
  intros H H' Heq. apply eq_true_iff_eq. by rewrite !Contains_spec, Heq by done.
Qed.

Lemma bump_allocated rst g al q n :
  sys_ok rst g → ptr_ (alloc g) <= q → 0 <= n → q + n <= end_ (alloc g) →
  (kAlignment | q + n) → (al | q) →
  allocated rst g al q n (with_ptr (q + n) (alloc g)) (bytes g).
Proof.
  intros Hok Hq Hn Hle H8 Hal.
  pose proof (advance_ok rst g q n ((q, n) :: blocks g) Hok Hq Hn Hle H8 ltac:(done)) as Hok'.
  assert (∀ x, q <= x < q + n → ptr_ (alloc g) <= x < end_ (alloc g)) as Hin by lia.
  assert (0 <= ptr_ (alloc g) ∧ end_ (alloc g) < 2 ^ w) as He.
  { pose proof (ok_cursor _ _ Hok) as Hc. pose proof (ok_chain _ _ Hok) as Hch. unfold cursor_ok in Hc.
    pose proof (Z.pow_pos_nonneg 2 w). pose proof (kPointerBits_pos cur).
    destruct (arena_head_ (alloc g)); [lia|]. apply Forall_cons in Hch as [[? ? ? ?] _]. lia. }
  split; simpl; try done.
  - unfold hold. destruct (Z.eqb_spec q 0) as [->|].
    { apply (advance_ok rst g 0 n); try done. intros x. destruct (covers x (0, n)) eqn:E; [|done].
      apply covers_spec in E. simpl in E. pose proof (unallocated_in_chain _ _ x Hok ltac:(lia)) as Hch.
      exfalso. pose proof (ok_chain _ _ Hok) as Hf. pose proof (ok_cursor _ _ Hok) as Hc.
      unfold cursor_ok in Hc. destruct (arena_head_ (alloc g)); [lia|].
      apply Forall_cons in Hf as [[? ? ? ?] _]. lia. }
    destruct (Contains cur _ q) eqn:Ec; [done|].
    destruct (decide (n = 0)) as [->|Hnz]; [by apply (heap_empty _ _ q) in Hok'|].
    exfalso. pose proof (Contains_spec rst g q Hok) as [_ Hc].
    assert (Contains cur (with_ptr (q + n) (alloc g)) q = Contains cur (alloc g) q) as Hs by done.
    rewrite Hs in Ec. rewrite Hc in Ec; [done|]. eapply unallocated_in_chain; [done|lia].
  - intros _ x Hx. specialize (Hin x Hx). pose proof (cover_nonneg x (blocks g)).
    destruct (Z.ltb_spec 0 (cover x (blocks g))) as [Hb|]; [|lia].
    by destruct (block_apart _ _ _ Hok Hb) as [[] _].
  - split; [done|lia].
  - intros _ x Hx. apply (ok_zero _ _ Hok). auto.
Qed.

Lemma null_allocated rst g al n : sys_ok rst g → 0 <= n < 2 ^ w → allocated rst g al 0 n (alloc g) (bytes g).
Proof.
  intros Hok Hn. split; simpl; try done.
  - destruct g. exact Hok.
  - split; [apply Z.divide_0_r|lia].
  - intros Hc. apply (Contains_spec _ _ _ Hok), cover_pos in Hc as (r & (a & -> & Ha)%list_elem_of_fmap & Hp).
    pose proof (ok_chain _ _ Hok) as Hch. rewrite Forall_forall in Hch. destruct (Hch a Ha). simpl in Hp. lia.
Qed.

Lemma malloc_allocated rst g al p n :
  sys_ok rst g → 0 <= n < 2 ^ w → malloc_ok g al p n → allocated rst g al p n (alloc g) (bytes g).
Proof.
  intros Hok Hn Hm. destruct (decide (p = 0)) as [->|Hp]; [by apply null_allocated|].
  pose proof Hm as [|(H0 & Hal & He & Hfree)]; [done|]. assert (0 <= p) by lia.
  assert (n ≠ 0 → Contains cur (alloc g) p = false) as Hc.
  { intros Hnz. apply not_true_iff_false. rewrite (Contains_spec _ _ _ Hok). intros Hx.
    specialize (Hfree p ltac:(lia)). unfold regions in Hfree. rewrite !cover_app in Hfree.
    pose proof (cover_nonneg p (heap g)). pose proof (cover_nonneg p (arena_ranges (pool_ (alloc g)))). lia. }
  pose proof (heap_ok _ _ _ _ _ Hok Hm Hp) as Hok'.
  split; try done.
  - unfold hold. rewrite (proj2 (Z.eqb_neq p 0) Hp). destruct (decide (n = 0)) as [->|Hnz].
    + assert (sys_ok rst (MkSys (alloc g) (bytes g) ((p, 0) :: blocks g) (heap g))).
      { destruct Hok' as [Hreg ? ? ? ? ? Hin ?]. split; simpl in *; try done; intros x.
        - apply (ok_regions _ _ Hok).
        - specialize (Hin x). rewrite (cover_cons x _ (heap g)) in Hin.
          assert (covers x (p, 0) = false) as E by (apply covers_false; simpl; lia).
          by rewrite E in Hin. }
      by destruct (Contains _ _ _).
    + by rewrite Hc.
  - intros _ x Hx. specialize (Hfree x Hx). unfold regions in Hfree. rewrite !cover_app in Hfree.
    pose proof (block_in_regions _ _ x Hok). pose proof (cover_nonneg x (heap g)).
    pose proof (cover_nonneg x (arena_ranges (arena_head_ (alloc g)))).
    pose proof (cover_nonneg x (arena_ranges (pool_ (alloc g)))). pose proof (cover_nonneg x (blocks g)). lia.
  - intros Ht x Hx. destruct (decide (n = 0)); [lia|]. by rewrite Hc in Ht.
Qed.

Lemma adopted_allocated rst g a n pool keep m :
  sys_ok rst g → fresh_arena g n a pool m → 0 <= n → 0 < size_ a → (kAlignment | n) →
  (keep = true → arena_head_ (alloc g) ≠ []) →
  allocated rst g 16 (memory_ a) n (adopted g a n pool keep) m.
Proof.
  intros Hok Hf Hn Hs H8 Hk. pose proof Hf as [[? ? ? ?] _ ? Hz Hfr _ _].
  pose proof (adopted_ok rst g n a n pool keep m Hok Hf ltac:(lia) H8 Hk) as Hok'.
  split; try done.
  - unfold hold. rewrite (proj2 (Z.eqb_neq _ 0)) by lia.
    rewrite (proj2 (Contains_spec _ _ _ Hok')); [done|]. simpl. rewrite adopted_ranges.
    pose proof (cover_nonneg (memory_ a) (arena_ranges (arena_head_ (alloc g)))).
    rewrite (proj2 (covers_spec _ _)); [lia|simpl; lia].
  - intros x Hx. apply Hfr. apply not_true_iff_false. intros Hc.
    destruct (fresh_arena_apart _ _ _ _ _ _ x Hok Hf Hc). lia.
  - intros _ x Hx. apply (fresh_arena_apart _ _ _ _ _ _ x Hok Hf). apply covers_spec. simpl. lia.
  - split; [done|lia].
  - intros _ x Hx. apply Hz, covers_spec. simpl. lia.
Qed.

(** ** The functions of the allocator *)

Lemma allocated_divide rst g al al' p n s m :
  (al' | al) → allocated rst g al p n s m → allocated rst g al' p n s m.
Proof. intros Hd [? ? ? (? & ? & ?) ?]. split; try done. split; [by etrans|done]. Qed.

Lemma align8_spec n :
  0 <= n → n + 7 < 2 ^ w →
  (kAlignment | align_up w n kAlignment) ∧ n <= align_up w n kAlignment < n + 8 ∧
  align_up w n kAlignment < 2 ^ w.
Proof.
  intros Hn Hw. change kAlignment with (2 ^ 3).
  destruct (align_up_spec w n 3) as [Hd Hr]; [done|done|lia|]. split_and!; done || lia.
Qed.

Lemma unused_cursor rst g n :
  sys_ok rst g → n <= CurrentArenaUnusedBytes cur (alloc g) → ptr_ (alloc g) + n <= end_ (alloc g).
Proof. intros Hok. destruct (unused_spec _ _ Hok) as [-> _]. lia. Qed.

Lemma end_bound rst g : sys_ok rst g → 0 <= ptr_ (alloc g) ∧ end_ (alloc g) < 2 ^ w ∧ (kAlignment | ptr_ (alloc g)).
Proof.
  intros Hok. pose proof (ok_cursor _ _ Hok) as Hc. pose proof (ok_chain _ _ Hok) as Hch.
  unfold cursor_ok in Hc. pose proof (Z.pow_pos_nonneg 2 w). pose proof (kPointerBits_pos cur).
  destruct (arena_head_ (alloc g)); [destruct Hc as (_ & -> & ->); split_and!; [lia..|apply Z.divide_0_r]|].
  apply Forall_cons in Hch as [[? ? ? ?] _].
  destruct Hc as [(_ & _ & -> & ->)|(? & ? & ? & ?)]; split_and!; try done; try lia. apply Z.divide_0_r.
Qed.

(** A new arena, or the fallback. *)
Lemma fallback_allocated rst g mapped malloc al n :
  4 <= page_bits < w → 0 <= n < 2 ^ w → (kAlignment | n) → (al | 16) → sys_ok rst g →
  mmap_ok g mapped (Z.max kArenaDefaultSize n) → malloc_ok g al malloc n →
  ∃ p s m, ('(memory, s, m) ← AllocFromNewArena cur mapped n (alloc g) (bytes g);
            if negb (memory =? 0) then Some (memory, s, m) else Some (malloc, s, m)) = Some (p, s, m) ∧
    allocated rst g al p n s m ∧ (p = 0 → malloc = 0).
Proof.
  intros Hp Hn H8 Hal Hok Hmap Hmal.
  destruct (AllocFromNewArena_adopts _ _ _ _ Hp Hn Hok Hmap) as (p & s & m & -> & [(-> & -> & ->)|Hnew]); simpl.
  - eexists _, _, _. split; [done|]. split; [by apply malloc_allocated|done].
  - destruct Hnew as (a & pool & keep & Hf & Hs & Hk & -> & ->). pose proof Hf as [[? ? ? ?] _ _ _ _ _ _].
    rewrite (proj2 (Z.eqb_neq _ 0)) by lia. eexists _, _, _. split; [done|]. split; [|lia].
    apply (allocated_divide _ _ 16); [done|]. apply adopted_allocated; done || lia.
Qed.

Lemma Alloc_allocated rst g mapped malloc n :
  4 <= page_bits < w → sys_ok rst g → 0 <= n → n + 7 < 2 ^ w →
  let n' := align_up w n kAlignment in
  mmap_ok g mapped (Z.max kArenaDefaultSize n') → malloc_ok g kAlignment malloc n' →
  ∃ p s m, Alloc cur mapped malloc n (alloc g) (bytes g) = Some (p, s, m) ∧
    allocated rst g kAlignment p n' s m ∧ (0 < n → p = 0 → malloc = 0).
Proof.
  intros Hp Hok Hn Hw n' Hmap Hmal. destruct (align8_spec n Hn Hw) as (H8 & Hr & Hn'). fold n' in H8, Hr, Hn'. unfold Alloc. fold n'.
  destruct (Z.gtb_spec n' (CurrentArenaUnusedBytes cur (alloc g))) as [_|Hle].
  - destruct (fallback_allocated rst g mapped malloc kAlignment n') as (p & s & m & E & ? & ?); try done; [lia|by exists 2|].
    rewrite E. eauto 10.
  - pose proof (unused_cursor _ _ _ Hok Hle). destruct (end_bound _ _ Hok) as (? & ? & ?).
    rewrite wrap_small by lia. eexists _, _, _. split; [done|]. split.
    + apply bump_allocated; try done; try lia. by apply Z.divide_add_r.
    + intros Hpos E0. exfalso. pose proof (ok_chain _ _ Hok) as Hch. pose proof (ok_cursor _ _ Hok) as Hc.
      unfold cursor_ok in Hc. destruct (arena_head_ (alloc g)); [lia|]. apply Forall_cons in Hch as [[? ? ? ?] _]. lia.
Qed.

Lemma AllocAlign16_allocated rst g mapped memalign n :
  4 <= page_bits < w → sys_ok rst g → 0 <= n → n + 15 < 2 ^ w → (16 | n) →
  mmap_ok g mapped (Z.max kArenaDefaultSize n) → malloc_ok g 16 memalign n →
  ∃ p s m, AllocAlign16 cur mapped memalign n (alloc g) (bytes g) = Some (p, s, m) ∧
    allocated rst g 16 p n s m.
Proof.
  intros Hp Hok Hn Hw H16 Hmap Hmal. unfold AllocAlign16.
  destruct (end_bound _ _ Hok) as (Hp0 & Hend & H8). destruct (unused_spec _ _ Hok) as [Hun Hge].
  assert ((8 | n)) by (etrans; [|exact H16]; by exists 2).
  set (q := align_up w (ptr_ (alloc g)) 16).
  assert ((ptr_ (alloc g) + 15 < 2 ^ w ∧ (16 | q) ∧ ptr_ (alloc g) <= q < ptr_ (alloc g) + 16) ∨
          (2 ^ w <= ptr_ (alloc g) + 15 ∧ q = 0)) as Hq.
  { destruct (Z.ltb_spec (ptr_ (alloc g) + 15) (2 ^ w)).
    - left. split; [done|]. by apply (align_up_spec w _ 4).
    - right. split; [done|]. unfold q, align_up. change 16 with (2 ^ 4). rewrite align_down_mod by done.
      replace (wrap _ _) with (ptr_ (alloc g) + 15 - 2 ^ w); [rewrite Z.mod_small; lia|].
      unfold wrap. apply (Z.mod_unique_pos _ _ 1); lia. }
  destruct Hq as [(Hsm & Hqd & Hqr)|(Hbig & Hq0)].
  - rewrite (wrap_small _ (q - ptr_ (alloc g))) by lia. rewrite wrap_small by lia.
    destruct (Z.gtb_spec (q - ptr_ (alloc g) + n) (CurrentArenaUnusedBytes cur (alloc g))) as [_|Hle].
    + destruct (fallback_allocated rst g mapped memalign 16 n) as (p & s & m & E & ? & ?); try done; [lia|].
      rewrite E. eauto 10.
    + rewrite Hun in Hle. simpl. rewrite (wrap_small _ (_ + (q - _))) by lia.
      replace (ptr_ (alloc g) + (q - ptr_ (alloc g))) with q by lia. rewrite wrap_small by lia.
      eexists _, _, _. split; [done|]. unfold with_ptr. simpl. apply bump_allocated; try done; try lia.
      apply Z.divide_add_r; [|done]. etrans; [|exact Hqd]. by exists 2.
  - assert (wrap w (q - ptr_ (alloc g)) = 2 ^ w - ptr_ (alloc g)) as ->.
    { rewrite Hq0. unfold wrap. symmetry. apply (Z.mod_unique_pos _ _ (-1)); lia. }
    rewrite wrap_small by lia.
    destruct (Z.gtb_spec (2 ^ w - ptr_ (alloc g) + n) (CurrentArenaUnusedBytes cur (alloc g))) as [_|Hle]; [|lia].
    destruct (fallback_allocated rst g mapped memalign 16 n) as (p & s & m & E & ? & ?); try done; [lia|].
    rewrite E. eauto 10.
Qed.

(** ** Realloc *)

(** The state after [Realloc] of the block [(q, size)]: in place the block
    grows, otherwise the caller has one more. *)
Definition hold_realloc (q p n' : Z) (rest : list (Z * Z)) s m g : Sys :=
  if p =? q then MkSys s m ((q, n') :: rest) (heap g) else hold p n' s m g.

Lemma cover_permutation x l k : l ≡ₚ k → cover x l = cover x k.
Proof. induction 1; rewrite ?cover_cons; lia. Qed.

Lemma byte_at_memcpy m d q n i :
  0 <= i < n →
  byte_at (memcpy m d q (Z.to_nat n)) (d + i) = byte_at m (q + i).
Proof.
  intros Hi. unfold memcpy, byte_at at 1. replace (d + i) with (d + Z.of_nat (Z.to_nat i)) by lia.
  rewrite write_bytes_in by (rewrite length_read_bytes; lia). rewrite nth_read_bytes by lia.
  unfold byte_at. rewrite Zmod_mod. do 2 f_equal. lia.
Qed.

Lemma memcpy_out m d q n x : 0 <= n → ¬ (d <= x < d + n) → memcpy m d q (Z.to_nat n) x = m x.
Proof. intros Hn Hx. apply write_bytes_out. rewrite length_read_bytes. lia. Qed.

(** What [Realloc] did when it returned [p]. *)
Record reallocated rst g q ptr_size n' (rest : list (Z * Z)) p s m : Prop := {
  reallocated_ok : sys_ok rst (hold_realloc q p n' rest s m g);
  reallocated_frame : ∀ x, 0 < cover x (blocks g) → m x = bytes g x;
  reallocated_copy : ∀ i, 0 <= i < ptr_size → byte_at m (p + i) = byte_at (bytes g) (q + i);
  reallocated_aligned : (p = q ∨ (kAlignment | p)) ∧ 0 < p ∧ p + n' < 2 ^ w
}.

(** The caller's data moves to the new block. *)
Lemma moved_reallocated rst g q ptr_size old n' rest p s m :
  allocated rst g kAlignment p n' s m → p ≠ 0 → 0 < ptr_size <= old → ptr_size <= n' →
  blocks g ≡ₚ (q, old) :: rest →
  reallocated rst g q ptr_size n' rest p s (memcpy m p q (Z.to_nat ptr_size)).
Proof.
  intros [Hok' Hfr Hap (Hal & H0 & He) _] Hp0 Ho Hn Hbl. specialize (Hap Hp0).
  assert (∀ x, q <= x < q + old → 0 < cover x (blocks g)) as Hqb.
  { intros x Hx. rewrite (cover_permutation x _ _ Hbl), cover_cons, (proj2 (covers_spec x (q, old))) by done.
    pose proof (cover_nonneg x rest). lia. }
  assert (p ≠ q) as Hne.
  { intros ->. specialize (Hap q ltac:(lia)). specialize (Hqb q ltac:(lia)). lia. }
  split; [| | |split; [by right|lia]].
  - unfold hold_realloc, hold in *. rewrite (proj2 (Z.eqb_neq p q) Hne), (proj2 (Z.eqb_neq p 0) Hp0) in *.
    apply (write_ok rst _ _ Hok'). simpl. intros x Hx. apply memcpy_out; [lia|]. intros Hpx.
    rewrite cover_cons, (proj2 (covers_spec x (p, n'))) in Hx by (simpl; lia).
    pose proof (cover_nonneg x (blocks g)). lia.
  - intros x Hx. rewrite memcpy_out; [by apply Hfr|lia|]. intros Hpx. rewrite (Hap x) in Hx by lia. lia.
  - intros i Hi. rewrite byte_at_memcpy by done. unfold byte_at. rewrite Hfr; [done|]. apply Hqb. lia.
Qed.

Lemma Realloc_spec rst g mapped malloc q ptr_size new_size rest :
  4 <= page_bits < w → sys_ok rst g → 0 < ptr_size <= new_size → new_size + 7 < 2 ^ w →
  let old := align_up w ptr_size kAlignment in
  let n' := align_up w new_size kAlignment in
  blocks g ≡ₚ (q, old) :: rest → 0 < q → q + old < 2 ^ w →
  mmap_ok g mapped (Z.max kArenaDefaultSize n') → malloc_ok g kAlignment malloc n' →
  match Realloc cur mapped malloc q ptr_size new_size (alloc g) (bytes g) with
  | Some (p, s, m) => reallocated rst g q ptr_size n' rest p s m
  | None => malloc = 0
  end.
Proof.
  intros Hp Hok Hn Hw old n' Hbl Hq Hqw Hmap Hmal.
  destruct (align8_spec ptr_size ltac:(lia) ltac:(lia)) as (Ho8 & Hor & Hob).
  destruct (align8_spec new_size ltac:(lia) Hw) as (Hn8 & Hnr & Hnb). fold old in Ho8, Hor, Hob. fold n' in Hn8, Hnr, Hnb.
  assert (old <= n') as Hle.
  { destruct Ho8 as [i Hi], Hn8 as [j Hj]. unfold kAlignment in *. nia. }
  pose proof (cover_permutation) as Hcp. unfold Realloc. fold old n'. rewrite (wrap_small _ (q + old)) by lia.
  rewrite (wrap_small _ (n' - old)) by lia.
  assert (∀ x, cover x (blocks g) = (if covers x (q, old) then 1 else 0) + cover x rest) as Hblx.
  { intros x. by rewrite (Hcp x _ _ Hbl), cover_cons. }
  destruct (Z.eqb_spec (q + old) (ptr_ (alloc g))) as [Hend|_]; simpl;
    [destruct (Z.geb_spec (CurrentArenaUnusedBytes cur (alloc g)) (n' - old)) as [Hrem|_]|].
  { pose proof (unused_cursor _ _ _ Hok Hrem). destruct (end_bound _ _ Hok) as (? & ? & ?).
    rewrite wrap_small by lia. split; [|done|done|split; [by left|lia]]. unfold hold_realloc. rewrite Z.eqb_refl.
    apply (advance_ok rst g (ptr_ (alloc g)) (n' - old)); try done; try lia.
    - apply Z.divide_add_r; [done|]. by apply Z.divide_sub_r.
    - intros x. rewrite Hblx, cover_cons.
      assert (¬ (q <= x < q + old ∧ ptr_ (alloc g) <= x < ptr_ (alloc g) + (n' - old))) by lia.
      destruct (covers x (q, n')) eqn:E1, (covers x (q, old)) eqn:E2, (covers x (ptr_ _, _)) eqn:E3;
        rewrite ?covers_spec, ?covers_false in *; simpl in *; lia. }
  all: destruct (Alloc_allocated rst g mapped malloc new_size Hp Hok ltac:(lia) Hw Hmap Hmal) as (p & s & m & E & Hall & Hz);
    rewrite E; simpl; fold n' in Hall;
    rewrite (proj2 (Z.eqb_neq ptr_size 0)) by lia; destruct (Z.eqb_spec p 0) as [->|Hp0]; simpl; [apply Hz; [lia|done]|].
  all: apply moved_reallocated with old; done || lia.
Qed.

(** ** Executions *)

(** A call of an allocation function or, with [rst], of [ResetCurrentArena].
    The sizes asked for do not wrap around when they are rounded up. *)
Inductive arena_call (rst : bool) (g : Sys) : Sys → Prop :=
| step_alloc mapped malloc n p s m :
    0 <= n → n + 7 < 2 ^ w →
    mmap_ok g mapped (Z.max kArenaDefaultSize (align_up w n kAlignment)) →
    malloc_ok g kAlignment malloc (align_up w n kAlignment) →
    Alloc cur mapped malloc n (alloc g) (bytes g) = Some (p, s, m) →
    arena_call rst g (hold p (align_up w n kAlignment) s m g)
| step_align16 mapped memalign n p s m :
    0 <= n → n + 15 < 2 ^ w → (16 | n) →
    mmap_ok g mapped (Z.max kArenaDefaultSize n) → malloc_ok g 16 memalign n →
    AllocAlign16 cur mapped memalign n (alloc g) (bytes g) = Some (p, s, m) →
    arena_call rst g (hold p n s m g)
| step_realloc mapped malloc q ptr_size new_size rest p s m :
    0 < ptr_size <= new_size → new_size + 7 < 2 ^ w →
    blocks g ≡ₚ (q, align_up w ptr_size kAlignment) :: rest →
    mmap_ok g mapped (Z.max kArenaDefaultSize (align_up w new_size kAlignment)) →
    malloc_ok g kAlignment malloc (align_up w new_size kAlignment) →
    Realloc cur mapped malloc q ptr_size new_size (alloc g) (bytes g) = Some (p, s, m) →
    arena_call rst g (hold_realloc q p (align_up w new_size kAlignment) rest s m g)
| step_reset :
    rst = true → arena_call rst g (MkSys (ResetCurrentArena cur (alloc g)) (bytes g) (blocks g) (heap g)).

(** A call, or a caller's write to a block it holds. *)
Inductive arena_step (rst : bool) (g : Sys) : Sys → Prop :=
| step_call g' : arena_call rst g g' → arena_step rst g g'
| step_write m :
    (∀ x, cover x (blocks g) = 0 → m x = bytes g x) →
    arena_step rst g (MkSys (alloc g) m (blocks g) (heap g)).

(** A new allocator on a pool of clean arenas. *)
Record initial (g : Sys) : Prop := {
  initial_alloc : alloc g = new_allocator (pool_ (alloc g));
  initial_blocks : blocks g = [] ∧ heap g = [];
  initial_pool : Forall (λ a, arena_ok a ∧ clean (bytes g) a) (pool_ (alloc g));
  initial_regions : ∀ x, cover x (arena_ranges (pool_ (alloc g))) <= 1
}.

(** Blocks are inside the address space. *)
Definition blocks_bounded g : Prop :=
  Forall (λ b, 0 < b.1 ∧ b.1 + b.2 < 2 ^ w) (blocks g).

Lemma arena_initial_ok rst g : initial g → sys_ok rst g ∧ blocks_bounded g.
Proof.
  intros [Ha [Hb Hh] Hp Hr]. destruct g as [s m bl hp]. simpl in *. subst bl hp.
  rewrite Ha. split; [|by constructor]. split; unfold regions; simpl; try done; try lia.
  intros x. rewrite app_nil_r. apply Hr.
Qed.

Lemma hold_bytes p n s m g : bytes (hold p n s m g) = m.
Proof. unfold hold. by destruct (p =? 0). Qed.

Lemma hold_bounded rst g al p n s m :
  blocks_bounded g → allocated rst g al p n s m → blocks_bounded (hold p n s m g).
Proof.
  intros Hb [_ _ _ (_ & Hp & He) _]. unfold hold, blocks_bounded in *.
  destruct (Z.eqb_spec p 0); [done|]. constructor; [simpl; lia|done].
Qed.

(** A call keeps the invariant and the bytes of the blocks that are held. *)
Lemma arena_call_ok rst g g' :
  4 <= page_bits < w → sys_ok rst g ∧ blocks_bounded g → arena_call rst g g' →
  sys_ok rst g' ∧ blocks_bounded g' ∧ ∀ x, 0 < cover x (blocks g) → bytes g' x = bytes g x.
Proof.
  intros Hp [Hok Hb] [mapped malloc n p s m Hn Hw Hmap Hmal E|mapped malloc n p s m Hn Hw H16 Hmap Hmal E
    |mapped malloc q psz nsz rest p s m Hn Hw Hbl Hmap Hmal E| -> ].
  - destruct (Alloc_allocated rst g mapped malloc n) as (p' & s' & m' & E' & Hall & _); try done.
    rewrite E in E'. simplify_eq. split_and!; [apply (allocated_ok _ _ _ _ _ _ _ Hall)|by eapply hold_bounded|].
    intros x Hx. rewrite hold_bytes. by apply (allocated_frame _ _ _ _ _ _ _ Hall).
  - destruct (AllocAlign16_allocated rst g mapped malloc n) as (p' & s' & m' & E' & Hall); try done.
    rewrite E in E'. simplify_eq. split_and!; [apply (allocated_ok _ _ _ _ _ _ _ Hall)|by eapply hold_bounded|].
    intros x Hx. rewrite hold_bytes. by apply (allocated_frame _ _ _ _ _ _ _ Hall).
  - unfold blocks_bounded in Hb. rewrite Hbl in Hb. apply Forall_cons in Hb as [Hq Hrest].
    pose proof (Realloc_spec rst g mapped malloc q psz nsz rest Hp Hok Hn Hw Hbl) as Hr. simpl in Hr, Hq.
    rewrite E in Hr. destruct (Hr ltac:(lia) ltac:(lia) Hmap Hmal) as [Hok' Hfr _ (_ & ? & ?)].
    split_and!; [done| |].
    + unfold hold_realloc, hold, blocks_bounded. destruct (Z.eqb_spec p q) as [->|]; [by constructor|].
      destruct (Z.eqb_spec p 0); simpl; [lia|]. constructor; [done|]. rewrite Hbl. by constructor.
    + intros x Hx. unfold hold_realloc. destruct (p =? q); rewrite ?hold_bytes; by apply Hfr.
  - split_and!; [by apply reset_ok|done|done].
Qed.

Lemma arena_step_ok rst g g' :
  4 <= page_bits < w → sys_ok rst g ∧ blocks_bounded g → arena_step rst g g' →
  sys_ok rst g' ∧ blocks_bounded g'.
Proof.
  intros Hp Hok [g1 Hc|m Hm]; [by destruct (arena_call_ok rst g g1 Hp Hok Hc) as (? & ? & _)|].
  destruct Hok. split; [by apply write_ok|done].
Qed.

Lemma arena_reachable_ok rst g0 g :
  4 <= page_bits < w → initial g0 → rtc (arena_step rst) g0 g → sys_ok rst g ∧ blocks_bounded g.
Proof.
  intros Hp Hi. apply (rtc_invariant _ (λ g, sys_ok rst g ∧ blocks_bounded g)); [|by apply arena_initial_ok].
  intros a b Ha. by apply arena_step_ok.
Qed.

(** ** Theorems *)

(** C26: however the functions of an allocator are called, for sizes that do not
    wrap around when they are rounded up, and whatever callers write to their
    blocks: two blocks never share a byte; every byte of a block is in an arena
    the allocator contains or came from [malloc], and is not among the bytes still
    to be given out, which are zero; and a further call, also one that moves a
    block, leaves every byte of the blocks that are held as its caller wrote it. *)
Theorem arena_blocks_disjoint rst g0 g :
  4 <= page_bits < w → initial g0 → rtc (arena_step rst) g0 g →
  (∀ i j b1 b2 x, i ≠ j → blocks g !! i = Some b1 → blocks g !! j = Some b2 →
     ¬ (covers x b1 = true ∧ covers x b2 = true)) ∧
  (∀ b x, b ∈ blocks g → covers x b = true →
     (Contains cur (alloc g) x = true ∨ 0 < cover x (heap g)) ∧ ¬ (ptr_ (alloc g) <= x < end_ (alloc g))) ∧
  (∀ x, ptr_ (alloc g) <= x < end_ (alloc g) → bytes g x = 0) ∧
  (∀ g' b x, arena_call rst g g' → b ∈ blocks g → covers x b = true → bytes g' x = bytes g x).
Proof.
  intros Hp Hi Hr. destruct (arena_reachable_ok _ _ _ Hp Hi Hr) as [Hok Hbd].
  assert (∀ b x, b ∈ blocks g → covers x b = true → 0 < cover x (blocks g)) as Hcover.
  { intros b x Hb Hx. apply cover_pos. exists b. split; [done|by apply covers_spec]. }
  split_and!.
  - intros i j b1 b2 x Hij H1 H2 [Hx1 Hx2].
    pose proof (count_if_two _ _ _ _ _ _ Hij H1 H2 Hx1 Hx2). pose proof (ok_blocks _ _ Hok x).
    unfold cover in *. lia.
  - intros b x Hb Hx. pose proof (Hcover b x Hb Hx) as Hc.
    rewrite (Contains_spec _ _ _ Hok). split; [|by destruct (block_apart _ _ _ Hok Hc)].
    pose proof (ok_inside _ _ Hok x Hc). tauto.
  - apply (ok_zero _ _ Hok).
  - intros g' b x Hcall Hb Hx. destruct (arena_call_ok rst g g' Hp (conj Hok Hbd) Hcall) as (_ & _ & Hfr).
    by eapply Hfr, Hcover.
Qed.

(** In every state that calls lead to, [Alloc] returns, keeps the bytes of
    every block, and gives an aligned block apart from all others that is zero if
    it is in an arena; it returns null only if [malloc] does. *)
Theorem Alloc_fresh rst g0 g mapped malloc n :
  4 <= page_bits < w → initial g0 → rtc (arena_step rst) g0 g →
  0 < n → n + 7 < 2 ^ w → let n' := align_up w n kAlignment in
  mmap_ok g mapped (Z.max kArenaDefaultSize n') → malloc_ok g kAlignment malloc n' →
  ∃ p s m, Alloc cur mapped malloc n (alloc g) (bytes g) = Some (p, s, m) ∧
    (p = 0 → malloc = 0) ∧ (kAlignment | p) ∧ p + n' < 2 ^ w ∧ n <= n' ∧
    (∀ b x, b ∈ blocks g → covers x b = true → m x = bytes g x) ∧
    (p ≠ 0 → ∀ b x, b ∈ blocks g → covers x b = true → covers x (p, n') = false) ∧
    (Contains cur s p = true → ∀ x, covers x (p, n') = true → m x = 0).
Proof.
  intros Hp Hi Hr Hn Hw n' Hmap Hmal. destruct (arena_reachable_ok _ _ _ Hp Hi Hr) as [Hok _].
  destruct (Alloc_allocated rst g mapped malloc n) as (p & s & m & E & Hall & Hz); try done; [lia|].
  fold n' in Hall. destruct Hall as [_ Hfr Hap (? & ? & ?) Hzero].
  destruct (align8_spec n ltac:(lia) Hw) as (_ & Hge & _). fold n' in Hge.
  assert (∀ b x, b ∈ blocks g → covers x b = true → 0 < cover x (blocks g)) as Hb.
  { intros b x Hb Hx. apply cover_pos. exists b. split; [done|by apply covers_spec]. }
  exists p, s, m. split_and!; try done; [auto|lia| | |].
  - intros b x Hin Hx. by eapply Hfr, Hb.
  - intros Hp0 b x Hin Hx. apply covers_false. simpl. intros Hpx. specialize (Hb b x Hin Hx).
    rewrite (Hap Hp0 x Hpx) in Hb. lia.
  - intros Hc x Hx%covers_spec. by apply Hzero.
Qed.

(** [Realloc] of a held block keeps the bytes of every block and returns a
    block with the old one's contents, in place or moved; it fails only if
    [malloc] does. *)
Theorem Realloc_keeps_contents rst g0 g mapped malloc q ptr_size new_size :
  4 <= page_bits < w → initial g0 → rtc (arena_step rst) g0 g →
  0 < ptr_size <= new_size → new_size + 7 < 2 ^ w → (q, align_up w ptr_size kAlignment) ∈ blocks g →
  mmap_ok g mapped (Z.max kArenaDefaultSize (align_up w new_size kAlignment)) →
  malloc_ok g kAlignment malloc (align_up w new_size kAlignment) →
  match Realloc cur mapped malloc q ptr_size new_size (alloc g) (bytes g) with
  | Some (p, s, m) =>
      (∀ i, 0 <= i < ptr_size → byte_at m (p + i) = byte_at (bytes g) (q + i)) ∧
      (∀ b x, b ∈ blocks g → covers x b = true → m x = bytes g x)
  | None => malloc = 0
  end.
Proof.
  intros Hp Hi Hr Hn Hw Hin Hmap Hmal. destruct (arena_reachable_ok _ _ _ Hp Hi Hr) as [Hok Hb].
  unfold blocks_bounded in Hb. rewrite Forall_forall in Hb. pose proof (Hb _ Hin) as [? ?]. simpl in *.
  apply elem_of_Permutation in Hin as [rest Hbl].
  pose proof (Realloc_spec rst g mapped malloc q ptr_size new_size rest Hp Hok Hn Hw Hbl) as Hs. simpl in Hs.
  specialize (Hs ltac:(lia) ltac:(lia) Hmap Hmal). destruct (Realloc _ _ _ _ _ _ _ _) as [[[p s] m]|]; [|done].
  destruct Hs as [_ Hfr Hcp _]. split; [done|]. intros b x Hbx Hx. apply Hfr, cover_pos. exists b.
  split; [done|by apply covers_spec].
Qed.

Lemma free_arenas_ranges s x :
  cover x (arena_ranges (free_arenas cur s)) =
  cover x (arena_ranges (arena_head_ s)) + cover x (arena_ranges (pool_ s)).
Proof.
  destruct s as [pool b e p [|h t]]; [done|].
  change (free_arenas _ _) with ((with_bytes_allocated (wrap w (p - b)) h :: t) ++ pool).
  by rewrite arena_ranges_app, cover_app.
Qed.

Lemma ReclaimMemory_ranges pool : ReclaimMemory pool = arena_ranges pool.
Proof. induction pool as [|a pool IH]; simpl; [done|]. by rewrite IH. Qed.

Definition used_range (a : Arena) : Z * Z := (memory_ a, bytes_allocated_ a).

(** [UpdateBytesAllocated] records the cursor. *)
Lemma updated_chain s :
  cursor_ok false s → Forall arena_ok (arena_head_ s) →
  let l := arena_head_ (UpdateBytesAllocated cur s) in
  Forall arena_ok l ∧ used_ranges s = map used_range l ∧ arena_ranges l = arena_ranges (arena_head_ s).
Proof.
  unfold cursor_ok, UpdateBytesAllocated, used_ranges. destruct (arena_head_ s) as [|h t] eqn:E; simpl; rewrite ?E.
  { intros _ _. split_and!; [by constructor|done..]. }
  intros [[? _]|(Hb & He & ? & _)] [[? ? ? ?] Ht]%Forall_cons; [done|]. split_and!; [|..|done].
  - constructor; [|done]. rewrite wrap_diff by lia. split; simpl; done || lia.
  - unfold used_range at 1. simpl. by rewrite wrap_diff by lia.
Qed.

(** A byte past the used part of an arena is in no used part. *)
Lemma unused_byte l a x :
  Forall arena_ok l → (∀ y, cover y (arena_ranges l) <= 1) → a ∈ l →
  memory_ a + bytes_allocated_ a <= x < memory_ a + size_ a → cover x (map used_range l) = 0.
Proof.
  intros Hl Hr Ha Hx. specialize (Hr x). pose proof (cover_nonneg x (map used_range l)).
  assert (cover x (map used_range l) + 1 <= cover x (arena_ranges l)); [clear Hr|lia].
  assert (∀ l, Forall arena_ok l → cover x (map used_range l) <= cover x (arena_ranges l)) as Hle.
  { clear. induction 1 as [|b l [? ? ? ?] _ IH]; [done|]. cbn [map]. rewrite arena_ranges_cons, !cover_cons.
    destruct (covers x (used_range b)) eqn:E1, (covers x (arena_range b)) eqn:E2;
      rewrite ?covers_spec, ?covers_false in *; simpl in *; lia. }
  clear H. induction Hl as [|b l Hb Hl IH]; [by apply elem_of_nil in Ha|]. cbn [map].
  rewrite arena_ranges_cons, !cover_cons. pose proof (Hle l Hl). destruct Hb. apply elem_of_cons in Ha as [->|Ha].
  - rewrite (proj2 (covers_spec x (arena_range b))) by (simpl; lia).
    rewrite (proj2 (covers_false x (used_range b))) by (simpl; lia). lia.
  - specialize (IH Ha). destruct (covers x (used_range b)) eqn:E1, (covers x (arena_range b)) eqn:E2;
      rewrite ?covers_spec, ?covers_false in *; simpl in *; lia.
Qed.

(** When an allocator that never reset its current arena is destroyed, its
    arenas go back to the pool with their used bytes recorded, so that a new
    allocator on that pool can give them out as zeroed memory again, and the
    destructor of the pool unmaps each of them once. *)
Theorem destroyed_arenas_reusable g0 g :
  4 <= page_bits < w → initial g0 → rtc (arena_step false) g0 g →
  initial (MkSys (new_allocator (free_arenas cur (alloc g))) (bytes g) [] []) ∧
  (∀ x, cover x (ReclaimMemory (free_arenas cur (alloc g))) =
        cover x (arena_ranges (arena_head_ (alloc g))) + cover x (arena_ranges (pool_ (alloc g)))) ∧
  (∀ x, cover x (ReclaimMemory (free_arenas cur (alloc g))) <= 1).
Proof.
  intros Hp Hi Hr. destruct (arena_reachable_ok _ _ _ Hp Hi Hr) as [Hok _].
  assert (∀ x, cover x (arena_ranges (free_arenas cur (alloc g))) <= 1) as Hle.
  { intros x. rewrite free_arenas_ranges. pose proof (ok_regions _ _ Hok x) as Hx. unfold regions in Hx.
    rewrite !cover_app in Hx. pose proof (cover_nonneg x (heap g)). lia. }
  rewrite ReclaimMemory_ranges. split_and!; [|apply free_arenas_ranges|done].
  destruct (updated_chain _ (ok_cursor _ _ Hok) (ok_chain _ _ Hok)) as (Hl & Hu & Hrl).
  split; simpl; try done. apply Forall_forall. intros a Ha.
  assert (a ∈ arena_head_ (UpdateBytesAllocated cur (alloc g)) ∨ a ∈ pool_ (alloc g)) as [Hin|Hin].
  { unfold free_arenas, FreeArenaChain in Ha. destruct (arena_head_ (UpdateBytesAllocated cur (alloc g))) eqn:E;
      [|rewrite <-E in *; apply elem_of_app in Ha]; unfold UpdateBytesAllocated in *;
      destruct (arena_head_ (alloc g)); simpl in *; tauto. }
  - rewrite Forall_forall in Hl. pose proof (Hl a Hin) as Haok. split; [done|]. intros x Hx.
    assert (0 < cover x (arena_ranges (arena_head_ (alloc g)))).
    { rewrite <-Hrl. apply cover_pos. exists (arena_range a). destruct Haok.
      split; [by apply list_elem_of_fmap_2|simpl; lia]. }
    apply (ok_used _ _ Hok eq_refl x); [done|]. rewrite Hu. apply unused_byte with a; try done.
    + by apply Forall_forall.
    + intros y. rewrite Hrl. pose proof (ok_regions _ _ Hok y) as Hy. unfold regions in Hy. rewrite !cover_app in Hy.
      pose proof (cover_nonneg y (heap g)). pose proof (cover_nonneg y (arena_ranges (pool_ (alloc g)))). lia.
  - pose proof (ok_pool _ _ Hok) as Hpool. rewrite Forall_forall in Hpool. auto.
Qed.

(** [ResetCurrentArena] loses the record of the bytes in use: destroying the
    allocator afterwards returns the head arena to the pool as if nothing had
    been allocated in it, whatever callers wrote there. *)
Lemma reset_forgets_allocated_bytes s h t :
  arena_head_ s = h :: t →
  free_arenas cur (ResetCurrentArena cur s) = with_bytes_allocated 0 h :: t ++ pool_ s ∧
  BytesUsed cur (ResetCurrentArena cur s) =
    fold_left (λ total cur_arena, wrap w (total + bytes_allocated_ cur_arena)) t 0.
Proof.
  destruct s as [pool b e p chain]. simpl. intros ->. done.
Qed.

(** C37: a request within 7 bytes of the largest [size_t] is rounded to 0: the
    call succeeds at the cursor and reserves nothing. *)
Theorem Alloc_huge_reserves_nothing rst g mapped malloc n :
  sys_ok rst g → 2 ^ w - 7 <= n < 2 ^ w →
  Alloc cur mapped malloc n (alloc g) (bytes g) = Some (ptr_ (alloc g), alloc g, bytes g).
Proof.
  intros Hok Hn. unfold Alloc. assert (align_up w n kAlignment = 0) as ->.
  { unfold align_up. change kAlignment with (2 ^ 3). rewrite align_down_mod by done.
    replace (wrap _ _) with (n + 7 - 2 ^ w); [rewrite Z.mod_small; lia|].
    unfold wrap. apply (Z.mod_unique_pos _ _ 1); [destruct kPointerBits_cases as [E|E]; rewrite E in *|]; lia. }
  destruct (unused_spec _ _ Hok) as [-> ?]. destruct (end_bound _ _ Hok) as (? & ? & _).
  destruct (Z.gtb_spec 0 (end_ (alloc g) - ptr_ (alloc g))); [lia|]. rewrite Z.add_0_r, wrap_small by lia.
  do 2 f_equal. f_equal. by destruct (alloc g).
Qed.
End invariant.

(** ** A concrete execution *)

Definition empty_sys : Sys := MkSys (new_allocator []) (λ _, 0) [] [].

(** After [Alloc(100)], with an arena mapped at 65536, and a write to the block. *)
Definition used_sys : Sys :=
  MkSys (MkAllocator [] 65536 131072 65640 [MkArena 0 65536 65536])
    (λ x, if x =? 65536 then 1 else 0) [(65536, 104)] [].

Lemma empty_sys_initial cur : initial cur empty_sys.
Proof. split; simpl; try done; by constructor. Qed.

Lemma used_sys_reachable rst : rtc (arena_step kArm64 12 rst) empty_sys used_sys.
Proof.
  apply rtc_l with (MkSys (alloc used_sys) (λ _, 0) (blocks used_sys) []).
  - apply step_call, (step_alloc kArm64 12 rst empty_sys (Some 65536) 0 100 65536 (alloc used_sys) (λ _, 0)); [done|done| |by left|done].
    intros a [= <-]. simpl. split_and!; [done|by exists 16|done|done|done].
  - apply rtc_once, step_write. simpl. intros x. rewrite cover_cons. unfold covers. simpl.
    destruct (Z.eqb_spec x 65536) as [->|]; [done|]. done.
Qed.

Lemma mmap_none cur pb g n : mmap_ok cur pb g None n.
Proof. intros a [=]. Qed.

(** An allocator destroyed after [ResetCurrentArena] leaves the pool with an
    arena whose used bytes are not recorded: the next allocator on the pool gives
    out a block that is not zero. *)
Theorem reset_recycles_dirty_memory :
  ∃ g, rtc (arena_step kArm64 12 true) empty_sys g ∧
    ∃ p s m, Alloc kArm64 None 0 8 (new_allocator (free_arenas kArm64 (alloc g))) (bytes g) = Some (p, s, m) ∧
      Contains kArm64 s p = true ∧ m p ≠ 0.
Proof.
  exists (MkSys (ResetCurrentArena kArm64 (alloc used_sys)) (bytes used_sys) (blocks used_sys) []). split.
  - apply rtc_r with used_sys; [apply used_sys_reachable|by apply step_call, (step_reset kArm64 12 true used_sys)].
  - by eexists _, _, _.
Qed.

Example arena_blocks_disjoint_witness :
  bytes used_sys (ptr_ (alloc used_sys)) = 0.
Proof.
  apply (arena_blocks_disjoint kArm64 12 false empty_sys used_sys ltac:(done)
    (empty_sys_initial kArm64) (used_sys_reachable false)).
  vm_compute. split; [discriminate|reflexivity].
Defined.

Example Alloc_fresh_witness :
  ∃ p s m, Alloc kArm64 None 0 5 (alloc used_sys) (bytes used_sys) = Some (p, s, m) ∧ (8 | p).
Proof.
  destruct (Alloc_fresh kArm64 12 false empty_sys used_sys None 0 5 ltac:(done)
    (empty_sys_initial kArm64) (used_sys_reachable false) ltac:(done) ltac:(done)
    (mmap_none _ _ _ _) (or_introl eq_refl)) as (p & s & m & E & _ & H8 & _).
  by exists p, s, m.
Defined.

Example Realloc_keeps_contents_witness :
  match Realloc kArm64 None 0 65536 100 200 (alloc used_sys) (bytes used_sys) with
  | Some (p, s, m) => byte_at m p = 1
  | None => False
  end.
Proof.
  assert ((65536, align_up (kPointerBits kArm64) 100 kAlignment) ∈ blocks used_sys) as Hin by by left.
  pose proof (Realloc_keeps_contents kArm64 12 false empty_sys used_sys None 0 65536 100 200 ltac:(done)
    (empty_sys_initial kArm64) (used_sys_reachable false) ltac:(done) ltac:(done) Hin
    (mmap_none _ _ _ _) (or_introl eq_refl)) as H.
  simpl in H. destruct H as [H _]. apply (H 0). done.
Defined.

Example destroyed_arenas_reusable_witness :
  initial kArm64 (MkSys (new_allocator (free_arenas kArm64 (alloc used_sys))) (bytes used_sys) [] []).
Proof.
  apply (destroyed_arenas_reusable kArm64 12 empty_sys used_sys ltac:(done)
    (empty_sys_initial kArm64) (used_sys_reachable false)).
Defined.

Example Alloc_huge_reserves_nothing_witness :
  Alloc kArm64 None 0 (2 ^ 64 - 1) (alloc used_sys) (bytes used_sys) =
  Some (65640, alloc used_sys, bytes used_sys).
Proof.
  apply (Alloc_huge_reserves_nothing kArm64 false used_sys None 0); [|done].
  by apply (arena_reachable_ok kArm64 12 false empty_sys used_sys ltac:(done)
    (empty_sys_initial kArm64) (used_sys_reachable false)).
Defined.
