(* ===== verification/DexFile.v ===== *)
(** * Dex files in memory

    [art/runtime/dex_file.cxx], and the functions of [lsplant.cc] that load dex
    images: [OpenInMemoryHookerDex], [OpenInMemoryDexFile], [MakeDexFileTrusted].
    The runtime's functions and JNI are parameters. *)

From S2P Require Import Prelude Memory Platform HookHelper Arena.
From Stdlib Require Import Ascii.

(** The static members of [DexFile] that are not symbols; a null id is 0.  A
    reference is the class it refers to. *)
Record DexStatics := MkDexStatics {
  dex_file_class_ref : Z;
  close_guard_class_ref : Z;
  cookie_field : Z;
  file_name_field : Z;
  internal_cookie_field : Z;
  guard_field : Z;
  set_trusted_method : Z;
  get_close_guard_method : Z;
  oat_file_index : Z;
  dex_file_start_index : Z
}.

Definition no_dex_statics : DexStatics := MkDexStatics 0 0 0 0 0 0 0 0 0 0.

(** What JNI answers to the lookups of [Init]; [native_data] is the data of a
    method that is found to be native. *)
Record DexLookups := {
  find_class : string → Z;
  get_field_id : Z → string → string → Z;
  get_static_method_id : Z → string → string → Z;
  native_data : Z → option Z
}.

(** A call of the runtime's function that opens the image, with the arguments
    that are not constants. *)
Inductive OpenCall : Type :=
  | CallOpenOne (base size checksum : Z) (location : string)
  | CallOpen (base size checksum : Z) (location : string)
  | CallOpenCommon (base size checksum : Z) (location : string)
  | CallOpenCommonWithoutContainer (base size checksum : Z) (location : string)
  | CallOpenMemory (base size checksum : Z) (location : string)
  | CallOpenMemoryRaw (base size checksum : Z) (location : string)
  | CallOpenMemoryWithoutOdex (base size checksum : Z) (location : string).

Section dex_file.
Context (cur : Arch) (sdk_int : Z).

Definition DexFile_symbol (name : string) : Symbol :=
  Function name
  match name with
  | "DexFileLoader_constructor_" => PickLP cur
      "_ZN3art13DexFileLoaderC2EPKhmRKNSt3__112basic_stringIcNS3_11char_traitsIcEENS3_9allocatorIcEEEE"
      "_ZN3art13DexFileLoaderC2EPKhjRKNSt3__112basic_stringIcNS3_11char_traitsIcEENS3_9allocatorIcEEEE"
  | "DexFileLoader_destructor_" => "_ZN3art13DexFileLoaderD2Ev"
  | "OpenOne_" => PickLP cur
      "_ZN3art13DexFileLoader7OpenOneEmjPKNS_10OatDexFileEbbPNSt3__112basic_stringIcNS4_11char_traitsIcEENS4_9allocatorIcEEEE"
      "_ZN3art13DexFileLoader7OpenOneEjjPKNS_10OatDexFileEbbPNSt3__112basic_stringIcNS4_11char_traitsIcEENS4_9allocatorIcEEEE"
  | "Open_" =>
      "_ZN3art13DexFileLoader4OpenEjPKNS_10OatDexFileEbbPNSt3__112basic_stringIcNS4_11char_traitsIcEENS4_9allocatorIcEEEE"
  | "OpenCommon_" => PickLP cur
      "_ZN3art13DexFileLoader10OpenCommonEPKhmS2_mRKNSt3__112basic_stringIcNS3_11char_traitsIcEENS3_9allocatorIcEEEEjPKNS_10OatDexFileEbbPS9_NS3_10unique_ptrINS_16DexFileContainerENS3_14default_deleteISH_EEEEPNS0_12VerifyResultE"
      "_ZN3art13DexFileLoader10OpenCommonEPKhjS2_jRKNSt3__112basic_stringIcNS3_11char_traitsIcEENS3_9allocatorIcEEEEjPKNS_10OatDexFileEbbPS9_NS3_10unique_ptrINS_16DexFileContainerENS3_14default_deleteISH_EEEEPNS0_12VerifyResultE"
  | "OpenCommonWithoutContainer_" => PickLP cur
      "_ZN3art7DexFile10OpenCommonEPKhmRKNSt3__112basic_stringIcNS3_11char_traitsIcEENS3_9allocatorIcEEEEjPKNS_10OatDexFileEbbPS9_PNS0_12VerifyResultE"
      "_ZN3art7DexFile10OpenCommonEPKhjRKNSt3__112basic_stringIcNS3_11char_traitsIcEENS3_9allocatorIcEEEEjPKNS_10OatDexFileEbbPS9_PNS0_12VerifyResultE"
  | "OpenMemory_" => PickLP cur
      "_ZN3art7DexFile10OpenMemoryEPKhmRKNSt3__112basic_stringIcNS3_11char_traitsIcEENS3_9allocatorIcEEEEjPNS_6MemMapEPKNS_10OatDexFileEPS9_"
      "_ZN3art7DexFile10OpenMemoryEPKhjRKNSt3__112basic_stringIcNS3_11char_traitsIcEENS3_9allocatorIcEEEEjPNS_6MemMapEPKNS_10OatDexFileEPS9_"
  | "OpenMemoryRaw_" => PickLP cur
      "_ZN3art7DexFile10OpenMemoryEPKhmRKNSt3__112basic_stringIcNS3_11char_traitsIcEENS3_9allocatorIcEEEEjPNS_6MemMapEPKNS_7OatFileEPS9_"
      "_ZN3art7DexFile10OpenMemoryEPKhjRKNSt3__112basic_stringIcNS3_11char_traitsIcEENS3_9allocatorIcEEEEjPNS_6MemMapEPKNS_7OatFileEPS9_"
  | "OpenMemoryWithoutOdex_" => PickLP cur
      "_ZN3art7DexFile10OpenMemoryEPKhmRKNSt3__112basic_stringIcNS3_11char_traitsIcEENS3_9allocatorIcEEEEjPNS_6MemMapEPS9_"
      "_ZN3art7DexFile10OpenMemoryEPKhjRKNSt3__112basic_stringIcNS3_11char_traitsIcEENS3_9allocatorIcEEEEjPNS_6MemMapEPS9_"
  | "DexFile_setTrusted_" => "_ZN3artL18DexFile_setTrustedEP7_JNIEnvP7_jclassP8_jobject"
  | _ => ""
  end%string.

Abbreviation one n := (HookHandler.One (DexFile_symbol n)).

(** ** [OpenMemory] *)

Definition IsMemoryDexSupported (d : DexStatics) : bool := negb (cookie_field d =? 0).

(** [Header::checksum_], after the 8 bytes of [magic_]. *)
Definition checksum_of (m : mem) (dex_file : Z) : Z := load m 4 (dex_file + 8).

(** The call [OpenMemory] makes; [None] where it reports a null symbol. *)
Definition open_call (s : Syms) (m : mem) (dex_file size : Z) (location : string) : option OpenCall :=
  let checksum := checksum_of m dex_file in
  let set n := symbol_set (DexFile_symbol n) s in
  if set "OpenOne_" || set "Open_" then
    Some (if set "OpenOne_" then CallOpenOne dex_file size checksum location
          else CallOpen dex_file size checksum location)
  else if set "OpenCommon_" then Some (CallOpenCommon dex_file size checksum location)
  else if set "OpenCommonWithoutContainer_" then
    Some (CallOpenCommonWithoutContainer dex_file size checksum location)
  else if set "OpenMemory_" then Some (CallOpenMemory dex_file size checksum location)
  else if set "OpenMemoryRaw_" then Some (CallOpenMemoryRaw dex_file size checksum location)
  else if set "OpenMemoryWithoutOdex_" then
    Some (CallOpenMemoryWithoutOdex dex_file size checksum location)
  else None.

(** [OpenMemory]: [open] is what the runtime's function gives, a [DexFile] or
    null and the error message; the message is kept when the function does not
    write it. *)
Definition OpenMemory (open : OpenCall → Z * option string) (s : Syms) (m : mem)
    (dex_file size : Z) (location error_msg : string) : Z * string :=
  match open_call s m dex_file size location with
  | Some c => let '(dex, e) := open c in (dex, default error_msg e)
  | None => (0, "null sym"%string)
  end.

(** ** [Init] *)

Context (info : InitInfo).
Abbreviation any := (HookHandler.any info).
Abbreviation dexfile := (HookHandler.dexfile info).

Definition set_class (c : Z) (d : DexStatics) : DexStatics :=
  MkDexStatics c (close_guard_class_ref d) (cookie_field d) (file_name_field d)
    (internal_cookie_field d) (guard_field d) (set_trusted_method d) (get_close_guard_method d)
    (oat_file_index d) (dex_file_start_index d).
Definition set_trusted (v : Z) (d : DexStatics) : DexStatics :=
  MkDexStatics (dex_file_class_ref d) (close_guard_class_ref d) (cookie_field d)
    (file_name_field d) (internal_cookie_field d) (guard_field d) v (get_close_guard_method d)
    (oat_file_index d) (dex_file_start_index d).
Definition set_cookie (v start : Z) (d : DexStatics) : DexStatics :=
  MkDexStatics (dex_file_class_ref d) (close_guard_class_ref d) v (file_name_field d)
    (internal_cookie_field d) (guard_field d) (set_trusted_method d) (get_close_guard_method d)
    (oat_file_index d) start.
Definition set_file_name (v : Z) (d : DexStatics) : DexStatics :=
  MkDexStatics (dex_file_class_ref d) (close_guard_class_ref d) (cookie_field d) v
    (internal_cookie_field d) (guard_field d) (set_trusted_method d) (get_close_guard_method d)
    (oat_file_index d) (dex_file_start_index d).
Definition set_internal (v start : Z) (d : DexStatics) : DexStatics :=
  MkDexStatics (dex_file_class_ref d) (close_guard_class_ref d) (cookie_field d)
    (file_name_field d) v (guard_field d) (set_trusted_method d) (get_close_guard_method d)
    (oat_file_index d) start.
Definition set_guard (c get field : Z) (d : DexStatics) : DexStatics :=
  MkDexStatics (dex_file_class_ref d) c (cookie_field d) (file_name_field d)
    (internal_cookie_field d) field (set_trusted_method d) get (oat_file_index d)
    (dex_file_start_index d).

(** [std::numeric_limits<size_t>::max()]. *)
Definition size_max : Z := 2 ^ kPointerBits cur - 1.

(** [setTrusted]: the symbol, or the data of the native Java method. *)
Definition init_trusted (j : DexLookups) (cls : Z) (d : DexStatics) (s : Syms) : DexStatics * Syms :=
  if __ANDROID_API_P__ <=? sdk_int then
    let '(ok, s) := any [HookHandler.Prefixed (DexFile_symbol "DexFile_setTrusted_") true] s in
    if ok then (d, s)
    else
      let m := get_static_method_id j cls "setTrusted" "(Ljava/lang/Object;)V" in
      let d := set_trusted m d in
      if negb (m =? 0) then
        match native_data j m with
        | Some data => (d, set_raw "DexFile_setTrusted_" data s)
        | None => (d, s)
        end
      else (d, s)
  else (d, s).

(** The functions that open images, by API level; [Some] is an early return. *)
Definition init_open (s : Syms) : option bool * Syms :=
  if __ANDROID_API_U__ <=? sdk_int then
    let '(ok, s) := dexfile [DexFile_symbol "DexFileLoader_constructor_"] s in
    if negb ok then (Some true, s) else
    let '(ok, s) := dexfile [DexFile_symbol "DexFileLoader_destructor_"] s in
    if negb ok then (Some true, s) else
    let '(ok, s) := dexfile [DexFile_symbol "OpenOne_"; DexFile_symbol "Open_"] s in
    if negb ok then (Some true, s) else (None, s)
  else if __ANDROID_API_P__ <=? sdk_int then
    let '(ok, s) := dexfile [DexFile_symbol "OpenCommon_"] s in
    if negb ok then (Some true, s) else (None, s)
  else if __ANDROID_API_O__ <=? sdk_int then
    let '(ok, s) := any [one "OpenCommonWithoutContainer_"] s in
    if negb ok then (Some true, s) else (None, s)
  else
    let '(ok, s) := any [one "OpenMemory_"; one "OpenMemoryRaw_"; one "OpenMemoryWithoutOdex_"] s in
    if negb ok then (Some false, s) else (None, s).

(** The [CloseGuard] of Android 7 and below. *)
Definition init_guard (j : DexLookups) (cls : Z) (d : DexStatics) : DexStatics :=
  if sdk_int <=? __ANDROID_API_N__ then
    let c := find_class j "dalvik/system/CloseGuard" in
    if c =? 0 then d else
    let get := get_static_method_id j c "get" "()Ldalvik/system/CloseGuard;" in
    if get =? 0 then set_guard (close_guard_class_ref d) get (guard_field d) d else
    let field := get_field_id j cls "guard" "Ldalvik/system/CloseGuard;" in
    if field =? 0 then set_guard (close_guard_class_ref d) get field d else set_guard c get field d
  else d.

(** [DexFile::Init]. *)
Definition DexFile_Init (j : DexLookups) (d : DexStatics) (s : Syms) : bool * DexStatics * Syms :=
  let cls := find_class j "dalvik/system/DexFile" in
  let d := set_class cls d in
  let '(d, s) := init_trusted j cls d s in
  let '(r, s) := init_open s in
  match r with
  | Some b => (b, d, s)
  | None =>
      let d :=
        if __ANDROID_API_M__ <=? sdk_int
        then set_cookie (get_field_id j cls "mCookie" "Ljava/lang/Object;") (dex_file_start_index d) d
        else set_cookie (get_field_id j cls "mCookie" "J") size_max d in
      if cookie_field d =? 0 then (false, d, s) else
      let d := set_file_name (get_field_id j cls "mFileName" "Ljava/lang/String;") d in
      if file_name_field d =? 0 then (false, d, s) else
      if __ANDROID_API_N__ <=? sdk_int then
        let d := set_internal (get_field_id j cls "mInternalCookie" "Ljava/lang/Object;")
                   (dex_file_start_index d) d in
        if internal_cookie_field d =? 0 then (false, d, s)
        else (true, init_guard j cls (set_internal (internal_cookie_field d) 1 d), s)
      else (true, init_guard j cls d, s)
  end.

(** ** [ToJavaDexFile] *)

(** The value of [mCookie]: an array of [long]s, or a pointer to a vector. *)
Inductive Cookie : Type :=
  | LongArray (l : list Z)
  | VectorPointer (dexes : list Z).

(** The fields [ToJavaDexFile] sets in the new object; [None] is not set. *)
Record JavaDexFile := MkJavaDexFile {
  mCookie : Cookie;
  mInternalCookie : option Cookie;
  mFileName : string;
  guard_of : option Z;
  trusted_cookie : bool
}.

(** [SetTrusted]: whether something could be called, and the call. *)
Inductive TrustCall : Type := CallNative (f : Z) | CallJava (method : Z).

Definition SetTrusted (d : DexStatics) (s : Syms) : option TrustCall :=
  if symbol_set (DexFile_symbol "DexFile_setTrusted_") s
  then Some (CallNative (get_raw s "DexFile_setTrusted_"))
  else if negb (set_trusted_method d =? 0) then Some (CallJava (set_trusted_method d)) else None.

(** [ToJavaDexFile]; [close_guard] is what [CloseGuard.get] returns.  [None]
    when an index is outside the new array. *)
Definition ToJavaDexFile (d : DexStatics) (s : Syms) (close_guard this : Z) (trusted : bool) :
    option JavaDexFile :=
  let guard := if negb (guard_field d =? 0) then Some close_guard else None in
  if negb (dex_file_start_index d =? size_max) then
    let cookie := replicate (Z.to_nat (dex_file_start_index d + 1)) 0 in
    if (oat_file_index d <=? dex_file_start_index d) then
      let cookie := <[Z.to_nat (oat_file_index d) := 0]> cookie in
      let cookie := <[Z.to_nat (dex_file_start_index d) := this]> cookie in
      Some (MkJavaDexFile (LongArray cookie)
        (if negb (internal_cookie_field d =? 0) then Some (LongArray cookie) else None)
        "" guard (trusted && bool_decide (is_Some (SetTrusted d s))))
    else None
  else Some (MkJavaDexFile (VectorPointer [this]) None "" guard false).

(** ** [OpenInMemoryHookerDex] *)

Definition kMaxTryCount : Z := 3.

(** The allocator, [kDexLoadFailed] and the memory. *)
Record LoadState := MkLoad {
  arena_allocator : ArenaAllocator;
  kDexLoadFailed : Z;
  memory : mem
}.

(** What the function returns: a Java object made of an image in memory, the
    [DexFile] constructor called on a buffer of the image, or null. *)
Inductive HookerDex : Type :=
  | MemoryDex (f : JavaDexFile)
  | ConstructorWithLoader (ctor : Z)
  | ConstructorOfBuffer (ctor : Z)
  | NoDex.

(** The constructors of [dalvik.system.DexFile] on a buffer. *)
Definition java_constructor (dex_file_init_with_cl dex_file_init : Z) : HookerDex :=
  if negb (dex_file_init_with_cl =? 0) then ConstructorWithLoader dex_file_init_with_cl
  else if negb (dex_file_init =? 0) then ConstructorOfBuffer dex_file_init
  else NoDex.

(** [kDebugBuild] and [generated_source_name] are arguments, and the answers of
    [mmap] and [malloc]; [None] where the code copies to the null pointer or
    indexes outside the cookie array. *)
Definition OpenInMemoryHookerDex (kDebugBuild : bool) (generated_source_name : string)
    (open : OpenCall → Z * option string) (d : DexStatics) (s : Syms) (close_guard : Z)
    (dex_file_init_with_cl dex_file_init : Z) (mapped : option Z) (malloc : Z) (image : list Z)
    (st : LoadState) : option (HookerDex * LoadState) :=
  let fallback := java_constructor dex_file_init_with_cl dex_file_init in
  if (kDexLoadFailed st <? kMaxTryCount) && IsMemoryDexSupported d then
    '(dex, a, m) ← Alloc cur mapped malloc (Z.of_nat (length image)) (arena_allocator st) (memory st);
    if dex =? 0 then None else
    let m := write_bytes m dex image in
    let location := if String.eqb generated_source_name "" then "android"%string
                    else generated_source_name in
    let '(dex_file, _) := OpenMemory open s m dex (Z.of_nat (length image)) location "" in
    if negb (dex_file =? 0) then
      let m := if negb kDebugBuild then store m 8 dex 0 else m in
      f ← ToJavaDexFile d s close_guard dex_file false;
      Some (MemoryDex f, MkLoad a 0 m)
    else if __ANDROID_API_O__ <=? sdk_int then
      Some (fallback, MkLoad a (wrap 32 (kDexLoadFailed st + 1)) m)
    else Some (NoDex, MkLoad a (kDexLoadFailed st) m)
  else Some (fallback, st).

(** ** The API functions *)

(** [OpenInMemoryDexFile]: an object or an error message; [None] as above. *)
Definition OpenInMemoryDexFile (generated_source_name : string)
    (open : OpenCall → Z * option string) (d : DexStatics) (s : Syms) (close_guard : Z) (m : mem)
    (dex size : Z) (trusted : bool) : option (JavaDexFile + string) :=
  if size =? 0 then Some (inr "dex is empty"%string)
  else if negb (IsMemoryDexSupported d) then Some (inr "memory dex is not supported"%string)
  else
    let location := if String.eqb generated_source_name "" then "android"%string
                    else generated_source_name in
    let '(dex_file, err_msg) := OpenMemory open s m dex size location "unknown" in
    if negb (dex_file =? 0) then inl <$> ToJavaDexFile d s close_guard dex_file trusted
    else Some (inr err_msg).

(** [MakeDexFileTrusted], inside the [JavaDebuggableGuard]. *)
Definition MakeDexFileTrusted (d : DexStatics) (s : Syms) (cookie : Z) : bool :=
  if cookie =? 0 then false else bool_decide (is_Some (SetTrusted d s)).
End dex_file.

(** ** What [Init] establishes *)

(** The runtime's function is the one of the API level. *)
Definition call_of_api (sdk_int : Z) (c : OpenCall) : Prop :=
  match c with
  | CallOpenOne _ _ _ _ | CallOpen _ _ _ _ => __ANDROID_API_U__ <= sdk_int
  | CallOpenCommon _ _ _ _ => __ANDROID_API_P__ <= sdk_int < __ANDROID_API_U__
  | CallOpenCommonWithoutContainer _ _ _ _ => __ANDROID_API_O__ <= sdk_int < __ANDROID_API_P__
  | _ => sdk_int < __ANDROID_API_O__
  end.

(** The cookie [ToJavaDexFile] builds, by API level. *)
Definition cookie_of_api (sdk_int this : Z) : Cookie :=
  if __ANDROID_API_N__ <=? sdk_int then LongArray [0; this]
  else if __ANDROID_API_M__ <=? sdk_int then LongArray [this]
  else VectorPointer [this].

Section init_facts.
Context (cur : Arch) (sdk_int : Z) (info : InitInfo).
Implicit Types s : Syms.
Abbreviation sym := (DexFile_symbol cur).

Lemma dexfile_sets args s s' :
  HookHandler.dexfile info args s = (true, s') → ∃ t, t ∈ args ∧ negb (get_raw s' (symbol_name t) =? 0) = true.
Proof.
  revert s. induction args as [|t args IH]; intros s; simpl; [done|].
  destruct (negb (HookHandler.dlsym_dexfile info (FixedStringOf t) =? 0)) eqn:E.
  - intros [= <-]. exists t. split; [by left|]. by rewrite HookHandler.get_raw_set, String.eqb_refl.
  - intros (t' & Ht & Hs)%IH. exists t'. split; [by right|done].
Qed.

Lemma dexfile_other args s n :
  (∀ t, t ∈ args → symbol_name t ≠ n) → get_raw (HookHandler.dexfile info args s).2 n = get_raw s n.
Proof.
  revert s. induction args as [|t args IH]; intros s Hn; simpl; [done|].
  assert (get_raw (set_raw (symbol_name t) (HookHandler.dlsym_dexfile info (FixedStringOf t)) s) n = get_raw s n) as E.
  { rewrite HookHandler.get_raw_set. destruct (String.eqb_spec (symbol_name t) n) as [Ht|]; [|done].
    destruct (Hn t); [by left|done]. }
  destruct (negb _); simpl; [done|]. rewrite IH; [done|]. intros t' Ht'. apply Hn. by right.
Qed.

Lemma any_raw_other args s n :
  (∀ a, a ∈ args → symbol_name (HookHandler.arg_symbol a) ≠ n) →
  get_raw (HookHandler.any info args s).2 n = get_raw s n.
Proof.
  intros Hn. destruct (HookHandler.any info args s) as [b s'] eqn:E. simpl.
  apply HookHandler.any_split in E. destruct b.
  - destruct E as (pre & a & post & -> & _ & _ & Hoff). apply (Hoff n).
    unfold HookHandler.names. intros (a' & -> & Ha')%list_elem_of_fmap.
    apply (Hn a'); [|done]. rewrite elem_of_app in *. rewrite elem_of_cons. rewrite list_elem_of_singleton in Ha'. tauto.
  - apply (E n). intros (a' & -> & Ha')%list_elem_of_fmap. by apply (Hn a').
Qed.

(** The symbols the opening functions need are set. *)
Definition can_open s : Prop :=
  (__ANDROID_API_U__ <= sdk_int →
     symbol_set (sym "DexFileLoader_constructor_") s = true ∧
     symbol_set (sym "DexFileLoader_destructor_") s = true ∧
     (symbol_set (sym "OpenOne_") s = true ∨ symbol_set (sym "Open_") s = true)) ∧
  (sdk_int < __ANDROID_API_U__ →
     symbol_set (sym "OpenOne_") s = false ∧ symbol_set (sym "Open_") s = false) ∧
  (__ANDROID_API_P__ <= sdk_int < __ANDROID_API_U__ → symbol_set (sym "OpenCommon_") s = true) ∧
  (sdk_int < __ANDROID_API_P__ → symbol_set (sym "OpenCommon_") s = false) ∧
  (__ANDROID_API_O__ <= sdk_int < __ANDROID_API_P__ →
     symbol_set (sym "OpenCommonWithoutContainer_") s = true) ∧
  (sdk_int < __ANDROID_API_O__ →
     symbol_set (sym "OpenCommonWithoutContainer_") s = false ∧
     (symbol_set (sym "OpenMemory_") s = true ∨ symbol_set (sym "OpenMemoryRaw_") s = true ∨
      symbol_set (sym "OpenMemoryWithoutOdex_") s = true)).

Lemma can_open_call s m dex size location :
  can_open s →
  ∃ c, open_call cur s m dex size location = Some c ∧ call_of_api sdk_int c.
Proof.
  intros (HU & HltU & HP & HltP & HO & HltO). unfold open_call, __ANDROID_API_U__, __ANDROID_API_P__, __ANDROID_API_O__ in *.
  destruct (decide (34 <= sdk_int)).
  { destruct HU as (_ & _ & H); [done|].
    destruct (symbol_set (sym "OpenOne_") s); [by eexists|]. destruct H as [|H]; [done|].
    rewrite H. by eexists. }
  destruct HltU as [-> ->]; [lia|]. cbn [orb]. destruct (decide (28 <= sdk_int)).
  { rewrite HP by lia. eexists. split; [done|]. unfold call_of_api, __ANDROID_API_P__, __ANDROID_API_U__. lia. }
  rewrite HltP by lia. destruct (decide (26 <= sdk_int)).
  { rewrite HO by lia. eexists. split; [done|]. unfold call_of_api, __ANDROID_API_P__, __ANDROID_API_O__. lia. }
  destruct HltO as [-> H]; [lia|].
  destruct (symbol_set (sym "OpenMemory_") s); [eexists; split; [done|simpl; unfold __ANDROID_API_O__; lia]|].
  destruct (symbol_set (sym "OpenMemoryRaw_") s); [eexists; split; [done|simpl; unfold __ANDROID_API_O__; lia]|].
  destruct H as [|[|Hw]]; [done..|]; rewrite Hw. eexists. split; [done|]. simpl. unfold __ANDROID_API_O__. lia.
Qed.

(** The names of the symbols that open images. *)
Definition open_names : list string :=
  ["OpenOne_"; "Open_"; "OpenCommon_"; "OpenCommonWithoutContainer_"; "OpenMemory_"; "OpenMemoryRaw_";
   "OpenMemoryWithoutOdex_"]%string.

Lemma init_trusted_other j cls d s n :
  n ≠ "DexFile_setTrusted_"%string → get_raw (init_trusted cur sdk_int info j cls d s).2 n = get_raw s n.
Proof.
  intros Hn. unfold init_trusted. destruct (_ <=? _); [|done].
  pose proof (any_raw_other [HookHandler.Prefixed (sym "DexFile_setTrusted_") true] s n) as Ha.
  destruct (HookHandler.any _ _ _) as [[] s']; simpl in *.
  - apply Ha. intros a ->%list_elem_of_singleton. by apply not_eq_sym.
  - assert (get_raw s' n = get_raw s n) as E.
    { apply Ha. intros a ->%list_elem_of_singleton. by apply not_eq_sym. }
    destruct (negb _); [|done]. destruct (native_data j _); [|done]. simpl.
    rewrite HookHandler.get_raw_set. destruct (String.eqb_spec "DexFile_setTrusted_" n); [congruence|done].
Qed.

(** A resolution that succeeds sets one of the names, and no other name changes. *)
Lemma dexfile_result args s s' b :
  HookHandler.dexfile info (map sym args) s = (b, s') →
  (b = true → ∃ n, n ∈ args ∧ symbol_set (sym n) s' = true) ∧
  (∀ n, n ∉ args → symbol_set (sym n) s' = symbol_set (sym n) s).
Proof.
  intros E. split.
  - intros ->. apply dexfile_sets in E as (t & (n & -> & Hn)%list_elem_of_fmap & Hs). eauto.
  - intros n Hn. simpl. pose proof (dexfile_other (map sym args) s n) as Ho. rewrite E in Ho. simpl in Ho.
    rewrite Ho; [done|]. intros t (n' & -> & Hn')%list_elem_of_fmap. simpl. by intros ->.
Qed.

Lemma any_result args s s' b :
  HookHandler.any info (map (λ n, HookHandler.One (sym n)) args) s = (b, s') →
  (b = true → ∃ n, n ∈ args ∧ symbol_set (sym n) s' = true) ∧
  (∀ n, n ∉ args → symbol_set (sym n) s' = symbol_set (sym n) s).
Proof.
  intros E. split.
  - intros ->. apply HookHandler.any_split in E as (pre & a & post & Heq & Hs & _).
    assert (a ∈ map (λ n, HookHandler.One (sym n)) args) as (n & -> & Hn)%list_elem_of_fmap.
    { rewrite Heq. apply elem_of_app. right. by left. }
    by exists n.
  - intros n Hn. simpl. pose proof (any_raw_other (map (λ n, HookHandler.One (sym n)) args) s n) as Ho.
    rewrite E in Ho. simpl in Ho. rewrite Ho; [done|].
    intros t (n' & -> & Hn')%list_elem_of_fmap. simpl. by intros ->.
Qed.

(** Decides membership of a name in a list of names. *)
Ltac name_in := unfold open_names; rewrite ?elem_of_cons, ?elem_of_nil; intuition discriminate.

(** The name a list of one or more names gives. *)
Ltac which_name H :=
  let n := fresh "n" in
  let Hn := fresh "Hn" in
  destruct (H eq_refl) as (n & Hn & ?);
  repeat (apply elem_of_cons in Hn as [->|Hn]); try by apply elem_of_nil in Hn.

Lemma init_open_can_open s s' :
  (∀ n, n ∈ open_names → symbol_set (sym n) s = false) →
  init_open cur sdk_int info s = (None, s') → can_open s'.
Proof.
  intros H0. unfold init_open, can_open.
  destruct (Z.leb_spec __ANDROID_API_U__ sdk_int).
  { destruct (HookHandler.dexfile _ [_] s) as [b1 s1] eqn:E1. destruct b1; cbn [negb]; [|done].
    destruct (HookHandler.dexfile _ [_] s1) as [b2 s2] eqn:E2. destruct b2; cbn [negb]; [|done].
    destruct (HookHandler.dexfile _ _ s2) as [b3 s3] eqn:E3. destruct b3; cbn [negb]; [|done]. intros [= <-].
    apply (dexfile_result ["DexFileLoader_constructor_"%string]) in E1 as [R1 _].
    apply (dexfile_result ["DexFileLoader_destructor_"%string]) in E2 as [R2 F2].
    apply (dexfile_result ["OpenOne_"; "Open_"]%string) in E3 as [R3 F3].
    which_name R1. which_name R2. unfold __ANDROID_API_U__, __ANDROID_API_P__, __ANDROID_API_O__ in *.
    split_and!; try lia. intros _. rewrite !F3 by name_in. rewrite F2 by name_in. split_and!; [done|done|].
    which_name R3; auto. }
  destruct (Z.leb_spec __ANDROID_API_P__ sdk_int).
  { destruct (HookHandler.dexfile _ [_] s) as [b1 s1] eqn:E1. destruct b1; cbn [negb]; [|done]. intros [= <-].
    apply (dexfile_result ["OpenCommon_"%string]) in E1 as [R1 F1]. which_name R1.
    unfold __ANDROID_API_U__, __ANDROID_API_P__, __ANDROID_API_O__ in *.
    split_and!; try lia; intros _; [|done]. rewrite !F1 by name_in. split; apply H0; name_in. }
  destruct (Z.leb_spec __ANDROID_API_O__ sdk_int).
  { destruct (HookHandler.any _ _ s) as [b1 s1] eqn:E1. destruct b1; cbn [negb]; [|done]. intros [= <-].
    apply (any_result ["OpenCommonWithoutContainer_"%string]) in E1 as [R1 F1]. which_name R1.
    unfold __ANDROID_API_U__, __ANDROID_API_P__, __ANDROID_API_O__ in *.
    split_and!; try lia; intros _; [|by rewrite F1 by name_in; apply H0; name_in|done].
    rewrite !F1 by name_in. split; apply H0; name_in. }
  destruct (HookHandler.any _ _ s) as [b1 s1] eqn:E1. destruct b1; cbn [negb]; [|done]. intros [= <-].
  apply (any_result ["OpenMemory_"; "OpenMemoryRaw_"; "OpenMemoryWithoutOdex_"]%string) in E1 as [R1 F1].
  unfold __ANDROID_API_U__, __ANDROID_API_P__, __ANDROID_API_O__ in *.
  split_and!; try lia; intros _; [|by rewrite F1 by name_in; apply H0; name_in|].
  { rewrite !F1 by name_in. split; apply H0; name_in. }
  split; [rewrite F1 by name_in; apply H0; name_in|]. which_name R1; auto.
Qed.

Lemma init_trusted_statics j cls d s :
  ∃ v, (init_trusted cur sdk_int info j cls d s).1 = set_trusted v d.
Proof.
  unfold init_trusted. destruct (_ <=? _).
  - destruct (HookHandler.any _ _ _) as [[] s']; [exists (set_trusted_method d); by destruct d|].
    destruct (negb _); [destruct (native_data _ _)|]; by eexists.
  - exists (set_trusted_method d). by destruct d.
Qed.

(** The statics a successful [Init] that found the cookie field leaves. *)
Record supported_statics (d : DexStatics) : Prop := {
  supported_oat : oat_file_index d = 0;
  supported_start : dex_file_start_index d =
    if __ANDROID_API_N__ <=? sdk_int then 1
    else if __ANDROID_API_M__ <=? sdk_int then 0 else size_max cur;
  supported_name : file_name_field d ≠ 0;
  supported_internal : (internal_cookie_field d ≠ 0) ↔ __ANDROID_API_N__ <= sdk_int
}.

Lemma init_guard_statics j cls d : supported_statics d → supported_statics (init_guard sdk_int j cls d).
Proof.
  intros [? ? ? ?]. unfold init_guard.
  repeat match goal with |- context [if ?b then _ else _] => destruct b end; by split.
Qed.

Lemma Init_spec j s0 b d s :
  (∀ n, n ∈ open_names → symbol_set (sym n) s0 = false) →
  DexFile_Init cur sdk_int info j no_dex_statics s0 = (b, d, s) →
  IsMemoryDexSupported d = true →
  can_open s ∧ (b = true → supported_statics d).
Proof.
  intros H0. unfold DexFile_Init.
  pose proof (init_trusted_statics j (find_class j "dalvik/system/DexFile")
    (set_class (find_class j "dalvik/system/DexFile") no_dex_statics) s0) as [v Hd].
  pose proof (init_trusted_other j (find_class j "dalvik/system/DexFile")
    (set_class (find_class j "dalvik/system/DexFile") no_dex_statics) s0) as Hs.
  destruct (init_trusted _ _ _ _ _ _ _) as [d1 s1]. simpl in Hd, Hs. subst d1.
  destruct (init_open cur sdk_int info s1) as [[r|] s2] eqn:Eo; [by intros [= <- <- <-]|].
  assert (can_open s2) as Hcan.
  { apply (init_open_can_open s1); [|done]. intros n Hn. unfold DexFile_symbol, symbol_set.
    rewrite Hs; [by apply (H0 n)|]. intros ->. revert Hn. name_in. }
  unfold no_dex_statics, set_class, set_trusted, set_cookie, set_file_name, set_internal. simpl.
  destruct (Z.leb_spec __ANDROID_API_M__ sdk_int) as [HM|HM]; simpl;
    destruct (Z.leb_spec __ANDROID_API_N__ sdk_int) as [HN|HN]; simpl;
    repeat match goal with
    | |- context [if ?x =? 0 then _ else _] => destruct (Z.eqb_spec x 0) as [->|]; [by intros [= <- <- <-]|]
    end;
    intros [= <- <- <-] _; (split; [done|intros _]); apply init_guard_statics; split; simpl; try done;
    rewrite ?(proj2 (Z.leb_le _ _) HN), ?(proj2 (Z.leb_gt _ _) HN), ?(proj2 (Z.leb_le _ _) HM), ?(proj2 (Z.leb_gt _ _) HM);
    unfold __ANDROID_API_N__, __ANDROID_API_M__ in *; done || lia.
Qed.

(** When [Init] finds the cookie field, a function of the running Android
    version is there to open images with, so [OpenMemory] makes that call
    and never reports a null symbol; where it is called through a [DexFileLoader], the loader's
    constructor and destructor are there too. *)
Theorem memory_dex_supported j b d s m dex size location :
  DexFile_Init cur sdk_int info j no_dex_statics no_syms = (b, d, s) →
  IsMemoryDexSupported d = true →
  (∃ c, open_call cur s m dex size location = Some c ∧ call_of_api sdk_int c) ∧
  (__ANDROID_API_U__ <= sdk_int →
     symbol_set (DexFile_symbol cur "DexFileLoader_constructor_") s = true ∧
     symbol_set (DexFile_symbol cur "DexFileLoader_destructor_") s = true).
Proof.
  intros Hi Hs. destruct (Init_spec _ no_syms _ _ _ (λ _ _, eq_refl) Hi Hs) as [Hcan _].
  destruct (can_open_call s m dex size location Hcan) as (c & Hc & Hapi). split; [by eauto|].
  intros HU. destruct Hcan as [HcU _]. destruct (HcU HU) as (? & ? & _). done.
Qed.

(** After a successful [Init] the Java object of an opened dex file is made
    without an index error, its cookie has the layout of the running Android
    version, in both cookie fields where there are two, and it is marked trusted
    only if that was asked for and possible. *)
Theorem java_dex_file_cookie j d s close_guard this trusted :
  DexFile_Init cur sdk_int info j no_dex_statics no_syms = (true, d, s) →
  IsMemoryDexSupported d = true →
  ∃ f, ToJavaDexFile cur d s close_guard this trusted = Some f ∧
    mCookie f = cookie_of_api sdk_int this ∧ mFileName f = ""%string ∧
    mInternalCookie f = (if __ANDROID_API_N__ <=? sdk_int then Some (mCookie f) else None) ∧
    (guard_of f = if guard_field d =? 0 then None else Some close_guard) ∧
    trusted_cookie f = trusted && (__ANDROID_API_M__ <=? sdk_int) &&
      MakeDexFileTrusted cur d s 1.
Proof.
  intros Hi Hs. destruct (Init_spec _ no_syms _ _ _ (λ _ _, eq_refl) Hi Hs) as [_ Hst]. destruct (Hst eq_refl) as [Ho Hst' _ Hint].
  unfold ToJavaDexFile, cookie_of_api, MakeDexFileTrusted. rewrite Hst', Ho. simpl.
  assert (1 < size_max cur) by (unfold size_max, kPointerBits; destruct (kPointerSize_cases cur) as [-> | ->]; done).
  destruct (Z.leb_spec __ANDROID_API_N__ sdk_int) as [HN|HN].
  - rewrite (proj2 (Z.eqb_neq 1 _)) by lia. simpl. rewrite (proj2 (Z.leb_le _ _)) by (unfold __ANDROID_API_N__ in *; unfold __ANDROID_API_M__; lia).
    eexists. split; [done|]. simpl. rewrite (proj2 (Z.eqb_neq (internal_cookie_field d) 0)) by tauto.
    rewrite andb_true_r. by destruct (guard_field d =? 0).
  - assert (internal_cookie_field d = 0) as -> by (destruct (decide (internal_cookie_field d = 0)); [done|lia]).
    destruct (Z.leb_spec __ANDROID_API_M__ sdk_int) as [HM|HM].
    + rewrite (proj2 (Z.eqb_neq 0 _)) by lia. eexists. split; [done|]. simpl. rewrite andb_true_r. by destruct (guard_field d =? 0).
    + rewrite Z.eqb_refl. eexists. split; [done|]. simpl. rewrite andb_false_r. by destruct (guard_field d =? 0).
Qed.
End init_facts.

(** ** A concrete [Init] *)

(** JNI finds everything, the symbols of the dex library are resolved. *)
Definition sample_lookups : DexLookups := {|
  find_class _ := 1;
  get_field_id _ _ _ := 2;
  get_static_method_id _ _ _ := 3;
  native_data _ := None
|}.

Definition sample_info : InitInfo := {|
  inline_hooker f _ := (f + 1, f + 2);
  inline_unhooker := None;
  art_symbol_resolver _ _ := 0;
  art_symbol_prefix_resolver := None;
  dexfile_symbol_resolver := Some (λ _ _, 0x1000);
|}.

Definition sample_init : bool * DexStatics * Syms :=
  DexFile_Init kArm64 34 sample_info sample_lookups no_dex_statics no_syms.

Example memory_dex_supported_witness :
  ∃ c, open_call kArm64 sample_init.2 (λ _, 0) 0x1000 112 "android" = Some c ∧ call_of_api 34 c.
Proof.
  apply (memory_dex_supported kArm64 34 sample_info sample_lookups true sample_init.1.2 sample_init.2
    (λ _, 0) 0x1000 112 "android" eq_refl eq_refl).
Defined.

Example java_dex_file_cookie_witness :
  ∃ f, ToJavaDexFile kArm64 sample_init.1.2 sample_init.2 0 0x5000 true = Some f ∧ mCookie f = LongArray [0; 0x5000].
Proof.
  destruct (java_dex_file_cookie kArm64 34 sample_info sample_lookups sample_init.1.2 sample_init.2
    0 0x5000 true eq_refl eq_refl) as (f & E & Hc & _). by exists f.
Defined.
