(* ===== verification/DexImages.v ===== *)
(** * The images of generated classes

    [OpenInMemoryHookerDex] on the allocator of [Arena]: the images the runtime
    was given stay as they were, whatever is loaded later; and the count of
    failed loads. *)

From S2P Require Import Prelude Memory Platform HookHelper.
From S2P Require Import Arena ArenaSpec DexFile.
From Stdlib Require Import Ascii.

(** What the runtime keeps of an image: with the magic cleared unless this is a
    debug build. *)
Definition loaded_image (kDebugBuild : bool) (image : list Z) : list Z :=
  if kDebugBuild then image else repeat 0 8 ++ drop 8 image.

(** The allocator and its blocks, [kDexLoadFailed], and the images in use. *)
Record Images := MkImages { sys : Sys; failed : Z; images : list (Z * list Z) }.

Section images.
Context (cur : Arch) (sdk_int page_bits : Z) (kDebugBuild : bool) (generated_source_name : string).
Context (d : DexStatics) (s : Syms) (dex_file_init_with_cl dex_file_init : Z).
Abbreviation w := (kPointerBits cur).
Implicit Types (g : Sys) (x : Images).

(** [OpenInMemoryHookerDex] on such a state. *)
Definition load_image (open : OpenCall → Z * option string) (close_guard : Z) (mapped : option Z)
    (malloc : Z) (image : list Z) x : option (HookerDex * LoadState) :=
  OpenInMemoryHookerDex cur sdk_int kDebugBuild generated_source_name open d s close_guard
    dex_file_init_with_cl dex_file_init mapped malloc image
    (MkLoad (alloc (sys x)) (failed x) (bytes (sys x))).

(** The block the function allocates, if it does. *)
Definition image_block (mapped : option Z) (malloc : Z) (image : list Z) x : option Z :=
  if (failed x <? kMaxTryCount) && IsMemoryDexSupported d then
    '(p, _, _) ← Alloc cur mapped malloc (Z.of_nat (length image)) (alloc (sys x)) (bytes (sys x)); Some p
  else None.

(** The state after a load that returned [r] and [st]. *)
Definition after_load (block : option Z) (image : list Z) (r : HookerDex) (st : LoadState) x : Images :=
  match block with
  | Some p =>
      MkImages
        (hold cur p (align_up w (Z.of_nat (length image)) kAlignment) (arena_allocator st) (memory st) (sys x))
        (kDexLoadFailed st)
        (match r with MemoryDex _ => (p, loaded_image kDebugBuild image) :: images x | _ => images x end)
  | None => MkImages (sys x) (kDexLoadFailed st) (images x)
  end.

(** Loads one after the other; an image holds a header of more than 8 bytes. *)
Inductive load_step x : Images → Prop :=
| load_one open close_guard mapped malloc image r st :
    let n := Z.of_nat (length image) in
    8 <= n → n + 7 < 2 ^ w → Forall is_byte image →
    mmap_ok cur page_bits (sys x) mapped (Z.max kArenaDefaultSize (align_up w n kAlignment)) →
    malloc_ok cur (sys x) kAlignment malloc (align_up w n kAlignment) →
    load_image open close_guard mapped malloc image x = Some (r, st) →
    load_step x (after_load (image_block mapped malloc image x) image r st x).

(** An image is in memory, in a block of the allocator. *)
Definition image_in g (p : Z) (image : list Z) : Prop :=
  read_bytes (bytes g) p (length image) = image ∧
  ∀ a, p <= a < p + Z.of_nat (length image) → 0 < cover a (blocks g).

Definition images_ok x : Prop :=
  sys_ok cur false (sys x) ∧ 0 <= failed x <= kMaxTryCount ∧
  Forall (λ i, image_in (sys x) i.1 i.2) (images x).

Lemma length_loaded_image image : 8 <= Z.of_nat (length image) → length (loaded_image kDebugBuild image) = length image.
Proof. intros H. unfold loaded_image. destruct kDebugBuild; [done|]. rewrite length_app, repeat_length, length_drop. lia. Qed.

Lemma loaded_image_bytes image : Forall is_byte image → Forall is_byte (loaded_image kDebugBuild image).
Proof.
  intros H. unfold loaded_image. destruct kDebugBuild; [done|]. apply Forall_app. split.
  - by repeat constructor.
  - by apply Forall_drop.
Qed.

(** Writing the image and clearing the magic writes [loaded_image]. *)
Lemma write_loaded_image m p image a :
  8 <= Z.of_nat (length image) →
  (if negb kDebugBuild then store (write_bytes m p image) 8 p 0 else write_bytes m p image) a =
  write_bytes m p (loaded_image kDebugBuild image) a.
Proof.
  intros Hn. destruct kDebugBuild; [done|]. cbn [negb].
  change (loaded_image false image) with (repeat 0 8 ++ drop 8 image). unfold store, write_bytes.
  rewrite length_app, length_drop, length_le_bytes, repeat_length.
  destruct (Z.leb_spec p a); cbn [andb]; [|done].
  replace (a <? p + Z.of_nat (8 + (length image - 8))) with (a <? p + Z.of_nat (length image)) by (f_equal; lia).
  destruct (Z.ltb_spec a (p + Z.of_nat 8)) as [Hlt|Hge].
  - rewrite (proj2 (Z.ltb_lt a _)) by lia. replace (a - p) with (Z.of_nat (Z.to_nat (a - p))) by lia.
    assert (Z.to_nat (a - p) < 8)%nat as H8 by lia. rewrite Nat2Z.id.
    revert H8. generalize (Z.to_nat (a - p)). intros k H8. do 8 (destruct k as [|k]; [done|]). lia.
  - destruct (Z.ltb_spec a (p + Z.of_nat (length image))); [|done].
    rewrite app_nth2 by (rewrite repeat_length; lia).
    rewrite repeat_length. replace (Z.to_nat (a - p)) with (8 + (Z.to_nat (a - p) - 8))%nat at 1 by lia.
    by rewrite nth_skipn.
Qed.

Lemma java_constructor_not_memory a b f : java_constructor a b ≠ MemoryDex f.
Proof. unfold java_constructor. by repeat case_match. Qed.

Lemma open_load open close_guard mapped malloc image x r st :
  load_image open close_guard mapped malloc image x = Some (r, st) → 8 <= Z.of_nat (length image) →
  match image_block mapped malloc image x with
  | None => st = MkLoad (alloc (sys x)) (failed x) (bytes (sys x)) ∧
      r = java_constructor dex_file_init_with_cl dex_file_init
  | Some p =>
      failed x < kMaxTryCount ∧
      ∃ m, Alloc cur mapped malloc (Z.of_nat (length image)) (alloc (sys x)) (bytes (sys x)) =
             Some (p, arena_allocator st, m) ∧ p ≠ 0 ∧
      match r with
      | MemoryDex _ => kDexLoadFailed st = 0 ∧
          ∀ a, memory st a = write_bytes m p (loaded_image kDebugBuild image) a
      | _ => memory st = write_bytes m p image ∧
          kDexLoadFailed st =
            if __ANDROID_API_O__ <=? sdk_int then wrap 32 (failed x + 1) else failed x
      end
  end.
Proof.
  intros E Hn. unfold load_image, OpenInMemoryHookerDex, image_block in *.
  cbn [kDexLoadFailed arena_allocator memory] in *.
  destruct (Z.ltb_spec (failed x) kMaxTryCount) as [Hf|Hf]; cbn [andb] in *; [|by simplify_eq].
  destruct (IsMemoryDexSupported d); [|by simplify_eq].
  destruct (Alloc _ _ _ _ _ _) as [[[p a] m]|]; [|done]. simpl in *. split; [done|]. exists m.
  destruct (Z.eqb_spec p 0); [done|].
  destruct (OpenMemory _ _ _ _ _ _ _ _) as [dex e]. destruct (negb (dex =? 0)).
  - destruct (ToJavaDexFile _ _ _ _ _ _) as [f|]; [|done]. simpl in E. simplify_eq/=.
    split_and!; [done|done|done|]. intros x'. by apply write_loaded_image.
  - pose proof (java_constructor_not_memory dex_file_init_with_cl dex_file_init) as Hj.
    destruct (java_constructor dex_file_init_with_cl dex_file_init) eqn:Ej; [by destruct (Hj f)|..];
      destruct (__ANDROID_API_O__ <=? sdk_int); by simplify_eq/=.
Qed.

Lemma image_kept g g' p image :
  (∀ a, 0 < cover a (blocks g) → bytes g' a = bytes g a) →
  (∀ a, 0 < cover a (blocks g) → 0 < cover a (blocks g')) →
  image_in g p image → image_in g' p image.
Proof.
  intros Hm Hb [Hr Hc]. split; [|auto]. rewrite <-Hr at 2. apply read_bytes_ext.
  intros i Hi. unfold byte_at. rewrite Hm; [done|]. apply Hc. lia.
Qed.

Lemma hold_write rst p n st m m' g :
  sys_ok cur rst (hold cur p n st m g) → p ≠ 0 →
  (∀ a, m' a = m a ∨ covers a (p, n) = true) → sys_ok cur rst (hold cur p n st m' g).
Proof.
  intros Hok Hp Hm. unfold hold in *. rewrite (proj2 (Z.eqb_neq p 0) Hp) in *.
  apply (write_ok cur rst _ m' Hok). simpl. intros a Ha. destruct (Hm a) as [|Hc]; [done|].
  rewrite cover_cons, Hc in Ha. pose proof (cover_nonneg a (blocks g)). lia.
Qed.

Lemma hold_blocks p n st m g : p ≠ 0 →
  blocks (hold cur p n st m g) = (p, n) :: blocks g ∧ bytes (hold cur p n st m g) = m.
Proof. intros Hp. unfold hold. by rewrite (proj2 (Z.eqb_neq p 0) Hp). Qed.

Lemma write_bytes_outside m p l n a :
  Z.of_nat (length l) <= n → write_bytes m p l a = m a ∨ covers a (p, n) = true.
Proof.
  intros Hn. destruct (decide (p <= a < p + Z.of_nat (length l))).
  - right. apply covers_spec. simpl. lia.
  - left. apply write_bytes_out. lia.
Qed.

Lemma load_step_ok x x' : 4 <= page_bits < w → images_ok x → load_step x x' → images_ok x'.
Proof.
  intros Hp (Hok & Hf & Him) [open cg mapped malloc image r st n Hn Hw Hby Hmap Hmal E]. subst n.
  pose proof (open_load _ _ _ _ _ _ _ _ E Hn) as Hload. unfold after_load.
  destruct (image_block mapped malloc image x) as [p|].
  2:{ destruct Hload as [-> _]. by split. }
  destruct Hload as (Hfx & m & Ea & Hp0 & Hr).
  destruct (Alloc_allocated cur page_bits false (sys x) mapped malloc (Z.of_nat (length image))) as (p' & a' & m' & Ea' & Hall & _);
    try done; [lia|].
  rewrite Ea in Ea'. simplify_eq. destruct Hall as [Hok' Hfr Hap _ _]. specialize (Hap Hp0).
  destruct (align8_spec cur (Z.of_nat (length image)) ltac:(lia) Hw) as (_ & Hle & _).
  set (n' := align_up w _ kAlignment) in *.
  assert (∃ l, length l = length image ∧ Forall is_byte l ∧ (∀ a, memory st a = write_bytes m' p' l a) ∧
    (∀ f, r = MemoryDex f → l = loaded_image kDebugBuild image)) as (l & Hl & Hlb & Hm & Hlr).
  { destruct r; [|destruct Hr as [-> _]; exists image; split_and!; done..].
    exists (loaded_image kDebugBuild image). split_and!; [by apply length_loaded_image|by apply loaded_image_bytes|tauto|done]. }
  pose proof (hold_blocks p' n' (arena_allocator st) (memory st) (sys x) Hp0) as [Hbl Hby'].
  split; [|split].
  - apply (hold_write _ _ _ _ m'); [done..|]. intros a. rewrite Hm. apply write_bytes_outside. lia.
  - cbn [failed]. assert (wrap 32 (failed x + 1) = failed x + 1) as Hwr by (apply wrap_small; unfold kMaxTryCount in *; lia).
    destruct r; [destruct Hr as [-> _]; done|destruct Hr as [_ ->]; rewrite Hwr; destruct (_ <=? _); unfold kMaxTryCount in *; lia..].
  - assert (Forall (λ i, image_in (hold cur p' n' (arena_allocator st) (memory st) (sys x)) i.1 i.2) (images x)) as Hold.
    { eapply Forall_impl; [exact Him|]. intros [q l']. simpl. apply image_kept.
      - intros a Ha. rewrite Hby', Hm. rewrite <-(Hfr a Ha).
        destruct (write_bytes_outside m' p' l n' a ltac:(lia)) as [|Hc]; [done|].
        apply covers_spec in Hc. rewrite (Hap a Hc) in Ha. lia.
      - intros a Ha. rewrite Hbl, cover_cons. destruct (covers _ _); lia. }
    destruct r as [f| | |]; [|exact Hold..]. constructor; [|exact Hold].
    simpl. specialize (Hlr f eq_refl). subst l. split.
    + rewrite Hby'. rewrite <-(read_write_same m' p' _ Hlb) at 2. apply read_bytes_ext.
      intros i Hi. unfold byte_at. by rewrite Hm.
    + intros a Ha. rewrite Hbl, cover_cons, (proj2 (covers_spec a (p', n'))) by (simpl; lia).
      pose proof (cover_nonneg a (blocks (sys x))). lia.
Qed.

(** Nothing loaded yet. *)
Definition images_initial x : Prop := initial cur (sys x) ∧ failed x = 0 ∧ images x = [].

Lemma images_reachable_ok x0 x :
  4 <= page_bits < w → images_initial x0 → rtc load_step x0 x → images_ok x.
Proof.
  intros Hp (Hi & Hf & Him). apply (rtc_invariant _ images_ok).
  - intros a b Ha. by apply load_step_ok.
  - split; [by apply arena_initial_ok|]. rewrite Hf, Him. split; [done|constructor].
Qed.

(** However many classes are generated, every image the runtime was given in
    memory still has the bytes it was loaded with, but for its cleared magic, and
    the count of failed loads stays between 0 and its limit. *)
Theorem images_intact x0 x :
  4 <= page_bits < w → images_initial x0 → rtc load_step x0 x →
  (∀ p image, (p, image) ∈ images x → read_bytes (bytes (sys x)) p (length image) = image) ∧
  0 <= failed x <= kMaxTryCount.
Proof.
  intros Hp Hi Hr. destruct (images_reachable_ok _ _ Hp Hi Hr) as (_ & Hf & Him). split; [|done].
  rewrite Forall_forall in Him. intros p image Hin. apply (Him _ Hin).
Qed.

Lemma ToJavaDexFile_some close_guard this trusted :
  supported_statics cur sdk_int d → is_Some (ToJavaDexFile cur d s close_guard this trusted).
Proof.
  intros [Ho Hst _ _]. unfold ToJavaDexFile. rewrite Hst, Ho.
  destruct (_ <=? sdk_int); [|destruct (_ <=? sdk_int)]; [..|by rewrite Z.eqb_refl; eexists];
    simpl; destruct (negb _); by eexists.
Qed.

(** In every state that loads lead to, [OpenInMemoryHookerDex] returns unless
    memory runs out.  An image the runtime accepts becomes a Java object and ends
    a run of failures; one it rejects counts, from Android 8 on, and the Java
    constructors take over; after the last failure memory is not tried again and
    nothing changes. *)
Theorem OpenInMemoryHookerDex_spec x0 x open close_guard mapped malloc image :
  4 <= page_bits < w → images_initial x0 → rtc load_step x0 x →
  supported_statics cur sdk_int d → IsMemoryDexSupported d = true →
  let n := Z.of_nat (length image) in
  8 <= n → n + 7 < 2 ^ w →
  mmap_ok cur page_bits (sys x) mapped (Z.max kArenaDefaultSize (align_up w n kAlignment)) →
  malloc_ok cur (sys x) kAlignment malloc (align_up w n kAlignment) → malloc ≠ 0 →
  ∃ r st, load_image open close_guard mapped malloc image x = Some (r, st) ∧
    if failed x =? kMaxTryCount then
      r = java_constructor dex_file_init_with_cl dex_file_init ∧
      st = MkLoad (alloc (sys x)) (failed x) (bytes (sys x))
    else
      match r with
      | MemoryDex _ => kDexLoadFailed st = 0
      | _ =>
          if __ANDROID_API_O__ <=? sdk_int
          then kDexLoadFailed st = failed x + 1 ∧ r = java_constructor dex_file_init_with_cl dex_file_init
          else kDexLoadFailed st = failed x ∧ r = NoDex
      end.
Proof.
  intros Hp Hi Hr Hst Hsup n Hn Hw Hmap Hmal Hm0. subst n.
  destruct (images_reachable_ok _ _ Hp Hi Hr) as (Hok & Hf & _).
  pose proof (java_constructor_not_memory dex_file_init_with_cl dex_file_init) as Hj.
  unfold load_image, OpenInMemoryHookerDex. cbn [kDexLoadFailed arena_allocator memory].
  rewrite Hsup, andb_true_r. destruct (Z.eqb_spec (failed x) kMaxTryCount) as [->|Hne].
  { rewrite Z.ltb_irrefl. by eexists _, _. }
  rewrite (proj2 (Z.ltb_lt _ _)) by lia.
  destruct (Alloc_allocated cur page_bits false (sys x) mapped malloc (Z.of_nat (length image))) as (p & a & m & -> & _ & Hz);
    try done; [lia|]. simpl.
  destruct (Z.eqb_spec p 0) as [->|]; [by destruct Hm0; apply Hz; [lia|]|].
  destruct (OpenMemory _ _ _ _ _ _ _ _) as [dex e]. destruct (Z.eqb_spec dex 0); cbn [negb].
  - assert (wrap 32 (failed x + 1) = failed x + 1) as -> by (apply wrap_small; unfold kMaxTryCount in *; lia).
    destruct (__ANDROID_API_O__ <=? sdk_int); eexists _, _; (split; [done|]); simpl; [|done].
    destruct (java_constructor _ _) eqn:E; [by destruct (Hj f)|done..].
  - destruct (ToJavaDexFile_some close_guard dex false Hst) as [f ->]. simpl. by eexists _, _.
Qed.
End images.

(** ** A concrete load *)

(** The statics on Android 14. *)
Definition sample_statics : DexStatics := MkDexStatics 1 0 2 3 4 0 0 0 0 1.

Definition sample_image : list Z := [100; 101; 120; 10; 48; 51; 53; 0; 1; 2; 3; 4].

Definition no_images : Images := MkImages empty_sys 0 [].

(** A runtime that opens every image. *)
Definition accept (_ : OpenCall) : Z * option string := (1, None).

Definition sample_syms : Syms := set_raw "OpenOne_" 1 no_syms.

Definition one_image : Images :=
  after_load kArm64 false (Some 65536) sample_image
    (MemoryDex (MkJavaDexFile (LongArray [0; 1]) (Some (LongArray [0; 1])) "" None false))
    (MkLoad (MkAllocator [] 65536 131072 65552 [MkArena 0 65536 65536]) 0
      (store (write_bytes (λ _, 0) 65536 sample_image) 8 65536 0)) no_images.

Lemma sample_mmap_ok n :
  map_length kArm64 (2 ^ 12) n = 65536 → mmap_ok kArm64 12 empty_sys (Some 65536) n.
Proof. intros Hn a [= <-]. cbn zeta. rewrite Hn. split_and!; [done|by exists 16|done|done|done]. Qed.

Lemma one_image_reachable :
  rtc (load_step kArm64 34 12 false "" sample_statics sample_syms 0 0) no_images one_image.
Proof.
  apply rtc_once.
  apply (load_one kArm64 34 12 false "" sample_statics sample_syms 0 0 no_images accept 0 (Some 65536) 0 sample_image).
  - done.
  - done.
  - repeat constructor; done.
  - by apply sample_mmap_ok.
  - by left.
  - done.
Qed.

Lemma sample_supported : supported_statics kArm64 34 sample_statics.
Proof. by split. Qed.

Lemma no_images_initial : images_initial kArm64 no_images.
Proof. split; [apply empty_sys_initial|done]. Qed.

Example images_intact_witness :
  read_bytes (bytes (sys one_image)) 65536 12 = [0; 0; 0; 0; 0; 0; 0; 0; 1; 2; 3; 4].
Proof.
  destruct (images_intact kArm64 34 12 false "" sample_statics sample_syms 0 0 no_images one_image ltac:(done)
    no_images_initial one_image_reachable) as [H _].
  apply (H 65536 [0; 0; 0; 0; 0; 0; 0; 0; 1; 2; 3; 4]). by left.
Defined.

Example OpenInMemoryHookerDex_witness :
  ∃ r st, load_image kArm64 34 false "" sample_statics sample_syms 0 0 accept 0 None 0x70000000 sample_image one_image
    = Some (r, st).
Proof.
  destruct (OpenInMemoryHookerDex_spec kArm64 34 12 false "" sample_statics sample_syms 0 0 no_images one_image
    accept 0 None 0x70000000 sample_image ltac:(done) no_images_initial one_image_reachable sample_supported eq_refl
    ltac:(done) ltac:(done) (mmap_none _ _ _ _)) as (r & st & E & _); [|done|by exists r, st].
  right. split_and!; [done|by exists 0xe000000|done|].
  intros a Ha. unfold regions. simpl. rewrite !cover_cons, cover_nil, (proj2 (covers_false a _)) by (simpl; lia). done.
Defined.
