(* ===== verification/Threads.v ===== *)
(** * Threads, references and suspension

    [art/runtime/handle.cxx], [art/mirror/unsafe.cxx], [art/runtime/thread.cxx],
    [art/runtime/thread_list.cxx], [art/runtime/gc/scoped_gc_critical_section.cxx],
    and the class conversions of [art/mirror/class.cxx] that use them. *)

From S2P Require Import Prelude Memory Platform HookHelper.

(** ** References and handles *)

(** [ObjectReference::Decompress]: the negation is of a [uint32_t]. *)
Definition Decompress (kPoisonReferences : bool) (ref : Z) : Z :=
  if kPoisonReferences then wrap 32 (- ref) else ref.

(** [Get] of [Handle] and [TrivialHandle], on the address of a [StackReference]. *)
Definition Handle_Get (m : mem) (reference_ : Z) : Z := Decompress false (load m 4 reference_).

(** [ReflectiveHandle::Get] and [Set]. *)
Definition ReflectiveHandle_Get (cur : Arch) (m : mem) (reference_ : Z) : Z :=
  load m (Z.to_nat (kPointerSize cur)) reference_.
Definition ReflectiveHandle_Set (cur : Arch) (m : mem) (reference_ val : Z) : mem :=
  store m (Z.to_nat (kPointerSize cur)) reference_ val.

(** ** [class Unsafe] *)

Record UnsafeStatics := MkUnsafe {
  the_unsafe_ref_ : Z;
  object_field_offset_method_ : Z;
  object_array_base_offset_ : Z;
  unsafe_get_int_method : Z;
  unsafe_put_int_method : Z
}.

Definition no_unsafe : UnsafeStatics := MkUnsafe 0 0 0 0 0.

(** What JNI answers to [Unsafe::Init]. *)
Record UnsafeLookups := {
  find_unsafe_class : Z;
  the_unsafe_field : Z;
  the_unsafe_value : Z;
  allocated_unsafe : Z;
  get_unsafe_method : string → string → Z;
  array_base_offset : Z
}.

(** [Unsafe::Init]; it never fails. *)
Definition Unsafe_Init (j : UnsafeLookups) (u : UnsafeStatics) : bool * UnsafeStatics :=
  if find_unsafe_class j =? 0 then (true, u)
  else
    let the_unsafe := if negb (the_unsafe_field j =? 0) then the_unsafe_value j else 0 in
    let the_unsafe := if the_unsafe =? 0 then allocated_unsafe j else the_unsafe in
    let field_offset := get_unsafe_method j "objectFieldOffset" "(Ljava/lang/reflect/Field;)J" in
    if negb (get_unsafe_method j "arrayBaseOffset" "(Ljava/lang/Class;)I" =? 0)
    then (true, MkUnsafe the_unsafe field_offset (array_base_offset j)
                  (get_unsafe_method j "getInt" "(Ljava/lang/Object;J)I")
                  (get_unsafe_method j "putInt" "(Ljava/lang/Object;JI)V"))
    else (true, MkUnsafe the_unsafe field_offset (object_array_base_offset_ u)
                  (unsafe_get_int_method u) (unsafe_put_int_method u)).

(** A [jint]. *)
Definition signed32 (z : Z) : Z :=
  let z := wrap 32 z in if z <? 2 ^ 31 then z else z - 2 ^ 32.

Section unsafe.
Context (cur : Arch) (u : UnsafeStatics).
(** The 32-bit reference an object array holds of an object, and the object a
    reference in an array is read back as. *)
Context (reference_of object_of : Z → Z).

(** [operator bool]. *)
Definition unsafe_ok : bool := negb (the_unsafe_ref_ u =? 0).

(** [GetObjectAddress]: [getInt] returns a [jint], cast to [uintptr_t]. *)
Definition GetObjectAddress (obj : Z) : Z :=
  if unsafe_get_int_method u =? 0 then 0
  else wrap (kPointerBits cur) (signed32 (reference_of obj)).

(** [NewLocalRef]: the address is cast to a [jint] for [putInt]. *)
Definition NewLocalRef (obj : Z) : Z :=
  if unsafe_put_int_method u =? 0 then 0 else object_of (wrap 32 (signed32 obj)).

(** [ObjectFieldOffset]; [offset] is what [objectFieldOffset] returns, a [jlong]. *)
Definition ObjectFieldOffset (offset : Z → Z) (field : Z) : Z :=
  if object_field_offset_method_ u =? 0 then 0 else wrap 32 (offset field).

Definition HasObjectFieldOffset : bool := negb (object_field_offset_method_ u =? 0).
End unsafe.

(** ** [class Thread] *)

Definition Thread_symbol (name : string) : Symbol :=
  Function name
  match name with
  | "CurrentFromGdb_" => "_ZN3art6Thread14CurrentFromGdbEv"
  | "Current_" => "_ZN3art6Thread7CurrentEv"
  | "JniDecodeReferenceResult_" => "_ZN3art24JniDecodeReferenceResultEP8_jobjectPNS_6ThreadE"
  | "DecodeGlobalJObject_" => "_ZNK3art6Thread19DecodeGlobalJObjectEP8_jobject"
  | "DecodeJObject_" => "_ZNK3art6Thread13DecodeJObjectEP8_jobject"
  | "AddLocalReference_" =>
      "_ZN3art9JNIEnvExt17AddLocalReferenceIP8_jobjectEET_NS_6ObjPtrINS_6mirror6ObjectEEE"
  | _ => ""
  end%string.

Definition kSlotArtThreadSelf (cur : Arch) : Z := if is_arch_v cur [kRiscv64] then -1 else 7.

Section thread.
Context (cur : Arch) (sdk_int : Z) (u : UnsafeStatics) (reference_of object_of : Z → Z).
(** The runtime's functions, and [NewWeakGlobalRef]. *)
Context (JniDecodeReferenceResult DecodeGlobalJObject DecodeJObject_fn new_weak add_local : Z → Z).

Definition thread_set (n : string) (s : Syms) : bool := symbol_set (Thread_symbol n) s.

Definition DecodeJObject (s : Syms) (obj : Z) : Z :=
  if obj =? 0 then 0
  else if thread_set "JniDecodeReferenceResult_" s then JniDecodeReferenceResult obj
  else if thread_set "DecodeGlobalJObject_" s && negb (new_weak obj =? 0)
  then DecodeGlobalJObject (new_weak obj)
  else if negb (is_arch_v cur [kX86]) && thread_set "DecodeJObject_" s then DecodeJObject_fn obj
  else if unsafe_ok u then GetObjectAddress cur u reference_of obj
  else 0.

Definition EncodeJObject (s : Syms) (obj : Z) : Z :=
  if thread_set "AddLocalReference_" s then add_local obj
  else if unsafe_ok u then NewLocalRef u object_of obj
  else 0.

(** [Class::FromReflectedClass] and [ToReflectedClass]. *)
Definition FromReflectedClass (s : Syms) (clazz : Z) : Z := DecodeJObject s clazz.
Definition ToReflectedClass (s : Syms) (mirror : Z) : Z := EncodeJObject s mirror.

(** [CurrentFromTLS], on the thread pointer. *)
Definition CurrentFromTLS (m : mem) (tls : Z) : Z :=
  load m (Z.to_nat (kPointerSize cur)) (tls + kSlotArtThreadSelf cur * kPointerSize cur).

(** [Current]; the runtime's functions have no arguments. *)
Definition Current (s : Syms) (from_gdb current : Z) (m : mem) (tls : Z) : Z :=
  if thread_set "CurrentFromGdb_" s then from_gdb
  else if thread_set "Current_" s then current
  else CurrentFromTLS m tls.

Context (info : InitInfo).
Abbreviation any := (HookHandler.any info).
Abbreviation one n := (HookHandler.One (Thread_symbol n)).

(** The functions that decode references. *)
Definition init_decode (s : Syms) : Syms :=
  let '(ok, s) := any [one "JniDecodeReferenceResult_"; one "DecodeGlobalJObject_"] s in
  if negb ok && negb (is_arch_v cur [kX86]) then (any [one "DecodeJObject_"] s).2 else s.

Definition Thread_Init (s : Syms) : bool * Syms :=
  let '(ok, s) := any [one "CurrentFromGdb_"] s in
  let '(ok, s) :=
    if ok then (true, s)
    else if __ANDROID_API_N__ <=? sdk_int then (true, s)
    else any [one "Current_"] s in
  if negb ok then (false, s) else (true, init_decode s).
End thread.

(** ** Suspension and GC sections *)

Definition Suspend_symbol (name : string) : Symbol :=
  Function name
  match name with
  | "SuspendAll.constructor_" => "_ZN3art16ScopedSuspendAllC2EPKcb"
  | "SuspendAll.destructor_" => "_ZN3art16ScopedSuspendAllD2Ev"
  | "SuspendVM_" => "_ZN3art3Dbg9SuspendVMEv"
  | "ResumeVM_" => "_ZN3art3Dbg8ResumeVMEv"
  | "GC.constructor_" =>
      "_ZN3art2gc23ScopedGCCriticalSectionC2EPNS_6ThreadENS0_7GcCauseENS0_13CollectorTypeE"
  | "GC.destructor_" => "_ZN3art2gc23ScopedGCCriticalSectionD2Ev"
  | _ => ""
  end%string.

(** What the library does to the runtime while threads are to be stopped;
    [Body] is the code inside the scopes. *)
Inductive Event : Type :=
  | SuspendAllConstructor | SuspendAllDestructor
  | SuspendVM | ResumeVM
  | GCConstructor | GCDestructor
  | Body.

#[global] Instance Event_eq_dec : EqDecision Event.
Proof. solve_decision. Defined.

Definition suspend_names : list string :=
  ["SuspendAll.constructor_"; "SuspendAll.destructor_"; "SuspendVM_"; "ResumeVM_";
   "GC.constructor_"; "GC.destructor_"]%string.

Definition suspend_set (n : string) (s : Syms) : bool := symbol_set (Suspend_symbol n) s.

(** [ScopedSuspendAll]: the constructor and the destructor. *)
Definition ScopedSuspendAll (s : Syms) : list Event :=
  if suspend_set "SuspendAll.constructor_" s then [SuspendAllConstructor]
  else if suspend_set "SuspendVM_" s then [SuspendVM] else [].
Definition ScopedSuspendAll_destroy (s : Syms) : list Event :=
  if suspend_set "SuspendAll.destructor_" s then [SuspendAllDestructor]
  else if suspend_set "ResumeVM_" s then [ResumeVM] else [].

Definition ScopedGCCriticalSection (s : Syms) : list Event :=
  if suspend_set "GC.constructor_" s then [GCConstructor] else [].
Definition ScopedGCCriticalSection_destroy (s : Syms) : list Event :=
  if suspend_set "GC.destructor_" s then [GCDestructor] else [].

(** The scopes of [DoHook], [DoUnHook], [MakeClassHidden] and
    [MakeClassVisible]; destructors run in reverse order. *)
Definition stopped_world (s : Syms) : list Event :=
  ScopedGCCriticalSection s ++ ScopedSuspendAll s ++ [Body] ++
  ScopedSuspendAll_destroy s ++ ScopedGCCriticalSection_destroy s.

Section suspend_init.
Context (info : InitInfo) (sdk_int : Z).
Abbreviation all := (HookHandler.all info).
Abbreviation one n := (HookHandler.One (Suspend_symbol n)).

Definition ScopedSuspendAll_Init (s : Syms) : bool * Syms :=
  let '(ok, s) := all [one "SuspendAll.constructor_"; one "SuspendAll.destructor_"] s in
  if ok then (true, s) else all [one "SuspendVM_"; one "ResumeVM_"] s.

Definition ScopedGCCriticalSection_Init (s : Syms) : bool * Syms :=
  if __ANDROID_API_N__ <=? sdk_int then
    let '(ok, s) := all [one "GC.constructor_"; one "GC.destructor_"] s in
    if negb ok then (false, s) else (true, s)
  else (true, s).
End suspend_init.

(** ** Class references *)

Section references.
Context (cur : Arch) (u : UnsafeStatics) (reference_of object_of : Z → Z).
Context (JniDecodeReferenceResult DecodeGlobalJObject DecodeJObject_fn new_weak add_local : Z → Z).
Abbreviation w := (kPointerBits cur).
Abbreviation From := (FromReflectedClass cur u reference_of JniDecodeReferenceResult DecodeGlobalJObject
  DecodeJObject_fn new_weak).
Abbreviation To := (ToReflectedClass u object_of add_local).

(** The reference of an object is 32 bits wide and read back as the object, and
    the runtime's functions decode the object to it and encode it back. *)
Record reference_ok (o : Z) : Prop := {
  reference_range : 0 <= reference_of o < 2 ^ 32;
  reference_object : object_of (reference_of o) = o;
  decode_result : JniDecodeReferenceResult o = reference_of o;
  decode_global : new_weak o ≠ 0 → DecodeGlobalJObject (new_weak o) = reference_of o;
  decode_jobject : DecodeJObject_fn o = reference_of o
}.

(** [Unsafe] has an instance and both methods. *)
Definition unsafe_usable : Prop :=
  the_unsafe_ref_ u ≠ 0 ∧ unsafe_get_int_method u ≠ 0 ∧ unsafe_put_int_method u ≠ 0.

(** Whether a function of the runtime decodes the object. *)
Definition decoded_by_runtime (s : Syms) (o : Z) : bool :=
  thread_set "JniDecodeReferenceResult_" s ||
  (thread_set "DecodeGlobalJObject_" s && negb (new_weak o =? 0)) ||
  (negb (is_arch_v cur [kX86]) && thread_set "DecodeJObject_" s).

Lemma FromReflectedClass_value s o :
  reference_ok o → unsafe_usable → o ≠ 0 →
  From s o = if decoded_by_runtime s o then reference_of o else wrap w (signed32 (reference_of o)).
Proof.
  intros [Hr Ho H1 H2 H3] (Hu & Hg & _) Hz. unfold FromReflectedClass, DecodeJObject, decoded_by_runtime.
  rewrite (proj2 (Z.eqb_neq o 0) Hz). destruct (thread_set "JniDecodeReferenceResult_" s); [apply H1|]. cbn [orb].
  destruct (thread_set "DecodeGlobalJObject_" s && negb (new_weak o =? 0)) eqn:E.
  { apply H2. apply andb_true_iff in E as [_ E]. apply negb_true_iff, Z.eqb_neq in E. done. }
  cbn [orb]. destruct (negb (is_arch_v cur [kX86]) && thread_set "DecodeJObject_" s); [apply H3|].
  unfold unsafe_ok, GetObjectAddress. by rewrite (proj2 (Z.eqb_neq _ 0) Hu), (proj2 (Z.eqb_neq _ 0) Hg).
Qed.

Lemma signed32_range z : 0 <= z < 2 ^ 32 → signed32 z = if z <? 2 ^ 31 then z else z - 2 ^ 32.
Proof. intros Hz. unfold signed32. by rewrite wrap_small. Qed.

Lemma kPointerBits_32_64 : w = 64 ∨ w = 32.
Proof. destruct (kPointerSize_cases cur) as [E|E]; unfold kPointerBits; rewrite E; lia. Qed.

Lemma wrap32_signed z : wrap 32 (signed32 (wrap w (signed32 z))) = wrap 32 z.
Proof.
  unfold signed32, wrap. change (2 ^ 31) with 2147483648. change (2 ^ 32) with 4294967296.
  destruct kPointerBits_32_64 as [-> | ->].
  - change (2 ^ 64) with 18446744073709551616. repeat case_match; dlia.
  - change (2 ^ 32) with 4294967296. repeat case_match; dlia.
Qed.

(** A class decoded to a pointer and encoded again is the same class, however
    it is decoded; the pointer is the class's address whenever a function of the
    runtime decodes it or the address is below 2 GB. *)
Theorem class_reference_roundtrip s c :
  reference_ok c → unsafe_usable → thread_set "AddLocalReference_" s = false → c ≠ 0 →
  To s (From s c) = c ∧
  (decoded_by_runtime s c = true ∨ reference_of c < 2 ^ 31 ∨ w = 32 → From s c = reference_of c).
Proof.
  intros Hok Hu Ha Hc. rewrite FromReflectedClass_value by done. pose proof Hok as [Hr Ho _ _ _].
  pose proof Hu as (Hz & _ & Hp). split.
  - unfold ToReflectedClass, EncodeJObject, unsafe_ok, NewLocalRef.
    rewrite Ha, (proj2 (Z.eqb_neq _ 0) Hz), (proj2 (Z.eqb_neq _ 0) Hp). cbn [negb].
    destruct (decoded_by_runtime s c).
    + rewrite <-Ho at 2. f_equal. rewrite signed32_range by done. destruct (Z.ltb_spec (reference_of c) (2 ^ 31)).
      * by apply wrap_small.
      * unfold wrap. symmetry. apply (Z.mod_unique_pos _ _ (-1)); lia.
    + by rewrite wrap32_signed, wrap_small, Ho.
  - intros Hd. destruct (decoded_by_runtime s c); [done|]. rewrite signed32_range by done.
    destruct Hd as [|[Hlt| ->]]; [done|..].
    + rewrite (proj2 (Z.ltb_lt _ _) Hlt). apply wrap_small. destruct kPointerBits_32_64 as [-> | ->]; lia.
    + destruct (Z.ltb_spec (reference_of c) (2 ^ 31)); [by apply wrap_small|].
      unfold wrap. symmetry. apply (Z.mod_unique_pos _ _ (-1)); lia.
Qed.

(** On a 64-bit architecture, a class at 2 GB or above that only [Unsafe] can
    decode gets a pointer that is not its address: the upper half is all ones. *)
Theorem unsafe_address_sign_extended s c :
  reference_ok c → unsafe_usable → c ≠ 0 → decoded_by_runtime s c = false →
  w = 64 → 2 ^ 31 <= reference_of c →
  From s c = reference_of c + (2 ^ 64 - 2 ^ 32) ∧ From s c ≠ reference_of c.
Proof.
  intros Hok Hu Hc Hd Hw Hge. rewrite FromReflectedClass_value, Hd by done. pose proof (reference_range _ Hok).
  rewrite signed32_range by done. rewrite (proj2 (Z.ltb_ge _ _) Hge), Hw.
  assert (wrap 64 (reference_of c - 2 ^ 32) = reference_of c + (2 ^ 64 - 2 ^ 32)) as ->.
  { unfold wrap. symmetry. apply (Z.mod_unique_pos _ _ (-1)); lia. }
  split; [done|lia].
Qed.
End references.

(** ** What the initializers establish *)

Section init_facts.
Context (info : InitInfo) (sdk_int : Z).
Abbreviation resolve t := (HookHandler.dlsym info (FixedStringOf t) false).

(** [all] on two functions looks the first up, and the second if the first was found. *)
Lemma all_two a b s :
  symbol_name (Suspend_symbol a) ≠ symbol_name (Suspend_symbol b) →
  let found t := negb (resolve t =? 0) in
  let '(ok, s') := HookHandler.all info [HookHandler.One (Suspend_symbol a); HookHandler.One (Suspend_symbol b)] s in
  ok = found (Suspend_symbol a) && found (Suspend_symbol b) ∧
  suspend_set a s' = found (Suspend_symbol a) ∧
  suspend_set b s' = (if found (Suspend_symbol a) then found (Suspend_symbol b) else suspend_set b s) ∧
  (∀ n, n ≠ a → n ≠ b → suspend_set n s' = suspend_set n s).
Proof.
  intros Hab. simpl in Hab. cbn zeta. unfold suspend_set.
  unfold HookHandler.all, HookHandler.handle_arg, HookHandler.handle, Suspend_symbol, FixedStringOf, symbol_set.
  set (va := HookHandler.dlsym _ _ _). 
  destruct (negb (va =? 0)) eqn:Ea; simpl.
  - set (vb := HookHandler.dlsym info _ _). destruct (negb (vb =? 0)) eqn:Eb; simpl;
      rewrite !HookHandler.get_raw_set, !String.eqb_refl; (destruct (String.eqb_spec b a); [congruence|]);
      rewrite ?Ea, ?Eb; split_and!; try done; intros k Hka Hkb;
      rewrite !HookHandler.get_raw_set; (destruct (String.eqb_spec b k); [congruence|]);
      (destruct (String.eqb_spec a k); [congruence|]); done.
  - rewrite !HookHandler.get_raw_set, !String.eqb_refl. (destruct (String.eqb_spec a b); [congruence|]).
    rewrite Ea. split_and!; try done. intros k Hka Hkb. rewrite HookHandler.get_raw_set.
    by destruct (String.eqb_spec a k); [congruence|].
Qed.

(** No symbol of the two scopes is set. *)
Definition suspend_unset (s : Syms) : Prop := Forall (λ n, suspend_set n s = false) suspend_names.

Lemma suspend_name_in n : bool_decide (n ∈ suspend_names) = true → n ∈ suspend_names.
Proof. apply bool_decide_eq_true. Qed.

(** The suspension and its end are the same pair of functions. *)
Definition matched (s : Syms) : Prop :=
  (ScopedSuspendAll s = [SuspendAllConstructor] ∧ ScopedSuspendAll_destroy s = [SuspendAllDestructor]) ∨
  (ScopedSuspendAll s = [SuspendVM] ∧ ScopedSuspendAll_destroy s = [ResumeVM]).

(** The runtime has the constructor of [art::ScopedSuspendAll], but not the destructor. *)
Definition half_found : bool :=
  negb (resolve (Suspend_symbol "SuspendAll.constructor_") =? 0) &&
  (resolve (Suspend_symbol "SuspendAll.destructor_") =? 0).

Lemma ScopedSuspendAll_Init_spec s :
  suspend_unset s →
  let '(ok, s') := ScopedSuspendAll_Init info s in
  ok = true →
  if half_found then ScopedSuspendAll s' = [SuspendAllConstructor] ∧ ScopedSuspendAll_destroy s' = [ResumeVM]
  else matched s'.
Proof.
  intros Hs0. assert (∀ n, n ∈ suspend_names → suspend_set n s = false) as Hs by (by apply Forall_forall).
  unfold ScopedSuspendAll_Init, half_found, matched, ScopedSuspendAll, ScopedSuspendAll_destroy.
  pose proof (all_two "SuspendAll.constructor_" "SuspendAll.destructor_" s ltac:(done)) as H1.
  destruct (HookHandler.all _ _ _) as [ok1 s1]. destruct H1 as (-> & Hc & Hd & Ho).
  rewrite (Hs "SuspendAll.destructor_"%string) in Hd by (by apply suspend_name_in).
  destruct (negb (resolve (Suspend_symbol "SuspendAll.constructor_") =? 0)) eqn:Ec; cbn [andb].
  - destruct (Z.eqb_spec (resolve (Suspend_symbol "SuspendAll.destructor_")) 0) as [E|E]; cbn [negb] in *.
    + pose proof (all_two "SuspendVM_" "ResumeVM_" s1 ltac:(done)) as H2.
      destruct (HookHandler.all _ _ _) as [ok2 s2]. destruct H2 as (-> & Hv & Hr & Ho2). intros [Hf1 Hf2]%andb_true_iff.
      rewrite (Ho2 "SuspendAll.constructor_"%string), (Ho2 "SuspendAll.destructor_"%string) by done.
      rewrite Hc, Hd, Hr, Hf1, Hf2. done.
    + intros _. left. by rewrite Hc, Hd.
  - pose proof (all_two "SuspendVM_" "ResumeVM_" s1 ltac:(done)) as H2.
    destruct (HookHandler.all _ _ _) as [ok2 s2]. destruct H2 as (-> & Hv & Hr & Ho2). intros [Hf1 Hf2]%andb_true_iff.
    right. rewrite (Ho2 "SuspendAll.constructor_"%string), (Ho2 "SuspendAll.destructor_"%string) by done.
    rewrite Hc, Hd, Hv, Hr, Hf1, Hf2. done.
Qed.

(** What [stopped_world] is after the two initializers: the code runs inside one
    suspension that the matching function ends, and inside one GC section from
    Android 7 on; unless the runtime has the constructor of [art::ScopedSuspendAll]
    but not its destructor: then threads suspended by the constructor are resumed
    by [Dbg::ResumeVM]. *)
Definition world_ready (s : Syms) : Prop :=
  let gc l := if __ANDROID_API_N__ <=? sdk_int then [GCConstructor] ++ l ++ [GCDestructor] else l in
  if half_found then stopped_world s = gc [SuspendAllConstructor; Body; ResumeVM]
  else stopped_world s = gc [SuspendAllConstructor; Body; SuspendAllDestructor] ∨
       stopped_world s = gc [SuspendVM; Body; ResumeVM].

Lemma suspension_ready s s' s'' :
  suspend_unset s →
  ScopedSuspendAll_Init info s = (true, s') → ScopedGCCriticalSection_Init info sdk_int s' = (true, s'') →
  world_ready s''.
Proof.
  intros Hs0 E1 E2. assert (∀ n, n ∈ suspend_names → suspend_set n s = false) as Hs by (by apply Forall_forall).
  pose proof (ScopedSuspendAll_Init_spec s Hs0) as H1. rewrite E1 in H1. specialize (H1 eq_refl).
  assert ((∀ n, n ≠ "GC.constructor_"%string → n ≠ "GC.destructor_"%string → suspend_set n s'' = suspend_set n s') ∧
    ScopedGCCriticalSection s'' = (if __ANDROID_API_N__ <=? sdk_int then [GCConstructor] else []) ∧
    ScopedGCCriticalSection_destroy s'' = (if __ANDROID_API_N__ <=? sdk_int then [GCDestructor] else [])) as (Ho & Hgc & Hgd).
  { assert (∀ n, n = "GC.constructor_"%string ∨ n = "GC.destructor_"%string → suspend_set n s' = false) as Hz.
    { intros n Hn. unfold ScopedSuspendAll_Init in E1.
      pose proof (all_two "SuspendAll.constructor_" "SuspendAll.destructor_" s ltac:(done)) as H3.
      destruct (HookHandler.all _ _ _) as [o1 s1]. destruct H3 as (_ & _ & _ & Ho1).
      pose proof (all_two "SuspendVM_" "ResumeVM_" s1 ltac:(done)) as H4.
      destruct o1; [simplify_eq; rewrite Ho1; [by apply Hs, suspend_name_in; destruct Hn as [-> | ->]|by destruct Hn as [-> | ->]..]|].
      rewrite E1 in H4. destruct H4 as (_ & _ & _ & Ho2).
      rewrite Ho2, Ho1; [by apply Hs, suspend_name_in; destruct Hn as [-> | ->]|by destruct Hn as [-> | ->]..]. }
    unfold ScopedGCCriticalSection_Init, ScopedGCCriticalSection, ScopedGCCriticalSection_destroy in *.
    destruct (__ANDROID_API_N__ <=? sdk_int); [|simplify_eq; by rewrite !Hz by auto].
    pose proof (all_two "GC.constructor_" "GC.destructor_" s' ltac:(done)) as H3.
    destruct (HookHandler.all _ _ _) as [o1 s1]. destruct H3 as (-> & Hc & Hd & Ho1).
    destruct (negb _ && negb _) eqn:Hf; [|by simplify_eq]. simpl in E2. simplify_eq.
    apply andb_true_iff in Hf as [Hf1 Hf2]. rewrite Hc, Hd, Hf1, Hf2. done. }
  unfold world_ready, stopped_world. rewrite Hgc, Hgd. unfold matched, ScopedSuspendAll, ScopedSuspendAll_destroy in *.
  rewrite (Ho "SuspendAll.constructor_"%string), (Ho "SuspendAll.destructor_"%string),
    (Ho "SuspendVM_"%string), (Ho "ResumeVM_"%string) by done.
  destruct half_found.
  - destruct H1 as [-> ->]. by destruct (_ <=? _).
  - destruct H1 as [[-> ->]|[-> ->]]; [left|right]; by destruct (_ <=? _).
Qed.
End init_facts.

Section thread_facts.
Context (cur : Arch) (sdk_int : Z) (info : InitInfo).
Abbreviation resolve n := (HookHandler.dlsym info (FixedStringOf (Thread_symbol n)) false).

(** Looking one symbol up. *)
Lemma any_one n s :
  HookHandler.any info [HookHandler.One (Thread_symbol n)] s =
  (negb (resolve n =? 0), set_raw n (resolve n) s).
Proof. simpl. by destruct (negb _). Qed.

Lemma thread_set_raw n k v s :
  thread_set n (set_raw k v s) = if String.eqb k n then negb (v =? 0) else thread_set n s.
Proof.
  unfold thread_set, symbol_set, Thread_symbol. rewrite HookHandler.get_raw_set. by destruct (String.eqb k n).
Qed.

Lemma init_decode_current n s :
  n = "CurrentFromGdb_"%string ∨ n = "Current_"%string →
  thread_set n (init_decode cur info s) = thread_set n s.
Proof.
  intros Hn. unfold init_decode. simpl.
  repeat case_match; simplify_eq/=; rewrite ?thread_set_raw; by destruct Hn as [-> | ->].
Qed.

(** After [Thread::Init] succeeded the current thread is found: by a function
    of the runtime, or, from Android 7 on, in the thread's own storage; before
    Android 7 it fails when neither function is there. *)
Lemma Thread_Init_spec s from_gdb current m tls :
  (∀ n, thread_set n s = false) →
  let '(ok, s') := Thread_Init cur sdk_int info s in
  ok = negb (resolve "CurrentFromGdb_" =? 0) || (__ANDROID_API_N__ <=? sdk_int) || negb (resolve "Current_" =? 0) ∧
  (ok = true →
   Current cur s' from_gdb current m tls =
     if negb (resolve "CurrentFromGdb_" =? 0) then from_gdb
     else if __ANDROID_API_N__ <=? sdk_int then CurrentFromTLS cur m tls else current).
Proof.
  intros Hs. unfold Thread_Init, Current. rewrite any_one.
  destruct (negb (resolve "CurrentFromGdb_" =? 0)) eqn:Eg; cbn [orb negb].
  - split; [done|]. intros _. by rewrite !init_decode_current, thread_set_raw, String.eqb_refl, Eg by auto.
  - destruct (__ANDROID_API_N__ <=? sdk_int); cbn [orb negb].
    + split; [done|]. intros _. rewrite (init_decode_current "CurrentFromGdb_"), (init_decode_current "Current_") by auto.
      rewrite !thread_set_raw, String.eqb_refl, Eg. by rewrite Hs.
    + rewrite any_one. destruct (negb (resolve "Current_" =? 0)) eqn:Ec; cbn [negb]; [|done].
      split; [done|]. intros _. rewrite (init_decode_current "CurrentFromGdb_"), (init_decode_current "Current_") by auto.
      rewrite !thread_set_raw, !String.eqb_refl.
      change (String.eqb "Current_" "CurrentFromGdb_") with false. by rewrite Eg, Ec.
Qed.
End thread_facts.

(** ** Concrete instances *)

Definition sample_unsafe : UnsafeStatics := MkUnsafe 1 2 12 3 4.

(** The object 0xA0000000 is its own reference. *)
Lemma sample_reference (f : Z → Z) (Hf : f = (λ o, o)) : reference_ok f f f f f f 0xA0000000.
Proof. subst f. by split. Qed.

Example class_reference_roundtrip_witness :
  ToReflectedClass sample_unsafe (λ o, o) (λ o, o) no_syms
    (FromReflectedClass kArm64 sample_unsafe (λ o, o) (λ o, o) (λ o, o) (λ o, o) (λ o, o) no_syms 0xA0000000) = 0xA0000000.
Proof.
  apply (class_reference_roundtrip kArm64 sample_unsafe (λ o, o) (λ o, o) (λ o, o) (λ o, o) (λ o, o) (λ o, o) (λ o, o)
    no_syms 0xA0000000 (sample_reference _ eq_refl)); done.
Defined.

Example unsafe_address_sign_extended_witness :
  FromReflectedClass kArm64 sample_unsafe (λ o, o) (λ o, o) (λ o, o) (λ o, o) (λ o, o) no_syms 0xA0000000 = 0xFFFFFFFFA0000000.
Proof.
  apply (unsafe_address_sign_extended kArm64 sample_unsafe (λ o, o) (λ o, o) (λ o, o) (λ o, o) (λ o, o) (λ o, o)
    no_syms 0xA0000000 (sample_reference _ eq_refl)); done.
Defined.
