(* ===== verification/LibraryInit.v ===== *)
(** * Initialization of the library

    [lsplant.cc]: [InitConfig], [InitNative] and [Init].  The initializers of
    the components run in the order of the source on the state [Native]; what
    the runtime and JNI answer is the record [NativeEnv]. *)

From S2P Require Import Prelude Memory Platform HookHelper.
From S2P Require Import ArtMethod ArtMethodInit Trampoline Vm MirrorClass ClassLinker Instrumentation.
From S2P Require Import Jit Stack Runtime ObjectCollections Reflection Threads DexFile.
From Stdlib Require Import String.

(** ** [InitConfig] *)

(** The names of [InitInfo]. *)
Record Names := MkNames {
  info_class_name : string;
  info_source_name : string;
  info_field_name : string;
  info_method_name : string
}.

(** The global strings. *)
Record Generated := MkGenerated {
  generated_class_name : string;
  generated_source_name : string;
  generated_field_name : string;
  generated_method_name : string;
  generated_native_field_name : string
}.

Definition no_names : Generated := MkGenerated "" "" "" "" "".

Definition empty (s : string) : bool := String.eqb s "".

Definition InitConfig (info : Names) (g : Generated) : bool * Generated :=
  if empty (info_class_name info) then (false, g)
  else if empty (info_field_name info) then (false, g)
  else if empty (info_method_name info) then (false, g)
  else
    let g := MkGenerated (info_class_name info) (info_source_name info) (generated_field_name g)
               (info_method_name info) (generated_native_field_name g) in
    let with_field f n :=
      MkGenerated (generated_class_name g) (generated_source_name g) f (generated_method_name g) n in
    if empty (generated_native_field_name g) then
      (true, with_field (info_field_name info) (info_field_name info ++ "$native")%string)
    else if negb (String.eqb (generated_native_field_name g) (info_field_name info)) then
      (true, with_field (info_field_name info) (generated_native_field_name g))
    else (true, g).

(** ** [InitNative] *)

(** What the initializers are answered. *)
Record NativeEnv := {
  unsafe_lookups : UnsafeLookups;
  art_env : InitEnv;
  replace_of : string → Z;
  vm_probe : VMRuntimeProbe;
  class_offset_of : string → Z;
  java_vm : Z;
  fake_runtime : Z;
  set_debug_state : Z → Z → mem → mem;
  runtime_memory : mem;
  RegisterNatives_fn : Z;
  UnregisterNatives_fn : Z;
  optimized_code : Z;
  dex_lookups : DexLookups;
  fill_method : Z;
  fill_replace : Z
}.

(** The static state of the components. *)
Record Native := MkNative {
  syms : Syms;
  unsafe : UnsafeStatics;
  art_config : option Config;
  trampoline_bytes : list Z;
  class_statics : option (Z * (Z * Z * Z));
  runtime_offsets : option (Z * Z);
  dex_statics : DexStatics;
  methods : Methods;
  java_debug_state : option RuntimeDebugState
}.

Definition with_syms (s : Syms) (n : Native) : Native :=
  MkNative s (unsafe n) (art_config n) (trampoline_bytes n) (class_statics n) (runtime_offsets n)
    (dex_statics n) (methods n) (java_debug_state n).
Definition with_unsafe (u : UnsafeStatics) (n : Native) : Native :=
  MkNative (syms n) u (art_config n) (trampoline_bytes n) (class_statics n) (runtime_offsets n)
    (dex_statics n) (methods n) (java_debug_state n).
Definition with_art (c : Config) (t : list Z) (n : Native) : Native :=
  MkNative (syms n) (unsafe n) (Some c) t (class_statics n) (runtime_offsets n)
    (dex_statics n) (methods n) (java_debug_state n).
Definition with_class (c : option (Z * (Z * Z * Z))) (n : Native) : Native :=
  MkNative (syms n) (unsafe n) (art_config n) (trampoline_bytes n) c (runtime_offsets n)
    (dex_statics n) (methods n) (java_debug_state n).
Definition with_runtime (r : option (Z * Z)) (n : Native) : Native :=
  MkNative (syms n) (unsafe n) (art_config n) (trampoline_bytes n) (class_statics n) r
    (dex_statics n) (methods n) (java_debug_state n).
Definition with_dex (d : DexStatics) (n : Native) : Native :=
  MkNative (syms n) (unsafe n) (art_config n) (trampoline_bytes n) (class_statics n)
    (runtime_offsets n) d (methods n) (java_debug_state n).
Definition with_methods (h : Methods) (n : Native) : Native :=
  MkNative (syms n) (unsafe n) (art_config n) (trampoline_bytes n) (class_statics n)
    (runtime_offsets n) (dex_statics n) h (java_debug_state n).
Definition with_debug_state (d : RuntimeDebugState) (n : Native) : Native :=
  MkNative (syms n) (unsafe n) (art_config n) (trampoline_bytes n) (class_statics n)
    (runtime_offsets n) (dex_statics n) (methods n) (Some d).

Section native.
Context (cur : Arch) (sdk_int : Z) (info : InitInfo) (e : NativeEnv).

(** An initializer that only uses symbols. *)
Definition on_syms (f : Syms → bool * Syms) (n : Native) : bool * Native :=
  let '(ok, s) := f (syms n) in (ok, with_syms s n).

Definition java_debuggable : bool := IsJavaDebuggable sdk_int (vm_probe e).

(** The steps of [InitNative], each with the result that lets the next one run. *)
Definition step_unsafe (n : Native) : bool * Native :=
  let '(ok, u) := Unsafe_Init (unsafe_lookups e) (unsafe n) in (ok, with_unsafe u n).

(** [ArtMethod::Init], then the entry-point offset goes into [trampoline]. *)
Definition step_art_method (n : Native) : bool * Native :=
  match ArtMethodInit.Init cur sdk_int (art_env e) with
  | None => (false, n)
  | Some c =>
      (true, with_art c
        (UpdateTrampoline (trampoline_bytes n) (trampoline_entry_point_offset cur)
           (entry_point_offset c mod 256)) n)
  end.

Definition step_class (n : Native) : bool * Native :=
  let '(r, s) := Class.Init info (replace_of e) sdk_int
    (unsafe_ok (unsafe n) && HasObjectFieldOffset (unsafe n)) (object_array_base_offset_ (unsafe n))
    (class_offset_of e) (syms n) in
  (bool_decide (is_Some r), with_class r (with_syms s n)).

Definition step_runtime (n : Native) : bool * Native :=
  let '(r, s) := Runtime_Init cur info sdk_int (java_vm e) (fake_runtime e) (set_debug_state e)
    (runtime_memory e) (syms n) in
  (bool_decide (is_Some r), with_runtime r (with_syms s n)).

Definition step_dex_file (n : Native) : bool * Native :=
  let '(ok, d, s) := DexFile_Init cur sdk_int info (dex_lookups e) (dex_statics n) (syms n) in
  (ok, with_dex d (with_syms s n)).

Definition step_stack (n : Native) : bool * Native :=
  let '(ok, s, h) := StackVisitor_Init info (replace_of e) sdk_int (fill_method e) (fill_replace e)
    (methods n) (syms n) in
  (ok, with_methods h (with_syms s n)).

(** The order of the source. *)
Definition native_steps : list (Native → bool * Native) :=
  [ step_unsafe;
    step_art_method;
    on_syms (Thread_Init cur sdk_int info);
    on_syms (Instrumentation.Init info (replace_of e) sdk_int java_debuggable);
    step_class;
    step_runtime;
    on_syms (ClassLinker.Init cur info (replace_of e) sdk_int (RegisterNatives_fn e)
               (UnregisterNatives_fn e) (optimized_code e));
    on_syms (ScopedSuspendAll_Init info);
    on_syms (ScopedGCCriticalSection_Init info sdk_int);
    on_syms (JitCodeCache_Init info (replace_of e) sdk_int);
    on_syms (Jit_Init info (replace_of e) sdk_int);
    step_dex_file;
    on_syms (JniIdManager_Init info (replace_of e) sdk_int java_debuggable);
    step_stack ].

(** Runs steps until one fails. *)
Fixpoint run_steps (l : list (Native → bool * Native)) (n : Native) : bool * Native :=
  match l with
  | [] => (true, n)
  | f :: l => let '(ok, n) := f n in if negb ok then (false, n) else run_steps l n
  end.

(** [InitNative]; the runtime is made non-debuggable last. *)
Definition InitNative (n : Native) : bool * Native :=
  let '(ok, n) := run_steps native_steps n in
  if negb ok then (false, n)
  else if java_debuggable then (true, with_debug_state kNonJavaDebuggable n) else (true, n).
End native.

(** ** [Init] *)

(** The answers to [InitJNI]. *)
Record JniEnv := {
  jni_class : string → Z;
  jni_super : Z → Z;
  jni_method : Z → string → string → Z;
  jni_static_method : Z → string → string → Z;
  jni_field : Z → string → string → Z;
  jni_type_field : Z → Z
}.

(** [kInitialized] and the state of the library. *)
Record Library := MkLibrary {
  kInitialized : option bool;
  names : Generated;
  jni : Jni;
  native : Native
}.

(** [global_references.finalize]. *)
Definition finalize_references (j : Jni) : Jni :=
  mkJni (vars j) (indices j) (ObjectList.finalize (global_references j)).

(** [Init]: [has_hooker] and [has_resolver] tell whether the two functions
    [InitInfo] must have are set; [None] where [InitJNI] is undefined. *)
Definition Init (cur : Arch) (sdk_int : Z) (has_hooker has_resolver : bool) (info : InitInfo) (n : Names)
    (je : JniEnv) (e : NativeEnv) (l : Library) : option (bool * Library) :=
  match kInitialized l with
  | Some true =>
      let '(ok, g) := InitConfig n (names l) in
      Some (ok, MkLibrary (kInitialized l) g (jni l) (native l))
  | Some false => Some (false, l)
  | None =>
      if negb has_hooker || negb has_resolver then Some (false, l)
      else
        let '(ok, g) := InitConfig n (names l) in
        if negb ok then Some (false, MkLibrary (Some false) g (jni l) (native l))
        else
          '(ok, j) ← InitJNI (jni_class je) (jni_super je) (jni_method je) (jni_static_method je)
                       (jni_field je) (jni_type_field je) sdk_int (jni l);
          if negb ok then Some (false, MkLibrary (Some false) g j (native l))
          else
            let '(ok, nt) := InitNative cur sdk_int info e (native l) in
            if negb ok then Some (false, MkLibrary (Some false) g j nt)
            else Some (true, MkLibrary (Some true) g (finalize_references j) nt)
  end.

(** ** The symbols each initializer uses *)

Definition thread_names : list string :=
  ["CurrentFromGdb_"; "Current_"; "JniDecodeReferenceResult_"; "DecodeGlobalJObject_"; "DecodeJObject_"].
Definition instrumentation_names : list string :=
  ["UpdateMethodsCodeImpl_"; "UpdateMethodsCode_"; "UpdateMethodsCodeWithProtableCode_";
   "ReinitializeMethodsCode_"; "InitializeMethodsCode_"; "UpdateMethodsCodeToInterpreterEntryPoint_"].
Definition class_names : list string :=
  ["GetClassDef_"; "SetStatus_"; "ClassSetStatus_"; "SetClassStatus_"; "TrivialSetStatus_"].
Definition runtime_names : list string := ["instance_"; "SetRuntimeDebugState_"; "SetJavaDebuggable_"].
Definition class_linker_names : list string :=
  ["ShouldUseInterpreterEntrypoint_"; "RegisterNativeClassLinker_"; "UnregisterNativeClassLinker_";
   "RegisterNative_"; "UnregisterNative_"; "RegisterNativeFast_"; "UnregisterNativeFast_";
   "RegisterNativeThread_"; "UnregisterNativeThread_"; "RegisterNativesJNIEnv_"; "UnregisterNativesJNIEnv_";
   "FixupStaticTrampolines_"; "FixupStaticTrampolinesRaw_"; "FixupStaticTrampolinesWithThread_";
   "AdjustThreadVisibilityCounter_"; "MarkVisiblyInitialized_"; "SetEntryPointsToInterpreter_";
   "art_quick_to_interpreter_bridge_"; "GetOptimizedCodeFor_"].
Definition code_cache_names : list string := ["MoveObsoleteMethod_"; "GarbageCollectCache_"; "DoCollection_"].
Definition jit_names : list string := ["EnqueueOptimizedCompilation_"; "AddCompileTask_"; "MapBootImageMethods_"].
Definition jni_id_names : list string := ["DecodeMethodId_"; "EncodeGenericId_"].
Definition dex_names : list string :=
  ["DexFile_setTrusted_"; "DexFileLoader_constructor_"; "DexFileLoader_destructor_"] ++ open_names.
Definition stack_names : list string :=
  ["GetMethod_"; "SetMethod_"; "GetDexPc_"; "VisitFrameFetchStackTrace_"; "VisitFrameBuildInternalStackTrace_";
   "VisitFrameBuildInternalStackTraceTransactionActive_"; "VisitFrameBuildInternalStackTraceTransactionInactive_";
   "VisitFrameMonitorObjects_"; "VisitFrameStackDump_"; "VisitFrameNthCaller_"; "VisitFrameClosestUserClassLoader_"].

Section frames.
Context (cur : Arch) (sdk_int : Z) (info : InitInfo) (replace_of : string → Z) (debuggable : bool).
Implicit Types s : Syms.
Abbreviation agree_off := HookHandler.agree_off.

Ltac frame L := repeat first [frame_step L | case_match]; simplify_eq; frame_chain.

Lemma thread_frame s : agree_off thread_names s (Thread_Init cur sdk_int info s).2.
Proof. unfold Thread_Init, init_decode. frame thread_names. Qed.

Lemma instrumentation_frame s :
  agree_off instrumentation_names s (Instrumentation.Init info replace_of sdk_int debuggable s).2.
Proof. unfold Instrumentation.Init. frame instrumentation_names. Qed.

Lemma class_frame a b c s : agree_off class_names s (Class.Init info replace_of sdk_int a b c s).2.
Proof. unfold Class.Init. frame class_names. Qed.

Lemma runtime_frame vm fake set m s : agree_off runtime_names s (Runtime_Init cur info sdk_int vm fake set m s).2.
Proof. unfold Runtime_Init. frame runtime_names. Qed.

Lemma suspend_frame s : agree_off suspend_names s (ScopedSuspendAll_Init info s).2.
Proof. unfold ScopedSuspendAll_Init. frame suspend_names. Qed.

Lemma gc_frame s : agree_off suspend_names s (ScopedGCCriticalSection_Init info sdk_int s).2.
Proof. unfold ScopedGCCriticalSection_Init. frame suspend_names. Qed.

Lemma code_cache_frame s : agree_off code_cache_names s (JitCodeCache_Init info replace_of sdk_int s).2.
Proof. unfold JitCodeCache_Init. frame code_cache_names. Qed.

Lemma jit_frame s : agree_off jit_names s (Jit_Init info replace_of sdk_int s).2.
Proof. unfold Jit_Init. frame jit_names. Qed.

Lemma jni_id_frame s : agree_off jni_id_names s (JniIdManager_Init info replace_of sdk_int debuggable s).2.
Proof. unfold JniIdManager_Init. frame jni_id_names. Qed.

(** The parts of [ClassLinker::Init]. *)
Abbreviation linker_symbol n := (HookHandler.One (ClassLinker_symbol cur replace_of n)).

Lemma first_pair_frame l s :
  forallb (λ hooks, HookHandler.names_in (HookHandler.names hooks) class_linker_names) l = true →
  agree_off class_linker_names s (first_pair info l s).2.
Proof.
  revert s. induction l as [|hooks l IH]; intros s; simpl; [intros _; apply HookHandler.agree_off_refl|].
  intros [Hh Hl]%andb_prop.
  pose proof (HookHandler.agree_off_in _ _ _ _ Hh (HookHandler.all_agree info hooks s)) as Hs.
  destruct (HookHandler.all info hooks s) as [[] s']; [done|].
  eapply HookHandler.agree_off_trans; [exact Hs|by apply IH].
Qed.

Lemma fixups_frame s : agree_off class_linker_names s (init_fixups cur info replace_of sdk_int s).2.
Proof. unfold init_fixups. frame class_linker_names. Qed.

Lemma bridge_frame o s : agree_off class_linker_names s (init_bridge cur info replace_of sdk_int o s).
Proof. unfold init_bridge. frame class_linker_names. Qed.

Lemma class_linker_frame r u o s :
  agree_off class_linker_names s (ClassLinker.Init cur info replace_of sdk_int r u o s).2.
Proof.
  unfold ClassLinker.Init. set (s0 := if _ && _ then _ else s).
  assert (agree_off class_linker_names s s0) by (unfold s0; frame class_linker_names). clearbody s0.
  pose proof (first_pair_frame (register_natives cur replace_of r u) s0 eq_refl).
  destruct (first_pair _ _ s0) as [[] s1]; cbn [negb]; [|frame_chain].
  pose proof (fixups_frame s1). destruct (init_fixups _ _ _ _ s1) as [? s2].
  set (q := if sdk_int <? __ANDROID_API_T__ then _ else _).
  assert (agree_off class_linker_names s2 q.2) by (unfold q; frame class_linker_names).
  destruct q as [[] s3]; [frame_chain|].
  pose proof (bridge_frame o s3). frame_chain.
Qed.

(** The parts of [StackVisitor::Init]. *)
Lemma init_methods_frame s : agree_off stack_names s (init_methods info replace_of sdk_int s).
Proof. unfold init_methods. frame stack_names. Qed.

Lemma hook_stack_trace_frame s : agree_off stack_names s (hook_stack_trace info replace_of sdk_int s).2.
Proof. unfold hook_stack_trace. frame stack_names. Qed.

Lemma stack_frame f r h s : agree_off stack_names s (StackVisitor_Init info replace_of sdk_int f r h s).1.2.
Proof.
  unfold StackVisitor_Init.
  pose proof (init_methods_frame s). set (s1 := init_methods _ _ _ _) in *. clearbody s1.
  pose proof (hook_stack_trace_frame s1). destruct (hook_stack_trace _ _ _ s1) as [[] s2]; cbn [negb].
  - frame stack_names.
  - repeat case_match; frame_chain.
Qed.

(** The parts of [DexFile::Init]. *)
Lemma trusted_frame j c d s : agree_off dex_names s (init_trusted cur sdk_int info j c d s).2.
Proof. unfold init_trusted. frame dex_names. Qed.

Lemma open_frame s : agree_off dex_names s (init_open cur sdk_int info s).2.
Proof. unfold init_open. frame dex_names. Qed.

Lemma dex_frame j d s : agree_off dex_names s (DexFile_Init cur sdk_int info j d s).2.
Proof.
  unfold DexFile_Init. set (c := find_class _ _). set (d0 := set_class _ _).
  pose proof (trusted_frame j c d0 s). destruct (init_trusted _ _ _ _ _ _ s) as [d1 s1].
  pose proof (open_frame s1). destruct (init_open _ _ _ s1) as [r s2].
  repeat case_match; simplify_eq; frame_chain.
Qed.
End frames.

(** ** Each initializer works on its own symbols *)

Section locality.
Context (cur : Arch) (sdk_int : Z) (info : InitInfo) (replace_of : string → Z) (debuggable : bool).
Implicit Types s : Syms.
Abbreviation local_init := HookHandler.local_init.
Abbreviation agree_on := HookHandler.agree_on.

(** Both runs take the same branch of a test of the version or architecture. *)
Ltac test_step :=
  match goal with
  | |- context [if negb (?a <=? ?b) then _ else _] => destruct (a <=? b); cbn [negb]
  | |- context [if ?a <=? ?b then _ else _] => destruct (a <=? b)
  | |- context [if ?a <? ?b then _ else _] => destruct (a <? b)
  | |- context [if is_arch_v ?a ?b then _ else _] => destruct (is_arch_v a b)
  | |- context [if ?a || ?b then _ else _] => is_var a; is_var b; destruct (a || b)
  | |- context [if ?a && (?b <=? ?c) then _ else _] => destruct (a && (b <=? c))
  | |- context [if (?b <=? ?c) && ?a then _ else _] => destruct ((b <=? c) && a)
  end.
Ltac locally := intros s s' Hon; repeat (test_step || local_step; cbn [fst snd negb orb andb]); try by eexists _, _, _.

Lemma instrumentation_local L : local_init L (Instrumentation.Init info replace_of sdk_int debuggable).
Proof. unfold Instrumentation.Init. destruct debuggable; locally. Qed.

Lemma class_local L a b c : local_init L (Class.Init info replace_of sdk_int a b c).
Proof. unfold Class.Init. locally. Qed.

Lemma runtime_local vm fake set m : local_init runtime_names (Runtime_Init cur info sdk_int vm fake set m).
Proof.
  unfold Runtime_Init. intros s s' H. local_step.
  assert (get_raw t "instance_" = get_raw t0 "instance_") as -> by (symmetry; apply Hon; set_solver).
  destruct (negb ok || _); [by eexists _, _, _|].
  destruct (__ANDROID_API_O__ <=? sdk_int); [local_step|]; cbv beta iota zeta.
  - destruct ok0; cbn [negb]; [|by eexists _, _, _].
    assert (get_raw t1 "SetRuntimeDebugState_" = get_raw t2 "SetRuntimeDebugState_") as -> by (symmetry; apply Hon0; set_solver).
    repeat case_match; by eexists _, _, _.
  - assert (get_raw t "SetRuntimeDebugState_" = get_raw t0 "SetRuntimeDebugState_") as -> by (symmetry; apply Hon; set_solver).
    cbn [negb]. repeat case_match; by eexists _, _, _.
Qed.

Lemma code_cache_local L : local_init L (JitCodeCache_Init info replace_of sdk_int).
Proof. unfold JitCodeCache_Init. locally. Qed.

Lemma jit_local L : local_init L (Jit_Init info replace_of sdk_int).
Proof. unfold Jit_Init. locally. Qed.

Lemma jni_id_local L : local_init L (JniIdManager_Init info replace_of sdk_int debuggable).
Proof. unfold JniIdManager_Init. destruct debuggable; locally. Qed.

Lemma first_pair_local L l : local_init L (first_pair info l).
Proof.
  induction l as [|hooks l IH]; intros s s' H; [by eexists _, _, _|]. cbn [first_pair].
  local_step. destruct ok; [by eexists _, _, _|by apply IH].
Qed.

Lemma init_fixups_local L : local_init L (init_fixups cur info replace_of sdk_int).
Proof. unfold init_fixups. locally. Qed.

Lemma init_bridge_local L o s s' :
  agree_on L s s' → agree_on L (init_bridge cur info replace_of sdk_int o s) (init_bridge cur info replace_of sdk_int o s').
Proof.
  intros Hon. unfold init_bridge. repeat (test_step || local_step; cbn [negb]); try done.
  by apply HookHandler.agree_on_set_raw.
Qed.

Lemma class_linker_local L r u o : local_init L (ClassLinker.Init cur info replace_of sdk_int r u o).
Proof.
  intros s s' H. unfold ClassLinker.Init.
  set (s0 := if _ && _ then _ else s). set (s0' := if _ && _ then _ else s').
  assert (agree_on L s0 s0') as H0 by (unfold s0, s0'; destruct (_ && _); [local_step|]; done).
  clearbody s0 s0'. destruct (first_pair_local L (register_natives cur replace_of r u) s0 s0' H0) as (ok & t & t' & -> & -> & Ht).
  destruct ok; cbn [negb]; [|by eexists _, _, _].
  destruct (init_fixups_local L t t' Ht) as (ok & w & w' & -> & -> & Hw). cbn [snd].
  pose proof (init_bridge_local L o w w' Hw) as Hb.
  destruct (sdk_int <? __ANDROID_API_T__); [|by eexists _, _, _].
  local_step. destruct ok0; [by eexists _, _, _|]. eexists _, _, _. split_and!; [done|done|by apply init_bridge_local].
Qed.

Lemma init_methods_local L s s' :
  agree_on L s s' → agree_on L (init_methods info replace_of sdk_int s) (init_methods info replace_of sdk_int s').
Proof.
  intros Hon. unfold init_methods. repeat (test_step || local_step; cbn [snd negb]); try done.
  by apply HookHandler.agree_on_set_raw.
Qed.

Lemma hook_stack_trace_local L : local_init L (hook_stack_trace info replace_of sdk_int).
Proof. unfold hook_stack_trace. locally. Qed.

Lemma stack_local L f r h s s' :
  agree_on L s s' →
  let x := StackVisitor_Init info replace_of sdk_int f r h s in
  let x' := StackVisitor_Init info replace_of sdk_int f r h s' in
  x.1.1 = x'.1.1 ∧ x.2 = x'.2 ∧ agree_on L x.1.2 x'.1.2.
Proof.
  intros H. unfold StackVisitor_Init.
  pose proof (init_methods_local L s s' H) as Hm. revert Hm.
  generalize (init_methods info replace_of sdk_int s) (init_methods info replace_of sdk_int s').
  intros w w' Hm. destruct (hook_stack_trace_local L w w' Hm) as (ok & t & t' & -> & -> & Ht).
  destruct ok; cbn [negb].
  - repeat (test_step || local_step; cbn [fst snd]); done.
  - destruct (_ <=? _); [|done]. destruct (f =? 0); [done|]. by destruct (NativeHook _ _ _ _) as [[? ?] ?].
Qed.
End locality.

(** ** Runs of steps *)

Section runs.
Context (cur : Arch) (sdk_int : Z) (info : InitInfo) (e : NativeEnv).
Abbreviation steps := (native_steps cur sdk_int info e).

Lemma run_steps_app l1 l2 n n' :
  run_steps (l1 ++ l2) n = (true, n') → ∃ m, run_steps l1 n = (true, m) ∧ run_steps l2 m = (true, n').
Proof.
  revert n. induction l1 as [|f l1 IH]; intros n; simpl; [by exists n|].
  destruct (f n) as [[] m]; [apply IH|done].
Qed.

Lemma run_steps_cons f l n n' :
  run_steps (f :: l) n = (true, n') → ∃ m, f n = (true, m) ∧ run_steps l m = (true, n').
Proof. simpl. destruct (f n) as [[] m]; [|done]. intros H. by exists m. Qed.

(** Splits a complete run at a step. *)
Lemma run_steps_at k f n n' :
  steps !! k = Some f → run_steps steps n = (true, n') →
  ∃ a b, run_steps (take k steps) n = (true, a) ∧ f a = (true, b) ∧ run_steps (drop (S k) steps) b = (true, n').
Proof.
  intros Hk. rewrite <-(take_drop_middle _ _ _ Hk) at 1. intros (a & Ha & (b & Hb & H)%run_steps_cons)%run_steps_app.
  by exists a, b.
Qed.

(** A relation every step keeps. *)
Lemma run_steps_rel (R : Native → Native → Prop) `{!PreOrder R} l n :
  Forall (λ f, ∀ m, R m (f m).2) l → R n (run_steps l n).2.
Proof.
  revert n. induction l as [|f l IH]; intros n; simpl; [done|]. intros [Hf Hl]%Forall_cons.
  specialize (Hf n). destruct (f n) as [[] m]; simpl in *; [|done]. etrans; [exact Hf|by apply IH].
Qed.

(** The symbols each step may change, in order. *)
Definition step_names : list (list string) :=
  [ []; []; thread_names; instrumentation_names; class_names; runtime_names; class_linker_names;
    suspend_names; suspend_names; code_cache_names; jit_names; dex_names; jni_id_names; stack_names ].

Definition framed (f : Native → bool * Native) (L : list string) : Prop :=
  ∀ n, HookHandler.agree_off L (syms n) (syms (f n).2).

Lemma on_syms_framed g L : (∀ s, HookHandler.agree_off L s (g s).2) → framed (on_syms g) L.
Proof. intros H n. unfold on_syms. specialize (H (syms n)). by destruct (g (syms n)). Qed.

Lemma native_steps_framed : Forall2 framed steps step_names.
Proof.
  unfold native_steps, step_names. repeat (apply Forall2_cons_2; [|try apply Forall2_nil_2]);
    try apply on_syms_framed; intros n.
  - intros k _. unfold step_unsafe. by destruct (Unsafe_Init _ _).
  - intros k _. unfold step_art_method. by destruct (ArtMethodInit.Init _ _ _).
  - apply thread_frame.
  - apply instrumentation_frame.
  - unfold step_class. pose proof (class_frame sdk_int info (replace_of e)) as H.
    match goal with |- context [Class.Init _ _ _ ?a ?b ?c ?s] => specialize (H a b c s); destruct (Class.Init _ _ _ a b c s) end.
    done.
  - unfold step_runtime. pose proof (runtime_frame cur sdk_int info) as H.
    match goal with |- context [Runtime_Init _ _ _ ?a ?b ?c ?d ?s] =>
      specialize (H a b c d s); destruct (Runtime_Init _ _ _ a b c d s) end. done.
  - apply class_linker_frame.
  - apply suspend_frame.
  - apply gc_frame.
  - apply code_cache_frame.
  - apply jit_frame.
  - unfold step_dex_file. pose proof (dex_frame cur sdk_int info (dex_lookups e) (dex_statics n) (syms n)) as H.
    by destruct (DexFile_Init _ _ _ _ _ _) as [[? ?] ?].
  - apply jni_id_frame.
  - unfold step_stack. pose proof (stack_frame sdk_int info (replace_of e) (fill_method e) (fill_replace e) (methods n) (syms n)) as H.
    by destruct (StackVisitor_Init _ _ _ _ _ _ _) as [[? ?] ?].
Qed.

(** Symbols of [K] keep their values in a run of steps that change others. *)
Definition keeps (K : list string) (n n' : Native) : Prop :=
  ∀ k, k ∈ K → get_raw (syms n') k = get_raw (syms n) k ∧ get_handle (syms n') k = get_handle (syms n) k.

#[local] Instance keeps_preorder K : PreOrder (keeps K).
Proof.
  split; [by intros n k|]. intros a b c H1 H2 k Hk. destruct (H1 k Hk), (H2 k Hk). split; congruence.
Qed.

Lemma run_steps_keeps K l Ls n :
  Forall2 framed l Ls → forallb (λ L, forallb (λ k, negb (HookHandler.mem_name k L)) K) Ls = true →
  keeps K n (run_steps l n).2.
Proof.
  intros Hl HK. apply run_steps_rel; [apply _|].
  induction Hl as [|f L l Ls Hf _ IH]; [constructor|]. simpl in HK. apply andb_prop in HK as [HL HLs].
  constructor; [|by apply IH]. intros m k Hk. apply Hf. intros Hin.
  rewrite forallb_forall in HL. specialize (HL k (proj1 (list_elem_of_In _ _) Hk)).
  unfold HookHandler.mem_name in HL. apply negb_true_iff in HL.
  assert (existsb (String.eqb k) L = true); [|congruence].
  apply existsb_exists. exists k. split; [by apply list_elem_of_In|apply String.eqb_refl].
Qed.
End runs.

(** ** [InitNative] *)

(** Before the first call. *)
Definition initial_native (cur : Arch) (u : UnsafeStatics) (h : Methods) : Native :=
  MkNative no_syms u None (trampoline_template cur) None None no_dex_statics h None.

Section init_native.
Context (cur : Arch) (sdk_int : Z) (info : InitInfo) (e : NativeEnv).
Abbreviation steps := (native_steps cur sdk_int info e).
Abbreviation resolve t := (HookHandler.dlsym info (FixedStringOf t) false).

(** What the other steps leave to [step_art_method] and [step_dex_file], and to
    the last lines of [InitNative]. *)
Definition same_art (n n' : Native) : Prop :=
  art_config n' = art_config n ∧ trampoline_bytes n' = trampoline_bytes n.
Definition same_dex (n n' : Native) : Prop := dex_statics n' = dex_statics n.
Definition same_debug (n n' : Native) : Prop := java_debug_state n' = java_debug_state n.
Definition same_unsafe (n n' : Native) : Prop := unsafe n' = unsafe n.
Definition same_class (n n' : Native) : Prop := class_statics n' = class_statics n.
Definition same_runtime (n n' : Native) : Prop := runtime_offsets n' = runtime_offsets n.
Definition same_methods (n n' : Native) : Prop := methods n' = methods n.

#[local] Instance same_art_preorder : PreOrder same_art.
Proof. split; [by intros n|]. intros a b c [H1 H2] [H3 H4]. split; congruence. Qed.
#[local] Instance same_dex_preorder : PreOrder same_dex.
Proof. split; [by intros n|]. intros a b c. unfold same_dex. congruence. Qed.
#[local] Instance same_debug_preorder : PreOrder same_debug.
Proof. split; [by intros n|]. intros a b c. unfold same_debug. congruence. Qed.
#[local] Instance same_unsafe_preorder : PreOrder same_unsafe.
Proof. split; [by intros n|]. intros a b c. unfold same_unsafe. congruence. Qed.
#[local] Instance same_class_preorder : PreOrder same_class.
Proof. split; [by intros n|]. intros a b c. unfold same_class. congruence. Qed.
#[local] Instance same_runtime_preorder : PreOrder same_runtime.
Proof. split; [by intros n|]. intros a b c. unfold same_runtime. congruence. Qed.
#[local] Instance same_methods_preorder : PreOrder same_methods.
Proof. split; [by intros n|]. intros a b c. unfold same_methods. congruence. Qed.

Ltac each_step :=
  repeat (apply List.Forall_cons || apply List.Forall_nil); intros n;
  unfold on_syms, step_unsafe, step_art_method, step_class, step_runtime, step_dex_file, step_stack;
  repeat case_match; done.

Lemma steps_same_art_before : Forall (λ f, ∀ m, same_art m (f m).2) (take 1 steps).
Proof. simpl. each_step. Qed.
Lemma steps_same_art_after : Forall (λ f, ∀ m, same_art m (f m).2) (drop 2 steps).
Proof. simpl. each_step. Qed.
Lemma steps_same_dex_before : Forall (λ f, ∀ m, same_dex m (f m).2) (take 11 steps).
Proof. simpl. each_step. Qed.
Lemma steps_same_dex_after : Forall (λ f, ∀ m, same_dex m (f m).2) (drop 12 steps).
Proof. simpl. each_step. Qed.
Lemma steps_same_unsafe_after : Forall (λ f, ∀ m, same_unsafe m (f m).2) (drop 1 steps).
Proof. simpl. each_step. Qed.
Lemma steps_same_unsafe_middle : Forall (λ f, ∀ m, same_unsafe m (f m).2) (drop 5 steps).
Proof. simpl. each_step. Qed.
Lemma steps_same_class_after : Forall (λ f, ∀ m, same_class m (f m).2) (drop 5 steps).
Proof. simpl. each_step. Qed.
Lemma steps_same_runtime_after : Forall (λ f, ∀ m, same_runtime m (f m).2) (drop 6 steps).
Proof. simpl. each_step. Qed.
Lemma steps_same_methods_before : Forall (λ f, ∀ m, same_methods m (f m).2) (take 13 steps).
Proof. simpl. each_step. Qed.
Lemma steps_same_debug : Forall (λ f, ∀ m, same_debug m (f m).2) steps.
Proof. unfold native_steps. each_step. Qed.

(** A run whose result is known, as a relation and as a frame. *)
Lemma run_rel (R : Native → Native → Prop) `{!PreOrder R} l n b n' :
  run_steps l n = (b, n') → Forall (λ f, ∀ m, R m (f m).2) l → R n n'.
Proof. intros Hr H. pose proof (run_steps_rel R l n H) as HR. by rewrite Hr in HR. Qed.

Lemma before_keeps K k n b n' :
  run_steps (take k steps) n = (b, n') →
  forallb (λ L, forallb (λ x, negb (HookHandler.mem_name x L)) K) (take k step_names) = true → keeps K n n'.
Proof.
  intros Hr HK. pose proof (run_steps_keeps K _ _ n (Forall2_take _ _ _ k (native_steps_framed cur sdk_int info e)) HK) as H.
  by rewrite Hr in H.
Qed.

Lemma after_keeps K k n b n' :
  run_steps (drop k steps) n = (b, n') →
  forallb (λ L, forallb (λ x, negb (HookHandler.mem_name x L)) K) (drop k step_names) = true → keeps K n n'.
Proof.
  intros Hr HK. pose proof (run_steps_keeps K _ _ n (Forall2_drop _ _ _ k (native_steps_framed cur sdk_int info e)) HK) as H.
  by rewrite Hr in H.
Qed.

(** The trampoline is patched once, with the offset [ArtMethod::Init] found. *)
Lemma art_ready u h n' :
  run_steps steps (initial_native cur u h) = (true, n') →
  ∃ c, ArtMethodInit.Init cur sdk_int (art_env e) = Some c ∧ art_config n' = Some c ∧
       trampoline_bytes n' = trampoline cur (entry_point_offset c).
Proof.
  intros (a & b & Ha & Hb & Hn)%(run_steps_at cur sdk_int info e 1 (step_art_method cur sdk_int e)); [|done].
  destruct (run_rel same_art _ _ _ _ Ha steps_same_art_before) as [_ Hta].
  destruct (run_rel same_art _ _ _ _ Hn steps_same_art_after) as [Hcb Htb].
  unfold step_art_method in Hb. destruct (ArtMethodInit.Init _ _ _) as [c|]; [|done]. simplify_eq.
  exists c. split; [done|]. rewrite Hcb, Htb. simpl. rewrite Hta. done.
Qed.

Lemma keeps_symbol K n n' t : keeps K n n' → HookHandler.mem_name (symbol_name t) K = true →
  symbol_set t (syms n') = symbol_set t (syms n).
Proof.
  intros H Hk%HookHandler.mem_name_spec. destruct (H _ Hk) as [Hr Hh].
  unfold symbol_set. destruct t; simpl in *; by rewrite ?Hr, ?Hh.
Qed.

(** The thread functions are as [Thread::Init] left them. *)
Lemma thread_ready u h n' from_gdb current m tls :
  run_steps steps (initial_native cur u h) = (true, n') →
  Current cur (syms n') from_gdb current m tls =
    if negb (resolve (Thread_symbol "CurrentFromGdb_") =? 0) then from_gdb
    else if __ANDROID_API_N__ <=? sdk_int then CurrentFromTLS cur m tls else current.
Proof.
  intros (a & b & Ha & Hb & Hn)%(run_steps_at cur sdk_int info e 2 (on_syms (Thread_Init cur sdk_int info))); [|done].
  pose proof (before_keeps thread_names 2 _ _ _ Ha eq_refl) as Hka.
  pose proof (after_keeps thread_names 3 _ _ _ Hn eq_refl) as Hkn.
  assert (syms a = no_syms) as Hs.
  { apply (f_equal snd) in Ha. simpl in Ha. unfold step_unsafe, step_art_method in Ha.
    repeat case_match; by simplify_eq/=. }
  unfold on_syms in Hb. rewrite Hs in Hb.
  pose proof (Thread_Init_spec cur sdk_int info no_syms from_gdb current m tls (λ _, eq_refl)) as H.
  destruct (Thread_Init _ _ _ _) as [ok s']. destruct H as [_ H]. simplify_eq/=.
  rewrite <-H by done. unfold Current, thread_set.
  by rewrite !(keeps_symbol _ _ _ _ Hkn) by done.
Qed.

(** So are the functions that stop the world. *)
Lemma suspension_kept u h n' :
  run_steps steps (initial_native cur u h) = (true, n') → world_ready info sdk_int (syms n').
Proof.
  intros (a & b & Ha & Hb & Hn)%(run_steps_at cur sdk_int info e 7 (on_syms (ScopedSuspendAll_Init info))); [|done].
  pose proof (before_keeps suspend_names 7 _ _ _ Ha eq_refl) as Hka.
  change (drop 8 steps) with (on_syms (ScopedGCCriticalSection_Init info sdk_int) :: drop 9 steps) in Hn.
  apply run_steps_cons in Hn as (c & Hc & Hn). unfold on_syms in Hb, Hc.
  destruct (ScopedSuspendAll_Init info (syms a)) as [ok s1] eqn:E1. injection Hb as -> <-.
  destruct (ScopedGCCriticalSection_Init info sdk_int _) as [ok s2] eqn:E2. injection Hc as -> <-.
  pose proof (after_keeps suspend_names 9 _ _ _ Hn eq_refl) as Hkn.
  assert (world_ready info sdk_int s2) as Hw.
  { apply (suspension_ready info sdk_int (syms a) s1); [|done..].
    apply Forall_forall. intros k Hk. unfold suspend_set.
    rewrite (keeps_symbol _ _ _ (Suspend_symbol k) Hka); [done|].
    apply existsb_exists. exists k. split; [by apply list_elem_of_In|apply String.eqb_refl]. }
  unfold world_ready, stopped_world, ScopedSuspendAll, ScopedSuspendAll_destroy, ScopedGCCriticalSection,
    ScopedGCCriticalSection_destroy, suspend_set in *.
  by rewrite !(keeps_symbol _ _ _ _ Hkn) by done.
Qed.

(** And the functions that open images. *)
Lemma dex_ready u h n' :
  run_steps steps (initial_native cur u h) = (true, n') → IsMemoryDexSupported (dex_statics n') = true →
  can_open cur sdk_int (syms n') ∧ supported_statics cur sdk_int (dex_statics n').
Proof.
  intros (a & b & Ha & Hb & Hn)%(run_steps_at cur sdk_int info e 11 (step_dex_file cur sdk_int info e)); [|done].
  pose proof (before_keeps dex_names 11 _ _ _ Ha eq_refl) as Hka.
  pose proof (after_keeps dex_names 12 _ _ _ Hn eq_refl) as Hkn.
  pose proof (run_rel same_dex _ _ _ _ Ha steps_same_dex_before) as Hda.
  pose proof (run_rel same_dex _ _ _ _ Hn steps_same_dex_after) as Hdn.
  unfold step_dex_file, same_dex in *. simpl in Hda. rewrite Hda in Hb. rewrite Hdn.
  destruct (DexFile_Init _ _ _ _ _ _) as [[ok d] s] eqn:E. injection Hb as -> <-. simpl.
  intros Hsup.
  assert (∀ k, k ∈ open_names → symbol_set (DexFile_symbol cur k) (syms a) = false) as H0.
  { intros k Hk. rewrite (keeps_symbol _ _ _ (DexFile_symbol cur k) Hka); [done|].
    repeat (apply elem_of_cons in Hk as [-> | Hk]; [done|]). by apply elem_of_nil in Hk. }
  destruct (Init_spec cur sdk_int info _ _ _ _ _ H0 E Hsup) as [Hcan Hst].
  split; [|by apply Hst]. unfold can_open in *. by rewrite !(keeps_symbol _ _ _ _ Hkn) by done.
Qed.

(** *** Components whose symbols are their own *)

(** The symbols [L] are as [g] leaves them from the start, successfully. *)
Definition as_alone (L : list string) (g : Syms → bool * Syms) (s' : Syms) : Prop :=
  (g no_syms).1 = true ∧ HookHandler.agree_on L (g no_syms).2 s'.

Abbreviation disjoint_names K Ls := (forallb (λ L, forallb (λ x, negb (HookHandler.mem_name x L)) K) Ls).

Lemma run_alone k f L u h n' :
  run_steps steps (initial_native cur u h) = (true, n') → steps !! k = Some f →
  disjoint_names L (take k step_names) = true → disjoint_names L (drop (S k) step_names) = true →
  ∃ a b, run_steps (take k steps) (initial_native cur u h) = (true, a) ∧ f a = (true, b) ∧
    run_steps (drop (S k) steps) b = (true, n') ∧
    HookHandler.agree_on L no_syms (syms a) ∧ HookHandler.agree_on L (syms b) (syms n').
Proof.
  intros Hr Hf Hbefore Hafter. destruct (run_steps_at cur sdk_int info e k f _ _ Hf Hr) as (a & b & Ha & Hb & Hn).
  exists a, b. split_and!; [done|done|done| |].
  - intros n. apply (before_keeps L k _ _ _ Ha Hbefore).
  - intros n. apply (after_keeps L (S k) _ _ _ Hn Hafter).
Qed.

Lemma agree_on_trans L s1 s2 s3 :
  HookHandler.agree_on L s1 s2 → HookHandler.agree_on L s2 s3 → HookHandler.agree_on L s1 s3.
Proof. intros H1 H2 n Hn. destruct (H1 n Hn), (H2 n Hn). split; congruence. Qed.

Lemma symbols_alone k g L u h n' :
  run_steps steps (initial_native cur u h) = (true, n') → steps !! k = Some (on_syms g) →
  HookHandler.local_init L g →
  disjoint_names L (take k step_names) = true → disjoint_names L (drop (S k) step_names) = true →
  as_alone L g (syms n').
Proof.
  intros Hr Hf Hl H1 H2. destruct (run_alone k (on_syms g) L u h n' Hr Hf H1 H2) as (a & b & _ & Hb & _ & Ha & Hn).
  destruct (Hl _ _ Ha) as (ok & t & t' & E & E' & Ht). unfold on_syms in Hb. rewrite E' in Hb.
  injection Hb as -> <-. unfold as_alone. rewrite E. split; [done|]. by eapply agree_on_trans.
Qed.

(** *** Components with a state of their own *)

Lemma unsafe_alone u h n' :
  run_steps steps (initial_native cur u h) = (true, n') → unsafe n' = (Unsafe_Init (unsafe_lookups e) u).2.
Proof.
  intros (a & b & Ha & Hb & Hn)%(run_steps_at cur sdk_int info e 0 (step_unsafe e)); [|done].
  rewrite (run_rel same_unsafe _ _ _ _ Hn steps_same_unsafe_after).
  injection Ha as <-. unfold step_unsafe in Hb. cbn [unsafe initial_native] in Hb.
  destruct (Unsafe_Init _ _). by injection Hb as _ <-.
Qed.

Definition class_init (n : Native) : Syms → option (Z * (Z * Z * Z)) * Syms :=
  Class.Init info (replace_of e) sdk_int (unsafe_ok (unsafe n) && HasObjectFieldOffset (unsafe n))
    (object_array_base_offset_ (unsafe n)) (class_offset_of e).
Definition runtime_init : Syms → option (Z * Z) * Syms :=
  Runtime_Init cur info sdk_int (java_vm e) (fake_runtime e) (set_debug_state e) (runtime_memory e).
Definition stack_init (h : Methods) : Syms → bool * Syms * Methods :=
  StackVisitor_Init info (replace_of e) sdk_int (fill_method e) (fill_replace e) h.

Lemma class_alone u h n' :
  run_steps steps (initial_native cur u h) = (true, n') →
  is_Some (class_statics n') ∧ class_statics n' = (class_init n' no_syms).1 ∧
  HookHandler.agree_on class_names (class_init n' no_syms).2 (syms n').
Proof.
  intros Hr. destruct (run_alone 4 (step_class sdk_int info e) class_names u h n' Hr eq_refl eq_refl eq_refl)
    as (a & b & _ & Hb & Hn & Ha & Hs).
  assert (class_init a = class_init n') as Hu.
  { pose proof (run_rel same_unsafe _ _ _ _ Hn steps_same_unsafe_middle) as E. unfold same_unsafe in E.
    unfold class_init. rewrite E. unfold step_class in Hb.
    destruct (Class.Init _ _ _ _ _ _ _) as [r s]. by injection Hb as _ <-. }
  destruct (class_local sdk_int info (replace_of e) class_names (unsafe_ok (unsafe a) && HasObjectFieldOffset (unsafe a))
    (object_array_base_offset_ (unsafe a)) (class_offset_of e) _ _ Ha) as (r & t & t' & E & E' & Ht).
  rewrite <-Hu. unfold class_init. rewrite E. unfold step_class in Hb. rewrite E' in Hb. injection Hb as Hsome <-.
  rewrite (run_rel same_class _ _ _ _ Hn steps_same_class_after). cbn. split_and!; [|done|by eapply agree_on_trans].
  by apply bool_decide_eq_true in Hsome.
Qed.

Lemma runtime_alone u h n' :
  run_steps steps (initial_native cur u h) = (true, n') →
  is_Some (runtime_offsets n') ∧ runtime_offsets n' = (runtime_init no_syms).1 ∧
  HookHandler.agree_on runtime_names (runtime_init no_syms).2 (syms n').
Proof.
  intros Hr. destruct (run_alone 5 (step_runtime cur sdk_int info e) runtime_names u h n' Hr eq_refl eq_refl eq_refl)
    as (a & b & _ & Hb & Hn & Ha & Hs).
  destruct (runtime_local cur sdk_int info (java_vm e) (fake_runtime e) (set_debug_state e) (runtime_memory e) _ _ Ha)
    as (r & t & t' & E & E' & Ht).
  unfold runtime_init. rewrite E. unfold step_runtime in Hb. rewrite E' in Hb. injection Hb as Hsome <-.
  rewrite (run_rel same_runtime _ _ _ _ Hn steps_same_runtime_after). cbn. split_and!; [|done|by eapply agree_on_trans].
  by apply bool_decide_eq_true in Hsome.
Qed.

Lemma stack_alone u h n' :
  run_steps steps (initial_native cur u h) = (true, n') →
  methods n' = (stack_init h no_syms).2 ∧
  HookHandler.agree_on stack_names (stack_init h no_syms).1.2 (syms n').
Proof.
  intros Hr. destruct (run_alone 13 (step_stack sdk_int info e) stack_names u h n' Hr eq_refl eq_refl eq_refl)
    as (a & b & Hbefore & Hb & Hn & Ha & Hs).
  pose proof (run_rel same_methods _ _ _ _ Hbefore steps_same_methods_before) as Hm. unfold same_methods in Hm. cbn in Hm.
  injection Hn as <-. unfold step_stack in Hb. rewrite Hm in Hb.
  pose proof (stack_local sdk_int info (replace_of e) stack_names (fill_method e) (fill_replace e) h _ _ Ha) as H.
  unfold stack_init. destruct (StackVisitor_Init _ _ _ _ _ _ (syms a)) as [[ok s] h']. injection Hb as -> <-.
  destruct H as (_ & -> & H). split; [done|]. by eapply agree_on_trans.
Qed.

(** *** What a component cannot do without *)

(** One of the arguments was resolved, and hooked if it is a hook. *)
Definition one_set (ts : list Symbol) s : Prop := ∃ t, t ∈ ts ∧ symbol_set t s = true.

Lemma any_one_set args s s' :
  HookHandler.any info args s = (true, s') → one_set (map HookHandler.arg_symbol args) s'.
Proof.
  intros H. apply HookHandler.any_split in H as (pre & a & post & -> & Hset & _).
  exists (HookHandler.arg_symbol a). split; [|done]. rewrite map_app, elem_of_app. right. by left.
Qed.

Lemma one_set_on L ts s s' :
  HookHandler.agree_on L s s' → Forall (λ t, HookHandler.mem_name (symbol_name t) L = true) ts →
  one_set ts s → one_set ts s'.
Proof.
  intros H Hts (t & Ht & Hset). exists t. split; [done|]. rewrite Forall_forall in Hts.
  destruct (H _ (HookHandler.mem_name_spec _ _ (Hts t Ht))) as [Hr Hh].
  unfold symbol_set in *. destruct t; cbn in *; by rewrite ?Hr, ?Hh.
Qed.

Lemma one_set_off L ts s s' :
  HookHandler.agree_off L s s' → Forall (λ t, HookHandler.mem_name (symbol_name t) L = false) ts →
  one_set ts s → one_set ts s'.
Proof.
  intros H Hts (t & Ht & Hset). exists t. split; [done|]. rewrite Forall_forall in Hts.
  by rewrite (HookHandler.agree_off_set _ _ _ _ H (Hts t Ht)).
Qed.

(** [Class]: the class definition, and the hook of the change of status. *)
Definition status_hooks : list Symbol :=
  if sdk_int <? __ANDROID_API_O__ then [Class.SetStatus_ (replace_of e); Class.ClassSetStatus_ (replace_of e)]
  else [Class.SetClassStatus_ (replace_of e); Class.TrivialSetStatus_ (replace_of e)].

Lemma class_requires n :
  is_Some (class_init n no_syms).1 →
  one_set [Class.GetClassDef_] (class_init n no_syms).2 ∧ one_set status_hooks (class_init n no_syms).2.
Proof.
  unfold class_init, Class.Init, status_hooks.
  destruct (HookHandler.any info [HookHandler.One Class.GetClassDef_] no_syms) as [ok s] eqn:E.
  destruct ok; cbn [negb]; [|by intros []]. apply any_one_set in E.
  destruct (sdk_int <? __ANDROID_API_O__).
  all: match goal with |- context [HookHandler.any ?i ?args ?s] =>
    pose proof (HookHandler.any_agree i args s) as Ha; destruct (HookHandler.any i args s) as [ok s2] eqn:E2 end;
    destruct ok; cbn [negb]; [|by intros []]; intros _; apply any_one_set in E2; cbn [fst snd] in *;
    split; [|exact E2]; eapply one_set_off; [exact Ha| |exact E]; by repeat constructor.
Qed.

(** [ClassLinker]: a pair of hooks of the registration of natives. *)
Definition registration_hooks : list (list Symbol) :=
  map (map HookHandler.arg_symbol) (register_natives cur (replace_of e) (RegisterNatives_fn e) (UnregisterNatives_fn e)).

Definition pair_set s : Prop := ∃ ts, ts ∈ registration_hooks ∧ Forall (λ t, symbol_set t s = true) ts.

Lemma first_pair_sets l s s' :
  Forall (λ hooks, NoDup (HookHandler.names hooks)) l → first_pair info l s = (true, s') →
  ∃ hooks, hooks ∈ l ∧ Forall (λ a, symbol_set (HookHandler.arg_symbol a) s' = true) hooks.
Proof.
  revert s. induction l as [|hooks l IH]; intros s Hnd; cbn [first_pair]; [done|].
  apply Forall_cons in Hnd as [Hn Hnd]. destruct (HookHandler.all info hooks s) as [ok s1] eqn:E.
  destruct ok; [intros [= <-]|intros H].
  - apply (HookHandler.all_split _ _ _ _ _ Hn) in E as (pre & post & -> & -> & Hset & _).
    rewrite app_nil_r. exists pre. split; [by left|done].
  - destruct (IH s1 Hnd H) as (h' & ? & ?). exists h'. split; [by right|done].
Qed.

(** What [ClassLinker::Init] does after the registration hooks. *)
Definition later_names : list string :=
  ["FixupStaticTrampolines_"; "FixupStaticTrampolinesRaw_"; "FixupStaticTrampolinesWithThread_";
   "AdjustThreadVisibilityCounter_"; "MarkVisiblyInitialized_"; "SetEntryPointsToInterpreter_";
   "art_quick_to_interpreter_bridge_"; "GetOptimizedCodeFor_"].

Lemma class_linker_requires s :
  let x := ClassLinker.Init cur info (replace_of e) sdk_int (RegisterNatives_fn e) (UnregisterNatives_fn e)
    (optimized_code e) s in
  x.1 = true → pair_set x.2.
Proof.
  cbv zeta. unfold ClassLinker.Init. set (s0 := if _ && _ then _ else s). clearbody s0.
  destruct (first_pair info _ s0) as [ok s1] eqn:E. destruct ok; cbn [negb]; [|done].
  apply first_pair_sets in E; [|repeat (apply List.Forall_cons; [vm_compute; repeat constructor; set_solver|]); apply List.Forall_nil].
  destruct E as (hooks & Hin & Hset).
  assert (∀ s', HookHandler.agree_off later_names s1 s' → pair_set s') as Hlater.
  { intros s' H. exists (map HookHandler.arg_symbol hooks). split; [by apply list_elem_of_fmap_2|].
    apply Forall_map. rewrite Forall_forall in Hset |- *. intros a Ha. cbn.
    rewrite (HookHandler.agree_off_set later_names _ s1 s' H); [by apply Hset|].
    unfold register_natives in Hin.
    repeat (apply elem_of_cons in Hin as [->|Hin];
      [repeat (apply elem_of_cons in Ha as [->|Ha]; [done|]); by apply elem_of_nil in Ha|]).
    by apply elem_of_nil in Hin. }
  clear Hset Hin hooks.
  assert (HookHandler.agree_off later_names s1 (init_fixups cur info (replace_of e) sdk_int s1).2) as Hf.
  { clear. unfold init_fixups. repeat first [frame_step later_names | case_match]; simplify_eq; frame_chain. }
  destruct (init_fixups _ _ _ _ s1) as [? s2]. cbn [snd] in Hf |- *.
  set (q := if sdk_int <? __ANDROID_API_T__ then _ else _).
  assert (HookHandler.agree_off later_names s2 q.2) as Hq
    by (clear; unfold q; repeat first [frame_step later_names | case_match]; simplify_eq; frame_chain).
  destruct q as [[] s3]; cbn [fst snd] in Hq |- *; intros _; apply Hlater.
  - eapply HookHandler.agree_off_trans; [exact Hf|exact Hq].
  - eapply HookHandler.agree_off_trans; [exact Hf|]. eapply HookHandler.agree_off_trans; [exact Hq|].
    clear. unfold init_bridge. repeat first [frame_step later_names | case_match]; simplify_eq; frame_chain.
Qed.

Lemma pair_set_on s s' : HookHandler.agree_on class_linker_names s s' → pair_set s → pair_set s'.
Proof.
  intros H (ts & Hin & Hset). exists ts. split; [done|]. rewrite Forall_forall in Hset |- *. intros t Ht.
  assert (HookHandler.mem_name (symbol_name t) class_linker_names = true) as Hm.
  { unfold registration_hooks in Hin. cbn [map register_natives] in Hin.
    repeat (apply elem_of_cons in Hin as [->|Hin];
      [repeat (apply elem_of_cons in Ht as [->|Ht]; [done|]); by apply elem_of_nil in Ht|]).
    by apply elem_of_nil in Hin. }
  specialize (Hset t Ht). destruct (H _ (HookHandler.mem_name_spec _ _ Hm)) as [Hr Hh].
  unfold symbol_set in *. destruct t; cbn in *; by rewrite ?Hr, ?Hh.
Qed.

(** [JitCodeCache]: the movement of obsolete methods, and the hook of the
    collection before which they are moved. *)
Abbreviation jit_symbol := (Jit_symbol (replace_of e)).
Lemma code_cache_requires s :
  let x := JitCodeCache_Init info (replace_of e) sdk_int s in
  x.1 = true →
  (26 <= sdk_int → one_set [jit_symbol "MoveObsoleteMethod_"] x.2) ∧
  (24 <= sdk_int → one_set [jit_symbol "GarbageCollectCache_"; jit_symbol "DoCollection_"] x.2).
Proof.
  cbv zeta. unfold JitCodeCache_Init, __ANDROID_API_O__, __ANDROID_API_N__.
  destruct (Z.leb_spec 26 sdk_int) as [Ho|Ho], (Z.leb_spec 24 sdk_int) as [Hn|Hn]; try lia.
  - destruct (HookHandler.any info [_] s) as [ok s1] eqn:E1. destruct ok; cbn [negb]; [|done].
    apply any_one_set in E1.
    pose proof (HookHandler.any_agree info [HookHandler.One (jit_symbol "GarbageCollectCache_"); HookHandler.One (jit_symbol "DoCollection_")] s1) as Ha.
    destruct (HookHandler.any info [_; _] s1) as [ok s2] eqn:E2. cbn [fst snd] in *. intros ->. apply any_one_set in E2.
    split; intros _; [|exact E2]. eapply one_set_off; [exact Ha| |exact E1]. by repeat constructor.
  - cbn [negb]. destruct (HookHandler.any info [_; _] s) as [ok s2] eqn:E2. cbn [fst snd]. intros ->.
    apply any_one_set in E2. split; [lia|by intros _].
Qed.

(** C24: when [InitNative] succeeds on the state the library starts with, every
    component is ready, whatever the others did to the shared symbols:
    [ArtMethod] has a layout and the trampoline was patched once, with its
    entry-point offset; the code that edits methods runs with the world stopped;
    the current thread is found by the function of the runtime or in its own
    storage; where images are said to be supported there is a function of the
    running Android version to open them with; the runtime of a debuggable process
    was made non-debuggable; and [Unsafe], [Class], [Runtime], [Instrumentation],
    [ClassLinker], [JitCodeCache], [Jit], [JniIdManager] and [StackVisitor]
    succeeded, with the functions, hooks and offsets that their initializers find
    when each of them runs alone.  So the class definition can be read, a hook of
    the change of class status, a pair of hooks of native registration, and the
    functions of the JIT code cache that the version has are there. *)
Theorem InitNative_ready u h n' :
  InitNative cur sdk_int info e (initial_native cur u h) = (true, n') →
  (∃ c, ArtMethodInit.Init cur sdk_int (art_env e) = Some c ∧ art_config n' = Some c ∧
        trampoline_bytes n' = trampoline cur (entry_point_offset c)) ∧
  world_ready info sdk_int (syms n') ∧
  (∀ from_gdb current m tls,
     Current cur (syms n') from_gdb current m tls =
       if negb (resolve (Thread_symbol "CurrentFromGdb_") =? 0) then from_gdb
       else if __ANDROID_API_N__ <=? sdk_int then CurrentFromTLS cur m tls else current) ∧
  (IsMemoryDexSupported (dex_statics n') = true → ∀ m dex size location,
     ∃ c, open_call cur (syms n') m dex size location = Some c ∧ call_of_api sdk_int c) ∧
  java_debug_state n' = (if java_debuggable sdk_int e then Some kNonJavaDebuggable else None) ∧
  unsafe n' = (Unsafe_Init (unsafe_lookups e) u).2 ∧
  (is_Some (class_statics n') ∧ class_statics n' = (class_init n' no_syms).1 ∧
   HookHandler.agree_on class_names (class_init n' no_syms).2 (syms n')) ∧
  (is_Some (runtime_offsets n') ∧ runtime_offsets n' = (runtime_init no_syms).1 ∧
   HookHandler.agree_on runtime_names (runtime_init no_syms).2 (syms n')) ∧
  as_alone instrumentation_names (Instrumentation.Init info (replace_of e) sdk_int (java_debuggable sdk_int e)) (syms n') ∧
  as_alone class_linker_names (ClassLinker.Init cur info (replace_of e) sdk_int (RegisterNatives_fn e)
    (UnregisterNatives_fn e) (optimized_code e)) (syms n') ∧
  as_alone code_cache_names (JitCodeCache_Init info (replace_of e) sdk_int) (syms n') ∧
  as_alone jit_names (Jit_Init info (replace_of e) sdk_int) (syms n') ∧
  as_alone jni_id_names (JniIdManager_Init info (replace_of e) sdk_int (java_debuggable sdk_int e)) (syms n') ∧
  (methods n' = (stack_init h no_syms).2 ∧ HookHandler.agree_on stack_names (stack_init h no_syms).1.2 (syms n')) ∧
  one_set [Class.GetClassDef_] (syms n') ∧ one_set status_hooks (syms n') ∧ pair_set (syms n') ∧
  (26 <= sdk_int → one_set [jit_symbol "MoveObsoleteMethod_"] (syms n')) ∧
  (24 <= sdk_int → one_set [jit_symbol "GarbageCollectCache_"; jit_symbol "DoCollection_"] (syms n')).
Proof.
  unfold InitNative. destruct (run_steps steps _) as [ok m] eqn:Hr. destruct ok; [|done]. cbn [negb].
  pose proof (run_rel same_debug _ _ _ _ Hr steps_same_debug) as Hd. unfold same_debug in Hd. simpl in Hd.
  pose proof (art_ready _ _ _ Hr) as Ha. pose proof (suspension_kept _ _ _ Hr) as Hw.
  pose proof (λ g c m t, thread_ready _ _ _ g c m t Hr) as Ht. pose proof (dex_ready _ _ _ Hr) as Hx.
  pose proof (class_alone _ _ _ Hr) as Hclass. pose proof (runtime_alone _ _ _ Hr) as Hruntime.
  pose proof (stack_alone _ _ _ Hr) as Hstack. pose proof (unsafe_alone _ _ _ Hr) as Hunsafe.
  pose proof (λ k g L, symbols_alone k g L _ _ _ Hr) as Hsyms.
  pose proof (Hsyms 6%nat _ class_linker_names eq_refl (class_linker_local cur sdk_int info (replace_of e) _ _ _ _)
    eq_refl eq_refl) as Hlinker.
  pose proof (Hsyms 9%nat _ code_cache_names eq_refl (code_cache_local sdk_int info (replace_of e) _) eq_refl eq_refl) as Hcache.
  intros Hn.
  assert (syms n' = syms m ∧ art_config n' = art_config m ∧ trampoline_bytes n' = trampoline_bytes m ∧
    dex_statics n' = dex_statics m ∧ unsafe n' = unsafe m ∧ class_statics n' = class_statics m ∧
    runtime_offsets n' = runtime_offsets m ∧ methods n' = methods m) as (-> & -> & -> & -> & Eu & -> & -> & ->)
    by (destruct (java_debuggable _ _); by simplify_eq/=).
  assert (class_init n' = class_init m) as -> by (unfold class_init; by rewrite Eu). rewrite Eu.
  assert (one_set [Class.GetClassDef_] (syms m) ∧ one_set status_hooks (syms m)) as [Hdef Hstatus].
  { destruct Hclass as (Hsome & E & Hon). rewrite E in Hsome. destruct (class_requires m Hsome) as [H1 H2].
    split; eapply one_set_on; try exact Hon; try eassumption; [by repeat constructor|].
    unfold status_hooks. destruct (_ <? _); by repeat constructor. }
  assert (pair_set (syms m)) as Hpair.
  { destruct Hlinker as [Hok Hon]. by eapply pair_set_on, class_linker_requires. }
  assert ((26 <= sdk_int → one_set [jit_symbol "MoveObsoleteMethod_"] (syms m)) ∧
    (24 <= sdk_int → one_set [jit_symbol "GarbageCollectCache_"; jit_symbol "DoCollection_"] (syms m))) as [Hmove Hcollect].
  { destruct Hcache as [Hok Hon]. destruct (code_cache_requires no_syms Hok) as [H1 H2].
    split; intros Hsdk; (eapply one_set_on; [exact Hon|by repeat constructor|by auto]). }
  destruct Hclass as (? & ? & ?), Hruntime as (? & ? & ?), Hstack as (? & ?). split_and!; try done.
  - intros Hs m0 dex size location. apply (can_open_call cur sdk_int). by apply Hx.
  - destruct (java_debuggable _ _); by simplify_eq/=.
  - apply (Hsyms 3%nat); [done|apply instrumentation_local|done|done].
  - apply (Hsyms 10%nat); [done|apply jit_local|done|done].
  - apply (Hsyms 12%nat); [done|apply jni_id_local|done|done].
Qed.
End init_native.

(** ** Calls of [Init] *)

(** What an embedder passes, and what JNI and the runtime answer. *)
Record InitCall := MkCall {
  call_has_hooker : bool;
  call_has_resolver : bool;
  call_info : InitInfo;
  call_names : Names;
  call_jni : JniEnv;
  call_env : NativeEnv
}.

Definition Init_of (cur : Arch) (sdk_int : Z) (c : InitCall) (l : Library) : option (bool * Library) :=
  Init cur sdk_int (call_has_hooker c) (call_has_resolver c) (call_info c) (call_names c) (call_jni c) (call_env c) l.

(** A sequence of calls: their results and the state at the end. *)
Fixpoint calls (cur : Arch) (sdk_int : Z) (cs : list InitCall) (l : Library) : option (list bool * Library) :=
  match cs with
  | [] => Some ([], l)
  | c :: cs =>
      '(ok, l) ← Init_of cur sdk_int c l;
      '(oks, l) ← calls cur sdk_int cs l;
      Some (ok :: oks, l)
  end.

Definition initial_library (cur : Arch) (u : UnsafeStatics) (h : Methods) : Library :=
  MkLibrary None no_names no_jni (initial_native cur u h).

(** Whether [InitConfig] accepts the names. *)
Definition names_given (n : Names) : bool :=
  negb (empty (info_class_name n)) && negb (empty (info_field_name n)) && negb (empty (info_method_name n)).

(** The names in use are fit for a generated class: none is empty, and its two
    fields have different names. *)
Definition usable_names (g : Generated) : Prop :=
  generated_class_name g ≠ ""%string ∧ generated_method_name g ≠ ""%string ∧
  generated_field_name g ≠ ""%string ∧ generated_native_field_name g ≠ ""%string ∧
  generated_field_name g ≠ generated_native_field_name g.

Lemma native_name_differs f : f ≠ (f ++ "$native")%string.
Proof. induction f as [|c f IH]; simpl; [discriminate|]. by intros [= ?]. Qed.

Lemma empty_spec s : empty s = false ↔ s ≠ ""%string.
Proof. apply String.eqb_neq. Qed.

Lemma InitConfig_spec n g ok g' :
  InitConfig n g = (ok, g') →
  ok = names_given n ∧ (ok = false → g' = g) ∧
  (ok = true → g = no_names ∨ usable_names g → usable_names g').
Proof.
  unfold InitConfig, names_given.
  destruct (empty (info_class_name n)) eqn:Ec; [by intros [= <- <-]|].
  destruct (empty (info_field_name n)) eqn:Ef; [by intros [= <- <-]|].
  destruct (empty (info_method_name n)) eqn:Em; [by intros [= <- <-]|].
  apply empty_spec in Ec, Ef, Em. cbn [negb andb generated_native_field_name]. unfold usable_names.
  destruct (empty (generated_native_field_name g)) eqn:En.
  - intros [= <- <-]. split_and!; [done|done|]. intros _ _. simpl. split_and!; try done.
    + by destruct (info_field_name n).
    + apply native_name_differs.
  - apply empty_spec in En. destruct (String.eqb_spec (generated_native_field_name g) (info_field_name n));
      cbn [negb]; intros [= <- <-]; (split_and!; [done|done|]); intros _ [-> | (H1 & H2 & H3 & H4 & H5)]; simpl in *;
      done || (split_and!; congruence).
Qed.

Section sequences.
Context (cur : Arch) (sdk_int : Z).
Abbreviation calls := (calls cur sdk_int).

(** After a failed initialization every call fails, and does nothing. *)
Lemma calls_failed cs l : kInitialized l = Some false → calls cs l = Some (replicate (List.length cs) false, l).
Proof.
  intros Hl. induction cs as [|c cs IH]; simpl; [done|].
  unfold Init_of, Init. rewrite Hl. simpl. by rewrite IH.
Qed.

(** After a successful one the calls only change the names. *)
Lemma calls_initialized cs l :
  kInitialized l = Some true → usable_names (names l) →
  ∃ g, calls cs l = Some (map (λ c, names_given (call_names c)) cs, MkLibrary (Some true) g (jni l) (native l)) ∧
       usable_names g.
Proof.
  revert l. induction cs as [|c cs IH]; intros [k g j n] Hk Hg; simpl in *; subst k; [by exists g|].
  unfold Init_of, Init. simpl. destruct (InitConfig (call_names c) g) as [ok g1] eqn:E.
  destruct (InitConfig_spec _ _ _ _ E) as (-> & Hf & Ht). simpl.
  destruct (IH (MkLibrary (Some true) g1 j n)) as (g2 & -> & Hg2); [done| |by exists g2].
  simpl. destruct (names_given _); [by apply Ht; [|right]|by rewrite Hf].
Qed.

(** Finalizing the references keeps what they refer to. *)
Lemma finalize_references_get j r : jni_ok j → GlobalRef.get r (finalize_references j) = GlobalRef.get r j.
Proof.
  intros [Hl _ _]. unfold GlobalRef.get, index_of. simpl. by apply (list_finalize _ Hl).
Qed.

(** What [InitJNI] has to establish, after [finalize]. *)
Definition jni_ready (j : Jni) : Prop :=
  (∀ x lk, Require x lk ∈ InitJNI_steps sdk_int → var j x ≠ 0) ∧
  (∀ r x, SetRef r x ∈ InitJNI_steps sdk_int → GlobalRef.get r j = var j x).

(** The functions [InitInfo] must have are there. *)
Definition complete_info (c : InitCall) : bool := call_has_hooker c && call_has_resolver c.

(** C25: a sequence of calls of [Init] is always defined.  The calls before the
    first complete [InitInfo] fail without effect; that call runs the
    initializers, once for the whole sequence: when they fail every later call
    fails too, and when they succeed every later call only changes names, and
    returns whether it was given any.  In the latter case every required class
    and id is there, the global references refer to what they were set from,
    and the names in use are non-empty with different names for the two fields
    of the generated class. *)
Theorem init_once cs u h :
  ∃ oks l, calls cs (initial_library cur u h) = Some (oks, l) ∧
  match kInitialized l with
  | None => l = initial_library cur u h ∧ oks = replicate (List.length cs) false ∧
            Forall (λ c, complete_info c = false) cs
  | Some false => oks = replicate (List.length cs) false
  | Some true =>
      jni_ready (jni l) ∧ usable_names (names l) ∧
      ∃ pre c post, cs = pre ++ c :: post ∧ Forall (λ c, complete_info c = false) pre ∧
        oks = replicate (List.length pre) false ++ true :: map (λ c, names_given (call_names c)) post ∧
        InitNative cur sdk_int (call_info c) (call_env c) (initial_native cur u h) = (true, native l)
  end.
Proof.
  induction cs as [|c cs IH]; [by eexists _, _|].
  simpl. unfold Init_of, Init, complete_info at 2. simpl.
  destruct (call_has_hooker c && call_has_resolver c) eqn:Ec; [clear IH|].
  2: { rewrite <-negb_andb, Ec. simpl. destruct IH as (oks & l & -> & H). exists (false :: oks), l. split; [done|].
       destruct (kInitialized l) as [[]|]; [|by simplify_eq/=|].
       - destruct H as (Hj & Hn & pre & c' & post & -> & Hpre & -> & H). split_and!; [done..|].
         exists (c :: pre), c', post. split_and!; [done| |done..]. by constructor.
       - destruct H as (-> & -> & H). split_and!; [done..|]. by constructor. }
  rewrite <-negb_andb, Ec. simpl.
  destruct (InitConfig _ no_names) as [ok g] eqn:E. destruct (InitConfig_spec _ _ _ _ E) as (-> & _ & Hg).
  destruct (names_given (call_names c)); cbn [negb].
  2: { simpl. rewrite calls_failed by done. by eexists _, _. }
  destruct (InitJNI_spec (jni_class (call_jni c)) (jni_super (call_jni c)) (jni_method (call_jni c))
    (jni_static_method (call_jni c)) (jni_field (call_jni c)) (jni_type_field (call_jni c)) sdk_int) as (b & j & -> & Hok & Hj).
  simpl. destruct b; cbn [negb].
  2: { simpl. rewrite calls_failed by done. by eexists _, _. }
  destruct (InitNative cur sdk_int (call_info c) (call_env c) _) as [ok n] eqn:En. destruct ok; cbn [negb].
  2: { simpl. rewrite calls_failed by done. by eexists _, _. }
  simpl. destruct (calls_initialized cs (MkLibrary (Some true) g (finalize_references j) n)) as (g' & -> & Hg');
    [done|by apply Hg; [|left]|].
  simpl. eexists _, _. split; [done|]. simpl. destruct (Hj eq_refl) as [Hreq Href]. split_and!; [|done|].
  - split; [done|]. intros r x Hr. rewrite finalize_references_get by done. by apply Href.
  - by exists [], c, cs.
Qed.
End sequences.

(** ** A concrete initialization *)

(** Resolves every symbol but [SetRuntimeDebugState] and the GDB helper. *)
Definition full_info : InitInfo := {|
  inline_hooker f _ := (f + 1, f + 2);
  inline_unhooker := None;
  art_symbol_resolver s _ :=
    if bool_decide (s ∈ [FixedStringOf SetRuntimeDebugState_; FixedStringOf (Thread_symbol "CurrentFromGdb_")])
    then 0 else 0x1000;
  art_symbol_prefix_resolver := None;
  dexfile_symbol_resolver := Some (λ _ _, 0x1000);
|}.

Definition full_env : NativeEnv := {|
  unsafe_lookups := {| find_unsafe_class := 1; the_unsafe_field := 2; the_unsafe_value := 3; allocated_unsafe := 4;
                       get_unsafe_method _ _ := 5; array_base_offset := 12 |};
  art_env := example_env;
  replace_of _ := 0x7000;
  vm_probe := {| vm_runtime_class := true; vm_get_runtime := true; vm_is_java_debuggable := true;
                 vm_runtime := true; vm_debuggable := true |};
  class_offset_of _ := 8;
  java_vm := 0; fake_runtime := 0x9000;
  set_debug_state _ _ m := m;
  runtime_memory := store (λ _, 0) 8 0x1000 0x5000;
  RegisterNatives_fn := 0x2000; UnregisterNatives_fn := 0x2100; optimized_code := 0x2200;
  dex_lookups := sample_lookups;
  fill_method := 0; fill_replace := 0
|}.

Definition ready_native : Native :=
  (InitNative kArm64 34 full_info full_env
     (initial_native kArm64 no_unsafe (λ _, mkMethod 0 0 0 0 0))).2.

Lemma ready_native_run :
  InitNative kArm64 34 full_info full_env (initial_native kArm64 no_unsafe (λ _, mkMethod 0 0 0 0 0)) =
  (true, ready_native).
Proof. rewrite (surjective_pairing (InitNative _ _ _ _ _)). apply (f_equal2 pair); [by vm_compute|exact eq_refl]. Qed.

Example InitNative_ready_witness :
  trampoline_bytes ready_native = trampoline kArm64 24 ∧
  java_debug_state ready_native = Some kNonJavaDebuggable ∧
  (stopped_world (syms ready_native) =
     [GCConstructor; SuspendAllConstructor; Body; SuspendAllDestructor; GCDestructor] ∨
   stopped_world (syms ready_native) = [GCConstructor; SuspendVM; Body; ResumeVM; GCDestructor]).
Proof.
  destruct (InitNative_ready kArm64 34 full_info full_env no_unsafe (λ _, mkMethod 0 0 0 0 0) ready_native
    ready_native_run)
    as ((c & Hc & _ & Ht) & Hw & _ & _ & Hd & _).
  split_and!; [|exact Hd|exact Hw].
  rewrite Ht. vm_compute in Hc. injection Hc as <-. reflexivity.
Defined.
