(* ===== verification/HideApi.v ===== *)
(** * The functions that hide methods from stack traces

    [lsplant.cc], 1347 to 1385: [MakeMethodHidden], [MakeClassHidden] and
    [MakeClassVisible], on the set of hidden methods of [Stack.v] and the events
    of [Threads.v].  Suspensions nest, and each is ended by the function of its own
    kind ([nested]); where the runtime has only half of [art::ScopedSuspendAll] it
    is not ([half_found_mismatch]). *)

From S2P Require Import Prelude Memory Platform HookHelper ArtMethod MirrorClass Stack Threads LibraryInit.

(** The hidden methods, and what was done to the threads of the runtime so far. *)
Record Hidden := MkHidden { hidden_methods : gset Z; events : list Event }.

Section hide_api.
Context (h : Methods) (cur : Arch) (sdk_int art_method_size object_array_base_offset
         methods_offset virtual_methods_offset : Z) (m : mem).
(** The symbols the initializers found. *)
Context (syms : Syms).
(** What JNI and the runtime answer: the method of a reflected one, whether an
    object is an executable, and the mirror object and members of a class. *)
Context (FromReflectedMethod : Z → Z) (is_executable : Z → bool).
Context (FromReflectedClass : Z → Z) (constructors_of methods_of : Z → list Z).

Abbreviation Hide clazz := (HideClass h cur sdk_int art_method_size object_array_base_offset methods_offset
  virtual_methods_offset m (FromReflectedClass clazz) (constructors_of clazz) (methods_of clazz)).
Abbreviation Show clazz := (ShowClass h cur sdk_int art_method_size object_array_base_offset methods_offset
  virtual_methods_offset m (FromReflectedClass clazz) (constructors_of clazz) (methods_of clazz)).
Abbreviation concrete clazz := (concrete_methods h cur sdk_int art_method_size object_array_base_offset methods_offset
  virtual_methods_offset m (FromReflectedClass clazz) (constructors_of clazz) (methods_of clazz)).

Definition MakeMethodHidden (method : Z) (w : Hidden) : bool * Hidden :=
  if (method =? 0) || negb (is_executable method) then (false, w)
  else
    let '(ok, hidden) := HideMethod h (FromReflectedMethod method) (hidden_methods w) in
    (ok, MkHidden hidden (events w)).

(** The body of the next two functions runs inside both scopes. *)
Definition in_stopped_world (body : gset Z → Z * gset Z) (w : Hidden) : Z * Hidden :=
  let '(n, hidden) := body (hidden_methods w) in
  (n, MkHidden hidden (events w ++ stopped_world syms)).

Definition MakeClassHidden (clazz : Z) (w : Hidden) : Z * Hidden :=
  if clazz =? 0 then (0, w) else in_stopped_world (Hide clazz) w.
Definition MakeClassVisible (clazz : Z) (w : Hidden) : Z * Hidden :=
  if clazz =? 0 then (0, w) else in_stopped_world (Show clazz) w.

(** The call that a call ends. *)
Definition opening (e : Event) : option Event :=
  match e with
  | SuspendAllDestructor => Some SuspendAllConstructor
  | ResumeVM => Some SuspendVM
  | GCDestructor => Some GCConstructor
  | _ => None
  end.

Definition suspends (e : Event) : bool :=
  match e with SuspendAllConstructor | SuspendVM => true | _ => false end.

(** The calls that are open after the events, innermost first, when [open] are
    before; [None] when a call does not end the innermost open one, or when code
    that edits methods runs while not exactly one suspension is in force. *)
Fixpoint nested (open l : list Event) : option (list Event) :=
  match l with
  | [] => Some open
  | Body :: l => if count_if suspends open =? 1 then nested open l else None
  | e :: l =>
      match opening e with
      | None => nested (e :: open) l
      | Some e' =>
          match open with
          | o :: open => if bool_decide (o = e') then nested open l else None
          | [] => None
          end
      end
  end.

Lemma nested_app open l l' : nested open (l ++ l') = o ← nested open l; nested o l'.
Proof.
  revert open. induction l as [|[] l IH]; intros open; simpl; auto; try (by destruct (_ =? _));
    destruct open as [|o open]; try done; by case_bool_decide.
Qed.

(** Where the runtime has both functions of [art::ScopedSuspendAll], or not its
    constructor, every suspension is ended by the function of its own kind. *)
Lemma world_ready_nested info :
  world_ready info sdk_int syms → half_found info = false → nested [] (stopped_world syms) = Some [].
Proof. unfold world_ready. cbv zeta. intros Hw Hf. rewrite Hf in Hw. destruct Hw as [-> | ->]; by destruct (_ <=? _). Qed.

(** Where it has the constructor but not the destructor, the suspension of the
    constructor is ended by [ResumeVM]. *)
Theorem half_found_mismatch info :
  world_ready info sdk_int syms → half_found info = true → nested [] (stopped_world syms) = None.
Proof. unfold world_ready. cbv zeta. intros Hw Hf. rewrite Hf in Hw. rewrite Hw. by destruct (_ <=? _). Qed.

(** A method that is hidden already. *)
Lemma MakeMethodHidden_again clazz method w :
  FromReflectedMethod method ∈ concrete clazz → concrete clazz ⊆ hidden_methods w →
  MakeMethodHidden method w = (false, w).
Proof.
  intros Hm Hsub. unfold MakeMethodHidden, HideMethod. destruct (_ || _); [done|].
  assert (FromReflectedMethod method ∈ hidden_methods w) as Hin by (by apply Hsub).
  destruct (IsAbstract h (FromReflectedMethod method)); [by destruct w|].
  rewrite bool_decide_eq_false_2 by (intros Hn; by apply Hn).
  assert ({[FromReflectedMethod method]} ∪ hidden_methods w = hidden_methods w) as -> by set_solver. by destruct w.
Qed.

(** C34: after the initializers succeeded, where the runtime does not have the
    constructor of [art::ScopedSuspendAll] without its destructor, hiding a class
    hides its methods that are not abstract and returns how many were not hidden
    yet; hiding one of them again changes nothing; making the class visible takes
    them out again, which undoes the hiding when none was hidden before; both edit
    the set while exactly one suspension is in force, ended by the function of its
    own kind, inside the critical section of the collector where there is one, and
    leave nothing open. *)
Theorem hide_api info clazz w :
  world_ready info sdk_int syms → half_found info = false → clazz ≠ 0 → nested [] (events w) = Some [] →
  let '(n, w1) := MakeClassHidden clazz w in
  let '(n2, w2) := MakeClassVisible clazz w1 in
  hidden_methods w1 = concrete clazz ∪ hidden_methods w ∧
  n = Z.of_nat (size (hidden_methods w1)) - Z.of_nat (size (hidden_methods w)) ∧
  (∀ method, FromReflectedMethod method ∈ concrete clazz → MakeMethodHidden method w1 = (false, w1)) ∧
  hidden_methods w2 = hidden_methods w ∖ concrete clazz ∧
  (concrete clazz ## hidden_methods w → hidden_methods w2 = hidden_methods w ∧ n2 = n) ∧
  (∃ l, events w1 = events w ++ l ∧ Body ∈ l ∧ nested [] l = Some []) ∧
  (∃ l, events w2 = events w1 ++ l ∧ Body ∈ l ∧ nested [] l = Some []) ∧
  nested [] (events w2) = Some [].
Proof.
  intros Hw Hf Hc Hs. unfold MakeClassHidden, MakeClassVisible, in_stopped_world.
  rewrite (proj2 (Z.eqb_neq clazz 0)) by done.
  pose proof (hide_show_class h cur sdk_int art_method_size object_array_base_offset methods_offset
    virtual_methods_offset m (FromReflectedClass clazz) (constructors_of clazz) (methods_of clazz) (hidden_methods w)) as H.
  destruct (Hide clazz (hidden_methods w)) as [n hidden1]. cbn [hidden_methods events].
  destruct (Show clazz hidden1) as [n2 hidden2]. destruct H as (-> & -> & -> & H2 & H).
  pose proof (world_ready_nested info Hw Hf) as Hn.
  assert (Body ∈ stopped_world syms) as Hbody by (unfold stopped_world; set_solver).
  split_and!; simpl; auto; [|set_solver|by eexists|by eexists|by rewrite !nested_app, Hs; simpl; rewrite Hn; simpl].
  intros method Hm. apply (MakeMethodHidden_again clazz); [done|]. simpl. set_solver.
Qed.
End hide_api.

(** After [InitNative] of [LibraryInit.v], the class 7 whose members are the
    methods 0x100 and 0x200; 0x300 is hidden. *)
Lemma ready_world : world_ready full_info 34 (syms ready_native).
Proof. vm_compute. by left. Qed.

Lemma full_not_half : half_found full_info = false.
Proof. by vm_compute. Qed.

Example hide_api_witness :
  let hide := MakeClassHidden sample_methods kArm64 34 0 0 0 0 (λ _, 0) (syms ready_native) (λ _, 0) (λ _, [0x100]) (λ _, [0x200]) 7 in
  let show := MakeClassVisible sample_methods kArm64 34 0 0 0 0 (λ _, 0) (syms ready_native) (λ _, 0) (λ _, [0x100]) (λ _, [0x200]) 7 in
  let '(n, w1) := hide (MkHidden {[0x300]} []) in
  let '(n2, w2) := show w1 in hidden_methods w2 = {[0x300]} ∧ n2 = n ∧ nested [] (events w2) = Some [].
Proof.
  pose proof (hide_api sample_methods kArm64 34 0 0 0 0 (λ _, 0) (syms ready_native) (λ r, r) (λ _, true) (λ _, 0)
    (λ _, [0x100]) (λ _, [0x200]) full_info 7 (MkHidden {[0x300]} []) ready_world full_not_half ltac:(done) eq_refl) as H.
  cbv zeta. destruct (MakeClassHidden _ _ _ _ _ _ _ _ _ _ _ _ _ _) as [n w1].
  destruct (MakeClassVisible _ _ _ _ _ _ _ _ _ _ _ _ _ _) as [n2 w2].
  destruct H as (_ & _ & _ & _ & H & _ & _ & Hs). destruct H as [H1 H2]; [cbn [hidden_methods]; apply disjoint_singleton_r; by vm_compute|].
  by split_and!.
Defined.
