(* ===== verification/MethodIds.v ===== *)
(** * Methods, their ids and their names

    [art/runtime/art_method.cxx]: finding the [ArtMethod] of a reflected method
    and of a method id, looking methods up, the shorty and the pretty name, and
    the hook on [GetQuickFrameInfo].  Ids of [JniIdManager] are in [Jit.v]. *)

From S2P Require Import Prelude Memory Platform Records Vm Jit.

(** The runtime's functions the library has resolved. *)
Record MethodSymbols := MkMethodSymbols {
  GetShorty_ : option (Z → string);
  GetMethodShortyL_ : option (Z → string);
  GetMethodShorty_ : option (Z → string);
  PrettyMethod_ : option (Z → bool → string);
  PrettyMethodStatic_ : option (Z → bool → string);
  PrettyMethodMirror_ : option (Z → bool → string)
}.

Section methods.
Context (cur : Arch) (sdk_int : Z).
Context (art_method_field : Z).
(** What JNI and the runtime answer: the field [artMethod] of a reflected method,
    [JNIEnv::FromReflectedMethod], the reflected method of an id, the ids of a
    name and a signature, and [Runtime::Current()->GetJniIdManager()]. *)
Context (GetLongField : Z → Z) (env_FromReflectedMethod : Z → Z).
Context (ToReflectedMethod : Z → Z → bool → Z).
Context (GetStaticMethodID GetMethodID : Z → string → string → Z).
Context (id_manager : Z) (DecodeMethodId_ : option (Z → Z)).

Definition ToJMethodID (this : Z) : Z := this.

Definition FromReflectedMethod (method : Z) : Z :=
  if negb (art_method_field =? 0) then wrap (kPointerBits cur) (GetLongField method)
  else env_FromReflectedMethod method.

Definition FromJMethodID (clazz method_id : Z) (is_static : bool) : Z :=
  if (sdk_int <? __ANDROID_API_R__) || negb (IsIndexId cur method_id) then method_id
  else
    let method := if negb (id_manager =? 0) then DecodeMethodId DecodeMethodId_ method_id else 0 in
    if negb (method =? 0) then method
    else FromReflectedMethod (ToReflectedMethod clazz method_id is_static).

Definition FindMethod (kIsStatic : bool) (clazz : Z) (method_name signature : string) : Z :=
  let method_id := if kIsStatic then GetStaticMethodID clazz method_name signature
                   else GetMethodID clazz method_name signature in
  FromJMethodID clazz method_id kIsStatic.

(** [GetShorty], [CanGetMethodShorty] and [PrettyMethod]. *)
Definition GetShorty (s : MethodSymbols) (this : Z) : string :=
  match GetShorty_ s, GetMethodShortyL_ s, GetMethodShorty_ s with
  | Some f, _, _ => f this
  | None, Some f, _ => f (ToJMethodID this)
  | None, None, Some f => f (ToJMethodID this)
  | None, None, None => ""
  end%string.

Definition CanGetMethodShorty (s : MethodSymbols) : bool :=
  match GetShorty_ s, GetMethodShortyL_ s, GetMethodShorty_ s with None, None, None => false | _, _, _ => true end.

Definition PrettyMethod (s : MethodSymbols) (this : Z) (with_signature : bool) : string :=
  match PrettyMethod_ s, PrettyMethodStatic_ s, PrettyMethodMirror_ s with
  | Some f, _, _ => f this with_signature
  | None, Some f, _ => f this with_signature
  | None, None, Some f => f this with_signature
  | None, None, None => "null sym"
  end%string.

(** The hook on [GetQuickFrameInfo]: the backup of a proxy method is answered for
    as the abstract method. *)
Definition GetQuickFrameInfo {A} (abstract_method : Z) (backup : Z → A) (v : Vm) (thiz : Z) : A :=
  if bool_decide (thiz ∈ backuped_proxy_methods_ (registry v)) then backup abstract_method else backup thiz.

(** ** Ids and methods *)

(** What is assumed of the runtime: [encode] gives a method an id; an id that is an
    index is decoded to the method, and reflected as an object of the method; an
    id that is not is the method. *)
Definition is_pointer (m : Z) : Prop := 0 <= m < 2 ^ kPointerBits cur.

Record ids_ok (encode : Z → Z) : Prop := {
  id_pointer m : is_pointer m → IsIndexId cur (encode m) = false → encode m = m;
  id_decoded f m : is_pointer m → DecodeMethodId_ = Some f → IsIndexId cur (encode m) = true → f (encode m) = m;
  id_reflected clazz is_static m : is_pointer m → IsIndexId cur (encode m) = true →
    FromReflectedMethod (ToReflectedMethod clazz (encode m) is_static) = m;
  id_pointers m : is_pointer m → sdk_int < __ANDROID_API_R__ → encode m = m
}.

Lemma FromJMethodID_encode encode clazz is_static m :
  ids_ok encode → is_pointer m → m ≠ 0 → FromJMethodID clazz (encode m) is_static = m.
Proof.
  intros [Hp Hd Hr Ho] Hm H0. unfold FromJMethodID.
  destruct (Z.ltb_spec sdk_int __ANDROID_API_R__); cbn [orb]; [by apply Ho|].
  destruct (IsIndexId cur (encode m)) eqn:E; cbn [negb]; [|by apply Hp].
  destruct (id_manager =? 0); cbn [negb].
  - rewrite Z.eqb_refl. cbn [negb]. by apply Hr.
  - unfold DecodeMethodId. destruct DecodeMethodId_ as [f|] eqn:Ef.
    + rewrite (Hd f m) by done. by rewrite (proj2 (Z.eqb_neq m 0)).
    + rewrite Z.eqb_refl. cbn [negb]. by apply Hr.
Qed.

(** A pointer to a method is no index. *)
Lemma pointer_not_index m : m ≠ 0 → (kPointerSize cur | m) → IsIndexId cur m = false.
Proof.
  intros H0 [k ->]. unfold IsIndexId. rewrite (proj2 (Z.eqb_neq _ 0)) by done. cbn [orb].
  assert (∃ n, 0 <= n ∧ kPointerSize cur = 2 ^ n) as (n & Hn & ->) by (destruct cur; (by exists 2) || by exists 3).
  replace (2 ^ n - 1) with (Z.ones n) by (rewrite Z.ones_equiv; lia).
  rewrite Z.land_ones, Z.mod_mul by (done || by apply Z.pow_nonzero). done.
Qed.

(** C33: an id turns back into the method it was made of: the pointer itself, which is
    no index, and the ids of the runtime, decoded by it or by reflection.  The
    hook on ids makes a backup's id turn into the hooked method, so that an id
    handed out while the backup runs denotes the method that was called. *)
Theorem method_ids_roundtrip encode v clazz is_static m :
  ids_ok encode → is_pointer m → m ≠ 0 → registry_ok (registry v) → is_pointer (IsBackup (registry v) m) →
  ((kPointerSize cur | m) → FromJMethodID clazz (ToJMethodID m) is_static = m) ∧
  FromJMethodID clazz (EncodeGenericId encode v m) is_static =
    (if negb (IsBackup (registry v) m =? 0) then IsBackup (registry v) m else m) ∧
  (hooked v m →
   FromJMethodID clazz (EncodeGenericId encode v (IsHooked (registry v) m)) is_static = m ∧
   FromJMethodID clazz (EncodeGenericId encode v m) is_static = m).
Proof.
  intros Hids Hm H0 Hreg Hb. split_and!.
  - intros Ha. unfold FromJMethodID, ToJMethodID. by rewrite pointer_not_index, orb_true_r.
  - unfold EncodeGenericId. destruct (Z.eqb_spec (IsBackup (registry v) m) 0); by apply FromJMethodID_encode.
  - intros Hh. destruct (EncodeGenericId_backup encode v m Hreg Hh) as [-> ->].
    by split; apply FromJMethodID_encode.
Qed.
End methods.

(** A runtime that gives odd numbers as ids, has no decoder and reflects them; the
    method 0x100 is hooked and 0x200 is its backup. *)
Lemma sample_ids_ok :
  ids_ok kArm64 34 0 (λ _, 0) (λ r, r) (λ _ id _, (id - 1) / 2) None (λ m, 2 * m + 1).
Proof.
  assert (∀ m, (2 * m + 1 - 1) / 2 = m) as Hd by (intros m; replace (2 * m + 1 - 1) with (m * 2) by lia; by apply Z.div_mul).
  assert (∀ m, IsIndexId kArm64 (2 * m + 1) = true) as Hi.
  { intros m. unfold IsIndexId. apply orb_true_iff. right.
    assert (Z.odd (Z.land (2 * m + 1) 7) = true) as Ho.
    { rewrite <-Z.bit0_odd, Z.land_spec, Z.bit0_odd, Z.add_comm, Z.odd_add_mul_2. done. }
    destruct (Z.eqb_spec (Z.land (2 * m + 1) (kPointerSize kArm64 - 1)) 0) as [E|]; [|done].
    change (kPointerSize kArm64 - 1) with 7 in E. by rewrite E in Ho. }
  split; intros; try done; [|by apply Hd].
  by rewrite Hi in *.
Qed.

Example method_ids_roundtrip_witness :
  FromJMethodID kArm64 34 0 (λ _, 0) (λ r, r) (λ _ id _, (id - 1) / 2) 0 None 7
    (EncodeGenericId (λ m, 2 * m + 1) (hooked_vm empty_registry) 0x200) false = 0x100.
Proof.
  refine (proj1 (proj2 (proj2 (method_ids_roundtrip kArm64 34 0 (λ _, 0) (λ r, r) (λ _ id _, (id - 1) / 2) 0 None
    (λ m, 2 * m + 1) (hooked_vm empty_registry) 7 false 0x100 sample_ids_ok _ _ _ _)) _)).
  - by vm_compute.
  - done.
  - apply hooked_vm_ok.
  - by vm_compute.
  - by eexists.
Defined.
