(* ===== verification/BuildDex.v ===== *)
(** * Building and loading a hooker class

    [BuildDex] of [lsplant.cc] as a whole: the class of [HookerDex.v] is given to
    the runtime by [OpenInMemoryHookerDex] of [DexFile.v] and loaded with a class
    loader that [ObjectCollections.v] keeps for each loader of the embedder. *)

From stdpp Require Import pretty.
From S2P Require Import Prelude Memory Platform HookHelper ArtMethod ObjectCollections Reflection.
From S2P Require Import HookApi HookerDex Arena DexFile.
From Stdlib Require Import Ascii.
From Stdlib Require String.

(** The calls of JNI that make class loaders, load classes and register natives. *)
Inductive JniCall : Type :=
  | NewPathClassLoader (class_loader : Z)
  | LoadClass (class_loader loader : Z) (name : string)
  | RegisterEntry (target_class : Z) (name : string) (type : ascii).

(** What the DEX builder, the runtime and JNI answer during a call: the image of a
    class, as for [OpenInMemoryHookerDex], the object of an opened file, and null
    or a class loader, a class, and its members. *)
Record BuildEnv := MkBuildEnv {
  CreateImage : string → HookerClass → list Z;
  open_ : OpenCall → Z * option string;
  close_guard : Z;
  mapped : option Z;
  malloc_ : Z;
  java_object : HookerDex → Z;
  new_class_loader : Z → Z;
  load_class : Z → string → Z → Z;
  static_field : Z → string → Z;
  static_art_method : Z → string → Z;
  static_method : Z → string → Z
}.

(** The globals [BuildDex] uses, and the calls it has made. *)
Record BuildState := MkBuild {
  load_state : LoadState;
  hooker_class_loaders : ObjectMap.t;
  loaded_classes : Z;
  calls : list JniCall
}.

Section build.
Context (cur : Arch) (sdk_int : Z) (kDebugBuild : bool).
Context (generated_class_name generated_source_name generated_method_name
         generated_field_name generated_native_field_name : string).
Context (d : DexStatics) (s : Syms) (dex_file_init_with_cl dex_file_init : Z).
Abbreviation w := (kPointerBits cur).
Implicit Types (st : BuildState) (e : BuildEnv).

Definition hooker_class_name (n : Z) : string := (generated_class_name +:+ pretty (Z.to_N n))%string.

(** The class loader of hooker classes: the one that is kept, or a new one. *)
Definition class_loader_for e (class_loader : Z) st : option (Z * BuildState) :=
  let loader := ObjectMap.get class_loader (hooker_class_loaders st) in
  if negb (loader =? 0) then Some (loader, st)
  else
    let loader := new_class_loader e class_loader in
    '(_, loaders) ← ObjectMap.add class_loader loader (hooker_class_loaders st);
    Some (loader, MkBuild (load_state st) loaders (loaded_classes st) (calls st ++ [NewPathClassLoader class_loader])).

Definition with_call (call : JniCall) st : BuildState :=
  MkBuild (load_state st) (hooker_class_loaders st) (loaded_classes st) (calls st ++ [call]).

(** The entry of a fast-native hooker; [None] is [abort]. *)
Definition register_entry (q : DexRequest) (return_type : ascii) (target_class : Z) (name : string) st : option BuildState :=
  if dex_is_fast_native q then
    t ← native_entry_type return_type;
    Some (with_call (RegisterEntry target_class name t) st)
  else Some st.

(** The class, the hooker field, the hook method and the backup; nulls on failure. *)
Definition BuildDex e (class_loader : Z) (q : DexRequest) st : option ((Z * Z * Z * Z) * BuildState) :=
  let failed := (0, 0, 0, 0) in
  match dex_shorty q with
  | EmptyString => Some (failed, st)
  | String return_type params =>
      let name := hooker_class_name (loaded_classes st) in
      let hooker := class_of_request generated_method_name generated_native_field_name return_type
        (String.list_ascii_of_string params) q in
      '(dex, loaded) ← OpenInMemoryHookerDex cur sdk_int kDebugBuild generated_source_name (open_ e) d s
        (close_guard e) dex_file_init_with_cl dex_file_init (mapped e) (malloc_ e) (CreateImage e name hooker)
        (load_state st);
      let st := MkBuild loaded (hooker_class_loaders st) (wrap w (loaded_classes st + 1)) (calls st) in
      let java_dex_file := match dex with NoDex => 0 | _ => java_object e dex end in
      if java_dex_file =? 0 then Some (failed, st)
      else
        '(loader, st) ← class_loader_for e class_loader st;
        let target_class := load_class e java_dex_file name loader in
        let st := with_call (LoadClass class_loader loader name) st in
        if target_class =? 0 then Some (failed, st)
        else
          st ← register_entry q return_type target_class (hook_name hooker) st;
          Some ((target_class, static_field e target_class generated_field_name,
                 static_art_method e target_class (hook_name hooker),
                 static_method e target_class (backup_name hooker)), st)
  end.

(** ** Calls one after the other *)

(** Fewer classes are built than [loaded_classes] can count. *)
Definition build_step st st' : Prop :=
  loaded_classes st + 1 < 2 ^ w ∧ ∃ e class_loader q r, BuildDex e class_loader q st = Some (r, st').

Definition nothing_built (loaded : LoadState) : BuildState := MkBuild loaded ObjectMap.empty 0 [].

Definition loaded_name (c : JniCall) : option string :=
  match c with LoadClass _ _ name => Some name | _ => None end.

Record build_ok st : Prop := {
  build_map : map_ok (hooker_class_loaders st);
  build_count : 0 <= loaded_classes st < 2 ^ w;
  build_names : NoDup (omap loaded_name (calls st));
  build_numbers name : name ∈ omap loaded_name (calls st) → ∃ n, 0 <= n < loaded_classes st ∧ name = hooker_class_name n;
  build_loaders class_loader loader name : LoadClass class_loader loader name ∈ calls st →
    class_loader ≠ 0 → loader ≠ 0 → ObjectMap.get class_loader (hooker_class_loaders st) = loader
}.

Lemma nothing_built_ok loaded : build_ok (nothing_built loaded).
Proof.
  split; simpl; [apply empty_map_ok| |constructor|set_solver|intros ? ? ? H; by apply elem_of_nil in H].
  split; [done|]. apply Z.pow_pos_nonneg; [done|]. by destruct cur.
Qed.

Lemma hooker_class_name_inj n n' : 0 <= n → 0 <= n' → hooker_class_name n = hooker_class_name n' → n = n'.
Proof.
  intros Hn Hn' E. apply (inj (String.append generated_class_name)), (inj pretty) in E. lia.
Qed.

(** A call that loads nothing and keeps the loaders. *)
Lemma other_call_ok call st :
  build_ok st → loaded_name call = None → build_ok (with_call call st).
Proof.
  intros [Hm Hc Hn Hk Hl] E. split; simpl; [done|done|..].
  - rewrite omap_app. simpl. by rewrite E, app_nil_r.
  - intros name. rewrite omap_app. simpl. rewrite E, app_nil_r. apply Hk.
  - intros cl l name [H|H%list_elem_of_singleton]%elem_of_app; [by apply (Hl cl l name)|by subst].
Qed.

(** Getting a class loader: the one of [class_loader] is kept from then on. *)
Lemma class_loader_for_ok e class_loader st :
  build_ok st →
  ∃ loader st', class_loader_for e class_loader st = Some (loader, st') ∧ build_ok st' ∧
    loaded_classes st' = loaded_classes st ∧ omap loaded_name (calls st') = omap loaded_name (calls st) ∧
    (class_loader ≠ 0 → ObjectMap.get class_loader (hooker_class_loaders st') = loader).
Proof.
  intros Hst. pose proof Hst as [Hm Hc Hn Hk Hl]. unfold class_loader_for.
  destruct (Z.eqb_spec (ObjectMap.get class_loader (hooker_class_loaders st)) 0) as [E|E]; cbn [negb];
    [|by exists (ObjectMap.get class_loader (hooker_class_loaders st)), st].
  assert (∀ loaders, map_ok loaders →
    (∀ k, k ≠ 0 → ObjectMap.get k (hooker_class_loaders st) ≠ 0 → ObjectMap.get k loaders = ObjectMap.get k (hooker_class_loaders st)) →
    build_ok (MkBuild (load_state st) loaders (loaded_classes st) (calls st ++ [NewPathClassLoader class_loader]))) as Hnew.
  { intros loaders Hok Hget. apply (other_call_ok (NewPathClassLoader class_loader) (MkBuild (load_state st) loaders (loaded_classes st) (calls st))); [|done].
    split; simpl; try done. intros cl l name Hin H1 H2. pose proof (Hl cl l name Hin H1 H2) as Eg. rewrite Hget; [done..|congruence]. }
  assert (omap loaded_name (calls st ++ [NewPathClassLoader class_loader]) = omap loaded_name (calls st)) as Ho
    by (by rewrite omap_app, app_nil_r).
  destruct (decide (class_loader = 0)) as [->|H0].
  - eexists _, _. split; [done|]. split_and!; [|done|done|done]. apply Hnew; done.
  - destruct (map_add class_loader (new_class_loader e class_loader) (hooker_class_loaders st) Hm H0) as (loaders & Ea & Hok & Hget).
    rewrite Ea. simpl. eexists _, _. split; [done|]. split_and!; [|done|done|].
    + apply Hnew; [done|]. intros k Hk0 Hg. rewrite Hget. case_decide; [by subst|done].
    + intros _. simpl. rewrite Hget. by rewrite decide_True.
Qed.

(** Loading a class with a new name. *)
Lemma load_call_ok class_loader loader n st :
  build_ok st → 0 <= n < loaded_classes st → hooker_class_name n ∉ omap loaded_name (calls st) →
  (class_loader ≠ 0 → ObjectMap.get class_loader (hooker_class_loaders st) = loader) →
  build_ok (with_call (LoadClass class_loader loader (hooker_class_name n)) st).
Proof.
  intros [Hm Hc Hn Hk Hl] Hrange Hnew Hget. split; simpl; [done|done|..].
  - rewrite omap_app. simpl. apply NoDup_app. split; [done|]. split; [|apply NoDup_singleton].
    intros x Hx ->%list_elem_of_singleton. done.
  - intros name. rewrite omap_app. simpl. intros [H|H%list_elem_of_singleton]%elem_of_app; [by apply Hk|].
    subst. by exists n.
  - intros cl l name [H|H%list_elem_of_singleton]%elem_of_app; [by apply (Hl cl l name)|]. injection H as -> -> ->. auto.
Qed.

Lemma build_step_ok st st' : build_ok st → build_step st st' → build_ok st'.
Proof.
  intros Hst (Hroom & e & class_loader & q & r & E). unfold BuildDex in E.
  destruct (dex_shorty q) as [|return_type params]; [by simplify_eq|].
  destruct (OpenInMemoryHookerDex _ _ _ _ _ _ _ _ _ _ _ _ _ _) as [[dex loaded]|]; [|done]. simpl in E.
  pose proof Hst as [Hm Hc Hn Hk Hl].
  assert (wrap w (loaded_classes st + 1) = loaded_classes st + 1) as Ew by (apply wrap_small; lia). rewrite Ew in E.
  set (st1 := MkBuild loaded (hooker_class_loaders st) (loaded_classes st + 1) (calls st)) in *.
  assert (build_ok st1) as H1.
  { split; simpl; [done|lia|done| |done]. intros name Hin. destruct (Hk name Hin) as (n & ? & ->). exists n. split; [lia|done]. }
  destruct (_ =? 0); [by simplify_eq|].
  destruct (class_loader_for_ok e class_loader st1 H1) as (loader & st2 & El & H2 & E2 & En & Hg).
  rewrite El in E. simpl in E.
  assert (build_ok (with_call (LoadClass class_loader loader (hooker_class_name (loaded_classes st))) st2)) as H3.
  { apply load_call_ok; [done|rewrite E2; simpl; lia| |done]. rewrite En. intros Hin.
    destruct (Hk _ Hin) as (n & Hn' & Eq). apply hooker_class_name_inj in Eq; lia. }
  destruct (_ =? 0); [by simplify_eq|].
  unfold register_entry in E. destruct (dex_is_fast_native q); [|by simplify_eq/=].
  destruct (native_entry_type return_type); simplify_eq/=. by apply other_call_ok.
Qed.

Lemma builds_ok loaded st : rtc build_step (nothing_built loaded) st → build_ok st.
Proof. intros H. revert H. apply (rtc_invariant _ build_ok); [by apply build_step_ok|apply nothing_built_ok]. Qed.

(** C28: however many hooker classes are built one after another, and whatever the
    builder, the runtime and JNI answer: no two of them are loaded under the same
    name, and those of hooks with the same class loader, which is not null, are
    loaded by the same class loader, the one the map keeps, once one could be made.
    The null loader of the boot class path is not kept ([null_loader_not_kept]), and
    parallel builds can take one name ([BuildRaces.v]). *)
Theorem hooker_classes_apart loaded st :
  rtc build_step (nothing_built loaded) st →
  NoDup (omap loaded_name (calls st)) ∧
  ∀ class_loader, class_loader ≠ 0 → ∀ loader name, loader ≠ 0 → LoadClass class_loader loader name ∈ calls st →
    ObjectMap.get class_loader (hooker_class_loaders st) = loader ∧
    ∀ loader' name', loader' ≠ 0 → LoadClass class_loader loader' name' ∈ calls st → loader' = loader.
Proof.
  intros H. pose proof (builds_ok loaded st H) as Hok. split; [apply Hok|].
  intros cl H0 l n Hl H1. pose proof (build_loaders st Hok cl l n H1 H0 Hl) as Eg. split; [done|].
  intros l' n' Hl' H2. by rewrite <-Eg, (build_loaders st Hok cl l' n' H2 H0 Hl').
Qed.

(** Hooks of classes of the boot class path: null is no key of the map, and each
    build makes a class loader. *)
Lemma null_loader_not_kept e st :
  build_ok st →
  class_loader_for e 0 st = Some (new_class_loader e 0,
    MkBuild (load_state st) (hooker_class_loaders st) (loaded_classes st) (calls st ++ [NewPathClassLoader 0])).
Proof. done. Qed.

(** A fast-native hooker of a method that returns a [char] aborts. *)
Lemma char_entry_aborts q target_class name st :
  dex_is_fast_native q = true → register_entry q "C"%char target_class name st = None.
Proof. intros H. unfold register_entry. by rewrite H. Qed.
End build.

(** Two hooks with the class loader 70, on a runtime whose [DexFile] is made by its
    constructor 5: the second class is loaded by the class loader made for the
    first. *)
Definition sample_env (n : Z) : BuildEnv :=
  MkBuildEnv (λ _ _, []) (λ _, (0, None)) 0 None 0 (λ _, 40) (λ _, 700 + n) (λ _ _ _, 50 + n)
    (λ c _, c + 100) (λ c _, c + 200) (λ c _, c + 300).
Definition sample_request : DexRequest := Build_DexRequest "VI" "m" "Hooker" "callback" true false false true.
Definition sample_loaded : LoadState := MkLoad (MkAllocator [] 0 0 0 []) 3 (λ _, 0).
Definition build_sample (n : Z) (st : BuildState) : option ((Z * Z * Z * Z) * BuildState) :=
  BuildDex kArm64 34 false "LSPHooker" "" "{target}" "hooker" "hooker$native"
    (MkDexStatics 1 0 2 3 4 0 0 0 0 1) no_syms 5 0 (sample_env n) 70 sample_request st.
Definition built (n : Z) (st : BuildState) : BuildState :=
  match build_sample n st with Some (_, st) => st | None => st end.
Definition two_built : BuildState := built 2 (built 1 (nothing_built sample_loaded)).

Lemma two_built_reachable :
  rtc (build_step kArm64 34 false "LSPHooker" "" "{target}" "hooker" "hooker$native"
    (MkDexStatics 1 0 2 3 4 0 0 0 0 1) no_syms 5 0) (nothing_built sample_loaded) two_built.
Proof.
  eapply rtc_l; [|apply rtc_once].
  - split; [done|]. exists (sample_env 1), 70, sample_request, (51, 151, 251, 351). reflexivity.
  - split; [done|]. exists (sample_env 2), 70, sample_request, (52, 152, 252, 352). reflexivity.
Qed.

Example hooker_classes_apart_witness :
  calls two_built = [NewPathClassLoader 70; LoadClass 70 701 "LSPHooker0"; LoadClass 70 701 "LSPHooker1"] ∧
  ObjectMap.get 70 (hooker_class_loaders two_built) = 701.
Proof.
  split; [reflexivity|].
  destruct (hooker_classes_apart kArm64 34 false "LSPHooker" "" "{target}" "hooker" "hooker$native"
    (MkDexStatics 1 0 2 3 4 0 0 0 0 1) no_syms 5 0 sample_loaded two_built two_built_reachable) as [_ H].
  apply (H 70 ltac:(done) 701 "LSPHooker0"%string); [done|]. vm_compute. right. by left.
Defined.
