(* ===== verification/Calls.v ===== *)
(** * Calls of hooked methods

    The system of [System.v] together with what generates its hook methods:
    [HookMethod] asks [BuildDex] of [BuildDex.v] for a hooker class, the runtime
    loads it, and the effects of [HookMethod] on Java objects, the hooker field,
    the native callback and the data of a fast-native hooker, are carried out.  A
    call of a method goes where its entry point leads; a generated hook method
    then runs the instructions its class was built with. *)

From S2P Require Import Prelude Memory Platform HookHelper ArtMethod Records Trampoline Vm MirrorClass ClassLinker.
From S2P Require Import ClassInit Instrumentation Jit HookApi HookSpec System HookerDex DexFile BuildDex.
From Stdlib Require Import Ascii.
From Stdlib Require String.

(** A hook method of a hooker class the runtime has loaded: its class, the id of
    its hooker field, what was asked for and what was built. *)
Record LoadedHook := mkLoaded {
  loaded_class : Z;
  loaded_field : Z;
  loaded_request : DexRequest;
  loaded_code : HookerClass;
}.

(** The Java state that the effects of [HookMethod] write: hooker fields,
    registered natives by class and name, the data of fast-native hookers. *)
Record JavaState := mkJava {
  hooker_fields : gmap (Z * Z) Z;
  natives : gmap (Z * string) Z;
  native_data : gmap Z NativeHookerData;
}.

Definition apply_effect (j : JavaState) (e : Effect) : JavaState :=
  match e with
  | RegisterNatives cls name callback =>
      mkJava (hooker_fields j) (<[(cls, name) := callback]> (natives j)) (native_data j)
  | SetNativeHookerData cls d => mkJava (hooker_fields j) (natives j) (<[cls := d]> (native_data j))
  | SetHookerField cls field object =>
      mkJava (<[(cls, field) := object]> (hooker_fields j)) (natives j) (native_data j)
  | HideNativeMethod _ _ | SetAccessible _ | CopyReflectedFields _ _ | HideMethod _ => j
  end.

Definition apply_effects (l : list Effect) (j : JavaState) : JavaState := foldl apply_effect j l.

Record World := mkWorld {
  system : System;
  build : BuildState;
  loaded : gmap Z LoadedHook;          (* by hook method *)
  java : JavaState;
}.

(** What the embedder asked for when it hooked a method. *)
Record Binding := mkBinding {
  bound_target : TargetInfo;
  bound_request : DexRequest;
  bound_object : Z;
  bound_callback : Callback;
  bound_data : option NativeHookerData;
}.

(** Who a hook method calls: a method of the hooker object, by name or by id, or a
    native function. *)
Inductive Invoked : Type :=
  | Virtual (class_name name : string)
  | ById (id : Z)
  | Registered (callback : option Z).

(** What a call does: run the method's own code; run a generated body, which calls
    back and returns; or run the native entry, which returns what it makes of the
    callback's answer ([None] is [abort]). *)
Inductive CallResult : Type :=
  | OwnCode (code : Z * Z)
  | CallsBack (who : Invoked) (args : list Val) (returned : Val)
  | NativeReturns (result : option Z)
  | Crashes.

(** The types a shorty names. *)
Definition return_of (shorty : string) : ascii :=
  match shorty with String t _ => t | EmptyString => "V"%char end.
Definition params_of (shorty : string) : list ascii :=
  match shorty with String _ l => String.list_ascii_of_string l | EmptyString => [] end.

Section calls.
Context (cur : Arch) (c : Config).
Context (SetNotIntrinsic_ : option (Z → Methods → Methods)) (GetClassDef : Z → Z).
Context (bridge : Z) (interp : option (Z → Methods → Methods)).
Context (init_status : Z) (MoveObsoleteMethod_ : option (Z → Z → Methods → Methods)).
Context (app runtime_code : Z → Prop).
(** The configuration of the library, as [InitConfig] and [Init] leave it. *)
Context (sdk_int : Z) (kDebugBuild : bool) (GetShorty : Z → string).
Context (generated_class_name generated_source_name generated_method_name
         generated_field_name generated_native_field_name : string).
Context (d : DexStatics) (s : Syms) (dex_file_init_with_cl dex_file_init : Z).
(** Boxing, and what a callback that is given arguments returns. *)
Context (valueOf xxxValue : ascii → Z → Z) (answer : Invoked → list Val → Z).
Implicit Types (w : World) (e : BuildEnv) (q : DexRequest).

Abbreviation build_dex := (BuildDex.BuildDex cur sdk_int kDebugBuild generated_class_name generated_source_name
  generated_method_name generated_field_name generated_native_field_name d s dex_file_init_with_cl dex_file_init).
Abbreviation sys_step := (sys_step cur c SetNotIntrinsic_ GetClassDef bridge interp init_status
  MoveObsoleteMethod_ app runtime_code).

(** The class [BuildDex] builds. *)
Definition hooker_of q : option HookerClass :=
  match dex_shorty q with
  | EmptyString => None
  | String _ _ =>
      Some (class_of_request generated_method_name generated_native_field_name (return_of (dex_shorty q))
        (params_of (dex_shorty q)) q)
  end.

(** Loading the class makes its hook method known to the runtime. *)
Definition load_hook q (r : Z * Z * Z * Z) (l : gmap Z LoadedHook) : gmap Z LoadedHook :=
  let '(cls, field, hook, _) := r in
  match hooker_of q with
  | Some code => if (cls =? 0) || (hook =? 0) then l else <[hook := mkLoaded cls field q code]> l
  | None => l
  end.

Definition non_null (r : Z * Z * Z * Z) : Prop := r.1.1.1 ≠ 0 ∧ r.1.1.2 ≠ 0 ∧ r.1.2 ≠ 0 ∧ r.2 ≠ 0.

(** A class that was loaded and its methods are new ones; [backup] is the method of
    the reflected backup. *)
Record new_class w (t : TargetInfo) (backup : Z) (r : Z * Z * Z * Z) : Prop := {
  new_loaded m l : r.1.1.1 ≠ 0 → loaded w !! m = Some l → m ≠ r.1.2 ∧ loaded_class l ≠ r.1.1.1;
  new_data : r.1.1.1 ≠ 0 → native_data (java w) !! r.1.1.1 = None;
  new_hook : r.1.2 ≠ 0 → ¬ app r.1.2 ∧ backuped_methods_ (registry (vm (system w))) !! r.1.2 = None;
  new_methods : non_null r →
    generated_methods cur (vm (system w)) (target_method t) r.1.2 backup ∧
    ¬ app backup ∧ loaded w !! backup = None ∧ backup ≠ r.1.2;
}.

Definition bind q (t : TargetInfo) (obj : Z) (cb : Callback) (has_native_field : bool) (r : Z * Z * Z * Z) : Binding :=
  {| bound_target := t; bound_request := q; bound_object := obj; bound_callback := cb;
     bound_data := if dex_is_fast_native q && has_native_field then Some (hooker_data q t cb r.1.1.2) else None |}.

(** The bindings of a successful call, by hook method. *)
Definition bindings (outcome : option HookOutcome) (hook : Z) (b : Binding) : list (Z * Binding) :=
  match outcome with Some _ => [(hook, b)] | None => [] end.

(** A step: a call of [HookMethod] that passes the checks, with the class
    [BuildDex] makes for it; or any other step of the system. *)
Inductive world_step : World → list Event → list (Z * Binding) → World → Prop :=
  | world_hook w e class_loader (t : TargetInfo) obj cb pack backup has_native_field generated r st' outcome effects v' :
      let v := vm (system w) in
      let q := dex_request c GetShorty v t cb pack in
      accepted v t cb pack →
      build_dex e class_loader q (build w) = Some (r, st') → new_class w t backup r →
      generated_ok cur v generated → (∀ stub, generated = Some stub → ¬ runtime_code stub) →
      app (target_method t) → quiet GetClassDef (system w) (target_method t) →
      HookMethod cur c SetNotIntrinsic_ GetClassDef sdk_int GetShorty (String.eqb generated_source_name "")
        (λ _, r) (λ _, backup) has_native_field t obj cb generated v = (outcome, effects, v') →
      world_step w (hook_events outcome (target_method t) v')
        (bindings outcome r.1.2 (bind q t obj cb has_native_field r))
        (mkWorld (mkSystem v' (initializing (system w))) st' (load_hook q r (loaded w))
          (apply_effects effects (java w)))
  | world_other w evs s' :
      sys_step (system w) evs s' → (∀ target hook, EvHook target hook ∉ evs) →
      world_step w evs [] (mkWorld s' (build w) (loaded w) (java w)).

Inductive world_run : World → list Event → list (Z * Binding) → World → Prop :=
  | world_nil w : world_run w [] [] w
  | world_cons w evs bs w' evs' bs' w'' :
      world_step w evs bs w' → world_run w' evs' bs' w'' → world_run w (evs ++ evs') (bs ++ bs') w''.

(** The library is loaded. *)
Definition initial_world h (code0 : mem) (ids : list Z) (l : LoadState) (j : JavaState) : World :=
  mkWorld (mkSystem (initial_vm h code0 ids) ∅) (nothing_built l) ∅ j.

(** ** A call *)

(** Who the invocation in a hook method reaches. *)
Definition invoked w (l : LoadedHook) (virtual : bool) : Invoked :=
  let q := loaded_request l in
  if virtual then Virtual (dex_hooker_class q) (dex_callback_name q)
  else Registered (natives (java w) !! (loaded_class l, dex_callback_name q)).

Definition run_hook_body w (l : LoadedHook) (body : list Insn) (params : list Val) : CallResult :=
  let field_object := default 0 (hooker_fields (java w) !! (loaded_class l, loaded_field l)) in
  match exec_all valueOf xxxValue field_object (λ virtual, answer (invoked w l virtual)) body (start params) with
  | Some m =>
      match called m, returned m with
      | Some (virtual, args), Some r => CallsBack (invoked w l virtual) args r
      | _, _ => Crashes
      end
  | None => Crashes
  end.

(** The entry of a fast-native hooker reads its data from the class and the object
    from the field; [answer] is given the receiver, the array and the object. *)
Definition run_native_entry w (l : LoadedHook) (va : list Z) : CallResult :=
  let d := native_data (java w) !! loaded_class l in
  let field_object :=
    match d with
    | Some d => default 0 (hooker_fields (java w) !! (loaded_class l, data_field d))
    | None => 0
    end in
  let sh := match d with Some d => shorty d | None => "V"%string end in
  NativeReturns (VNativeHookerEntry valueOf xxxValue d (return_of sh) (params_of sh) field_object
    (λ p receiver args object, answer (Registered (Some p)) [VRef receiver; VArray args; VRef object])
    (λ object id receiver args, answer (ById id)
       (VRef object :: match receiver with Some r => [VRef r] | None => [] end ++ [VArray args])) va).

(** The values of a call, receiver first. *)
Definition with_receiver {A} (is_static : bool) (receiver : A) (values : list A) : list A :=
  (if is_static then [] else [receiver]) ++ values.

(** A call of the method [t]: a body finds its parameters in registers, a native
    entry in its variadic arguments. *)
Definition call w (t receiver : Z) (values : list Z) : CallResult :=
  let v := vm (system w) in
  let m := callee cur v t in
  match loaded w !! m with
  | None => OwnCode (native_code (methods v) m)
  | Some l =>
      let q := loaded_request l in
      match hook_code (loaded_code l) with
      | None => run_native_entry w l (with_receiver (dex_is_static q) receiver values)
      | Some body =>
          run_hook_body w l body
            ((if dex_is_static q then [] else [VRef receiver]) ++ layouts (params_of (dex_shorty q)) values)
      end
  end.

(** ** What a call of a hooked method is meant to do *)

Definition callback_of (cb : Callback) : Invoked :=
  match cb with
  | NativeCallback p => Registered (Some p)
  | JavaCallback _ _ name class_name _ _ => Virtual class_name name
  end.

(** The array the callback is meant to get. *)
Definition array_for (q : DexRequest) (receiver : Z) (values : list Z) : list Z :=
  expected_array valueOf (dex_is_static q) (dex_should_pack q) receiver (params_of (dex_shorty q)) values.

(** The answer to a fast-native hooker; a static method's packed array ends with a
    null element. *)
Definition native_answer (b : Binding) (receiver : Z) (values : list Z) : Z :=
  let q := bound_request b in
  let array := array_for q receiver values ++ (if dex_should_pack q && dex_is_static q then [0] else []) in
  let receiver := if dex_is_static q || dex_should_pack q then 0 else receiver in
  match bound_callback b with
  | NativeCallback p => answer (Registered (Some p)) [VRef receiver; VArray array; VRef (bound_object b)]
  | JavaCallback _ _ _ _ _ id =>
      if bound_object b =? 0 then 0
      else answer (ById id)
             (VRef (bound_object b) :: (if dex_should_pack q then [] else [VRef receiver]) ++ [VArray array])
  end.

Definition expected_call (b : Binding) (receiver : Z) (values : list Z) : CallResult :=
  let q := bound_request b in
  let return_type := return_of (dex_shorty q) in
  if dex_is_fast_native q then
    NativeReturns
      (match bound_data b with
       | Some _ => native_result xxxValue return_type (native_answer b receiver values)
       | None => Some 0
       end)
  else
    let who := callback_of (bound_callback b) in
    let args := expected_args (bound_object b) (dex_is_static q) (dex_is_native_api q) (dex_should_pack q) receiver
      (array_for q receiver values) in
    CallsBack who args (result_of xxxValue return_type (answer who args)).
End calls.
