(* ===== verification/CallsSpec.v ===== *)
(** * What calls of hooked methods do

    In every run of the machine of [Calls.v], a call of a method that is hooked
    reaches the callback it was last hooked with, with its boxed arguments, and a
    call of any other method reaches the code the application would see. *)

From S2P Require Import Prelude Memory Platform HookHelper ArtMethod Records Trampoline Vm MirrorClass ClassLinker.
From S2P Require Import ClassInit Instrumentation Jit HookApi HookSpec System SystemInv SystemRuntime.
From S2P Require Import SystemClass SystemApi SystemHook SystemSpec HookerDex DexFile BuildDex Calls.
From Stdlib Require Import Ascii.
From Stdlib Require String.

(** ** The records of hooked methods *)

(** Every record was there, with the same backup. *)
Definition same_backups v v' : Prop :=
  ∀ t rec', hooked_methods_ (registry v') !! t = Some rec' →
    ∃ rec, hooked_methods_ (registry v) !! t = Some rec ∧ Records.backup rec' = Records.backup rec.

Lemma same_backups_tables v v' :
  hooked_methods_ (registry v') = hooked_methods_ (registry v) → same_backups v v'.
Proof. intros E t rec. rewrite E. eauto. Qed.

Lemma same_backups_shape v v' : same_shape v v' → same_backups v v'.
Proof. intros []. apply same_backups_tables. congruence. Qed.

#[export] Hint Resolve same_backups_shape : lsp.

Section records.
Context (cur : Arch) (c : Config) (SetNotIntrinsic_ : option (Z → Methods → Methods)) (GetClassDef : Z → Z).
Context (bridge : Z) (interp : option (Z → Methods → Methods)).
Context (init_status : Z) (MoveObsoleteMethod_ : option (Z → Z → Methods → Methods)).
Context (app runtime_code : Z → Prop).
Hypothesis interpreter : interpreter_ok bridge interp runtime_code.

Lemma DoHook_registry generated target hook backup v :
  registry (DoHook cur c SetNotIntrinsic_ generated target hook backup v).2 = registry v.
Proof. unfold DoHook. destruct generated; [|done]. by destruct (WriteTrampoline _ _ _ _ _). Qed.

Lemma record_hook_lookup (q : TargetInfo) hook backup slot bm v :
  is_Some (hooked_methods_ (registry (record_hook GetClassDef q hook backup slot bm v)) !! target_method q).
Proof.
  unfold record_hook. cbv zeta. destruct (negb (IsProxyMethod q)); cbn; unfold emplace;
    case_match; try (rewrite lookup_insert_eq; by eexists); by eexists.
Qed.

(** A call of [HookMethod] writes the tables when it succeeds, and tells so. *)
Lemma HookMethod_records sdk_int GetShorty sne BuildDex backup_of hnf q obj cb generated v outcome effects v' :
  HookMethod cur c SetNotIntrinsic_ GetClassDef sdk_int GetShorty sne BuildDex backup_of hnf q obj cb generated v =
    (outcome, effects, v') →
  (∀ target hook, EvHook target hook ∉ hook_events outcome (target_method q) v') → registry v' = registry v.
Proof.
  destruct (accepted_dec v q cb) as [[pack Hacc]|Hno]; [|rewrite HookMethod_rejected by done; by intros [= <- <- <-] _].
  rewrite (HookMethod_accepted cur c SetNotIntrinsic_ GetClassDef sdk_int GetShorty sne BuildDex backup_of hnf v q cb
    pack obj generated Hacc). cbv zeta. destruct (BuildDex _) as [[[cls field] hook] bm].
  destruct (_ || _); [by intros [= <- <- <-] _|].
  pose proof (DoHook_registry generated (target_method q) hook (backup_of bm) v) as Hreg.
  destruct (DoHook _ _ _ _ _ _ _ _) as [slot v1]. cbn [snd] in Hreg.
  destruct (slot =? 0); intros [= <- <- <-]; [done|]. intros Hno. exfalso.
  destruct (record_hook_lookup q hook (backup_of bm) slot bm v1) as [rec Hrec].
  unfold hook_events in Hno. rewrite Hrec in Hno. apply (Hno (target_method q) (Records.hook rec)). by left.
Qed.

Lemma UnHook_backups ex target id v : same_backups v (UnHook GetClassDef ex target id v).2.
Proof.
  destruct ex; [|by apply same_backups_tables].
  destruct (hooked_methods_ (registry v) !! target) as [rec|] eqn:Hrec.
  - rewrite (UnHook_eq GetClassDef target id rec v Hrec). intros t rec'. cbn [snd unhooked_state on_internal on_methods
      on_registry registry]. rewrite ForgetHooked_lookup. case_decide; [done|eauto].
  - apply same_backups_tables. unfold UnHook. cbn [negb]. by rewrite Hrec.
Qed.

Lemma SetHookEnabled_backups ex target enable v : same_backups v (SetHookEnabled cur c ex target enable v).2.
Proof.
  unfold SetHookEnabled. destruct ex; [|by apply same_backups_tables]. cbn [negb].
  destruct (hooked_methods_ (registry v) !! target) as [rec|] eqn:Hrec; [|by apply same_backups_tables].
  destruct (Bool.eqb _ _); [by apply same_backups_tables|]. destruct (switch_stub _ _ _ _ _) as [m slot].
  intros t rec'. cbn. rewrite lookup_insert_Some. intros [[<- <-]|[_ H]]; eauto.
Qed.

Lemma sys_step_backups s evs s' :
  sys_step cur c SetNotIntrinsic_ GetClassDef bridge interp init_status MoveObsoleteMethod_ app runtime_code s evs s' →
  (∀ target hook, EvHook target hook ∉ evs) → same_backups (vm s) (vm s').
Proof using interpreter.
  intros Hstep Hno. destruct Hstep as
    [v v' i sdk_int GetShorty sne BuildDex backup_of hnf q obj cb generated outcome effects Hg Hd Hcode Happ Ht Hq Heq
    |v v' i ex target id ok Hq Heq |v v' i ex target enable ok Heq |v v' i ex m ok Ht Hq Heq
    |v i cd self Hcd Hself Hnew Hmem |v i h' Hw |v i cd self popped v'
    |v i A backup m e args Hw He |v i backup m q Hq Hw v' |v i A R backup m args Hm v' Hw
    |v w i R backup lookup valid l r E Hone Hnc Hw |v w i R backup valid ms r E Hnc Hw |v i Hl]; cbn [vm].
  - apply same_backups_tables. f_equal. by eapply HookMethod_records.
  - pose proof (UnHook_backups ex target id v) as H. by rewrite Heq in H.
  - pose proof (SetHookEnabled_backups ex target enable v) as H. by rewrite Heq in H.
  - destruct (Deoptimize_eq c GetClassDef runtime_code bridge interp interpreter ex m v) as [E|E];
      rewrite Heq in E; injection E as -> ->; [by apply same_backups_tables|].
    destruct (SetEntryPointsToInterpreter_only c runtime_code bridge interp interpreter (MayGetBackup (registry v) m)
      (recorded_state GetClassDef m v)) as [[E _ _ _ _] _]. apply same_backups_tables. by rewrite E.
  - apply same_backups_tables. unfold SetStatus. destruct (_ =? _); [|done].
    by destruct (BackupClassMethods_fields v cd self) as (_ & -> & _).
  - by apply same_backups_tables.
  - destruct (restore_all_only c runtime_code bridge interp interpreter (map_to_list popped)
      (PopBackup cd self v).2) as [[E _ _ _ _] _]. destruct (PopBackup_fields cd self v) as (_ & Er & _).
    apply same_backups_tables. unfold v', RestoreBackup. unfold popped in E.
    destruct (PopBackup cd self v) as [ms v1]. cbn [fst snd] in *. by rewrite E, Er.
  - apply same_backups_tables. rewrite <-(shape_registry _ _ (writes_shape _ _ _ _ _ Hw)).
    unfold UpdateMethodsCode, HandleMethodCodeUpdated. cbv zeta. by repeat case_match.
  - unfold v', InitializeMethodsCode. destruct (IsDeoptimized _ _); [by apply same_backups_tables|].
    apply same_backups_shape. by eapply writes_shape, Hw.
  - apply same_backups_shape. by eapply writes_shape, Hw.
  - unfold RegisterNativesJNIEnv. cbv zeta. rewrite E. apply same_backups_tables.
    exact (f_equal hooked_methods_ (shape_registry _ _ (registers_shape _ _ _ _ _ _ Hw))).
  - unfold UnregisterNativesJNIEnv. cbv zeta. rewrite E. apply same_backups_tables.
    exact (f_equal hooked_methods_ (shape_registry _ _ (registers_shape _ _ _ _ _ _ Hw))).
  - by apply same_backups_tables.
Qed.
End records.


(** ** Hooks in the application's view *)

(** Only hooking changes which hook a method has. *)
Lemma app_step_hook ev a t h :
  (∀ target hook, ev ≠ EvHook target hook) → app_hooks (app_step ev a) !! t = Some h →
  ∃ h', app_hooks a !! t = Some h' ∧ app_hook h' = app_hook h.
Proof.
  intros Hno. destruct ev as [tg hk|tg|tg en|m e|f|f|f]; cbn; eauto; [by destruct (Hno tg hk)| |].
  - rewrite lookup_delete_Some. naive_solver.
  - destruct (app_hooks a !! tg) as [h0|] eqn:E; [|eauto]. destruct (Bool.eqb _ _); [eauto|]. cbn.
    rewrite lookup_insert_Some. intros [[<- <-]|[_ H]]; eauto.
Qed.

Lemma app_run_hooks evs a t h :
  (∀ target hook, EvHook target hook ∉ evs) → app_hooks (app_run evs a) !! t = Some h →
  ∃ h', app_hooks a !! t = Some h' ∧ app_hook h' = app_hook h.
Proof.
  revert a. induction evs as [|ev evs IH]; intros a Hno Hh; [eauto|].
  destruct (IH (app_step ev a)) as (h1 & H1 & E1); [intros tg hk Hin; apply (Hno tg hk); by right|done|].
  destruct (app_step_hook ev a t h1) as (h2 & H2 & E2); [|done|exists h2; split; congruence].
  intros tg hk ->. apply (Hno tg hk). by left.
Qed.

(** ** Effects on one class *)

Definition effect_class (e : Effect) : option Z :=
  match e with
  | RegisterNatives cls _ _ | SetNativeHookerData cls _ | SetHookerField cls _ _ => Some cls
  | HideNativeMethod _ _ | SetAccessible _ | CopyReflectedFields _ _ | HideMethod _ => None
  end.

(** The state of the other classes is kept. *)
Definition same_class (cls : Z) (j j' : JavaState) : Prop :=
  (∀ f, hooker_fields j' !! (cls, f) = hooker_fields j !! (cls, f)) ∧
  (∀ n, natives j' !! (cls, n) = natives j !! (cls, n)) ∧ native_data j' !! cls = native_data j !! cls.

Lemma apply_effect_other cls j e : effect_class e ≠ Some cls → same_class cls j (apply_effect j e).
Proof.
  intros Hne. destruct e; cbn in *; try done; split_and!; intros; try done; cbn;
    apply lookup_insert_ne; congruence.
Qed.

Lemma apply_effects_other cls l j :
  (∀ e, e ∈ l → effect_class e ≠ Some cls) → same_class cls j (apply_effects l j).
Proof.
  revert j. induction l as [|e l IH]; intros j Hl; [done|].
  destruct (apply_effect_other cls j e) as (H1 & H2 & H3); [apply Hl; by left|].
  destruct (IH (apply_effect j e)) as (H4 & H5 & H6); [intros e' He'; apply Hl; by right|].
  split_and!; [intros f; by rewrite <-H1, <-H4|intros n; by rewrite <-H2, <-H5|by rewrite <-H3, <-H6].
Qed.

Lemma class_effects_class sne q cb cls e : e ∈ class_effects sne q cb cls → effect_class e = None ∨ effect_class e = Some cls ∧ cls ≠ 0.
Proof.
  unfold class_effects. destruct cb; [|by intros ?%elem_of_nil]. destruct (Z.eqb_spec cls 0); [by intros ?%elem_of_nil|].
  destruct (dex_is_fast_native q); [by intros ?%elem_of_nil|]. cbn. destruct sne; rewrite ?elem_of_cons, ?elem_of_nil; naive_solver.
Qed.

Lemma object_effects_class sdk hnf q t cb cls field bm obj e :
  e ∈ object_effects sdk hnf q t cb cls field bm obj → effect_class e = None ∨ effect_class e = Some cls.
Proof.
  unfold object_effects. rewrite !elem_of_app. destruct (dex_is_fast_native q && hnf), (__ANDROID_API_M__ <=? sdk);
    rewrite ?elem_of_cons, ?elem_of_nil; naive_solver.
Qed.

Section spec.
Context (cur : Arch) (c : Config) (SetNotIntrinsic_ : option (Z → Methods → Methods)) (GetClassDef : Z → Z).
Context (bridge : Z) (interp : option (Z → Methods → Methods)).
Context (init_status : Z) (MoveObsoleteMethod_ : option (Z → Z → Methods → Methods)).
Context (app runtime_code : Z → Prop).
Context (sdk_int : Z) (kDebugBuild : bool) (GetShorty : Z → string).
Context (generated_class_name generated_source_name generated_method_name
         generated_field_name generated_native_field_name : string).
Context (d : DexStatics) (s : Syms) (dex_file_init_with_cl dex_file_init : Z).
Context (valueOf xxxValue : ascii → Z → Z) (answer : Invoked → list Val → Z).
Hypothesis cur_supported : cur ∈ supported.
Hypothesis intrinsic : intrinsic_frame SetNotIntrinsic_.
Hypothesis interpreter : interpreter_ok bridge interp runtime_code.
Hypothesis movement : movement_ok MoveObsoleteMethod_.
Implicit Types (v : Vm) (w : World) (a : App) (bs : list (Z * Binding)).

Abbreviation sne := (String.eqb generated_source_name "").
Abbreviation build_dex := (BuildDex.BuildDex cur sdk_int kDebugBuild generated_class_name generated_source_name
  generated_method_name generated_field_name generated_native_field_name d s dex_file_init_with_cl dex_file_init).
Abbreviation hooker_of := (hooker_of generated_method_name generated_native_field_name).
Abbreviation load_hook := (load_hook generated_method_name generated_native_field_name).
Abbreviation hook_method r backup := (HookMethod cur c SetNotIntrinsic_ GetClassDef sdk_int GetShorty sne (λ _, r) (λ _, backup)).
Abbreviation world_step := (world_step cur c SetNotIntrinsic_ GetClassDef bridge interp init_status MoveObsoleteMethod_
  app runtime_code sdk_int kDebugBuild GetShorty generated_class_name generated_source_name generated_method_name
  generated_field_name generated_native_field_name d s dex_file_init_with_cl dex_file_init).
Abbreviation world_run := (world_run cur c SetNotIntrinsic_ GetClassDef bridge interp init_status MoveObsoleteMethod_
  app runtime_code sdk_int kDebugBuild GetShorty generated_class_name generated_source_name generated_method_name
  generated_field_name generated_native_field_name d s dex_file_init_with_cl dex_file_init).
Abbreviation sys_inv := (sys_inv cur GetClassDef app runtime_code).
Abbreviation sim := (sim cur GetClassDef app).
Abbreviation quiet := (quiet GetClassDef).

(** ** A call of [HookMethod] *)

Definition all_effects q t cb obj hnf (r : Z * Z * Z * Z) : list Effect :=
  class_effects sne q cb r.1.1.1 ++ object_effects sdk_int hnf q t cb r.1.1.1 r.1.1.2 r.2 obj ++
  (if sne then [HideMethod r.1.2] else []).

Lemma hook_cases v t obj cb pack r backup hnf generated outcome effects v' :
  accepted v t cb pack → hooked_methods_ (registry v) !! target_method t = None →
  backuped_methods_ (registry v) !! target_method t = None → generated_ok cur v generated →
  (non_null r → generated_methods cur v (target_method t) r.1.2 backup) →
  hook_method r backup hnf t obj cb generated v = (outcome, effects, v') →
  let q := dex_request c GetShorty v t cb pack in
  (∀ e, e ∈ effects → effect_class e = None ∨ effect_class e = Some r.1.1.1 ∧ r.1.1.1 ≠ 0) ∧
  (outcome = None ∧ registry v' = registry v ∨
   is_Some outcome ∧ non_null r ∧ effects = all_effects q t cb obj hnf r ∧
   ∃ slot, hooked_methods_ (registry v') =
     <[target_method t := mkHookRecord r.1.2 backup slot r.2 true]> (hooked_methods_ (registry v))).
Proof using cur_supported intrinsic.
  intros Hacc Hnh Hnb Hg Hd Heq q. revert Heq.
  rewrite (HookMethod_accepted cur c SetNotIntrinsic_ GetClassDef sdk_int GetShorty sne (λ _, r) (λ _, backup) hnf
    v t cb pack obj generated Hacc). cbv zeta. fold q. destruct r as [[[cls field] hook] bm]. cbn [fst snd] in *.
  pose proof (class_effects_class sne q cb cls) as Hce.
  destruct ((cls =? 0) || (field =? 0) || (hook =? 0) || (bm =? 0)) eqn:Enull.
  { intros [= <- <- <-]. auto. }
  apply orb_false_iff in Enull as [[[E1 E2]%orb_false_iff E3]%orb_false_iff E4].
  apply Z.eqb_neq in E1, E2, E3, E4. assert (non_null (cls, field, hook, bm)) as Hnn by by split_and!.
  assert (∀ e, e ∈ class_effects sne q cb cls ++ object_effects sdk_int hnf q t cb cls field bm obj →
    effect_class e = None ∨ effect_class e = Some cls ∧ cls ≠ 0) as Hoe.
  { intros e [He|He]%elem_of_app; [by apply Hce|]. apply object_effects_class in He as [He|He]; [by left|by right]. }
  destruct generated as [stub|]; [|intros [= <- <- <-]; auto].
  pose proof (hook_installed cur c SetNotIntrinsic_ GetClassDef cur_supported intrinsic v stub t hook backup bm
    (Hd Hnn) Hnh Hnb) as Hin.
  destruct (DoHook _ _ _ _ _ _ _ _) as [slot v1]. destruct (Z.eqb_spec slot 0) as [->|Hslot].
  - exfalso. destruct (in_dispatch _ _ _ _ _ _ _ _ _ _ Hin) as [_ E0]. unfold stub_slot in E0.
    destruct (stub_size cur cur_supported) as (_ & Hoff & _). destruct Hg as (Hpos & _).
    clear -E0 Hoff Hpos. case_match; lia.
  - intros [= <- <- <-]. split.
    + intros e [He|He]%elem_of_app; [by apply Hoe|]. destruct sne; [|by apply elem_of_nil in He].
      apply list_elem_of_singleton in He as ->. by left.
    + right. split_and!; [by eexists|done|by unfold all_effects; rewrite app_assoc|].
      exists slot. apply (in_hooked _ _ _ _ _ _ _ _ _ _ Hin).
Qed.

(** ** The invariant *)

(** What is known of the hook method [m] of a binding. *)
Record bound w (m : Z) (b : Binding) (l : LoadedHook) : Prop := {
  bound_loaded : loaded w !! m = Some l;
  bound_requested : loaded_request l = bound_request b;
  bound_code : hooker_of (bound_request b) = Some (loaded_code l);
  bound_field : hooker_fields (java w) !! (loaded_class l, loaded_field l) = Some (bound_object b);
  bound_who : dex_is_fast_native (bound_request b) = false →
    invoked w l (negb (dex_is_native_api (bound_request b))) = callback_of (bound_callback b);
  bound_native : dex_is_fast_native (bound_request b) = true → native_data (java w) !! loaded_class l = bound_data b;
  bound_pack : dex_should_pack (bound_request b) = true → dex_is_native_api (bound_request b) = false;
  bound_hooker hd : bound_data b = Some hd →
    hd = hooker_data (bound_request b) (bound_target b) (bound_callback b) (loaded_field l);
  bound_nonnull p : bound_callback b = NativeCallback p → p ≠ 0;
}.

Record world_ok a bs w : Prop := {
  ok_sys : sys_inv (system w);
  ok_sim : sim a (system w);
  ok_names : NoDup bs.*1;
  ok_bound m b : (m, b) ∈ bs → ∃ l, bound w m b l;
  ok_hooks t h : app_hooks a !! t = Some h → ∃ b, (app_hook h, b) ∈ bs ∧ target_method (bound_target b) = t;
  ok_loaded m l : loaded w !! m = Some l → ¬ app m ∧
    ∀ t rec, hooked_methods_ (registry (vm (system w))) !! t = Some rec → Records.backup rec ≠ m;
}.

(** A binding stays when other classes are loaded and written. *)
Lemma bound_frame w w' m b l :
  bound w m b l → loaded w' !! m = Some l → same_class (loaded_class l) (java w) (java w') → bound w' m b l.
Proof.
  intros [] Hl (Hf & Hn & Hd). split; try done; [by rewrite Hf| |by rewrite Hd].
  intros Hfast. specialize (bound_who0 Hfast). unfold invoked in *. by rewrite Hn.
Qed.

Lemma world_other_ok a bs w evs s' :
  world_ok a bs w →
  sys_step cur c SetNotIntrinsic_ GetClassDef bridge interp init_status MoveObsoleteMethod_ app runtime_code
    (system w) evs s' → (∀ target hook, EvHook target hook ∉ evs) →
  world_ok (app_run evs a) bs (mkWorld s' (build w) (loaded w) (java w)).
Proof using cur_supported intrinsic interpreter movement.
  intros [H1 H2 H3 H4 H5 H6] Hstep Hno.
  destruct (system_step_ok cur c SetNotIntrinsic_ GetClassDef bridge interp init_status MoveObsoleteMethod_ app
    runtime_code cur_supported intrinsic interpreter movement a _ _ _ H1 H2 Hstep) as [H1' H2'].
  split; cbn [system loaded java]; try done.
  - intros m b Hb. destruct (H4 m b Hb) as [l Hl]. exists l. by destruct Hl.
  - intros t h Hh. destruct (app_run_hooks evs a t h Hno Hh) as (h' & Hh' & <-). by apply H5.
  - intros m l Hl. destruct (H6 m l Hl) as [Hm Hb]. split; [done|]. intros t rec' Hrec'.
    destruct (sys_step_backups cur c SetNotIntrinsic_ GetClassDef bridge interp init_status MoveObsoleteMethod_ app
      runtime_code interpreter _ _ _ Hstep Hno t rec' Hrec') as (rec & Hrec & ->). by eapply Hb.
Qed.

(** *** A new hook *)

(** [BuildDex] that succeeds has built a class. *)
Lemma built_hooker e class_loader q st r st' :
  build_dex e class_loader q st = Some (r, st') → non_null r → is_Some (hooker_of q).
Proof.
  unfold BuildDex.BuildDex, Calls.hooker_of. destruct (dex_shorty q); [|by eexists].
  intros [= <- <-] [H _]. by destruct H.
Qed.

(** A request says what the callback is. *)
Lemma request_callback v t cb pack :
  accepted v t cb pack →
  let q := dex_request c GetShorty v t cb pack in
  (dex_should_pack q = true → dex_is_native_api q = false) ∧
  match cb with
  | NativeCallback p => dex_is_native_api q = true ∧ p ≠ 0
  | JavaCallback _ _ name class_name _ _ => dex_is_native_api q = false ∧
      dex_hooker_class q = class_name ∧ dex_callback_name q = name
  end.
Proof.
  intros (_ & Hcb & _). destruct cb as [p|? ? ? ? ? ?]; cbn in *; [|done].
  destruct (Z.eqb_spec p 0); [done|]. by injection Hcb as <-.
Qed.

Section effects.
Context (q : DexRequest) (t : TargetInfo) (cb : Callback) (obj : Z) (hnf : bool) (r : Z * Z * Z * Z) (j : JavaState).
Abbreviation j' := (apply_effects (all_effects q t cb obj hnf r) j).

Lemma all_effects_field : hooker_fields j' !! (r.1.1.1, r.1.1.2) = Some obj.
Proof.
  unfold all_effects, object_effects, apply_effects. rewrite !foldl_app.
  destruct (String.eqb _ _); cbn; by rewrite lookup_insert_eq.
Qed.

Lemma all_effects_native p :
  cb = NativeCallback p → dex_is_fast_native q = false → r.1.1.1 ≠ 0 →
  natives j' !! (r.1.1.1, dex_callback_name q) = Some p.
Proof.
  intros -> Hf Hc. unfold all_effects, object_effects, class_effects, apply_effects. rewrite Hf.
  rewrite (proj2 (Z.eqb_neq _ _) Hc). cbn [negb andb].
  destruct (String.eqb _ _), (__ANDROID_API_M__ <=? sdk_int); cbn; by rewrite lookup_insert_eq.
Qed.

Lemma all_effects_data :
  dex_is_fast_native q = true → native_data j !! r.1.1.1 = None →
  native_data j' !! r.1.1.1 = if hnf then Some (hooker_data q t cb r.1.1.2) else None.
Proof.
  intros Hf Hnone. unfold all_effects, object_effects, class_effects, apply_effects. rewrite Hf, andb_false_r.
  destruct cb, hnf, (String.eqb _ _), (__ANDROID_API_M__ <=? sdk_int); cbn; by rewrite ?lookup_insert_eq.
Qed.
End effects.

Lemma bound_new w j v t cb pack obj hnf r code :
  let q := dex_request c GetShorty v t cb pack in
  accepted v t cb pack → non_null r → hooker_of q = Some code → native_data j !! r.1.1.1 = None →
  loaded w !! r.1.2 = Some (mkLoaded r.1.1.1 r.1.1.2 q code) →
  java w = apply_effects (all_effects q t cb obj hnf r) j →
  bound w r.1.2 (bind q t obj cb hnf r) (mkLoaded r.1.1.1 r.1.1.2 q code).
Proof.
  intros q Hacc (Hcls & _) Hcode Hnone Hl Ej. destruct (request_callback v t cb pack Hacc) as [Hpack Hcb].
  fold q in Hpack, Hcb. split; cbn [loaded_request loaded_class loaded_field bound_request bound_callback bound_object
    bound_data bind loaded_code]; rewrite ?Ej; try done.
  - apply all_effects_field.
  - intros Hf. unfold invoked. cbn [loaded_request loaded_class]. rewrite Ej. destruct cb as [p|? ? name cn ? ?].
    + destruct Hcb as [-> _]. cbn [negb callback_of]. by rewrite (all_effects_native q t (NativeCallback p) obj hnf r j p).
    + destruct Hcb as (-> & -> & ->). done.
  - intros Hf. rewrite Hf, all_effects_data by done. by destruct hnf.
  - intros hd. destruct (dex_is_fast_native q && hnf); [by intros [= <-]|done].
  - intros p ->. by destruct Hcb.
Qed.

Lemma load_hook_other q r l m : m ≠ r.1.2 → load_hook q r l !! m = l !! m.
Proof.
  intros Hne. destruct r as [[[cls field] hook] bm]. cbn in *. destruct (Calls.hooker_of _ _ q); [|done].
  destruct (_ || _); [done|]. by rewrite lookup_insert_ne.
Qed.

Lemma load_hook_Some q r l m x :
  load_hook q r l !! m = Some x → l !! m = Some x ∨ m = r.1.2 ∧ r.1.2 ≠ 0.
Proof.
  destruct r as [[[cls field] hook] bm]. cbn. destruct (Calls.hooker_of _ _ q); [|auto].
  destruct (Z.eqb_spec cls 0), (Z.eqb_spec hook 0); cbn; auto. rewrite lookup_insert_Some. naive_solver.
Qed.

Lemma load_hook_new q r l code :
  non_null r → hooker_of q = Some code → load_hook q r l !! r.1.2 = Some (mkLoaded r.1.1.1 r.1.1.2 q code).
Proof.
  destruct r as [[[cls field] hook] bm]. intros (H1 & _ & H3 & _) Hcode. cbn in *. rewrite Hcode.
  rewrite (proj2 (Z.eqb_neq _ _) H1), (proj2 (Z.eqb_neq _ _) H3). cbn. apply lookup_insert_eq.
Qed.

(** The system's part of the step. *)
Lemma hook_system_ok w a t obj cb pack backup hnf generated r outcome effects v' :
  let v := vm (system w) in
  sys_inv (system w) → sim a (system w) → accepted v t cb pack → new_class cur app w t backup r →
  generated_ok cur v generated → (∀ stub, generated = Some stub → ¬ runtime_code stub) →
  app (target_method t) → quiet (system w) (target_method t) →
  hook_method r backup hnf t obj cb generated v = (outcome, effects, v') →
  step_ok cur GetClassDef app runtime_code a (hook_events outcome (target_method t) v')
    (mkSystem v' (initializing (system w))).
Proof using cur_supported intrinsic.
  intros v Hs Ha Hacc Hnew Hg Hcode Ht Hq Heq. destruct Hnew as [_ _ _ Hm].
  destruct (decide (non_null r)) as [Hnn|Hnull].
  - destruct (Hm Hnn) as (Hgm & Hb & _).
    pose proof (hook_step cur c SetNotIntrinsic_ GetClassDef app runtime_code cur_supported intrinsic sdk_int GetShorty
      sne (λ _, r) (λ _, backup) hnf t cb obj generated a (system w) Hs Ha Hg) as H. fold v in H. rewrite Heq in H.
    apply H; try done. intros q cls field hook bm -> _ _ _ _. exact Hgm.
  - rewrite (HookMethod_accepted cur c SetNotIntrinsic_ GetClassDef sdk_int GetShorty sne (λ _, r) (λ _, backup) hnf
      v t cb pack obj generated Hacc) in Heq. cbv zeta in Heq. destruct r as [[[cls field] hook] bm].
    assert ((cls =? 0) || (field =? 0) || (hook =? 0) || (bm =? 0) = true) as E.
    { destruct (_ || _) eqn:E; [done|]. destruct Hnull.
      apply orb_false_iff in E as [[[E1 E2]%orb_false_iff E3]%orb_false_iff E4].
      apply Z.eqb_neq in E1, E2, E3, E4. by split_and!. }
    rewrite E in Heq. injection Heq as <- <- <-. by apply step_ok_same.
Qed.

(** The hook methods stay methods of their own. *)
Lemma loaded_apart w q t backup r v' m l :
  registry_ok (registry (vm (system w))) → new_class cur app w t backup r →
  (∀ m l, loaded w !! m = Some l → ¬ app m ∧
    ∀ t rec, hooked_methods_ (registry (vm (system w))) !! t = Some rec → Records.backup rec ≠ m) →
  registry v' = registry (vm (system w)) ∨ non_null r ∧ (∃ slot, hooked_methods_ (registry v') =
     <[target_method t := mkHookRecord r.1.2 backup slot r.2 true]> (hooked_methods_ (registry (vm (system w))))) →
  load_hook q r (loaded w) !! m = Some l →
  ¬ app m ∧ ∀ t rec, hooked_methods_ (registry v') !! t = Some rec → Records.backup rec ≠ m.
Proof.
  intros Hr [_ _ Hhook Hm] Hold Htables Hl.
  assert (¬ app m ∧ ∀ t rec, hooked_methods_ (registry (vm (system w))) !! t = Some rec → Records.backup rec ≠ m) as [Ha Hb].
  { apply load_hook_Some in Hl as [Hl|[-> Hne]]; [by eapply Hold|]. destruct (Hhook Hne) as [Happ Hnone].
    split; [done|]. intros t' rec Hrec E. pose proof (ok_backup _ Hr _ _ Hrec) as Hbk. congruence. }
  split; [done|]. destruct Htables as [->|(Hnn & slot & ->)]; [done|].
  destruct (Hm Hnn) as (_ & _ & Hnl & Hne). intros t' rec [[_ <-]|[_ Hrec]]%lookup_insert_Some; [|by eapply Hb].
  cbn [Records.backup]. intros ->. apply load_hook_Some in Hl as [Hl|[E _]]; [by rewrite Hnl in Hl|by apply Hne].
Qed.

(** The bindings there are stay. *)
Lemma bound_kept w m b l q t backup r w' effects :
  bound w m b l → new_class cur app w t backup r → loaded w' = load_hook q r (loaded w) →
  java w' = apply_effects effects (java w) →
  (∀ e, e ∈ effects → effect_class e = None ∨ effect_class e = Some r.1.1.1 ∧ r.1.1.1 ≠ 0) →
  bound w' m b l ∧ (r.1.1.1 ≠ 0 → m ≠ r.1.2).
Proof.
  intros Hb [Hloaded _ _ _] El Ej Heff. pose proof (bound_loaded _ _ _ _ Hb) as Hl.
  assert (loaded w' !! m = Some l ∧ (r.1.1.1 ≠ 0 → m ≠ r.1.2 ∧ loaded_class l ≠ r.1.1.1)) as [Hl' Hne].
  { destruct (decide (r.1.1.1 = 0)) as [E0|E0].
    - split; [|done]. rewrite El. destruct r as [[[cls field] hook] bm]. cbn in *. subst cls. by destruct (Calls.hooker_of _ _ q).
    - destruct (Hloaded _ _ E0 Hl) as [Hne Hc]. split; [by rewrite El, load_hook_other|done]. }
  split; [|by intros E0; destruct (Hne E0)]. apply (bound_frame w); [done|done|]. rewrite Ej.
  apply apply_effects_other. intros e He. destruct (Heff e He) as [->|[-> E0]]; [done|]. destruct (Hne E0). congruence.
Qed.

Lemma world_hook_ok a bs w e class_loader t obj cb pack backup hnf generated r st' outcome effects v' :
  let v := vm (system w) in
  let q := dex_request c GetShorty v t cb pack in
  world_ok a bs w → accepted v t cb pack → build_dex e class_loader q (build w) = Some (r, st') →
  new_class cur app w t backup r →
  generated_ok cur v generated → (∀ stub, generated = Some stub → ¬ runtime_code stub) →
  app (target_method t) → quiet (system w) (target_method t) →
  hook_method r backup hnf t obj cb generated v = (outcome, effects, v') →
  world_ok (app_run (hook_events outcome (target_method t) v') a)
    (bs ++ bindings outcome r.1.2 (bind q t obj cb hnf r))
    (mkWorld (mkSystem v' (initializing (system w))) st' (load_hook q r (loaded w)) (apply_effects effects (java w))).
Proof using cur_supported intrinsic.
  intros v q [H1 H2 H3 H4 H5 H6] Hacc Hbuild Hnew Hg Hcode Ht Hq Heq.
  pose proof (si_registry _ _ _ _ _ H1) as Hr. pose proof Hnew as [Hloaded Hdata _ Hmethods].
  assert (hooked_methods_ (registry v) !! target_method t = None ∧
    backuped_methods_ (registry v) !! target_method t = None) as [Hnh Hnb].
  { destruct Hacc as (_ & _ & _ & E1 & E2 & _). split; [by apply IsHooked_null|by apply IsBackup_null]. }
  destruct (hook_system_ok w a t obj cb pack backup hnf generated r outcome effects v' H1 H2 Hacc Hnew Hg Hcode Ht Hq Heq)
    as [Hs' Ha'].
  destruct (hook_cases v t obj cb pack r backup hnf generated outcome effects v' Hacc Hnh Hnb Hg
    (λ Hnn, proj1 (Hmethods Hnn)) Heq) as [Heff Hcases].
  set (w' := mkWorld _ _ _ _).
  assert (∀ m b, (m, b) ∈ bs → (r.1.1.1 ≠ 0 → m ≠ r.1.2) ∧ ∃ l, bound w' m b l) as Hold.
  { intros m b Hb. destruct (H4 m b Hb) as [l Hbl].
    destruct (bound_kept w m b l q t backup r w' effects Hbl Hnew eq_refl eq_refl Heff). eauto. }
  assert (registry v' = registry v ∨ non_null r ∧ (∃ slot, hooked_methods_ (registry v') =
     <[target_method t := mkHookRecord r.1.2 backup slot r.2 true]> (hooked_methods_ (registry v)))) as Htables
    by tauto.
  assert (∀ m l, load_hook q r (loaded w) !! m = Some l → ¬ app m ∧ ∀ t rec,
    hooked_methods_ (registry v') !! t = Some rec → Records.backup rec ≠ m) as Hapart
    by (intros m l; by apply (loaded_apart w q t backup r v' m l)).
  destruct Hcases as [[-> Hreg]|([o ->] & Hnn & -> & slot & Htab)].
  - cbn [bindings hook_events app_run foldl] in *. rewrite app_nil_r.
    split; try done. intros m b Hb. by apply Hold.
  - unfold hook_events in *. rewrite Htab, lookup_insert_eq in *. cbn [Records.hook bindings] in *.
    split; try done.
    + rewrite fmap_app. cbn. apply NoDup_app. split_and!; [done| |apply NoDup_singleton].
      intros m Hm E%list_elem_of_singleton. apply list_elem_of_fmap in Hm as ([m' b] & -> & Hb). cbn in E.
      destruct (Hold _ _ Hb) as [Hne _]. apply Hne; [by destruct Hnn|done].
    + intros m b [Hb|Hb%list_elem_of_singleton]%elem_of_app; [by apply Hold|]. injection Hb as -> ->.
      destruct (built_hooker _ _ _ _ _ _ Hbuild Hnn) as [code Hcode'].
      exists (mkLoaded r.1.1.1 r.1.1.2 q code).
      apply (bound_new _ (java w) v t cb pack obj hnf r code); try done.
      * apply Hdata. by destruct Hnn.
      * by apply load_hook_new.
    + intros t' h. cbn. rewrite lookup_insert_Some. intros [[<- <-]|[_ Hh]].
      * eexists. split; [apply elem_of_app; right; by left|done].
      * destruct (H5 t' h Hh) as (b & Hb & Eb). exists b. split; [by apply elem_of_app; left|done].
    + intros m l Hl. destruct (Hapart m l Hl) as [? Hb]. split; [done|]. unfold w'. cbn [system vm]. by rewrite Htab.
Qed.

(** ** Runs *)

Lemma world_run_ok a bs w evs bs' w' :
  world_ok a bs w → world_run w evs bs' w' → world_ok (app_run evs a) (bs ++ bs') w'.
Proof using cur_supported intrinsic interpreter movement.
  intros Hw Hrun. revert a bs Hw. induction Hrun as [w|w evs1 bs1 w1 evs2 bs2 w2 Hstep _ IH]; intros a bs Hw.
  { by rewrite app_nil_r. }
  unfold app_run. rewrite foldl_app, app_assoc. apply IH. clear IH.
  destruct Hstep as [w e class_loader t obj cb pack backup hnf generated r st' outcome effects v' v q H1 H2 H3 H4 H5 H6 H7 H8
    |w evs s' Hstep Hno].
  - by apply (world_hook_ok a bs w e class_loader t obj cb pack backup hnf generated r st' outcome effects v').
  - rewrite app_nil_r. by apply world_other_ok.
Qed.

Lemma initial_world_ok h code0 ids l j :
  (∀ t, app t → runtime_code (entry_point (h t))) → world_ok (initial_app h) [] (initial_world h code0 ids l j).
Proof.
  intros Hcode. destruct (run_vm0_ok cur GetClassDef app runtime_code h code0 ids Hcode) as [Hs Ha].
  split; cbn; try done; [constructor|by intros m b ?%elem_of_nil].
Qed.

(** ** Calls *)

(** The native entry of a fast-native hooker. *)
Lemma native_entry_bound w m b l receiver values :
  let q := bound_request b in
  bound w m b l → dex_is_fast_native q = true → Forall is_parameter (params_of (dex_shorty q)) →
  length (params_of (dex_shorty q)) = length values →
  run_native_entry valueOf xxxValue answer w l (with_receiver (dex_is_static q) receiver values) =
    expected_call valueOf xxxValue answer b receiver values.
Proof.
  intros q [Hl Hreq Hcode Hfield Hwho Hnative Hpack Hhooker Hnonnull] Hf Hparams Hlen.
  unfold run_native_entry, expected_call. cbv zeta. fold q. rewrite Hf, (Hnative Hf).
  destruct (bound_data b) as [hd|] eqn:Ed; [|done]. rewrite (Hhooker hd eq_refl). fold q.
  cbn [hooker_data shorty data_field]. rewrite Hfield. unfold VNativeHookerEntry, wrapped_result.
  change (should_pack_receiver_and_args (hooker_data q _ _ _)) with (dex_should_pack q).
  change (is_static (hooker_data q _ _ _)) with (dex_is_static q). unfold with_receiver.
  rewrite native_arguments_spec by done. cbn [mbind option_bind]. f_equal. unfold native_answer. fold q. unfold array_for.
  unfold hooker_data. cbn [native_entry callback_method]. change (default 0 (Some (bound_object b))) with (bound_object b).
  destruct (bound_callback b) as [p|? ? ? ? ? id] eqn:Ecb.
  - by rewrite (proj2 (Z.eqb_neq _ _) (Hnonnull p eq_refl)).
  - cbn [Z.eqb negb]. destruct (bound_object b =? 0); cbn [negb]; [done|]. by destruct (dex_should_pack q).
Qed.

Lemma call_bound w m b l t receiver values :
  let sh := dex_shorty (bound_request b) in
  bound w m b l → callee cur (vm (system w)) t = m →
  is_return (return_of sh) → Forall is_parameter (params_of sh) → length (params_of sh) = length values →
  call cur valueOf xxxValue answer w t receiver values = expected_call valueOf xxxValue answer b receiver values.
Proof.
  intros sh Hb Hm Hret Hparams Hlen. pose proof Hb as [Hl Hreq Hcode Hfield Hwho Hnative Hpack Hhooker Hnonnull].
  unfold call. cbv zeta. rewrite Hm, Hl, Hreq. unfold Calls.hooker_of in Hcode. fold sh in Hcode |- *.
  assert (loaded_code l = class_of_request generated_method_name generated_native_field_name (return_of sh)
    (params_of sh) (bound_request b)) as -> by (destruct sh; congruence).
  cbn [class_of_request hook_code]. destruct (dex_is_fast_native (bound_request b)) eqn:Ef.
  { by eapply native_entry_bound. }
  unfold run_hook_body, expected_call, array_for. cbv zeta. rewrite Hfield, Ef. fold sh.
  change (default 0 (Some (bound_object b))) with (bound_object b). set (q := bound_request b) in *.
  destruct (hook_body_calls valueOf xxxValue (bound_object b) (λ virtual, answer (invoked w l virtual)) (return_of sh)
    (params_of sh) (dex_is_static q) (dex_is_native_api q) (dex_should_pack q) receiver values)
    as (m' & Hrun & Hcalled & Hreturned); try done.
  rewrite Hrun, Hcalled, Hreturned. by rewrite Hwho.
Qed.

(** What a call of a method of the application does. *)
Definition call_ok a bs w t : Prop :=
  match app_hooks a !! t with
  | Some (mkAppHook hook true _) =>
      ∃ b, (hook, b) ∈ bs ∧ target_method (bound_target b) = t ∧
        let sh := dex_shorty (bound_request b) in
        ∀ receiver values, is_return (return_of sh) → Forall is_parameter (params_of sh) →
          length (params_of sh) = length values →
          call cur valueOf xxxValue answer w t receiver values =
            expected_call valueOf xxxValue answer b receiver values
  | _ => ∀ receiver values, call cur valueOf xxxValue answer w t receiver values = OwnCode (codes a t)
  end.

Lemma call_own w m t code : loaded w !! m = None → callee cur (vm (system w)) t = m →
  native_code (methods (vm (system w))) m = code →
  ∀ receiver values, call cur valueOf xxxValue answer w t receiver values = OwnCode code.
Proof. intros Hm Hc He receiver values. unfold call. cbv zeta. by rewrite Hc, Hm, He. Qed.

Lemma unloaded a bs w m : world_ok a bs w →
  (app m ∨ ∃ t rec, hooked_methods_ (registry (vm (system w))) !! t = Some rec ∧ Records.backup rec = m) →
  loaded w !! m = None.
Proof.
  intros Hw H. destruct (loaded w !! m) as [l|] eqn:El; [|done]. destruct (ok_loaded _ _ _ Hw _ _ El) as [Hm Hb].
  destruct H as [?|(t & rec & Hrec & E)]; [done|]. by destruct (Hb t rec Hrec).
Qed.

Lemma call_target a bs w t :
  world_ok a bs w → app t → quiet (system w) t → call_ok a bs w t.
Proof.
  intros Hw Ht Hq. pose proof Hw as [Hs Ha _ Hb Hh _]. unfold call_ok.
  pose proof (quiet_target cur GetClassDef app runtime_code a (system w) t Hs Ha Ht Hq) as Htarget.
  pose proof (quiet_callee cur GetClassDef app runtime_code a (system w) t Hs Ha Ht Hq) as Hcallee.
  destruct (hooked_methods_ (registry (vm (system w))) !! t) as [rec|] eqn:Hrec.
  - destruct Htarget as (runs & Eh & Ec). rewrite Eh in Hcallee |- *. destruct runs.
    + destruct (Hh t _ Eh) as (b & Hin & Et). exists b. split; [done|]. split; [done|].
      destruct (Hb _ _ Hin) as [l Hbl]. intros receiver values Hret Hparams Hlen. by eapply call_bound.
    + apply (call_own w (Records.backup rec)); [|done|by rewrite Ec in Hcallee]. eapply unloaded; eauto.
  - destruct Htarget as [Eh Ec]. rewrite Eh in Hcallee |- *.
    apply (call_own w t); [|done|by rewrite Ec in Hcallee]. eapply unloaded; eauto.
Qed.

(** A call of the backup of a hooked method runs the method's own code. *)
Lemma call_backup a bs w t rec :
  world_ok a bs w → app t → quiet (system w) t → hooked_methods_ (registry (vm (system w))) !! t = Some rec →
  ∀ receiver values, call cur valueOf xxxValue answer w (Records.backup rec) receiver values = OwnCode (codes a t).
Proof.
  intros Hw Ht Hq Hrec. pose proof Hw as [Hs Ha _ _ _ _].
  pose proof (own_code_hooked _ _ _ _ (system w) t rec Hs Hrec) as Hown.
  pose proof (si_code _ _ _ _ (system w) Hs t Ht) as Hcode. rewrite (sim_codes _ _ _ _ _ Ha t Ht).
  apply (call_own w (Records.backup rec)); [eapply unloaded; eauto| |].
  - unfold callee. rewrite bool_decide_eq_false_2; [done|]. intros Hin%(si_stubs _ _ _ _ _ Hs). rewrite Hown in Hcode.
    by apply Hin.
  - by rewrite Hown.
Qed.

End spec.

(** ** A concrete run *)

(** The static method 0x100 of type [int f(Object)] is hooked with a class made by
    [BuildDex], and its code is compiled to 0x7000 afterwards. *)
Definition calls_result : Z * Z * Z * Z := (51, 151, 251, 351).
Definition calls_request : DexRequest := dex_request arm64_config (λ _, "IL"%string) run_vm0 sample_target sample_callback true.

Definition calls_hook := HookMethod kArm64 arm64_config None id 34 (λ _, "IL"%string) true
  (λ _, calls_result) (λ _, 0x200) false sample_target 0x40 sample_callback (Some 0x9000) run_vm0.

Definition calls_build (st : BuildState) : option ((Z * Z * Z * Z) * BuildState) :=
  BuildDex.BuildDex kArm64 34 false "LSPHooker" "" "{target}" "hooker" "hooker$native"
    (MkDexStatics 1 0 2 3 4 0 0 0 0 1) no_syms 5 0 (sample_env 1) 70 calls_request st.

Definition calls_w0 : World := initial_world run_methods (λ _, 0) [0x100] sample_loaded (mkJava ∅ ∅ ∅).
Definition calls_w1 : World :=
  mkWorld (mkSystem calls_hook.2 ∅)
    (match calls_build (build calls_w0) with Some (_, st) => st | None => build calls_w0 end)
    (load_hook "{target}" "hooker$native" calls_request calls_result ∅) (apply_effects calls_hook.1.2 (java calls_w0)).
Definition calls_w2 : World :=
  mkWorld (mkSystem (UpdateMethodsCode arm64_config run_install 0x100 0x7000 tt calls_hook.2) ∅)
    (build calls_w1) (loaded calls_w1) (java calls_w1).

Abbreviation calls_step := (world_step kArm64 arm64_config None id 0 None 15 None run_app run_code 34 false
  (λ _, "IL"%string) "LSPHooker" "" "{target}" "hooker" "hooker$native"
  (MkDexStatics 1 0 2 3 4 0 0 0 0 1) no_syms 5 0).
Abbreviation calls_run := (world_run kArm64 arm64_config None id 0 None 15 None run_app run_code 34 false
  (λ _, "IL"%string) "LSPHooker" "" "{target}" "hooker" "hooker$native"
  (MkDexStatics 1 0 2 3 4 0 0 0 0 1) no_syms 5 0).

Lemma calls_new_class : new_class kArm64 run_app calls_w0 sample_target 0x200 calls_result.
Proof.
  split; cbn.
  - intros m l _ H. by rewrite lookup_empty in H.
  - done.
  - intros _. split; [|done]. unfold run_app. lia.
  - intros _. split_and!; [|unfold run_app; lia|done|done]. split; cbn; [done|done|done|]. split; by vm_compute.
Qed.

Lemma calls_step1 : calls_step calls_w0 [EvHook 0x100 251]
  [(251, bind calls_request sample_target 0x40 sample_callback false calls_result)] calls_w1.
Proof.
  apply (world_hook kArm64 arm64_config None id 0 None 15 None run_app run_code 34 false
    (λ _, "IL"%string) "LSPHooker" "" "{target}" "hooker" "hooker$native"
    (MkDexStatics 1 0 2 3 4 0 0 0 0 1) no_syms 5 0 calls_w0 (sample_env 1) 70 sample_target 0x40 sample_callback true
    0x200 false (Some 0x9000) calls_result
    (match calls_build (build calls_w0) with Some (_, st) => st | None => build calls_w0 end)
    calls_hook.1.1 calls_hook.1.2 calls_hook.2).
  - by split_and!.
  - by vm_compute.
  - apply calls_new_class.
  - split_and!; [done|done|]. by intros b Hb%elem_of_nil.
  - intros stub [= <-] Hc. unfold run_code in Hc. rewrite !elem_of_cons, elem_of_nil in Hc. lia.
  - done.
  - done.
  - change (calls_hook = (calls_hook.1.1, calls_hook.1.2, calls_hook.2)). by destruct calls_hook as [[]].
Qed.

Lemma calls_step2 : calls_step calls_w1 (update_events calls_hook.2 0x100 0x7000) [] calls_w2.
Proof.
  apply world_other.
  - apply (sys_update_code _ _ _ _ _ _ _ _ _ _ calls_hook.2 ∅ unit run_install 0x100 0x7000 tt); [|apply SetEntryPoint_entry].
    split.
    + apply same_shape_methods, SetEntryPoint_same.
    + intros t Ht. unfold native_code, run_install. cbn [on_methods methods]. by rewrite SetEntryPoint_other.
    + intros _. apply data_SetEntryPoint.
    + unfold entry_of, run_install. cbn [on_methods methods]. rewrite SetEntryPoint_entry. right. right. by left.
  - intros target hook. unfold update_events. destruct (_ =? _); rewrite ?elem_of_cons, elem_of_nil; naive_solver.
Qed.

Lemma calls_run_ok : calls_run calls_w0 ([EvHook 0x100 251] ++ update_events calls_hook.2 0x100 0x7000 ++ [])
  ([(251, bind calls_request sample_target 0x40 sample_callback false calls_result)] ++ [] ++ []) calls_w2.
Proof. eapply world_cons; [apply calls_step1|]. eapply world_cons; [apply calls_step2|]. apply world_nil. Qed.

