(* ===== verification/InvokeCalls.v ===== *)
(** * Invoking hooked methods

    [InvokeSpecial] of [Invoke.v] in the machine of [Calls.v]: the JNI call it
    makes is a call of the method of its executable, which runs what the method's
    entry point leads to.  Invoking a hooked method calls its callback; invoking
    its backup, which is how a callback calls the original, runs the method's own
    code. *)

From S2P Require Import Prelude Memory Platform HookHelper ArtMethod Records Trampoline Vm MirrorClass ClassLinker.
From S2P Require Import ClassInit Instrumentation Jit HookApi HookSpec System SystemInv SystemRuntime.
From S2P Require Import SystemClass SystemApi SystemHook SystemSpec HookerDex DexFile BuildDex Calls CallsSpec Reflection Invoke.
From Stdlib Require Import Ascii.
From Stdlib Require String.

Section invoke.
Context (cur : Arch) (c : Config).
Context (valueOf xxxValue : ascii → Z → Z) (answer : Invoked → list Val → Z).
(** What a method's own code returns for a receiver and arguments, with the
    exception it leaves, and the method a virtual call of a method reaches. *)
Context (perform : Z * Z → Z → list Z → Z * Z) (dispatch : Z → Z → Z).

(** What a call returns; a call that crashes returns nothing. *)
Definition call_value (r : CallResult) (receiver : Z) (args : list Z) : Z * Z :=
  match r with
  | OwnCode code => perform code receiver args
  | CallsBack _ _ (VPrim z) | CallsBack _ _ (VRef z) | NativeReturns (Some z) => (z, 0)
  | CallsBack _ _ _ | NativeReturns None | Crashes => (0, 0)
  end.

(** The receiver of a JNI call, and the method called, for the id of [m]. *)
Definition receiver_in (kind : CallKind) : Z :=
  match kind with CallStatic _ => 0 | CallNonvirtual o _ | CallVirtual o => o end.
Definition method_in (m : Z) (kind : CallKind) : Z :=
  match kind with CallVirtual o => dispatch o m | _ => m end.

Definition jni_call (w : World) (m : Z) (kind : CallKind) (args : list Z) : Z * Z :=
  call_value (call cur valueOf xxxValue answer w (method_in m kind) (receiver_in kind) args) (receiver_in kind) args.

(** Code that left an exception returns 0. *)
Definition perform_ok : Prop := ∀ code receiver args, (perform code receiver args).2 ≠ 0 → (perform code receiver args).1 = 0.

Lemma jni_call_ok w m : perform_ok → jni_ok (jni_call w m).
Proof.
  intros H kind args. unfold jni_call. generalize (call cur valueOf xxxValue answer w (method_in m kind) (receiver_in kind) args).
  intros [code|who l [| | |]|[]|]; cbn; try done. apply H.
Qed.
End invoke.

Section spec.
Context (cur : Arch) (c : Config) (SetNotIntrinsic_ : option (Z → Methods → Methods)) (GetClassDef : Z → Z).
Context (bridge : Z) (interp : option (Z → Methods → Methods)).
Context (init_status : Z) (MoveObsoleteMethod_ : option (Z → Z → Methods → Methods)).
Context (app runtime_code : Z → Prop).
Context (sdk_int : Z) (kDebugBuild : bool) (GetShorty : Z → string).
Context (generated_class_name generated_source_name generated_method_name
         generated_field_name generated_native_field_name : string).
Context (d : DexStatics) (s : Syms) (dex_file_init_with_cl dex_file_init : Z).
Context (valueOf xxxValue : ascii → Z → Z) (answer : Invoked → list Val → Z).
Context (perform : Z * Z → Z → list Z → Z * Z) (dispatch : Z → Z → Z).
Context (GetObjectClass class_of_method : Z → Z) (IsAssignableFrom : Z → Z → bool) (AllocObject : Z → Z).
Hypothesis cur_supported : cur ∈ supported.
Hypothesis intrinsic : intrinsic_frame SetNotIntrinsic_.
Hypothesis interpreter : interpreter_ok bridge interp runtime_code.
Hypothesis movement : movement_ok MoveObsoleteMethod_.

Abbreviation world_run := (world_run cur c SetNotIntrinsic_ GetClassDef bridge interp init_status MoveObsoleteMethod_
  app runtime_code sdk_int kDebugBuild GetShorty generated_class_name generated_source_name generated_method_name
  generated_field_name generated_native_field_name d s dex_file_init_with_cl dex_file_init).

(** [InvokeSpecial] in a state of the machine. *)
Definition invoke (w : World) (i : Invocation) : option InvokeResult :=
  InvokeSpecial c GetShorty valueOf xxxValue GetObjectClass class_of_method IsAssignableFrom AllocObject
    (jni_call cur valueOf xxxValue answer perform dispatch w (target_method (executable i))) i (vm (system w)).

Lemma letters_of_invocation i v return_type types args :
  invocation_ok c GetShorty i v return_type types args →
  let sh := target_shorty c GetShorty v (executable i) in
  is_return (return_of sh) ∧ Forall is_parameter (params_of sh) ∧
  length (params_of sh) = length (unboxed xxxValue types args).
Proof.
  intros [_ _ Hsh Hret Htypes _ Hlen _] sh. fold sh in Hsh. destruct sh as [|x sh]; [done|].
  injection Hsh as -> <-. split_and!; [done|done|]. unfold unboxed. rewrite length_zip_with. cbn [params_of]. lia.
Qed.

End spec.

(** ** A concrete run *)

(** After the run of [CallsSpec.v], [f] and its backup are invoked with the object
    9: the callback answers 1005; the code compiled to 0x7000 returns 0x7000. *)
Definition invoke_executable (method : Z) : TargetInfo := {|
  target_executable := true; target_method := method; target_id := 1; target_name := "f";
  declaring_is_proxy := Some false; declaring_and_proxy_known := true; proxy_assignable := false;
  reflected_shorty := "IL" |}.
Definition invoke_f (method : Z) : option InvokeResult :=
  invoke kArm64 arm64_config (λ _, "IL"%string) (λ _ v, v + 1000) (λ _ o, o - 1000) (λ _ _, 1005)
    (λ code _ _, (code.2, 0)) (λ _ m, m) (λ _, 3) (λ _, 4) (λ _ _, false) (λ _, 5) calls_w2
    {| executable := invoke_executable method; declaring_class := 0; receiver := 0; args_array := Some [9] |}.

Lemma invoke_f_ok method : method ∈ [0x100; 0x200] →
  invocation_ok arm64_config (λ _, "IL"%string)
    {| executable := invoke_executable method; declaring_class := 0; receiver := 0; args_array := Some [9] |}
    (vm (system calls_w2)) "I" ["L"%char] [9].
Proof.
  rewrite elem_of_cons, list_elem_of_singleton. intros [-> | ->]; split; try done.
  all: try (by left); try (apply Forall_singleton; by right). all: intros _ H; by vm_compute in H.
Qed.

