(* ===== verification/NativeScopes.v ===== *)
(** * The scopes of fast-native hookers

    [ScopedNonNativeTargetMethod] of [lsplant.cc]: while the entry of a fast-native
    hooker runs, the target is no native method; scopes share a counter in the data
    of the hooker.  The counter is a plain [uint32_t]: a scope is opened and closed
    by several accesses to memory.  Scopes that are opened and closed one at a time,
    in any order, are balanced; those of two threads that do so together are not. *)

From S2P Require Import Prelude Memory Platform ArtMethod HookApi HookerDex.

(** ** One at a time *)

(** The data, the methods, and the scopes that are open: whether each is active. *)
Record ScopeState := mkScopes {
  scope_data : NativeHookerData;
  scope_methods : Methods;
  open_scopes : gmap Z bool;
}.

Section scopes.

Implicit Types (st : ScopeState) (d : NativeHookerData) (h : Methods) (id : Z).

Inductive scope_step : ScopeState → ScopeState → Prop :=
  | scope_enter d h scopes id active d' h' :
      scopes !! id = None → Z.of_nat (size scopes) + 1 < 2 ^ 32 →
      enter_scope d h = (active, d', h') →
      scope_step (mkScopes d h scopes) (mkScopes d' h' (<[id := active]> scopes))
  | scope_leave d h scopes id active d' h' :
      scopes !! id = Some active → leave_scope active d h = (d', h') →
      scope_step (mkScopes d h scopes) (mkScopes d' h' (delete id scopes))
  | scope_other d h scopes h' :
      h' (hooker_target d) = h (hooker_target d) →
      scope_step (mkScopes d h scopes) (mkScopes d h' scopes).

(** Opening the scope of a native method. *)
Lemma IsNative_SetNonNative t h : IsNative (SetNonNative t h) t = false.
Proof.
  unfold IsNative, GetAccessFlags, SetNonNative. cbn [view methods_store SetAccessFlags].
  rewrite fn_lookup_alter. simpl. apply has_bits_clear_same.
Qed.

Lemma IsNative_SetNative t h : IsNative (SetNative t h) t = true.
Proof.
  unfold IsNative, GetAccessFlags, SetNative. cbn [view methods_store SetAccessFlags].
  rewrite fn_lookup_alter. cbn [access_flags with_access_flags]. rewrite has_bits_set. by rewrite orb_true_r.
Qed.

(** The counter counts the scopes, which are all active, and the target is native
    when it is 0. *)
Record scopes_ok (target : Z) st : Prop := {
  scopes_target : hooker_target (scope_data st) = target;
  scopes_count : references (scope_data st) = Z.of_nat (size (open_scopes st)) ∧ references (scope_data st) < 2 ^ 32;
  scopes_active id active : open_scopes st !! id = Some active → active = true;
  scopes_native : IsNative (scope_methods st) target = (references (scope_data st) =? 0);
}.

Lemma scope_step_ok target st st' : scopes_ok target st → scope_step st st' → scopes_ok target st'.
Proof.
  intros [Ht [Hc Hlt] Ha Hn] Hstep. destruct Hstep as [d h scopes id active d' h' Hid Hroom E|d h scopes id active d' h' Hid E
    |d h scopes h' Hh]; cbn [scope_data scope_methods open_scopes] in *.
  - unfold enter_scope in E. rewrite Ht, Hn, andb_negb_r in E.
    assert (wrap 32 (references d + 1) = references d + 1) as Ew by (apply wrap_small; lia). rewrite Ew in E.
    apply pair_equal_spec in E as [[<- <-]%pair_equal_spec <-]. split; cbn [scope_data scope_methods open_scopes with_references hooker_target references].
    + done.
    + rewrite map_size_insert_None by done. lia.
    + intros id' active'. rewrite lookup_insert_Some. intros [[_ <-]|[_ H]]; [done|by eapply Ha].
    + destruct (Z.eqb_spec (references d + 1) 1) as [E1|E1].
      * rewrite IsNative_SetNonNative. symmetry. apply Z.eqb_neq. lia.
      * rewrite Hn. transitivity false; [|symmetry]; apply Z.eqb_neq; lia.
  - rewrite (Ha id active Hid) in E. unfold leave_scope in E. rewrite Ht in E.
    assert (0 < size scopes)%nat as Hpos.
    { destruct (size scopes) eqn:Es; [|lia]. apply map_size_empty_inv in Es. subst scopes. by rewrite lookup_empty in Hid. }
    assert (wrap 32 (references d - 1) = references d - 1) as Ew by (apply wrap_small; lia). rewrite Ew in E.
    apply pair_equal_spec in E as [<- <-]. split; cbn [scope_data scope_methods open_scopes with_references hooker_target references].
    + done.
    + rewrite map_size_delete, Hid. cbn. lia.
    + intros id' active'. rewrite lookup_delete_Some. intros [_ H]. by eapply Ha.
    + destruct (Z.eqb_spec (references d - 1) 0) as [E1|E1]; [apply IsNative_SetNative|].
      rewrite Hn. apply Z.eqb_neq. lia.
  - split; cbn; try done. unfold IsNative, GetAccessFlags in *. cbn [view methods_store] in *. subst target. by rewrite Hh.
Qed.

(** C21: however the scopes of a hooker are opened and closed, one at a time and in any
    order, its target is a native method exactly when none is open, and the counter
    is the number of open scopes; so the last scope to close, whichever it is, makes
    the target native again. *)
Theorem scopes_balanced d h st :
  references d = 0 → IsNative h (hooker_target d) = true → rtc scope_step (mkScopes d h ∅) st →
  IsNative (scope_methods st) (hooker_target d) = bool_decide (open_scopes st = ∅) ∧
  references (scope_data st) = Z.of_nat (size (open_scopes st)) ∧
  map_Forall (λ _ active, active = true) (open_scopes st).
Proof.
  intros Hr Hn Hrun.
  assert (scopes_ok (hooker_target d) st) as [Ht [Hc _] Ha Hnat].
  { revert Hrun. apply (rtc_invariant _ (scopes_ok (hooker_target d))); [by apply scope_step_ok|].
    split; cbn; [done|by rewrite Hr|by intros ? ? ?%lookup_empty_Some|by rewrite Hr]. }
  split_and!; [|done|by intros id active Hid; apply (Ha id)].
  rewrite Hnat, Hc. destruct (decide (open_scopes st = ∅)) as [->|Hne].
  - by rewrite bool_decide_eq_true_2.
  - rewrite bool_decide_eq_false_2 by done. apply Z.eqb_neq. intros E. apply Hne, map_size_empty_inv. lia.
Qed.
End scopes.

(** ** Two threads together *)

(** Where a thread is in the constructor and the destructor: each step reads or
    writes memory once (the flags of the target are written in one step). *)
Inductive Pc : Type :=
  | Testing | TestingFlags | Tested
  | Incrementing (loaded : Z) | Clearing
  | Inside (active : bool)
  | Decrementing (loaded : Z) | Setting
  | Closed.

Definition access (pc : Pc) (d : NativeHookerData) (h : Methods) : Pc * NativeHookerData * Methods :=
  match pc with
  | Testing => (if references d =? 0 then TestingFlags else Tested, d, h)
  | TestingFlags => (if IsNative h (hooker_target d) then Tested else Inside false, d, h)
  | Tested => (Incrementing (references d), d, h)
  | Incrementing n =>
      let n := wrap 32 (n + 1) in (if n =? 1 then Clearing else Inside true, with_references n d, h)
  | Clearing => (Inside true, d, SetNonNative (hooker_target d) h)
  | Inside true => (Decrementing (references d), d, h)
  | Inside false => (Closed, d, h)
  | Decrementing n =>
      let n := wrap 32 (n - 1) in (if n =? 0 then Setting else Closed, with_references n d, h)
  | Setting => (Closed, d, SetNative (hooker_target d) h)
  | Closed => (Closed, d, h)
  end.

Fixpoint accesses (n : nat) (s : Pc * NativeHookerData * Methods) : Pc * NativeHookerData * Methods :=
  match n with
  | O => s
  | S n => let '(pc, d, h) := s in accesses n (access pc d h)
  end.

(** A thread that is not disturbed opens the scope as [enter_scope] does. *)
Lemma enter_alone d h :
  ∃ n, let '(active, d', h') := enter_scope d h in accesses n (Testing, d, h) = (Inside active, d', h').
Proof.
  unfold enter_scope. destruct (references d =? 0) eqn:E0; cbn [andb].
  - destruct (IsNative h (hooker_target d)) eqn:En; cbn [negb].
    + destruct (wrap 32 (references d + 1) =? 1) eqn:E1; [exists 5%nat|exists 4%nat];
        cbn [accesses access]; rewrite E0; cbn [accesses access]; rewrite En; cbn [accesses access]; by rewrite E1.
    + exists 2%nat. cbn [accesses access]. rewrite E0. cbn [accesses access]. by rewrite En.
  - destruct (wrap 32 (references d + 1) =? 1) eqn:E1; [exists 4%nat|exists 3%nat];
      cbn [accesses access]; rewrite E0; cbn [accesses access]; by rewrite E1.
Qed.

(** And closes it as [leave_scope] does. *)
Lemma leave_alone active d h :
  ∃ n, let '(d', h') := leave_scope active d h in accesses n (Inside active, d, h) = (Closed, d', h').
Proof.
  unfold leave_scope. destruct active; [|by exists 1%nat].
  destruct (wrap 32 (references d - 1) =? 0) eqn:E; [exists 3%nat|exists 2%nat]; cbn [accesses access]; by rewrite E.
Qed.

(** Threads share the data and the methods. *)
Record RaceState := mkRace { race_data : NativeHookerData; race_methods : Methods; pcs : list Pc }.

Definition race_step (s : RaceState) (i : nat) : RaceState :=
  match pcs s !! i with
  | Some pc =>
      let '(pc, d, h) := access pc (race_data s) (race_methods s) in mkRace d h (<[i := pc]> (pcs s))
  | None => s
  end.

Definition race (schedule : list nat) (s : RaceState) : RaceState := foldl race_step s schedule.

(** Two threads that load the counter before either of them stores it. *)
Definition first_half : list nat := [0; 0; 0; 1; 1; 1; 0; 0; 1; 1; 0; 0; 0]%nat.
Definition second_half : list nat := [1; 1]%nat.

(** Two calls of a fast-native method can lose an update of the counter: then the
    target is native again while the second scope is open; and when both are closed
    the counter is the largest [uint32_t], so the next scope that opens, alone,
    leaves the target native. *)
Theorem scopes_race d h :
  references d = 0 → IsNative h (hooker_target d) = true →
  let s1 := race first_half (mkRace d h [Testing; Testing]) in
  let s2 := race second_half s1 in
  pcs s1 = [Closed; Inside true] ∧ IsNative (race_methods s1) (hooker_target d) = true ∧
  pcs s2 = [Closed; Closed] ∧ references (race_data s2) = 2 ^ 32 - 1 ∧
  let '(active, d', h') := enter_scope (race_data s2) (race_methods s2) in
  active = true ∧ IsNative h' (hooker_target d) = true.
Proof.
  intros Hr Hn.
  assert (race first_half (mkRace d h [Testing; Testing]) =
    mkRace (with_references 0 (with_references 1 (with_references 1 d)))
      (SetNative (hooker_target d) (SetNonNative (hooker_target d) (SetNonNative (hooker_target d) h)))
      [Closed; Inside true]) as ->.
  { unfold race, first_half. cbn [foldl race_step pcs race_data race_methods lookup list_lookup access].
    rewrite Hr. cbn. rewrite Hn. cbn. rewrite Hr. cbn. rewrite Hn. cbn. by rewrite Hr. }
  cbn zeta. split_and!; [done|apply IsNative_SetNative|done|done|].
  cbn. split; [done|]. apply IsNative_SetNative.
Qed.

(** ** A concrete hooker *)

Definition race_hooker : NativeHookerData :=
  {| should_pack_receiver_and_args := true; is_static := true; references := 0; data_field := 0; callback_method := 0x66;
     native_entry := 0; hooker_target := 0x100; shorty := "IL" |}.
Definition race_native : Methods := λ _, mkMethod (Z.lor kAccPublic kAccNative) 0x7000 0x5000 0 0x10.

(** Two scopes opened, the first closed first. *)
Definition race_after : ScopeState :=
  let '(a1, d1, h1) := enter_scope race_hooker race_native in
  let '(a2, d2, h2) := enter_scope d1 h1 in
  let '(d3, h3) := leave_scope a1 d2 h2 in
  mkScopes d3 h3 {[2 := a2]}.

Example scopes_balanced_witness :
  IsNative (scope_methods race_after) 0x100 = false ∧ references (scope_data race_after) = 1.
Proof.
  assert (rtc scope_step (mkScopes race_hooker race_native ∅) race_after) as Hrun.
  { eapply rtc_l; [by apply (scope_enter _ _ _ 1)|]. eapply rtc_l; [by apply (scope_enter _ _ _ 2)|].
    eapply rtc_l; [by apply (scope_leave _ _ _ 1 true)|]. apply rtc_refl. }
  destruct (scopes_balanced race_hooker race_native race_after eq_refl eq_refl Hrun) as (H1 & H2 & _).
  split; [exact H1|exact H2].
Defined.
