(* ===== verification/BuildRaces.v ===== *)
(** * Two hooks at once

    The header of the library says that [Hook] can be called from several threads
    for different methods.  [BuildDex] and [OpenInMemoryHookerDex] of [lsplant.cc]
    count classes and take memory for images with plain variables: here they are
    sequences of accesses to memory.  Undisturbed, they do what [BuildDex.v] and
    [DexFile.v] say; two of them together can take one name and one block. *)

From S2P Require Import Prelude Memory Platform Arena ArenaSpec.

(** What the threads share: the number of classes, the allocator and the memory. *)
Record Shared := mkShared { class_count : Z; allocator : ArenaAllocator; shared_memory : mem }.

(** Where a call is: [loaded_classes++] reads and writes the counter; [Alloc] tests
    the room and reads [ptr_], reads it again and writes it; then the image is
    copied.  [Refilling] is a call that needs another arena, not followed here. *)
Inductive BuildPc : Type :=
  | Naming
  | Counting (loaded : Z)
  | Reserving (n : Z)
  | Advancing (n ret : Z)
  | Storing (n ret loaded : Z)
  | Copying (n ret : Z)
  | Refilling (n : Z)
  | Finished (n ret : Z).

Section races.
Context (cur : Arch).
Abbreviation w := (kPointerBits cur).
Implicit Types (sh : Shared) (image : list Z).

Definition image_room image : Z := align_up w (Z.of_nat (length image)) kAlignment.

Definition build_access image (pc : BuildPc) sh : BuildPc * Shared :=
  match pc with
  | Naming => (Counting (class_count sh), sh)
  | Counting n => (Reserving n, mkShared (wrap w (n + 1)) (allocator sh) (shared_memory sh))
  | Reserving n =>
      (if image_room image >? CurrentArenaUnusedBytes cur (allocator sh) then Refilling n
       else Advancing n (ptr_ (allocator sh)), sh)
  | Advancing n ret => (Storing n ret (ptr_ (allocator sh)), sh)
  | Storing n ret p =>
      (Copying n ret,
       mkShared (class_count sh) (with_ptr (wrap w (p + image_room image)) (allocator sh)) (shared_memory sh))
  | Copying n ret =>
      (Finished n ret, mkShared (class_count sh) (allocator sh) (write_bytes (shared_memory sh) ret image))
  | Refilling _ | Finished _ _ => (pc, sh)
  end.

Fixpoint build_accesses (k : nat) image (s : BuildPc * Shared) : BuildPc * Shared :=
  match k with
  | O => s
  | S k => build_accesses k image (build_access image s.1 s.2)
  end.

(** A call that is not disturbed, where the arena has room, counts a class, takes
    the block [Alloc] gives out and fills it. *)
Lemma build_alone image sh mapped malloc :
  image_room image <= CurrentArenaUnusedBytes cur (allocator sh) →
  ∃ ret a m, Alloc cur mapped malloc (Z.of_nat (length image)) (allocator sh) (shared_memory sh) = Some (ret, a, m) ∧
    build_accesses 6 image (Naming, sh) =
      (Finished (class_count sh) ret, mkShared (wrap w (class_count sh + 1)) a (write_bytes m ret image)).
Proof.
  intros Hroom. unfold Alloc. fold (image_room image).
  assert (image_room image >? CurrentArenaUnusedBytes cur (allocator sh) = false) as E
    by (rewrite Z.gtb_ltb; apply Z.ltb_ge; lia).
  rewrite E. do 3 eexists. split; [done|].
  cbn [build_accesses build_access fst snd class_count allocator shared_memory]. rewrite E. done.
Qed.

(** Two threads, each with its image. *)
Record TwoBuilds := mkBuilds { shared : Shared; first : BuildPc; second : BuildPc }.

Definition builds_step (image1 image2 : list Z) (s : TwoBuilds) (one : bool) : TwoBuilds :=
  if one
  then let '(pc, sh) := build_access image1 (first s) (shared s) in mkBuilds sh pc (second s)
  else let '(pc, sh) := build_access image2 (second s) (shared s) in mkBuilds sh (first s) pc.

Definition run_builds (image1 image2 : list Z) (schedule : list bool) (s : TwoBuilds) : TwoBuilds :=
  foldl (builds_step image1 image2) s schedule.

(** Both read each variable before either of them writes it. *)
Definition together : list bool :=
  [true; false; true; false; true; false; true; false; true; false; true; false].

(** Two calls for different methods at once: both classes get one name and both
    images one block, where the second image replaces the first; and one class is
    not counted. *)
Theorem parallel_builds_collide image1 image2 sh :
  image_room image1 <= CurrentArenaUnusedBytes cur (allocator sh) →
  image_room image2 <= CurrentArenaUnusedBytes cur (allocator sh) →
  length image1 = length image2 → Forall is_byte image2 →
  let n := class_count sh in
  let p := ptr_ (allocator sh) in
  let s := run_builds image1 image2 together (mkBuilds sh Naming Naming) in
  first s = Finished n p ∧ second s = Finished n p ∧ class_count (shared s) = wrap w (n + 1) ∧
  (image1 ≠ image2 → read_bytes (shared_memory (shared s)) p (length image1) ≠ image1).
Proof.
  intros H1 H2 Hlen Hbytes n p s.
  assert (s = mkBuilds (mkShared (wrap w (n + 1)) (with_ptr (wrap w (p + image_room image2))
      (with_ptr (wrap w (p + image_room image1)) (allocator sh)))
    (write_bytes (write_bytes (shared_memory sh) p image1) p image2)) (Finished n p) (Finished n p)) as ->.
  { unfold s, run_builds, together. cbn [foldl builds_step first second shared build_access class_count allocator shared_memory].
    rewrite !Z.gtb_ltb, !(proj2 (Z.ltb_ge _ _)) by lia. done. }
  split_and!; [done|done|done|]. cbn [shared shared_memory]. intros Hne E. apply Hne.
  rewrite <-E, Hlen. by rewrite read_write_same.
Qed.
End races.

(** ** A concrete arena *)

Definition race_arena : Shared := mkShared 0 (MkAllocator [] 0x1000 0x2000 0x1000 []) (λ _, 0).

Example parallel_builds_collide_witness :
  let s := run_builds kArm64 [1; 2; 3] [4; 5; 6] together (mkBuilds race_arena Naming Naming) in
  first s = Finished 0 0x1000 ∧ second s = Finished 0 0x1000 ∧
  read_bytes (shared_memory (shared s)) 0x1000 3 ≠ [1; 2; 3].
Proof.
  destruct (parallel_builds_collide kArm64 [1; 2; 3] [4; 5; 6] race_arena) as (H1 & H2 & _ & H3);
    [by vm_compute|by vm_compute|done|by repeat constructor|].
  split; [exact H1|]. split; [exact H2|]. by apply H3.
Defined.
