(* ===== verification/BuildImages.v ===== *)
(** * The classes that are built and their images

    Calls of [BuildDex] one after the other on the allocator of [Arena.v]: what
    [DexImages.v] shows of images and [BuildDex.v] of classes, for the images of
    the classes that are built. *)

From stdpp Require Import pretty.
From S2P Require Import Prelude Memory Platform HookHelper ArtMethod ObjectCollections Reflection.
From S2P Require Import HookApi HookerDex Arena ArenaSpec DexFile DexImages BuildDex.
From Stdlib Require Import Ascii.
From Stdlib Require String.

(** The globals of [BuildDex] with the blocks of its allocator, and the classes the
    runtime was given in memory: name, address and what was built. *)
Record Classes := MkClasses { classes_build : BuildState; classes_sys : Sys; given : list (string * Z * list Z) }.

Section classes.
Context (cur : Arch) (sdk_int page_bits : Z) (kDebugBuild : bool).
Context (generated_class_name generated_source_name generated_method_name
         generated_field_name generated_native_field_name : string).
Context (d : DexStatics) (s : Syms) (dex_file_init_with_cl dex_file_init : Z).
Abbreviation w := (kPointerBits cur).
Implicit Types (x : Classes) (e : BuildEnv) (st : BuildState).

Abbreviation build_dex := (BuildDex.BuildDex cur sdk_int kDebugBuild generated_class_name generated_source_name
  generated_method_name generated_field_name generated_native_field_name d s dex_file_init_with_cl dex_file_init).
Abbreviation build_step := (build_step cur sdk_int kDebugBuild generated_class_name generated_source_name
  generated_method_name generated_field_name generated_native_field_name d s dex_file_init_with_cl dex_file_init).
Abbreviation load_step := (load_step cur sdk_int page_bits kDebugBuild generated_source_name d s
  dex_file_init_with_cl dex_file_init).
Abbreviation class_name := (hooker_class_name generated_class_name).

(** The class of a request and its image. *)
Definition image_of e (q : DexRequest) (return_type : ascii) (params : string) (name : string) : list Z :=
  CreateImage e name (class_of_request generated_method_name generated_native_field_name return_type
    (String.list_ascii_of_string params) q).

Definition images_of x : Images :=
  MkImages (classes_sys x) (kDexLoadFailed (load_state (classes_build x)))
    (map (λ g, (g.1.2, loaded_image kDebugBuild g.2)) (given x)).

(** The allocator of the two views is one. *)
Definition one_allocator x : Prop :=
  load_state (classes_build x) =
    MkLoad (alloc (classes_sys x)) (kDexLoadFailed (load_state (classes_build x))) (bytes (classes_sys x)).

(** A call of [BuildDex], with memory that [mmap] and [malloc] may give; [dex] is
    what [OpenInMemoryHookerDex] returns in it. *)
Inductive class_step x : Classes → Prop :=
| class_one e class_loader q return_type params dex loaded r st' :
    dex_shorty q = String return_type params →
    let name := class_name (loaded_classes (classes_build x)) in
    let image := image_of e q return_type params name in
    let n := Z.of_nat (length image) in
    let block := image_block cur d (mapped e) (malloc_ e) image (images_of x) in
    loaded_classes (classes_build x) + 1 < 2 ^ w →
    8 <= n → n + 7 < 2 ^ w → Forall is_byte image →
    mmap_ok cur page_bits (classes_sys x) (mapped e) (Z.max kArenaDefaultSize (align_up w n kAlignment)) →
    malloc_ok cur (classes_sys x) kAlignment (malloc_ e) (align_up w n kAlignment) →
    load_image cur sdk_int kDebugBuild generated_source_name d s dex_file_init_with_cl dex_file_init
      (open_ e) (close_guard e) (mapped e) (malloc_ e) image (images_of x) = Some (dex, loaded) →
    build_dex e class_loader q (classes_build x) = Some (r, st') →
    class_step x (MkClasses st'
      (sys (after_load cur kDebugBuild block image dex loaded (images_of x)))
      match block, dex with Some p, MemoryDex _ => (name, p, image) :: given x | _, _ => given x end).

(** Such a call, computed. *)
Definition class_next e class_loader q return_type params x : Classes :=
  let name := class_name (loaded_classes (classes_build x)) in
  let image := image_of e q return_type params name in
  let block := image_block cur d (mapped e) (malloc_ e) image (images_of x) in
  match load_image cur sdk_int kDebugBuild generated_source_name d s dex_file_init_with_cl dex_file_init
          (open_ e) (close_guard e) (mapped e) (malloc_ e) image (images_of x),
        build_dex e class_loader q (classes_build x) with
  | Some (dex, loaded), Some (_, st') =>
      MkClasses st' (sys (after_load cur kDebugBuild block image dex loaded (images_of x)))
        match block, dex with Some p, MemoryDex _ => (name, p, image) :: given x | _, _ => given x end
  | _, _ => x
  end.

(** Nothing is built yet. *)
Definition classes_initial x : Prop :=
  initial cur (classes_sys x) ∧ given x = [] ∧
  classes_build x = nothing_built (MkLoad (alloc (classes_sys x)) 0 (bytes (classes_sys x))).

(** ** The two views of a call *)

Lemma class_loader_for_load e class_loader st l st' :
  class_loader_for e class_loader st = Some (l, st') →
  load_state st' = load_state st ∧ loaded_classes st' = loaded_classes st.
Proof.
  unfold class_loader_for. destruct (negb _); [by intros [= <- <-]|].
  destruct (ObjectMap.add _ _ _) as [[]|]; [|done]. by intros [= <- <-].
Qed.

(** [BuildDex] is at the load that [OpenInMemoryHookerDex] leaves. *)
Lemma build_dex_load e class_loader q return_type params st dex loaded r st' :
  dex_shorty q = String return_type params →
  OpenInMemoryHookerDex cur sdk_int kDebugBuild generated_source_name (open_ e) d s (close_guard e)
    dex_file_init_with_cl dex_file_init (mapped e) (malloc_ e)
    (image_of e q return_type params (class_name (loaded_classes st))) (load_state st) = Some (dex, loaded) →
  build_dex e class_loader q st = Some (r, st') →
  load_state st' = loaded ∧ loaded_classes st' = wrap w (loaded_classes st + 1).
Proof.
  intros Hq Hload. unfold BuildDex.BuildDex. rewrite Hq. unfold image_of in Hload. rewrite Hload. simpl.
  destruct (_ =? 0); [by intros [= <- <-]|].
  destruct (class_loader_for _ _ _) as [[loader st2]|] eqn:El; [|done]. simpl.
  apply class_loader_for_load in El as [E1 E2]. cbn in E1, E2.
  destruct (_ =? 0); [by intros [= <- <-]|]. unfold register_entry.
  destruct (dex_is_fast_native q); [destruct (native_entry_type return_type); [|done]|]; simpl; by intros [= <- <-].
Qed.

Lemma hold_alloc p n a m g : alloc (hold cur p n a m g) = a ∧ bytes (hold cur p n a m g) = m.
Proof. unfold hold. by destruct (p =? 0). Qed.

Lemma class_step_views x x' :
  one_allocator x → 0 <= loaded_classes (classes_build x) → class_step x x' →
  one_allocator x' ∧ build_step (classes_build x) (classes_build x') ∧ load_step (images_of x) (images_of x') ∧
  loaded_classes (classes_build x') = loaded_classes (classes_build x) + 1 ∧
  (given x' = given x ∨ ∃ p image,
     given x' = (class_name (loaded_classes (classes_build x)), p, image) :: given x).
Proof.
  intros Hone H0 [e class_loader q return_type params dex loaded r st' Hq name image n block Hroom H8 Hw Hby Hmap Hmal Hload Hb].
  assert (load_state st' = loaded ∧ loaded_classes st' = wrap w (loaded_classes (classes_build x) + 1)) as [El En].
  { eapply build_dex_load; [exact Hq| |exact Hb]. rewrite Hone. exact Hload. }
  pose proof Hload as Hopen. apply open_load in Hopen; [|exact H8]. fold block in Hopen.
  assert (images_of (MkClasses st' (sys (after_load cur kDebugBuild block image dex loaded (images_of x)))
      match block, dex with Some p, MemoryDex _ => (name, p, image) :: given x | _, _ => given x end) =
    after_load cur kDebugBuild block image dex loaded (images_of x)) as Eviews.
  { unfold images_of at 1. cbn [classes_sys classes_build given]. rewrite El. unfold after_load.
    by destruct block, dex. }
  split_and!.
  - unfold one_allocator. cbn [classes_build classes_sys]. rewrite El. unfold after_load.
    destruct block as [p|]; cbn [sys].
    + destruct (hold_alloc p (align_up w (Z.of_nat (length image)) kAlignment) (arena_allocator loaded) (memory loaded)
        (sys (images_of x))) as [-> ->]. by destruct loaded.
    + by destruct Hopen as [-> _].
  - split; [exact Hroom|]. by exists e, class_loader, q, r.
  - rewrite Eviews. by apply (load_one _ _ _ _ _ _ _ _ _ _ (open_ e) (close_guard e) (mapped e) (malloc_ e) image dex loaded).
  - cbn [classes_build]. rewrite En. apply wrap_small. lia.
  - cbn [given]. destruct block as [p|], dex; eauto.
Qed.

Record classes_ok x : Prop := {
  classes_one : one_allocator x;
  classes_names : NoDup (given x).*1.*1;
  classes_count : 0 <= loaded_classes (classes_build x);
  classes_numbers name : name ∈ (given x).*1.*1 →
    ∃ n, 0 <= n < loaded_classes (classes_build x) ∧ name = class_name n;
}.

Lemma class_step_ok x x' : classes_ok x → class_step x x' → classes_ok x'.
Proof.
  intros [H1 H2 H3 H4] Hstep. destruct (class_step_views x x' H1 H3 Hstep) as (H1' & _ & _ & Hn & Hg).
  assert (∀ name, name ∈ (given x).*1.*1 → name ≠ class_name (loaded_classes (classes_build x))) as Hnew.
  { intros name Hin ->. destruct (H4 _ Hin) as (n & Hlt & E). apply hooker_class_name_inj in E; lia. }
  destruct Hg as [Hg|(p & image & Hg)]; (split; [done|rewrite Hg|lia|rewrite Hn, Hg]).
  - done.
  - intros name (n & ? & ->)%H4. exists n. split; [lia|done].
  - constructor; [|done]. intros Hin. by apply (Hnew _ Hin).
  - intros name [->|(n & ? & ->)%H4]%elem_of_cons; [eexists; split; [|done]; lia|]. exists n. split; [lia|done].
Qed.

(** C27: the classes of hooks keep apart in memory and by name, when they are built
    one after another. However many calls of [BuildDex] are made in sequence,
    whatever the builder, the runtime and JNI answer, the image of every class the
    runtime was given in memory still has the bytes that were built for that class,
    of which [loaded_image] clears the first eight outside debug builds; no two of
    these classes have one name; and the count of failed loads stays between 0 and
    its limit. For calls in parallel, which the header of the library permits, names
    and images do collide ([BuildRaces.v]). *)
Theorem classes_intact x0 x :
  4 <= page_bits < w → classes_initial x0 → rtc class_step x0 x →
  NoDup (given x).*1.*1 ∧
  (∀ name p image, (name, p, image) ∈ given x →
     let image := loaded_image kDebugBuild image in
     read_bytes (bytes (classes_sys x)) p (length image) = image) ∧
  0 <= kDexLoadFailed (load_state (classes_build x)) <= kMaxTryCount.
Proof.
  intros Hp Hi Hrun. assert (classes_ok x ∧ images_ok cur (images_of x)) as [Hx (_ & Hf & Him)].
  { revert Hrun. apply (rtc_invariant _ (λ x, classes_ok x ∧ images_ok cur (images_of x))).
    - intros a b [Ha Hia] Hab. split; [by eapply class_step_ok|].
      destruct (class_step_views a b (classes_one a Ha) (classes_count a Ha) Hab) as (_ & _ & Hl & _).
      by eapply load_step_ok.
    - destruct Hi as (Hi & Hg & Hb). split.
      + split; rewrite ?Hg, ?Hb; [by unfold one_allocator; rewrite Hb|constructor|done|intros name H; by apply elem_of_nil in H].
      + unfold images_of. rewrite Hg, Hb. split; [by apply (arena_initial_ok cur false)|]. by split; [|constructor]. }
  split_and!; [apply (classes_names x Hx)| |apply Hf|apply Hf].
  intros name p image Hin image'. rewrite Forall_forall in Him.
  apply (Him (p, image')). apply list_elem_of_fmap. by exists (name, p, image).
Qed.
End classes.

(** Two classes built on Android 14, in one arena. *)
Definition images_env (last : Z) (mapped : option Z) : BuildEnv :=
  MkBuildEnv (λ _ _, [100; 101; 120; 10; 48; 51; 53; 0; 1; 2; 3; last]) accept 0 mapped 0 (λ _, 40) (λ _, 701) (λ _ _ _, 51)
    (λ c _, c + 100) (λ c _, c + 200) (λ c _, c + 300).
Definition classes0 : Classes :=
  MkClasses (nothing_built (MkLoad (alloc empty_sys) 0 (bytes empty_sys))) empty_sys [].
Abbreviation images_next e := (class_next kArm64 34 false "LSPHooker" "" "{target}" "hooker" "hooker$native"
  sample_statics sample_syms 0 0 e 70 sample_request "V" "I").
Definition classes1 : Classes := images_next (images_env 4 (Some 65536)) classes0.
Definition classes2 : Classes := images_next (images_env 5 None) classes1.

Abbreviation images_step := (class_step kArm64 34 12 false "LSPHooker" "" "{target}" "hooker" "hooker$native"
  sample_statics sample_syms 0 0).

Lemma images_env_step last mapped x :
  is_byte last → loaded_classes (classes_build x) < 2 →
  mmap_ok kArm64 12 (classes_sys x) mapped kArenaDefaultSize → is_Some
    (load_image kArm64 34 false "" sample_statics sample_syms 0 0 accept 0 mapped 0
      [100; 101; 120; 10; 48; 51; 53; 0; 1; 2; 3; last] (images_of false x)) →
  is_Some (BuildDex.BuildDex kArm64 34 false "LSPHooker" "" "{target}" "hooker" "hooker$native"
    sample_statics sample_syms 0 0 (images_env last mapped) 70 sample_request (classes_build x)) →
  images_step x (images_next (images_env last mapped) x).
Proof.
  intros Hlast Hn Hmap [[dex loaded] E1] [[r st'] E2]. unfold class_next.
  change (image_of "{target}" "hooker$native" (images_env last mapped) sample_request "V" "I" _)
    with [100; 101; 120; 10; 48; 51; 53; 0; 1; 2; 3; last].
  cbn [open_ BuildDex.close_guard BuildDex.mapped malloc_ images_env]. rewrite E1, E2.
  apply (class_one kArm64 34 12 false "LSPHooker" "" "{target}" "hooker" "hooker$native" sample_statics sample_syms 0 0 x
    (images_env last mapped) 70 sample_request "V"%char "I" dex loaded r st'); try done.
  - change (2 ^ kPointerBits kArm64) with (2 ^ 64). lia.
  - repeat (constructor; [done|]). by constructor.
  - by left.
Qed.

Lemma classes2_reachable : rtc images_step classes0 classes2.
Proof.
  eapply rtc_l; [|apply rtc_once]; apply images_env_step; try done.
  by apply sample_mmap_ok.
Qed.

Example classes_intact_witness :
  given classes2 = [("LSPHooker1", 65552, [100; 101; 120; 10; 48; 51; 53; 0; 1; 2; 3; 5]);
                    ("LSPHooker0", 65536, [100; 101; 120; 10; 48; 51; 53; 0; 1; 2; 3; 4])]%string ∧
  read_bytes (bytes (classes_sys classes2)) 65536 12 = [0; 0; 0; 0; 0; 0; 0; 0; 1; 2; 3; 4].
Proof.
  assert (given classes2 = [("LSPHooker1", 65552, [100; 101; 120; 10; 48; 51; 53; 0; 1; 2; 3; 5]);
                    ("LSPHooker0", 65536, [100; 101; 120; 10; 48; 51; 53; 0; 1; 2; 3; 4])]%string) as E by by vm_compute.
  split; [done|]. destruct (classes_intact kArm64 34 12 false "LSPHooker" "" "{target}" "hooker" "hooker$native"
    sample_statics sample_syms 0 0 classes0 classes2) as (_ & H & _).
  - done.
  - split; [apply empty_sys_initial|done].
  - apply classes2_reachable.
  - apply (H "LSPHooker0"%string 65536 [100; 101; 120; 10; 48; 51; 53; 0; 1; 2; 3; 4]). rewrite E. right. by left.
Defined.
