(* ===== verification/JniCalls.v ===== *)
(** * Typed calls of JNI functions

    [include/utils/jni_helper.hpp], 150 to 590 and 1680 to 1760: the conversion
    of arguments and results, [JNI_Invoke], [JNI_SafeInvoke] and the functions
    that choose a JNI function by a C++ type.  The JNI functions themselves are
    the parameter [call]. *)

From S2P Require Import Prelude Platform.
From Stdlib Require Import String.

(** ** Types *)

(** The C++ types of template arguments, parameters and results: integers of a
    width and a signedness, JNI references, other pointers, [nullptr_t]. *)
Inductive CType : Type :=
  | Int (bits : Z) (is_signed : bool)
  | Float
  | Double
  | Reference
  | Pointer
  | Nullptr
  | Void.

#[global] Instance CType_eq_dec : EqDecision CType.
Proof. solve_decision. Defined.

Definition jboolean : CType := Int 8 false.
Definition jbyte : CType := Int 8 true.
Definition jchar : CType := Int 16 false.
Definition jshort : CType := Int 16 true.
Definition jint : CType := Int 32 true.
Definition jlong : CType := Int 64 true.
Definition jfloat : CType := Float.
Definition jdouble : CType := Double.

Definition is_integral (t : CType) : bool := match t with Int _ _ => true | _ => false end.
Definition is_pointer (t : CType) : bool := match t with Reference | Pointer => true | _ => false end.

(** Types that convert to [jobject]. *)
Definition ScopeOrObject (t : CType) : bool := match t with Reference | Nullptr => true | _ => false end.
Definition ScopeOrJCompatible (t : CType) : bool :=
  ScopeOrObject t || match t with Int bits _ => bits <=? 64 | _ => false end.
Definition ScopeOrJCompatiblePointer (t : CType) : bool := ScopeOrJCompatible t || is_pointer t.

(** ** Values *)

(** The value of type [Int bits is_signed] with the low bits of [z]. *)
Definition to_int (bits : Z) (is_signed : bool) (z : Z) : Z :=
  let z := wrap bits z in if is_signed && (2 ^ (bits - 1) <=? z) then z - 2 ^ bits else z.

Section types.
Context (cur : Arch).

Definition sizeof (t : CType) : Z :=
  match t with
  | Int bits _ => bits / 8
  | Float => 4
  | Double => 8
  | Reference | Pointer | Nullptr => kPointerSize cur
  | Void => 0
  end.

(** The numbers that stand for the values of a type: a pointer is its address,
    a floating-point number its bits. *)
Definition has_type (t : CType) (v : Z) : Prop :=
  match t with
  | Int bits true => - 2 ^ (bits - 1) <= v < 2 ^ (bits - 1)
  | Int bits false => 0 <= v < 2 ^ bits
  | Float => 0 <= v < 2 ^ 32
  | Double => 0 <= v < 2 ^ 64
  | Reference | Pointer => 0 <= v < 2 ^ kPointerBits cur
  | Nullptr => v = 0
  | Void => False
  end.

(** [static_cast] between integers. *)
Definition static_cast (to : CType) (v : Z) : Z :=
  match to with Int bits is_signed => to_int bits is_signed v | _ => v end.

(** [reinterpret_cast]; [None] is a cast the language does not have: between
    different integers, to an integer narrower than a pointer, and of a
    floating-point number even to its own type. *)
Definition reinterpret_cast (from to : CType) (v : Z) : option Z :=
  match from, to with
  | Int _ _, Int _ _ => if bool_decide (from = to) then Some v else None
  | Int _ _, (Reference | Pointer) => Some (wrap (kPointerBits cur) v)
  | (Reference | Pointer), Int bits is_signed =>
      if kPointerBits cur <=? bits then Some (to_int bits is_signed v) else None
  | (Reference | Pointer), (Reference | Pointer) => Some v
  | _, _ => None
  end.

(** ** JNI functions *)

(** The types of fields and methods the functions are named after. *)
Inductive Kind : Type :=
  | Object | Boolean | Byte | Char | Short | KInt | Long | KFloat | KDouble | KVoid.

Definition type_of (k : Kind) : CType :=
  match k with
  | Object => Reference
  | Boolean => jboolean
  | Byte => jbyte
  | Char => jchar
  | Short => jshort
  | KInt => jint
  | Long => jlong
  | KFloat => jfloat
  | KDouble => jdouble
  | KVoid => Void
  end.

Inductive Function : Type :=
  | FindClass | GetSuperclass | GetObjectClass
  | GetFieldID | GetStaticFieldID | GetMethodID | GetStaticMethodID
  | GetField (k : Kind) | SetField (k : Kind)
  | GetStaticField (k : Kind) | SetStaticField (k : Kind)
  | ToReflectedMethod | ToReflectedField
  | CallMethod (k : Kind) | CallStaticMethod (k : Kind) | CallNonvirtualMethod (k : Kind)
  | AllocObject | NewObject
  | RegisterNatives
  | IsInstanceOf | IsAssignableFrom | IsSameObject
  | NewLocalRef | NewGlobalRef | NewWeakGlobalRef | DeleteLocalRef
  | NewStringUTF | NewString | GetStringUTFChars | ReleaseStringUTFChars
  | NewDirectByteBuffer
  | GetArrayLength | NewArray (k : Kind)
  | ExceptionCheck | ExceptionOccurred | ExceptionClear.

(** The type of the result. *)
Definition return_type (f : Function) : CType :=
  match f with
  | GetField k | GetStaticField k | CallMethod k | CallStaticMethod k | CallNonvirtualMethod k => type_of k
  | SetField _ | SetStaticField _ | DeleteLocalRef | ReleaseStringUTFChars | ExceptionClear => Void
  | FindClass | GetSuperclass | GetObjectClass | ToReflectedMethod | ToReflectedField | AllocObject
  | NewObject | NewLocalRef | NewGlobalRef | NewWeakGlobalRef | NewStringUTF | NewString
  | NewDirectByteBuffer | NewArray _ | ExceptionOccurred => Reference
  | GetFieldID | GetStaticFieldID | GetMethodID | GetStaticMethodID | GetStringUTFChars => Pointer
  | RegisterNatives | GetArrayLength => jint
  | IsInstanceOf | IsAssignableFrom | IsSameObject | ExceptionCheck => jboolean
  end.

(** What is passed to JNI: a number or the characters of a string. *)
Inductive Argument : Type := Num (v : Z) | Chars (s : string).

(** What is passed to the wrappers. *)
Inductive Arg : Type :=
  | StringView (s : string)
  | Scope (ref : Z)             (* a [ScopedLocalRef] *)
  | Element (ref : Z)           (* a [JObjectArrayElement] *)
  | DirectBuffer (buffer : Z)
  | Bool (b : bool)
  | Raw (v : Z).

Definition UnwrapScope (x : Arg) : Argument :=
  match x with
  | StringView s => Chars s
  | Scope ref => Num ref
  | Element ref => Num ref
  | DirectBuffer buffer => Num buffer
  | Bool b => Num (if b then 1 else 0)
  | Raw v => Num v
  end.

(** What the wrappers return: nothing, a scope that owns a reference, a value. *)
Inductive Value : Type :=
  | NoValue
  | ScopedRef (ref : Z)
  | Plain (t : CType) (v : Z).

Definition WrapScope (t : CType) (v : Z) : Value :=
  if ScopeOrObject t then ScopedRef v else Plain t v.

(** ** [JNI_Invoke] and [JNI_SafeInvoke] *)

Section calls.
Context {S : Type} (call : Function → list Argument → S → Z * S).
(** The state of JNI, and the method id [ClearException] keeps in a static. *)
Record Ctx := MkCtx { jvm : S; toString : option Z }.

Definition invoke (f : Function) (args : list Argument) (c : Ctx) : Z * Ctx :=
  let '(v, s) := call f args (jvm c) in (v, MkCtx s (toString c)).

(** [None] where the instantiation is ill-formed. *)
Definition JNI_Invoke (Result : CType) (f : Function) (args : list Arg) (c : Ctx) : option (Value * Ctx) :=
  let FuncReturnType := return_type f in
  let ResultType := if bool_decide (Result = Nullptr) then FuncReturnType else Result in
  let args := map UnwrapScope args in
  if bool_decide (FuncReturnType = Void) then Some (NoValue, (invoke f args c).2)
  else
    let '(result, c) := invoke f args c in
    if is_integral FuncReturnType && is_integral ResultType
    then Some (Plain ResultType (static_cast ResultType result), c)
    else
      result ← reinterpret_cast FuncReturnType ResultType result;
      Some (WrapScope ResultType result, c).

Definition ClearException (c : Ctx) : Z * Ctx :=
  let '(exception, c) := invoke ExceptionOccurred [] c in
  let c := (invoke ExceptionClear [] c).2 in
  let '(log, c) := invoke FindClass [Chars "android/util/Log"] c in
  let '(to_string, c) :=
    match toString c with
    | Some m => (m, c)
    | None =>
        let '(m, c) := invoke GetStaticMethodID
          [Num log; Chars "getStackTraceString"; Chars "(Ljava/lang/Throwable;)Ljava/lang/String;"] c in
        (m, MkCtx (jvm c) (Some m))
    end in
  let '(str, c) := invoke (CallStaticMethod Object) [Num log; Num to_string; Num exception] c in
  let c := (invoke DeleteLocalRef [Num log] c).2 in
  let c := (invoke DeleteLocalRef [Num exception] c).2 in
  (str, c).

(** The destructor of [JNISafeInvocationFinally]: the [JUTFString] and the scope
    of the message end with it. *)
Definition JNISafeInvocationFinally (log_disabled : bool) (c : Ctx) : Ctx :=
  if log_disabled then (invoke ExceptionClear [] c).2
  else
    let '(pending, c) := invoke ExceptionCheck [] c in
    if pending =? 0 then c
    else
      let '(exception, c) := ClearException c in
      if exception =? 0 then c
      else
        let '(data, c) := invoke GetStringUTFChars [Num exception; Num 0] c in
        let c := (invoke ReleaseStringUTFChars [Num exception; Num data] c).2 in
        (invoke DeleteLocalRef [Num exception] c).2.

Context (log_disabled : bool).

Definition JNI_SafeInvoke (Result : CType) (f : Function) (args : list Arg) (c : Ctx) : option (Value * Ctx) :=
  '(result, c) ← JNI_Invoke Result f args c;
  Some (result, JNISafeInvocationFinally log_disabled c).

(** A constraint on template arguments. *)
Definition requires (b : bool) (f : Ctx → option (Value * Ctx)) (c : Ctx) : option (Value * Ctx) :=
  if b then f c else None.

(** ** Classes and ids *)

Definition JNI_FindClass (name : string) := JNI_SafeInvoke Nullptr FindClass [StringView name].
Definition JNI_GetSuperclass (clazz : Arg) := JNI_Invoke Nullptr GetSuperclass [clazz].
Definition JNI_GetObjectClass (obj : Arg) := JNI_Invoke Nullptr GetObjectClass [obj].
Definition JNI_GetFieldID (clazz : Arg) (name sig : string) :=
  JNI_SafeInvoke Nullptr GetFieldID [clazz; StringView name; StringView sig].
Definition JNI_GetStaticFieldID (clazz : Arg) (name sig : string) :=
  JNI_SafeInvoke Nullptr GetStaticFieldID [clazz; StringView name; StringView sig].
Definition JNI_GetMethodID (clazz : Arg) (name sig : string) :=
  JNI_SafeInvoke Nullptr GetMethodID [clazz; StringView name; StringView sig].
Definition JNI_GetStaticMethodID (clazz : Arg) (name sig : string) :=
  JNI_SafeInvoke Nullptr GetStaticMethodID [clazz; StringView name; StringView sig].


(** ** Instance fields *)

Definition JNI_GetObjectField (Result : CType) (obj : Arg) (fieldId : Z) :=
  requires (ScopeOrJCompatible Result) (JNI_Invoke Result (GetField Object) [obj; Raw fieldId]).
Definition JNI_GetBooleanField (Result : CType) (obj : Arg) (fieldId : Z) :=
  requires (ScopeOrJCompatible Result) (JNI_Invoke Result (GetField Boolean) [obj; Raw fieldId]).
Definition JNI_GetByteField (Result : CType) (obj : Arg) (fieldId : Z) :=
  requires (ScopeOrJCompatible Result) (JNI_Invoke Result (GetField Byte) [obj; Raw fieldId]).
Definition JNI_GetCharField (Result : CType) (obj : Arg) (fieldId : Z) :=
  requires (ScopeOrJCompatible Result) (JNI_Invoke Result (GetField Char) [obj; Raw fieldId]).
Definition JNI_GetShortField (Result : CType) (obj : Arg) (fieldId : Z) :=
  requires (ScopeOrJCompatible Result) (JNI_Invoke Result (GetField Short) [obj; Raw fieldId]).
Definition JNI_GetIntField (Result : CType) (obj : Arg) (fieldId : Z) :=
  requires (ScopeOrJCompatiblePointer Result) (JNI_Invoke Result (GetField KInt) [obj; Raw fieldId]).
Definition JNI_GetLongField (Result : CType) (obj : Arg) (fieldId : Z) :=
  requires (ScopeOrJCompatiblePointer Result) (JNI_Invoke Result (GetField Long) [obj; Raw fieldId]).
Definition JNI_GetFloatField (obj : Arg) (fieldId : Z) := JNI_Invoke Nullptr (GetField KFloat) [obj; Raw fieldId].
Definition JNI_GetDoubleField (obj : Arg) (fieldId : Z) := JNI_Invoke Nullptr (GetField KDouble) [obj; Raw fieldId].

(** The [if constexpr] chain on the type [Result]; [None] is [std::unreachable]. *)
Definition select (Result : CType) : option Kind :=
  if bool_decide (Result = jboolean) then Some Boolean
  else if bool_decide (Result = jbyte) then Some Byte
  else if bool_decide (Result = jshort) then Some Short
  else if bool_decide (Result = jchar) then Some Char
  else if bool_decide (Result = jint) || (is_pointer Result && (sizeof Result =? sizeof jint)) then Some KInt
  else if bool_decide (Result = jfloat) then Some KFloat
  else if bool_decide (Result = jlong) || (is_pointer Result && (sizeof Result =? sizeof jlong)) then Some Long
  else if bool_decide (Result = jdouble) then Some KDouble
  else None.

(** The chains of the calls also have a case for [void]. *)
Definition select_call (Result : CType) : option Kind :=
  match select Result with
  | Some k => Some k
  | None => if bool_decide (Result = Void) then Some KVoid else None
  end.

Definition JNI_GetField (Result : CType) (obj : Arg) (fieldId : Z) :=
  requires (ScopeOrJCompatiblePointer Result)
  match select Result with
  | Some Boolean => JNI_GetBooleanField Nullptr obj fieldId
  | Some Byte => JNI_GetByteField Nullptr obj fieldId
  | Some Short => JNI_GetShortField Nullptr obj fieldId
  | Some Char => JNI_GetCharField Nullptr obj fieldId
  | Some KInt => JNI_GetIntField Result obj fieldId
  | Some KFloat => JNI_GetFloatField obj fieldId
  | Some Long => JNI_GetLongField Result obj fieldId
  | Some KDouble => JNI_GetDoubleField obj fieldId
  | _ => λ _, None
  end.

Definition JNI_SetObjectField (obj : Arg) (fieldId : Z) (value : Arg) :=
  JNI_Invoke Nullptr (SetField Object) [obj; Raw fieldId; value].
Definition JNI_SetBooleanField (obj : Arg) (fieldId value : Z) :=
  JNI_Invoke Nullptr (SetField Boolean) [obj; Raw fieldId; Raw value].
Definition JNI_SetByteField (obj : Arg) (fieldId value : Z) :=
  JNI_Invoke Nullptr (SetField Byte) [obj; Raw fieldId; Raw value].
Definition JNI_SetCharField (obj : Arg) (fieldId value : Z) :=
  JNI_Invoke Nullptr (SetField Char) [obj; Raw fieldId; Raw value].
Definition JNI_SetShortField (obj : Arg) (fieldId value : Z) :=
  JNI_Invoke Nullptr (SetField Short) [obj; Raw fieldId; Raw value].
Definition JNI_SetIntField (Value : CType) (obj : Arg) (fieldId value : Z) (c : Ctx) :=
  requires (ScopeOrJCompatiblePointer Value) (λ c,
    value ← reinterpret_cast Value jint value;
    JNI_Invoke Nullptr (SetField KInt) [obj; Raw fieldId; Raw value] c) c.
Definition JNI_SetLongField (Value : CType) (obj : Arg) (fieldId value : Z) (c : Ctx) :=
  requires (ScopeOrJCompatiblePointer Value) (λ c,
    value ← reinterpret_cast Value jlong value;
    JNI_Invoke Nullptr (SetField Long) [obj; Raw fieldId; Raw value] c) c.
Definition JNI_SetFloatField (obj : Arg) (fieldId value : Z) :=
  JNI_Invoke Nullptr (SetField KFloat) [obj; Raw fieldId; Raw value].
Definition JNI_SetDoubleField (obj : Arg) (fieldId value : Z) :=
  JNI_Invoke Nullptr (SetField KDouble) [obj; Raw fieldId; Raw value].

Definition JNI_SetField (Value : CType) (obj : Arg) (fieldId value : Z) :=
  requires (ScopeOrJCompatiblePointer Value)
  match select Value with
  | Some Boolean => JNI_SetBooleanField obj fieldId value
  | Some Byte => JNI_SetByteField obj fieldId value
  | Some Short => JNI_SetShortField obj fieldId value
  | Some Char => JNI_SetCharField obj fieldId value
  | Some KInt => JNI_SetIntField Value obj fieldId value
  | Some KFloat => JNI_SetFloatField obj fieldId value
  | Some Long => JNI_SetLongField Value obj fieldId value
  | Some KDouble => JNI_SetDoubleField obj fieldId value
  | _ => λ _, None
  end.

(** ** Static fields *)

Definition JNI_GetStaticObjectField (Result : CType) (clazz : Arg) (fieldId : Z) :=
  requires (ScopeOrJCompatible Result) (JNI_Invoke Result (GetStaticField Object) [clazz; Raw fieldId]).
Definition JNI_GetStaticBooleanField (Result : CType) (clazz : Arg) (fieldId : Z) :=
  requires (ScopeOrJCompatible Result) (JNI_Invoke Result (GetStaticField Boolean) [clazz; Raw fieldId]).
Definition JNI_GetStaticByteField (Result : CType) (clazz : Arg) (fieldId : Z) :=
  requires (ScopeOrJCompatible Result) (JNI_Invoke Result (GetStaticField Byte) [clazz; Raw fieldId]).
Definition JNI_GetStaticCharField (Result : CType) (clazz : Arg) (fieldId : Z) :=
  requires (ScopeOrJCompatible Result) (JNI_Invoke Result (GetStaticField Char) [clazz; Raw fieldId]).
Definition JNI_GetStaticShortField (Result : CType) (clazz : Arg) (fieldId : Z) :=
  requires (ScopeOrJCompatible Result) (JNI_Invoke Result (GetStaticField Short) [clazz; Raw fieldId]).
Definition JNI_GetStaticIntField (Result : CType) (clazz : Arg) (fieldId : Z) :=
  requires (ScopeOrJCompatible Result) (JNI_Invoke Result (GetStaticField KInt) [clazz; Raw fieldId]).
Definition JNI_GetStaticLongField (Result : CType) (clazz : Arg) (fieldId : Z) :=
  requires (ScopeOrJCompatible Result) (JNI_Invoke Result (GetStaticField Long) [clazz; Raw fieldId]).
Definition JNI_GetStaticFloatField (clazz : Arg) (fieldId : Z) := JNI_Invoke Nullptr (GetStaticField KFloat) [clazz; Raw fieldId].
Definition JNI_GetStaticDoubleField (clazz : Arg) (fieldId : Z) := JNI_Invoke Nullptr (GetStaticField KDouble) [clazz; Raw fieldId].

Definition JNI_GetStaticField (Result : CType) (clazz : Arg) (fieldId : Z) :=
  requires (ScopeOrJCompatiblePointer Result)
  match select Result with
  | Some Boolean => JNI_GetStaticBooleanField Nullptr clazz fieldId
  | Some Byte => JNI_GetStaticByteField Nullptr clazz fieldId
  | Some Short => JNI_GetStaticShortField Nullptr clazz fieldId
  | Some Char => JNI_GetStaticCharField Nullptr clazz fieldId
  | Some KInt => JNI_GetStaticIntField Result clazz fieldId
  | Some KFloat => JNI_GetStaticFloatField clazz fieldId
  | Some Long => JNI_GetStaticLongField Result clazz fieldId
  | Some KDouble => JNI_GetStaticDoubleField clazz fieldId
  | _ => λ _, None
  end.

Definition JNI_SetStaticObjectField (clazz : Arg) (fieldId : Z) (value : Arg) :=
  JNI_Invoke Nullptr (SetStaticField Object) [clazz; Raw fieldId; value].
Definition JNI_SetStaticBooleanField (clazz : Arg) (fieldId value : Z) :=
  JNI_Invoke Nullptr (SetStaticField Boolean) [clazz; Raw fieldId; Raw value].
Definition JNI_SetStaticByteField (clazz : Arg) (fieldId value : Z) :=
  JNI_Invoke Nullptr (SetStaticField Byte) [clazz; Raw fieldId; Raw value].
Definition JNI_SetStaticCharField (clazz : Arg) (fieldId value : Z) :=
  JNI_Invoke Nullptr (SetStaticField Char) [clazz; Raw fieldId; Raw value].
Definition JNI_SetStaticShortField (clazz : Arg) (fieldId value : Z) :=
  JNI_Invoke Nullptr (SetStaticField Short) [clazz; Raw fieldId; Raw value].
Definition JNI_SetStaticIntField (Value : CType) (clazz : Arg) (fieldId value : Z) (c : Ctx) :=
  requires (ScopeOrJCompatiblePointer Value) (λ c,
    value ← reinterpret_cast Value jint value;
    JNI_Invoke Nullptr (SetStaticField KInt) [clazz; Raw fieldId; Raw value] c) c.
Definition JNI_SetStaticLongField (Value : CType) (clazz : Arg) (fieldId value : Z) (c : Ctx) :=
  requires (ScopeOrJCompatiblePointer Value) (λ c,
    value ← reinterpret_cast Value jlong value;
    JNI_Invoke Nullptr (SetStaticField Long) [clazz; Raw fieldId; Raw value] c) c.
Definition JNI_SetStaticFloatField (clazz : Arg) (fieldId value : Z) :=
  JNI_Invoke Nullptr (SetStaticField KFloat) [clazz; Raw fieldId; Raw value].
Definition JNI_SetStaticDoubleField (clazz : Arg) (fieldId value : Z) :=
  JNI_Invoke Nullptr (SetStaticField KDouble) [clazz; Raw fieldId; Raw value].

Definition JNI_SetStaticField (Value : CType) (clazz : Arg) (fieldId value : Z) :=
  requires (ScopeOrJCompatiblePointer Value)
  match select Value with
  | Some Boolean => JNI_SetStaticBooleanField clazz fieldId value
  | Some Byte => JNI_SetStaticByteField clazz fieldId value
  | Some Short => JNI_SetStaticShortField clazz fieldId value
  | Some Char => JNI_SetStaticCharField clazz fieldId value
  | Some KInt => JNI_SetStaticIntField Value clazz fieldId value
  | Some KFloat => JNI_SetStaticFloatField clazz fieldId value
  | Some Long => JNI_SetStaticLongField Value clazz fieldId value
  | Some KDouble => JNI_SetStaticDoubleField clazz fieldId value
  | _ => λ _, None
  end.

Definition JNI_ToReflectedMethod (clazz : Arg) (method : Z) (isStatic : Z) :=
  JNI_Invoke Nullptr ToReflectedMethod [clazz; Raw method; Raw isStatic].
Definition JNI_ToReflectedField (clazz : Arg) (field : Z) (isStatic : Z) :=
  JNI_Invoke Nullptr ToReflectedField [clazz; Raw field; Raw isStatic].

(** ** Virtual methods *)

Definition JNI_CallVoidMethod (obj : Arg) (method : Z) (args : list Arg) :=
  JNI_SafeInvoke Nullptr (CallMethod KVoid) ([obj; Raw method] ++ args).
Definition JNI_CallObjectMethod (Result : CType) (obj : Arg) (method : Z) (args : list Arg) :=
  requires (ScopeOrJCompatible Result) (JNI_SafeInvoke Result (CallMethod Object) ([obj; Raw method] ++ args)).
Definition JNI_CallBooleanMethod (Result : CType) (obj : Arg) (method : Z) (args : list Arg) :=
  requires (ScopeOrJCompatible Result) (JNI_SafeInvoke Result (CallMethod Boolean) ([obj; Raw method] ++ args)).
Definition JNI_CallByteMethod (Result : CType) (obj : Arg) (method : Z) (args : list Arg) :=
  requires (ScopeOrJCompatible Result) (JNI_SafeInvoke Result (CallMethod Byte) ([obj; Raw method] ++ args)).
Definition JNI_CallCharMethod (Result : CType) (obj : Arg) (method : Z) (args : list Arg) :=
  requires (ScopeOrJCompatible Result) (JNI_SafeInvoke Result (CallMethod Char) ([obj; Raw method] ++ args)).
Definition JNI_CallShortMethod (Result : CType) (obj : Arg) (method : Z) (args : list Arg) :=
  requires (ScopeOrJCompatible Result) (JNI_SafeInvoke Result (CallMethod Short) ([obj; Raw method] ++ args)).
Definition JNI_CallIntMethod (Result : CType) (obj : Arg) (method : Z) (args : list Arg) :=
  requires (ScopeOrJCompatiblePointer Result) (JNI_SafeInvoke Result (CallMethod KInt) ([obj; Raw method] ++ args)).
Definition JNI_CallLongMethod (Result : CType) (obj : Arg) (method : Z) (args : list Arg) :=
  requires (ScopeOrJCompatiblePointer Result) (JNI_SafeInvoke Result (CallMethod Long) ([obj; Raw method] ++ args)).
Definition JNI_CallFloatMethod (obj : Arg) (method : Z) (args : list Arg) :=
  JNI_SafeInvoke Nullptr (CallMethod KFloat) ([obj; Raw method] ++ args).
Definition JNI_CallDoubleMethod (obj : Arg) (method : Z) (args : list Arg) :=
  JNI_SafeInvoke Nullptr (CallMethod KDouble) ([obj; Raw method] ++ args).

Definition JNI_CallMethod (Result : CType) (obj : Arg) (method : Z) (args : list Arg) :=
  requires (ScopeOrJCompatiblePointer Result)
  match select_call Result with
  | Some Boolean => JNI_CallBooleanMethod Nullptr obj method args
  | Some Byte => JNI_CallByteMethod Nullptr obj method args
  | Some Short => JNI_CallShortMethod Nullptr obj method args
  | Some Char => JNI_CallCharMethod Nullptr obj method args
  | Some KInt => JNI_CallIntMethod Result obj method args
  | Some KFloat => JNI_CallFloatMethod obj method args
  | Some Long => JNI_CallLongMethod Result obj method args
  | Some KDouble => JNI_CallDoubleMethod obj method args
  | Some KVoid => JNI_CallVoidMethod obj method args
  | _ => λ _, None
  end.

(** ** Static methods *)

Definition JNI_CallStaticVoidMethod (clazz : Arg) (method : Z) (args : list Arg) :=
  JNI_SafeInvoke Nullptr (CallStaticMethod KVoid) ([clazz; Raw method] ++ args).
Definition JNI_CallStaticObjectMethod (Result : CType) (clazz : Arg) (method : Z) (args : list Arg) :=
  requires (ScopeOrJCompatible Result) (JNI_SafeInvoke Result (CallStaticMethod Object) ([clazz; Raw method] ++ args)).
Definition JNI_CallStaticBooleanMethod (clazz : Arg) (method : Z) (args : list Arg) :=
  JNI_SafeInvoke Nullptr (CallStaticMethod Boolean) ([clazz; Raw method] ++ args).
Definition JNI_CallStaticByteMethod (clazz : Arg) (method : Z) (args : list Arg) :=
  JNI_SafeInvoke Nullptr (CallStaticMethod Byte) ([clazz; Raw method] ++ args).
Definition JNI_CallStaticCharMethod (clazz : Arg) (method : Z) (args : list Arg) :=
  JNI_SafeInvoke Nullptr (CallStaticMethod Char) ([clazz; Raw method] ++ args).
Definition JNI_CallStaticShortMethod (clazz : Arg) (method : Z) (args : list Arg) :=
  JNI_SafeInvoke Nullptr (CallStaticMethod Short) ([clazz; Raw method] ++ args).
Definition JNI_CallStaticIntMethod (Result : CType) (clazz : Arg) (method : Z) (args : list Arg) :=
  requires (ScopeOrJCompatiblePointer Result) (JNI_SafeInvoke Result (CallStaticMethod KInt) ([clazz; Raw method] ++ args)).
Definition JNI_CallStaticLongMethod (Result : CType) (clazz : Arg) (method : Z) (args : list Arg) :=
  requires (ScopeOrJCompatiblePointer Result) (JNI_SafeInvoke Result (CallStaticMethod Long) ([clazz; Raw method] ++ args)).
Definition JNI_CallStaticFloatMethod (clazz : Arg) (method : Z) (args : list Arg) :=
  JNI_SafeInvoke Nullptr (CallStaticMethod KFloat) ([clazz; Raw method] ++ args).
Definition JNI_CallStaticDoubleMethod (clazz : Arg) (method : Z) (args : list Arg) :=
  JNI_SafeInvoke Nullptr (CallStaticMethod KDouble) ([clazz; Raw method] ++ args).

Definition JNI_CallStaticMethod (Result : CType) (clazz : Arg) (method : Z) (args : list Arg) :=
  requires (ScopeOrJCompatiblePointer Result)
  match select_call Result with
  | Some Boolean => JNI_CallStaticBooleanMethod clazz method args
  | Some Byte => JNI_CallStaticByteMethod clazz method args
  | Some Short => JNI_CallStaticShortMethod clazz method args
  | Some Char => JNI_CallStaticCharMethod clazz method args
  | Some KInt => JNI_CallStaticIntMethod Result clazz method args
  | Some KFloat => JNI_CallStaticFloatMethod clazz method args
  | Some Long => JNI_CallStaticLongMethod Result clazz method args
  | Some KDouble => JNI_CallStaticDoubleMethod clazz method args
  | Some KVoid => JNI_CallStaticVoidMethod clazz method args
  | _ => λ _, None
  end.

(** ** Non-virtual methods *)

Definition JNI_CallNonvirtualVoidMethod (obj clazz : Arg) (method : Z) (args : list Arg) :=
  JNI_SafeInvoke Nullptr (CallNonvirtualMethod KVoid) ([obj; clazz; Raw method] ++ args).
Definition JNI_CallNonvirtualObjectMethod (Result : CType) (obj clazz : Arg) (method : Z) (args : list Arg) :=
  requires (ScopeOrJCompatible Result) (JNI_SafeInvoke Result (CallNonvirtualMethod Object) ([obj; clazz; Raw method] ++ args)).
Definition JNI_CallNonvirtualBooleanMethod (obj clazz : Arg) (method : Z) (args : list Arg) :=
  JNI_SafeInvoke Nullptr (CallNonvirtualMethod Boolean) ([obj; clazz; Raw method] ++ args).
Definition JNI_CallNonvirtualByteMethod (obj clazz : Arg) (method : Z) (args : list Arg) :=
  JNI_SafeInvoke Nullptr (CallNonvirtualMethod Byte) ([obj; clazz; Raw method] ++ args).
Definition JNI_CallNonvirtualCharMethod (obj clazz : Arg) (method : Z) (args : list Arg) :=
  JNI_SafeInvoke Nullptr (CallNonvirtualMethod Char) ([obj; clazz; Raw method] ++ args).
Definition JNI_CallNonvirtualShortMethod (obj clazz : Arg) (method : Z) (args : list Arg) :=
  JNI_SafeInvoke Nullptr (CallNonvirtualMethod Short) ([obj; clazz; Raw method] ++ args).
Definition JNI_CallNonvirtualIntMethod (Result : CType) (obj clazz : Arg) (method : Z) (args : list Arg) :=
  requires (ScopeOrJCompatiblePointer Result) (JNI_SafeInvoke Result (CallNonvirtualMethod KInt) ([obj; clazz; Raw method] ++ args)).
Definition JNI_CallNonvirtualLongMethod (Result : CType) (obj clazz : Arg) (method : Z) (args : list Arg) :=
  requires (ScopeOrJCompatiblePointer Result) (JNI_SafeInvoke Result (CallNonvirtualMethod Long) ([obj; clazz; Raw method] ++ args)).
Definition JNI_CallNonvirtualFloatMethod (obj clazz : Arg) (method : Z) (args : list Arg) :=
  JNI_SafeInvoke Nullptr (CallNonvirtualMethod KFloat) ([obj; clazz; Raw method] ++ args).
Definition JNI_CallNonvirtualDoubleMethod (obj clazz : Arg) (method : Z) (args : list Arg) :=
  JNI_SafeInvoke Nullptr (CallNonvirtualMethod KDouble) ([obj; clazz; Raw method] ++ args).

Definition JNI_CallNonvirtualMethod (Result : CType) (obj clazz : Arg) (method : Z) (args : list Arg) :=
  requires (ScopeOrJCompatiblePointer Result)
  match select_call Result with
  | Some Boolean => JNI_CallNonvirtualBooleanMethod obj clazz method args
  | Some Byte => JNI_CallNonvirtualByteMethod obj clazz method args
  | Some Short => JNI_CallNonvirtualShortMethod obj clazz method args
  | Some Char => JNI_CallNonvirtualCharMethod obj clazz method args
  | Some KInt => JNI_CallNonvirtualIntMethod Result obj clazz method args
  | Some KFloat => JNI_CallNonvirtualFloatMethod obj clazz method args
  | Some Long => JNI_CallNonvirtualLongMethod Result obj clazz method args
  | Some KDouble => JNI_CallNonvirtualDoubleMethod obj clazz method args
  | Some KVoid => JNI_CallNonvirtualVoidMethod obj clazz method args
  | _ => λ _, None
  end.

(** ** Objects *)

Definition JNI_AllocObject (Result : CType) (clazz : Arg) :=
  requires (ScopeOrObject Result) (JNI_SafeInvoke Result AllocObject [clazz]).
Definition JNI_NewObject (Result : CType) (clazz : Arg) (method : Z) (args : list Arg) :=
  requires (ScopeOrJCompatible Result) (JNI_SafeInvoke Result NewObject ([clazz; Raw method] ++ args)).

Definition JNI_OK : Z := 0.

(** A [bool]; [methods] is the address of the array. *)
Definition JNI_RegisterNatives (clazz : Arg) (methods size : Z) (c : Ctx) : option (bool * Ctx) :=
  '(result, c) ← JNI_SafeInvoke Nullptr RegisterNatives [clazz; Raw methods; Raw size] c;
  match result with Plain _ v => Some (v =? JNI_OK, c) | _ => None end.

(** Called without [JNI_Invoke]. *)
Definition JNI_IsInstanceOf (obj clazz : Arg) (c : Ctx) : Z * Ctx :=
  invoke IsInstanceOf [UnwrapScope obj; UnwrapScope clazz] c.
Definition JNI_IsAssignableFrom (a b : Arg) (c : Ctx) : Z * Ctx :=
  invoke IsAssignableFrom [UnwrapScope a; UnwrapScope b] c.
Definition JNI_IsSameObject (a b : Arg) (c : Ctx) : Z * Ctx :=
  invoke IsSameObject [UnwrapScope a; UnwrapScope b] c.
Definition JNI_NewGlobalRef (x : Arg) (c : Ctx) : Z * Ctx := invoke NewGlobalRef [UnwrapScope x] c.
Definition JNI_NewWeakGlobalRef (x : Arg) (c : Ctx) : Z * Ctx := invoke NewWeakGlobalRef [UnwrapScope x] c.

Definition JNI_NewLocalRef (Result : CType) (x : Arg) :=
  requires (ScopeOrObject Result) (JNI_Invoke Result NewLocalRef [x]).
Definition JNI_NewStringUTF (sv : string) (c : Ctx) : Value * Ctx :=
  let '(ref, c) := invoke NewStringUTF [Chars sv] c in (ScopedRef ref, c).
Definition JNI_NewString (data size : Z) (c : Ctx) : Value * Ctx :=
  let '(ref, c) := invoke NewString [Num data; Num (to_int 32 true size)] c in (ScopedRef ref, c).
Definition JNI_NewDirectByteBuffer (address capacity : Z) :=
  JNI_Invoke Nullptr NewDirectByteBuffer [Raw address; Raw capacity].

(** ** Arrays *)

Definition JNI_GetArrayLength (array : Arg) := JNI_Invoke Nullptr GetArrayLength [array].
Definition JNI_NewObjectArray (len : Z) (clazz init : Arg) :=
  JNI_SafeInvoke Nullptr (NewArray Object) [Raw len; clazz; init].
Definition JNI_NewBooleanArray (len : Z) := JNI_Invoke Nullptr (NewArray Boolean) [Raw len].
Definition JNI_NewByteArray (len : Z) := JNI_Invoke Nullptr (NewArray Byte) [Raw len].
Definition JNI_NewCharArray (len : Z) := JNI_Invoke Nullptr (NewArray Char) [Raw len].
Definition JNI_NewShortArray (len : Z) := JNI_Invoke Nullptr (NewArray Short) [Raw len].
Definition JNI_NewIntArray (len : Z) := JNI_Invoke Nullptr (NewArray KInt) [Raw len].
Definition JNI_NewLongArray (len : Z) := JNI_Invoke Nullptr (NewArray Long) [Raw len].
Definition JNI_NewFloatArray (len : Z) := JNI_Invoke Nullptr (NewArray KFloat) [Raw len].
Definition JNI_NewDoubleArray (len : Z) := JNI_Invoke Nullptr (NewArray KDouble) [Raw len].

Definition JNI_NewArray (Type_ : CType) (len : Z) :=
  requires (ScopeOrJCompatiblePointer Type_)
  match select Type_ with
  | Some Boolean => JNI_NewBooleanArray len
  | Some Byte => JNI_NewByteArray len
  | Some Short => JNI_NewShortArray len
  | Some Char => JNI_NewCharArray len
  | Some KInt => JNI_NewIntArray len
  | Some KFloat => JNI_NewFloatArray len
  | Some Long => JNI_NewLongArray len
  | Some KDouble => JNI_NewDoubleArray len
  | _ => λ _, None
  end.

(** Reads a field by name. *)
Definition JNI_GetObjectFieldOf (object : Arg) (field_name field_class : string) (c : Ctx) :
    option (Value * Ctx) :=
  '(clazz, c) ← JNI_GetObjectClass object c;
  match clazz with
  | ScopedRef cls =>
      '(id, c) ← JNI_GetFieldID (Scope cls) field_name field_class c;
      match id with
      | Plain _ fieldId =>
          '(v, c) ← JNI_GetObjectField Nullptr object fieldId c;
          Some (v, if cls =? 0 then c else (invoke DeleteLocalRef [Num cls] c).2)
      | _ => None
      end
  | _ => None
  end.
End calls.
End types.

(** ** Lemmas on integers and casts *)

Lemma to_int_range bits (sg : bool) z : 0 < bits →
  if sg then - 2 ^ (bits - 1) <= to_int bits sg z < 2 ^ (bits - 1) else 0 <= to_int bits sg z < 2 ^ bits.
Proof.
  intros Hb. unfold to_int. pose proof (wrap_range bits z ltac:(lia)) as Hr.
  assert (2 ^ bits = 2 * 2 ^ (bits - 1)) as H2 by (rewrite <-Z.pow_succ_r by lia; f_equal; lia).
  destruct sg; [|done]. cbn [andb]. destruct (Z.leb_spec (2 ^ (bits - 1)) (wrap bits z)); lia.
Qed.

Lemma to_int_has_type cur bits sg z : 0 < bits → has_type cur (Int bits sg) (to_int bits sg z).
Proof. intros Hb. pose proof (to_int_range bits sg z Hb). by destruct sg. Qed.

(** A value of the type is kept. *)
Lemma to_int_id cur bits sg z : 0 < bits → has_type cur (Int bits sg) z → to_int bits sg z = z.
Proof.
  intros Hb Hz. unfold to_int.
  assert (2 ^ bits = 2 * 2 ^ (bits - 1)) as H2 by (rewrite <-Z.pow_succ_r by lia; f_equal; lia).
  destruct sg; cbn [andb]; [|by apply wrap_small]. simpl in Hz.
  destruct (Z.ltb_spec z 0).
  - assert (wrap bits z = z + 2 ^ bits) as -> by (unfold wrap; symmetry; apply (Z.mod_unique_pos _ _ (-1)); lia).
    rewrite (proj2 (Z.leb_le _ _)) by lia. lia.
  - rewrite wrap_small by lia. rewrite (proj2 (Z.leb_gt _ _)) by lia. done.
Qed.

Lemma wrap_to_int bits sg z : 0 < bits → wrap bits (to_int bits sg z) = wrap bits z.
Proof.
  intros Hb. unfold to_int. destruct (_ && _); [|by rewrite wrap_wrap].
  unfold wrap. rewrite <-(Z_mod_plus_full _ 1). rewrite Z.mul_1_l.
  replace (z mod 2 ^ bits - 2 ^ bits + 2 ^ bits) with (z mod 2 ^ bits) by lia. apply Zmod_mod.
Qed.

(** Types whose values the casts give. *)
Definition sane (t : CType) : Prop := match t with Int bits _ => 0 < bits | _ => True end.

Lemma reinterpret_cast_typed cur from to v r :
  sane to → has_type cur from v → reinterpret_cast cur from to v = Some r → has_type cur to r.
Proof.
  intros Hs Hv. unfold reinterpret_cast.
  destruct from as [fb fs| | | | | |], to as [tb ts| | | | | |]; try done.
  - destruct (decide (Int fb fs = Int tb ts)) as [E|E]; [|by rewrite bool_decide_eq_false_2].
    rewrite bool_decide_eq_true_2 by done. rewrite <-E. by intros [= <-].
  - intros [= <-]. by apply wrap_range, Z.lt_le_incl.
  - intros [= <-]. by apply wrap_range, Z.lt_le_incl.
  - case_match; [|done]. intros [= <-]. by apply to_int_has_type.
  - by intros [= <-].
  - by intros [= <-].
  - case_match; [|done]. intros [= <-]. by apply to_int_has_type.
  - by intros [= <-].
  - by intros [= <-].
Qed.

(** ** Types of results *)

(** A value of a C++ type: references come in scopes. *)
Definition typed_value (cur : Arch) (t : CType) (v : Value) : Prop :=
  match v with
  | NoValue => False
  | ScopedRef ref => t = Reference ∧ has_type cur Reference ref
  | Plain t' x => t' = t ∧ t ≠ Reference ∧ has_type cur t x
  end.

(** JNI functions return values of their types. *)
Definition calls_typed (cur : Arch) {S} (call : Function → list Argument → S → Z * S) : Prop :=
  ∀ f args s, return_type f ≠ Void → has_type cur (return_type f) (call f args s).1.

Section typed.
Context (cur : Arch) {S : Type} (call : Function → list Argument → S → Z * S) (log_disabled : bool).
Context (Hcalls : calls_typed cur call).
Implicit Types (c : Ctx (S := S)).

Lemma JNI_Invoke_typed Result f args c v c' :
  sane Result → return_type f ≠ Void → JNI_Invoke cur call Result f args c = Some (v, c') →
  typed_value cur (if bool_decide (Result = Nullptr) then return_type f else Result) v.
Proof.
  intros Hs Hf. unfold JNI_Invoke. rewrite bool_decide_eq_false_2 by done. unfold invoke.
  pose proof (Hcalls f (map UnwrapScope args) (jvm c) Hf) as Hv.
  destruct (call f _ _) as [x s]. simpl in Hv.
  set (T := if bool_decide (Result = Nullptr) then return_type f else Result).
  assert (sane T) as HT by (unfold T; case_bool_decide; [by destruct f as [| | | | | | |[]|[]|[]|[]| | |[]|[]|[]| | | | | | | | | | | | | | | | |[]| | |]|done]).
  assert (T ≠ Nullptr) as Hn by (unfold T; case_bool_decide; [by destruct f as [| | | | | | |[]|[]|[]|[]| | |[]|[]|[]| | | | | | | | | | | | | | | | |[]| | |]|done]).
  clearbody T. destruct (is_integral (return_type f) && is_integral T) eqn:Ei.
  - intros [= <- <-]. apply andb_prop in Ei as [_ Hi]. destruct T; try done. simpl.
    split_and!; [done|done|]. by apply to_int_has_type.
  - destruct (reinterpret_cast cur (return_type f) T x) as [y|] eqn:Ey; [|done]. intros [= <- <-].
    apply (reinterpret_cast_typed _ _ _ _ _ HT Hv) in Ey. unfold WrapScope.
    destruct T; try done; by simpl.
Qed.

Lemma JNI_SafeInvoke_typed Result f args c v c' :
  sane Result → return_type f ≠ Void → JNI_SafeInvoke cur call log_disabled Result f args c = Some (v, c') →
  typed_value cur (if bool_decide (Result = Nullptr) then return_type f else Result) v.
Proof.
  intros Hs Hf. unfold JNI_SafeInvoke.
  destruct (JNI_Invoke _ _ _ _ _ _) as [[v0 c0]|] eqn:E; [|done]. intros [= <- _].
  by eapply JNI_Invoke_typed.
Qed.
End typed.

(** ** What the chains choose *)

(** The types the chains accept. *)
Definition dispatched (t : CType) : bool :=
  bool_decide (t ∈ [jboolean; jbyte; jshort; jchar; jint; jlong; Reference; Pointer]).

(** The kind of the integer as wide as a pointer. *)
Definition word_kind (cur : Arch) : Kind := if kPointerSize cur =? 4 then KInt else Long.

Inductive chosen (cur : Arch) : CType → Kind → Prop :=
  | chosen_boolean : chosen cur jboolean Boolean
  | chosen_byte : chosen cur jbyte Byte
  | chosen_short : chosen cur jshort Short
  | chosen_char : chosen cur jchar Char
  | chosen_int : chosen cur jint KInt
  | chosen_long : chosen cur jlong Long
  | chosen_pointer t : is_pointer t = true → chosen cur t (word_kind cur).

Lemma select_dispatched cur t : dispatched t = true → ∃ k, select cur t = Some k ∧ chosen cur t k.
Proof.
  unfold dispatched. rewrite bool_decide_eq_true.
  assert (∀ p, is_pointer p = true → select cur p = Some (word_kind cur)) as Hp by (intros []; by destruct cur).
  intros Ht. repeat (apply elem_of_cons in Ht as [-> | Ht]); [eexists; split; [done|constructor]..| | |by apply elem_of_nil in Ht].
  all: exists (word_kind cur); split; [by apply Hp|by constructor].
Qed.

Lemma select_refused cur t :
  dispatched t = false → ScopeOrJCompatiblePointer t = true → select_call cur t = None.
Proof.
  unfold dispatched. rewrite bool_decide_eq_false, !not_elem_of_cons. intros (? & ? & ? & ? & ? & ? & ? & ? & _) Ht.
  destruct t; try done. unfold select_call, select, is_pointer. cbn [andb].
  by repeat rewrite bool_decide_eq_false_2 by done.
Qed.

Lemma dispatched_allowed t : dispatched t = true → ScopeOrJCompatiblePointer t = true.
Proof.
  unfold dispatched. rewrite bool_decide_eq_true. intros Ht.
  repeat (apply elem_of_cons in Ht as [-> | Ht]; [done|]). by apply elem_of_nil in Ht.
Qed.

Section chains.
Context (cur : Arch) {S : Type} (call : Function → list Argument → S → Z * S) (log_disabled : bool).
Implicit Types (c : Ctx (S := S)).

(** The instantiations of [JNI_Invoke] that are well-formed. *)
Definition invocable (Result : CType) (f : Function) : bool :=
  let R := return_type f in
  let T := if bool_decide (Result = Nullptr) then R else Result in
  bool_decide (R = Void) || (is_integral R && is_integral T) ||
  bool_decide (is_Some (reinterpret_cast cur R T 0)).

(** Whether a cast exists depends on the types only. *)
Lemma castable_any from to v w : is_Some (reinterpret_cast cur from to v) → is_Some (reinterpret_cast cur from to w).
Proof.
  unfold reinterpret_cast. destruct from, to; try (intros [? ?]; done); try (by eexists).
  - case_bool_decide; [by eexists|intros [? ?]; done].
  - case_match; [by eexists|intros [? ?]; done].
  - case_match; [by eexists|intros [? ?]; done].
Qed.

Lemma JNI_Invoke_defined Result f args c :
  invocable Result f = true → is_Some (JNI_Invoke cur call Result f args c).
Proof.
  unfold invocable, JNI_Invoke. destruct (bool_decide (return_type f = Void)); [by eexists|]. cbn [orb].
  set (T := if bool_decide _ then _ else _). destruct (invoke _ _ _ _) as [v c'].
  destruct (is_integral _ && _); [by eexists|]. cbn [orb]. rewrite bool_decide_eq_true. clearbody T.
  intros [y E]%(castable_any _ _ _ v). rewrite E. by eexists.
Qed.

Lemma set_defined f from to obj id v c :
  is_Some (reinterpret_cast cur from to 0) → invocable Nullptr f = true →
  is_Some (v ← reinterpret_cast cur from to v; JNI_Invoke cur call Nullptr f [obj; Raw id; Raw v] c).
Proof. intros [y E]%(castable_any _ _ _ v) Hf. rewrite E. by apply JNI_Invoke_defined. Qed.

Lemma JNI_SafeInvoke_defined Result f args c :
  invocable Result f = true → is_Some (JNI_SafeInvoke cur call log_disabled Result f args c).
Proof.
  intros [[v c'] E]%(JNI_Invoke_defined _ _ args c). unfold JNI_SafeInvoke. rewrite E. by eexists.
Qed.

Lemma not_some {A} (o : option A) (P : Prop) : o = None → ¬ P → (is_Some o ↔ P).
Proof. intros -> HP. split; [by intros [? ?]|done]. Qed.

End chains.

Lemma yes {A} (o : option A) : is_Some o → (is_Some o ↔ true = true).
Proof. done. Qed.

Ltac conjuncts := repeat match goal with |- _ ∧ _ => split end.

Ltac defined :=
  unfold JNI_SetIntField, JNI_SetLongField, JNI_SetStaticIntField, JNI_SetStaticLongField, requires;
  cbn [ScopeOrJCompatiblePointer ScopeOrJCompatible ScopeOrObject is_pointer orb Z.leb Z.compare Pos.compare
       Pos.compare_cont];
  first [by apply JNI_Invoke_defined | by apply JNI_SafeInvoke_defined | by apply set_defined].

Section accepted.
Context (cur : Arch) {S : Type} (call : Function → list Argument → S → Z * S) (log_disabled : bool).
Implicit Types (c : Ctx (S := S)).

(** A chain accepts exactly the integer types of JNI, references and pointers.
    [float], [double] and [void] have cases in the chains, but do not pass the
    constraint on the type; [JNI_GetStaticField] does not accept pointers. *)
Theorem chains_accept t obj clazz id v args c :
  (is_Some (JNI_GetField cur call t obj id c) ↔ dispatched t = true) ∧
  (is_Some (JNI_SetField cur call t obj id v c) ↔ dispatched t = true) ∧
  (is_Some (JNI_GetStaticField cur call t clazz id c) ↔ dispatched t && negb (bool_decide (t = Pointer)) = true) ∧
  (is_Some (JNI_SetStaticField cur call t clazz id v c) ↔ dispatched t = true) ∧
  (is_Some (JNI_CallMethod cur call log_disabled t obj id args c) ↔ dispatched t = true) ∧
  (is_Some (JNI_CallStaticMethod cur call log_disabled t clazz id args c) ↔ dispatched t = true) ∧
  (is_Some (JNI_CallNonvirtualMethod cur call log_disabled t obj clazz id args c) ↔ dispatched t = true) ∧
  (is_Some (JNI_NewArray cur call t v c) ↔ dispatched t = true).
Proof.
  unfold JNI_GetField, JNI_SetField, JNI_GetStaticField, JNI_SetStaticField, JNI_CallMethod,
    JNI_CallStaticMethod, JNI_CallNonvirtualMethod, JNI_NewArray, requires.
  destruct (ScopeOrJCompatiblePointer t) eqn:Ha.
  2: { assert (dispatched t = false) as -> by (destruct (dispatched t) eqn:E; [apply dispatched_allowed in E; congruence|done]).
       conjuncts; by apply not_some. }
  destruct (dispatched t) eqn:Hd.
  2: { pose proof (select_refused cur t Hd Ha) as Hn.
       assert (select cur t = None) as Hs by (unfold select_call in Hn; destruct (select cur t); done).
       rewrite Hn, Hs. split_and!; apply not_some; try done; by intros [? ?]. }
  destruct (select_dispatched cur t Hd) as (k & Hk & Hc). unfold select_call. rewrite Hk.
  destruct Hc as [| | | | | |t Hp]; [conjuncts; apply yes; defined..|].
  clear Hk. destruct t; try done; destruct cur;
    match goal with |- context [word_kind ?a] => let k := eval vm_compute in (word_kind a) in change (word_kind a) with k end;
    cbv iota; conjuncts; (by apply not_some) || (apply yes; defined).
Qed.
End accepted.

(** ** Results of the chains *)

Section chain_results.
Context (cur : Arch) {S : Type} (call : Function → list Argument → S → Z * S) (log_disabled : bool).
Implicit Types (c : Ctx (S := S)).

Lemma chosen_kind t k :
  chosen cur t k → k ≠ Object ∧ sizeof cur (type_of k) = sizeof cur t.
Proof.
  intros Hc. destruct Hc as [| | | | | |p Hp]; try by split.
  destruct p; try done; unfold word_kind; by destruct cur.
Qed.

Lemma requires_some (b : bool) (f : Ctx (S := S) → option (Value * Ctx)) c r : requires b f c = Some r → f c = Some r.
Proof. unfold requires. by destruct b. Qed.

(** Takes a chain apart: [select] chooses, and the function of the kind is typed. *)
Ltac typed_chain Hcalls Hc :=
  intros ?H; apply requires_some in H;
  destruct Hc as [| | | | | |p Hp]; unfold word_kind in *;
  repeat match goal with H : context [if ?b then KInt else Long] |- _ => destruct b end;
  try apply requires_some in H;
  first
    [ apply (JNI_Invoke_typed cur call Hcalls) in H; [|done|done]; exact H
    | apply (JNI_SafeInvoke_typed cur call log_disabled Hcalls) in H; [|done|done]; exact H
    | apply (JNI_Invoke_typed cur call Hcalls) in H; [|by destruct p|done]; by destruct p
    | apply (JNI_SafeInvoke_typed cur call log_disabled Hcalls) in H; [|by destruct p|done]; by destruct p ].

(** What a chain returns is a value of the type it was given, and the field or
    result it reads is of a primitive kind of the same size; for references it is
    an integer, never an object. *)
Theorem chains_typed t obj clazz id args c v c' :
  calls_typed cur call → dispatched t = true →
  (∃ k, select cur t = Some k ∧ k ≠ Object ∧ sizeof cur (type_of k) = sizeof cur t) ∧
  (JNI_GetField cur call t obj id c = Some (v, c') → typed_value cur t v) ∧
  (JNI_GetStaticField cur call t clazz id c = Some (v, c') → typed_value cur t v) ∧
  (JNI_CallMethod cur call log_disabled t obj id args c = Some (v, c') → typed_value cur t v) ∧
  (JNI_CallStaticMethod cur call log_disabled t clazz id args c = Some (v, c') → typed_value cur t v) ∧
  (JNI_CallNonvirtualMethod cur call log_disabled t obj clazz id args c = Some (v, c') → typed_value cur t v).
Proof.
  intros Hcalls Hd. destruct (select_dispatched cur t Hd) as (k & Hk & Hc).
  unfold JNI_GetField, JNI_GetStaticField, JNI_CallMethod, JNI_CallStaticMethod, JNI_CallNonvirtualMethod,
    select_call. rewrite Hk.
  split; [by exists k; destruct (chosen_kind _ _ Hc)|]. clear Hk Hd.
  conjuncts; typed_chain Hcalls Hc.
Qed.

(** *** Results *)

(** What JNI answers to a function with the arguments of a wrapper. *)
Definition answer c (f : Function) (args : list Arg) : Z := (call f (map UnwrapScope args) (jvm c)).1.

(** The C++ value of type [t] for JNI's answer: a pointer is the address in an
    integer, and a number the number itself. *)
Definition as_type (t : CType) (x : Z) : Value :=
  match t with
  | Reference => ScopedRef x
  | Pointer => Plain Pointer (wrap (kPointerBits cur) x)
  | _ => Plain t x
  end.

(** An integer is read as an integer of its own type or as an address. *)
Lemma JNI_Invoke_result Result f args c v c' :
  calls_typed cur call → sane (return_type f) →
  let R := return_type f in
  let T := if bool_decide (Result = Nullptr) then R else Result in
  is_integral R = true ∧ (T = R ∨ T = Pointer) ∨ R = Reference ∧ T = Reference →
  JNI_Invoke cur call Result f args c = Some (v, c') → v = as_type T (answer c f args).
Proof.
  intros Hcalls Hs R T HT. unfold JNI_Invoke, answer, invoke. fold R T.
  assert (R ≠ Void) as HR by (intros E; rewrite E in HT; by destruct HT as [[? _]|[? _]]).
  rewrite bool_decide_eq_false_2 by done.
  pose proof (Hcalls f (map UnwrapScope args) (jvm c) HR) as Hx. fold R in Hx.
  destruct (call f _ _) as [x s]. cbn [fst] in *.
  destruct HT as [[Hi [-> | ->]]|[-> ->]].
  - rewrite Hi. cbn [andb]. intros [= <- _]. fold R in Hs. clearbody R. destruct R; try done.
    cbn. by rewrite (to_int_id cur) by done.
  - rewrite Hi. cbn [andb is_integral]. clearbody R. destruct R; try done. cbn. by intros [= <- _].
  - cbn. by intros [= <- _].
Qed.

Lemma JNI_SafeInvoke_result Result f args c v c' :
  calls_typed cur call → sane (return_type f) →
  let R := return_type f in
  let T := if bool_decide (Result = Nullptr) then R else Result in
  is_integral R = true ∧ (T = R ∨ T = Pointer) ∨ R = Reference ∧ T = Reference →
  JNI_SafeInvoke cur call log_disabled Result f args c = Some (v, c') → v = as_type T (answer c f args).
Proof.
  intros Hcalls Hs R T HT. unfold JNI_SafeInvoke.
  destruct (JNI_Invoke _ _ _ _ _ _) as [[v0 c0]|] eqn:E; [|done]. intros [= <- _].
  by eapply JNI_Invoke_result.
Qed.

Ltac result_of Hcalls :=
  let H := fresh in
  intros H; repeat apply requires_some in H;
  first [ apply (JNI_Invoke_result _ _ _ _ _ _ Hcalls) in H; [exact H|done|]
        | apply (JNI_SafeInvoke_result _ _ _ _ _ _ Hcalls) in H; [exact H|done|] ];
  first [ left; split; [done|by left] | left; split; [done|by right] | by right ].

(** C31: the results of the wrappers.  For a number or pointer type [t] the
    chains of field and call wrappers ask the JNI function of one primitive kind
    of the size of [t], with the arguments they were given, and return the
    number that JNI answers, or the address in it, as a value of type [t].  The
    wrappers of objects return a scope that owns the reference that their JNI
    function answers, and so does [JNI_NewArray] for an array of the kind of its
    type argument. *)
Theorem wrapper_results t obj clazz id args c v c' :
  calls_typed cur call →
  (dispatched t = true → t ≠ Reference → ∃ k, chosen cur t k ∧ sizeof cur (type_of k) = sizeof cur t ∧
     let returns o f l := o = Some (v, c') → v = as_type t (answer c f l) ∧ typed_value cur t v in
     returns (JNI_GetField cur call t obj id c) (GetField k) [obj; Raw id] ∧
     returns (JNI_GetStaticField cur call t clazz id c) (GetStaticField k) [clazz; Raw id] ∧
     returns (JNI_CallMethod cur call log_disabled t obj id args c) (CallMethod k) ([obj; Raw id] ++ args) ∧
     returns (JNI_CallStaticMethod cur call log_disabled t clazz id args c) (CallStaticMethod k) ([clazz; Raw id] ++ args) ∧
     returns (JNI_CallNonvirtualMethod cur call log_disabled t obj clazz id args c) (CallNonvirtualMethod k)
       ([obj; clazz; Raw id] ++ args) ∧
     (JNI_NewArray cur call t id c = Some (v, c') → v = ScopedRef (answer c (NewArray k) [Raw id]))) ∧
  let refers o f l := o = Some (v, c') → v = ScopedRef (answer c f l) in
  refers (JNI_GetObjectField cur call Reference obj id c) (GetField Object) [obj; Raw id] ∧
  refers (JNI_GetStaticObjectField cur call Reference clazz id c) (GetStaticField Object) [clazz; Raw id] ∧
  refers (JNI_CallObjectMethod cur call log_disabled Reference obj id args c) (CallMethod Object) ([obj; Raw id] ++ args) ∧
  refers (JNI_CallStaticObjectMethod cur call log_disabled Reference clazz id args c) (CallStaticMethod Object)
    ([clazz; Raw id] ++ args) ∧
  refers (JNI_CallNonvirtualObjectMethod cur call log_disabled Reference obj clazz id args c)
    (CallNonvirtualMethod Object) ([obj; clazz; Raw id] ++ args) ∧
  refers (JNI_AllocObject cur call log_disabled Reference clazz c) AllocObject [clazz] ∧
  refers (JNI_NewObject cur call log_disabled Reference clazz id args c) NewObject ([clazz; Raw id] ++ args) ∧
  refers (JNI_NewLocalRef cur call Reference obj c) NewLocalRef [obj].
Proof.
  intros Hcalls. split.
  - intros Hd Href. destruct (select_dispatched cur t Hd) as (k & Hk & Hc). exists k.
    split; [done|]. split; [by apply chosen_kind|]. cbv zeta.
    destruct (chains_typed t obj clazz id args c v c' Hcalls Hd) as (_ & T1 & T2 & T3 & T4 & T5).
    assert (∀ (o : option (Value * Ctx)) P, (o = Some (v, c') → P) → (o = Some (v, c') → typed_value cur t v) →
      o = Some (v, c') → P ∧ typed_value cur t v) as Hboth by auto.
    split_and!; try apply Hboth; try done; clear T1 T2 T3 T4 T5 Hboth Hd;
      unfold JNI_GetField, JNI_GetStaticField, JNI_CallMethod, JNI_CallStaticMethod, JNI_CallNonvirtualMethod,
        JNI_NewArray, select_call; rewrite Hk; clear Hk.
    all: destruct Hc as [| | | | | |p Hp]; [by result_of Hcalls..|].
    all: destruct p; try done; unfold word_kind; destruct (kPointerSize cur =? 4); by result_of Hcalls.
  - cbv zeta. split_and!; by result_of Hcalls.
Qed.

(** ** Fields *)

(** A field that was set gives the value it was set to. *)
Record fields_ok : Prop := {
  get_set k o f v s : has_type cur (type_of k) v →
    (call (GetField k) [o; f] (call (SetField k) [o; f; Num v] s).2).1 = v;
  get_set_static k o f v s : has_type cur (type_of k) v →
    (call (GetStaticField k) [o; f] (call (SetStaticField k) [o; f; Num v] s).2).1 = v
}.

Lemma JNI_Invoke_void f args c :
  return_type f = Void → JNI_Invoke cur call Nullptr f args c = Some (NoValue, (invoke call f (map UnwrapScope args) c).2).
Proof. intros Hf. unfold JNI_Invoke. by rewrite bool_decide_eq_true_2. Qed.

(** What [JNI_Invoke] gives of a result it can cast. *)
Lemma JNI_Invoke_value Result f args c x y :
  return_type f ≠ Void →
  (call f (map UnwrapScope args) (jvm c)).1 = x →
  let T := if bool_decide (Result = Nullptr) then return_type f else Result in
  sane T → has_type cur (return_type f) x →
  (if is_integral (return_type f) && is_integral T then Some (static_cast T x) else reinterpret_cast cur (return_type f) T x) = Some y →
  ∃ c', JNI_Invoke cur call Result f args c = Some (WrapScope T y, c').
Proof.
  intros Hf Hx T HT Hv. unfold JNI_Invoke, invoke. rewrite (bool_decide_eq_false_2 (return_type f = Void)) by done.
  destruct (call f _ _) as [z s]. simpl in Hx. subst z. fold T.
  destruct (is_integral (return_type f) && is_integral T) eqn:Ei.
  - intros [= <-]. apply andb_prop in Ei as [_ Ei]. destruct T; try done. by eexists.
  - intros ->. by eexists.
Qed.
End chain_results.

Section roundtrip.
Context (cur : Arch) {S : Type} (call : Function → list Argument → S → Z * S).
Implicit Types (c : Ctx (S := S)).

(** The round trip of an integer kind, through the named functions. *)
Lemma integer_roundtrip k (static : bool) obj id v c :
  fields_ok cur call → k ∈ [Boolean; Byte; Char; Short; KInt; Long] → has_type cur (type_of k) v →
  let set := if static then SetStaticField k else SetField k in
  let get := if static then GetStaticField k else GetField k in
  ∃ c1 c2, JNI_Invoke cur call Nullptr set [obj; Raw id; Raw v] c = Some (NoValue, c1) ∧
    JNI_Invoke cur call Nullptr get [obj; Raw id] c1 = Some (Plain (type_of k) v, c2) ∧
    JNI_Invoke cur call (type_of k) get [obj; Raw id] c1 = Some (Plain (type_of k) v, c2).
Proof.
  intros [Hi Hs] Hk Hv set get.
  assert (return_type set = Void) as Hset by (unfold set; by destruct static).
  rewrite (JNI_Invoke_void cur call set) by done.
  assert (return_type get = type_of k) as Hget by (unfold get; by destruct static).
  assert (is_integral (type_of k) = true ∧ type_of k ≠ Void ∧ type_of k ≠ Nullptr ∧ sane (type_of k)) as (Hint & Hnv & Hnn & Hsane).
  { by repeat (apply elem_of_cons in Hk as [-> | Hk]; [done|]); apply elem_of_nil in Hk. }
  unfold invoke. destruct (call set _ _) as [? s1] eqn:E1.
  assert ((call get [UnwrapScope obj; Num id] s1).1 = v) as Hr.
  { assert (s1 = (call set [UnwrapScope obj; Num id; Num v] (jvm c)).2) as -> by (simpl in E1; by rewrite E1).
    unfold set, get. destruct static; auto. }
  exists (MkCtx s1 (toString c)). unfold JNI_Invoke, invoke. simpl. rewrite Hget.
  destruct (call get _ s1) as [x s2]. simpl in Hr. subst x.
  rewrite (bool_decide_eq_false_2 (type_of k = Void)), (bool_decide_eq_false_2 (type_of k = Nullptr)), Hint by done.
  cbn [andb].
  assert (static_cast (type_of k) v = v) as ->.
  { destruct (type_of k) as [b sg| | | | | |]; try done. simpl. by apply (to_int_id cur). }
  by eexists.
Qed.

(** The round trip of a pointer, as the integer of its width. *)
Lemma pointer_roundtrip (static : bool) t obj id v c :
  fields_ok cur call → is_pointer t = true → has_type cur t v →
  let k := word_kind cur in
  let set := if static then SetStaticField k else SetField k in
  let get := if static then GetStaticField k else GetField k in
  ∃ c1 c2,
    (value ← reinterpret_cast cur t (type_of k) v; JNI_Invoke cur call Nullptr set [obj; Raw id; Raw value] c) =
      Some (NoValue, c1) ∧
    JNI_Invoke cur call t get [obj; Raw id] c1 = Some (WrapScope t v, c2).
Proof.
  intros Hf Ht Hv k set get.
  assert (∃ b, type_of k = Int b true ∧ b = kPointerBits cur ∧ 0 < b) as (b & Ek & Hb & Hpos) by (unfold k, word_kind; destruct cur; eexists; by split_and!).
  assert (reinterpret_cast cur t (type_of k) v = Some (to_int b true v)) as Hc.
  { rewrite Ek, Hb. unfold reinterpret_cast. destruct t; try done; by rewrite Z.leb_refl. }
  rewrite Hc. simpl.
  assert (has_type cur (type_of k) (to_int b true v)) as Hi by (rewrite Ek; by apply to_int_has_type).
  destruct (integer_roundtrip k static obj id (to_int b true v) c Hf) as (c1 & c2 & E1 & E2 & _); [|done|].
  { unfold k, word_kind. destruct (_ =? _); [|]; rewrite !elem_of_cons; tauto. }
  exists c1. fold set get in E1, E2. rewrite E1.
  revert E2. unfold JNI_Invoke. assert (return_type get = type_of k) as -> by (unfold get; by destruct static).
  rewrite Ek. rewrite (bool_decide_eq_false_2 (Int b true = Void)), (bool_decide_eq_true_2 (Nullptr = Nullptr)) by done.
  destruct (invoke _ _ _ c1) as [x s]. cbn [is_integral andb]. intros [= Hx <-].
  exists s. split; [done|]. rewrite (bool_decide_eq_false_2 (t = Nullptr)) by (by destruct t).
  assert (wrap b x = v) as Hw.
  { rewrite <-(wrap_to_int b true x), Hx, wrap_to_int by done. apply wrap_small. rewrite Hb. by destruct t. }
  destruct t; try done; cbn [is_integral reinterpret_cast]; simpl; by rewrite <-Hb, Hw.
Qed.

(** C38: a value of any type the chains accept, written to a field and read back as
    that type, is the same value, pointers and references included; static
    fields too, except that pointers cannot be read from them. *)
Theorem field_roundtrip t obj id v c :
  fields_ok cur call → dispatched t = true → has_type cur t v →
  (∃ c1 c2, JNI_SetField cur call t obj id v c = Some (NoValue, c1) ∧
     JNI_GetField cur call t obj id c1 = Some (WrapScope t v, c2)) ∧
  (t ≠ Pointer → ∃ c1 c2, JNI_SetStaticField cur call t obj id v c = Some (NoValue, c1) ∧
     JNI_GetStaticField cur call t obj id c1 = Some (WrapScope t v, c2)).
Proof.
  intros Hf Hd Hv. destruct (select_dispatched cur t Hd) as (k & Hk & Hc).
  unfold JNI_SetField, JNI_GetField, JNI_SetStaticField, JNI_GetStaticField, requires.
  rewrite (dispatched_allowed _ Hd), Hk.
  assert (∀ k, k ∈ [Boolean; Byte; Char; Short; KInt; Long] → has_type cur (type_of k) v → ∀ static : bool,
    ∃ c1 c2, JNI_Invoke cur call Nullptr (if static then SetStaticField k else SetField k) [obj; Raw id; Raw v] c = Some (NoValue, c1) ∧
      JNI_Invoke cur call Nullptr (if static then GetStaticField k else GetField k) [obj; Raw id] c1 = Some (Plain (type_of k) v, c2) ∧
      JNI_Invoke cur call (type_of k) (if static then GetStaticField k else GetField k) [obj; Raw id] c1 = Some (Plain (type_of k) v, c2))
    as Hint by (intros k' Hk' Hv' static; by apply integer_roundtrip).
  destruct Hc as [| | | | | |p Hp].
  1-6: match type of Hk with
       | _ = Some ?k => pose proof (Hint k ltac:(rewrite !elem_of_cons; tauto) Hv) as Hr
       end;
       (split; [destruct (Hr false) as (c1 & c2 & E1 & E2 & E3)|intros _; destruct (Hr true) as (c1 & c2 & E1 & E2 & E3)]);
       exists c1, c2; (split; [exact E1|first [exact E2|exact E3]]).
  destruct (pointer_roundtrip false p obj id v c Hf Hp Hv) as (c1 & c2 & E1 & E2).
  destruct (pointer_roundtrip true p obj id v c Hf Hp Hv) as (c3 & c4 & E3 & E4).
  split; [exists c1, c2|intros Hn; exists c3, c4]; (split; [revert E1 E3|revert E2 E4]); unfold word_kind;
    destruct (kPointerSize cur =? 4); cbn [type_of];
    unfold JNI_SetIntField, JNI_SetLongField, JNI_SetStaticIntField, JNI_SetStaticLongField,
      JNI_GetIntField, JNI_GetLongField, JNI_GetStaticIntField, JNI_GetStaticLongField, requires;
    destruct p; by cbn.
Qed.

(** ** Pending exceptions *)

(** The functions the destructor calls to log an exception. *)
Definition log_functions : list Function :=
  [ FindClass; GetStaticMethodID; CallStaticMethod Object; DeleteLocalRef; GetStringUTFChars;
    ReleaseStringUTFChars ].

(** JNI with a pending exception, or none; what is called to log one raises none. *)
Record exceptions_ok (pending : S → bool) : Prop := {
  check_tells s : (call ExceptionCheck [] s).1 = if pending s then 1 else 0;
  check_keeps s : pending (call ExceptionCheck [] s).2 = pending s;
  clear_clears s : pending (call ExceptionClear [] s).2 = false;
  log_quiet f args s : f ∈ log_functions → pending s = false → pending (call f args s).2 = false
}.

Section exceptions.
Context (pending : S → bool) (Hok : exceptions_ok pending).

Lemma invoke_quiet f args c :
  f ∈ log_functions → pending (jvm c) = false → pending (jvm (invoke call f args c).2) = false.
Proof.
  intros Hf Hc. pose proof (log_quiet _ Hok f args (jvm c) Hf Hc) as H. unfold invoke.
  by destruct (call f args (jvm c)).
Qed.

Ltac quiet_step :=
  match goal with
  | H : pending (jvm ?c) = false |- context [invoke call ?f ?args ?c] =>
      let H' := fresh in
      pose proof (invoke_quiet f args c ltac:(unfold log_functions; rewrite !elem_of_cons; tauto) H) as H';
      destruct (invoke call f args c); cbn [snd] in *; clear H
  end.

Lemma ClearException_quiet c : pending (jvm (ClearException call c).2) = false.
Proof.
  unfold ClearException. destruct (invoke call ExceptionOccurred [] c) as [exception c1].
  assert (pending (jvm (invoke call ExceptionClear [] c1).2) = false) as H.
  { pose proof (clear_clears _ Hok (jvm c1)) as H. unfold invoke. by destruct (call _ _ _). }
  destruct (invoke call ExceptionClear [] c1) as [x c2]; cbn [snd] in *.
  quiet_step. destruct (toString _) as [m|]; [by repeat quiet_step|]. quiet_step.
  match goal with
  | H : pending (jvm ?a) = false |- context [MkCtx (jvm ?a) ?t] => change (pending (jvm (MkCtx (jvm a) t)) = false) in H
  end.
  by repeat quiet_step.
Qed.

(** After [JNI_SafeInvoke] no exception is pending, whether the build logs
    exceptions or not, and its result is the one [JNI_Invoke] gives; when the
    call raised nothing, a build that logs only asks whether it did. *)
Theorem SafeInvoke_clears log_disabled Result f args c v c' :
  JNI_SafeInvoke cur call log_disabled Result f args c = Some (v, c') →
  pending (jvm c') = false ∧
  ∃ c1, JNI_Invoke cur call Result f args c = Some (v, c1) ∧
    (log_disabled = false → pending (jvm c1) = false → c' = (invoke call ExceptionCheck [] c1).2).
Proof.
  unfold JNI_SafeInvoke. destruct (JNI_Invoke _ _ _ _ _ _) as [[v1 c1]|] eqn:E; [|done]. intros [= -> <-].
  unfold JNISafeInvocationFinally.
  assert ((invoke call ExceptionCheck [] c1).1 = (if pending (jvm c1) then 1 else 0) ∧
    pending (jvm (invoke call ExceptionCheck [] c1).2) = pending (jvm c1)) as [H1 H2].
  { pose proof (check_tells _ Hok (jvm c1)). pose proof (check_keeps _ Hok (jvm c1)).
    unfold invoke. by destruct (call _ _ _). }
  destruct log_disabled.
  { split; [|by exists c1]. pose proof (clear_clears _ Hok (jvm c1)). unfold invoke. by destruct (call _ _ _). }
  destruct (invoke call ExceptionCheck [] c1) as [p c2] eqn:Ei. simpl in H1, H2. subst p.
  split.
  - destruct (pending (jvm c1)); [|done]. cbn.
    pose proof (ClearException_quiet c2) as Hq. destruct (ClearException call c2) as [ex c3]. cbn [snd] in Hq.
    destruct (ex =? 0); [done|]. repeat quiet_step. done.
  - exists c1. split; [done|]. intros _ Hp. by rewrite Ei, Hp.
Qed.
End exceptions.
End roundtrip.

(** ** Concrete JNI *)

(** JNI that remembers the last value a field was set to, and whether an
    exception is pending; calls of virtual methods raise one. *)
Record ToyState := MkToy { last : Z; raised : bool }.

Definition toy_call (f : Function) (args : list Argument) (s : ToyState) : Z * ToyState :=
  match f, args with
  | SetField _, [_; _; Num v] | SetStaticField _, [_; _; Num v] => (0, MkToy v (raised s))
  | GetField _, _ | GetStaticField _, _ => (last s, s)
  | CallMethod _, _ => (0, MkToy (last s) true)
  | ExceptionCheck, _ => (if raised s then 1 else 0, s)
  | ExceptionClear, _ => (0, MkToy (last s) false)
  | _, _ => (7, s)
  end.

Lemma toy_fields cur : fields_ok cur toy_call.
Proof. by split. Qed.

Lemma toy_exceptions : exceptions_ok toy_call raised.
Proof.
  split; try done. intros f args s Hf Hs.
  repeat (apply elem_of_cons in Hf as [-> | Hf]; [done|]). by apply elem_of_nil in Hf.
Qed.

Definition toy_start : Ctx (S := ToyState) := MkCtx (MkToy 0 false) None.

(** A pointer with the top bit set goes through a [long] field. *)
Example field_roundtrip_witness :
  ∃ c1 c2, JNI_SetField kArm64 toy_call Pointer (Raw 5) 6 0xB400007712345678 toy_start = Some (NoValue, c1) ∧
    JNI_GetField kArm64 toy_call Pointer (Raw 5) 6 c1 = Some (Plain Pointer 0xB400007712345678, c2).
Proof.
  destruct (field_roundtrip kArm64 toy_call Pointer (Raw 5) 6 0xB400007712345678 toy_start (toy_fields kArm64) eq_refl)
    as [H _]; [|exact H].
  split; [discriminate|reflexivity].
Defined.

Example SafeInvoke_clears_witness :
  ∃ c, JNI_CallVoidMethod kArm64 toy_call false (Raw 5) 6 [] toy_start = Some (NoValue, c) ∧ raised (jvm c) = false.
Proof.
  eexists. split; [reflexivity|].
  apply (SafeInvoke_clears kArm64 toy_call raised toy_exceptions false Nullptr (CallMethod KVoid)
    [Raw 5; Raw 6] toy_start NoValue _ eq_refl).
Defined.

(** JNI that answers 0. *)
Definition zero_call (f : Function) (args : list Argument) (s : unit) : Z * unit := (0, s).

Lemma zero_typed cur : calls_typed cur zero_call.
Proof.
  intros f args s Hf. simpl.
  assert (return_type f ∈ [jboolean; jbyte; jchar; jshort; jint; jlong; Float; Double; Reference; Pointer]) as Ht.
  { unfold jboolean, jbyte, jchar, jshort, jint, jlong. rewrite !elem_of_cons.
    destruct f as [| | | | | | |[]|[]|[]|[]| | |[]|[]|[]| | | | | | | | | | | | | | | | |[]| | |]; tauto. }
  repeat (apply elem_of_cons in Ht as [-> | Ht]; [by destruct cur; vm_compute|]). by apply elem_of_nil in Ht.
Qed.

Example wrapper_results_witness :
  ∃ v, JNI_GetField kArm64 zero_call Pointer (Raw 5) 6 (MkCtx tt None) = Some (v, MkCtx tt None) ∧
    v = Plain Pointer 0.
Proof.
  exists (Plain Pointer 0). split; [reflexivity|].
  destruct (wrapper_results kArm64 zero_call false Pointer (Raw 5) (Raw 5) 6 [] (MkCtx tt None) (Plain Pointer 0)
    (MkCtx tt None) (zero_typed kArm64)) as [H _].
  destruct (H eq_refl ltac:(done)) as (k & _ & _ & Hget & _). destruct (Hget eq_refl) as [E _]. exact E.
Defined.
