(* ===== verification/NativeEntry.v ===== *)
(** * The registered entry of fast-native hookers

    [NativeHookerEntry] of [lsplant.cc]: the function [BuildDex] registers for a
    class, whose type is the return type of the method.  It gives
    [VNativeHookerEntry] a union, which that function writes one member of and
    this one reads another of; the members here share the bits they share in the
    union. *)

From S2P Require Import Prelude Platform Reflection HookApi HookerDex JniCalls.
From Stdlib Require Import Ascii.

(** ** [jvalue] *)

(** The eight bytes of a [jvalue], least significant first, as one number. *)
Abbreviation jvalue := Z (only parsing).

Section entry.
Context (cur : Arch).

Definition bits_of (t : CType) : Z := 8 * sizeof cur t.

(** Writing a member changes the bytes it has and no other. *)
Definition set_member (t : CType) (v : Z) (j : jvalue) : jvalue :=
  j - wrap (bits_of t) j + wrap (bits_of t) v.
Definition get_member (t : CType) (j : jvalue) : Z :=
  match t with
  | Int bits is_signed => to_int bits is_signed j
  | _ => wrap (bits_of t) j
  end.

(** The type of the member of a letter; [V] has none. *)
Definition member_type (letter : ascii) : option CType :=
  if Ascii.eqb letter "Z" then Some jboolean
  else if Ascii.eqb letter "B" then Some jbyte
  else if Ascii.eqb letter "S" then Some jshort
  else if Ascii.eqb letter "C" then Some jchar
  else if Ascii.eqb letter "I" then Some jint
  else if Ascii.eqb letter "F" then Some jfloat
  else if Ascii.eqb letter "J" then Some jlong
  else if Ascii.eqb letter "D" then Some jdouble
  else if Ascii.eqb letter "L" then Some Reference
  else None.

(** ** [NativeHookerEntry] *)

Context (xxxValue : ascii → Z → Z).

(** The switch on the return type at the end of [VNativeHookerEntry]: the union
    it leaves; [None] is [abort]. *)
Definition store_result (return_type : ascii) (wrapped : Z) (result : jvalue) : option jvalue :=
  match member_type return_type with
  | Some t =>
      Some (if Ascii.eqb return_type "L" then set_member t wrapped result
            else if wrapped =? 0 then result
            else set_member t (xxxValue return_type wrapped) result)
  | None => if Ascii.eqb return_type "V" then Some result else None
  end.

(** The chain of [if constexpr] on the type: the member read, the reference for
    all other types, nothing for [void]. *)
Definition load_result (T : CType) (result : jvalue) : Z :=
  match T with
  | Void => 0
  | Int _ _ | Float | Double => get_member T result
  | Reference | Pointer | Nullptr => get_member Reference result
  end.

Context (valueOf : ascii → Z → Z).

(** The whole entry, with the data of the class. *)
Definition NativeHookerEntry (T : CType) (d : option NativeHookerData) (return_type : ascii)
    (params : list ascii) (field_object : Z) (native : Z → Z → list Z → Z → Z)
    (java : Z → Z → option Z → list Z → Z) (va : list Z) : option Z :=
  let result := 0 in
  match d with
  | None => Some (load_result T result)
  | Some d =>
      wrapped ← wrapped_result valueOf d params field_object native java va;
      result ← store_result return_type wrapped result;
      Some (load_result T result)
  end.

(** The type [BuildDex] instantiates the entry with. *)
Definition registered_type (return_type : ascii) : option CType :=
  letter ← native_entry_type return_type; Some (default Void (member_type letter)).

(** ** Members *)

Definition member (t : CType) : Prop :=
  match t with Int bits _ => bits ∈ [8; 16; 32; 64] | Pointer | Nullptr | Void => False | _ => True end.

Lemma member_type_member letter t : member_type letter = Some t → member t.
Proof. unfold member_type. intros H. repeat case_match; simplify_eq; try done; cbn; set_solver. Qed.

Lemma bits_of_int bits is_signed : member (Int bits is_signed) → bits_of (Int bits is_signed) = bits.
Proof. cbn. unfold bits_of. cbn. set_unfold. intros. destruct_or!; subst; done. Qed.

Lemma wrap_set_member t v j : wrap (bits_of t) (set_member t v j) = wrap (bits_of t) v.
Proof.
  unfold set_member. rewrite wrap_add_r.
  replace (j - wrap (bits_of t) j + v) with (v + j - wrap (bits_of t) j) by lia.
  unfold wrap. rewrite Zminus_mod_idemp_r. f_equal. lia.
Qed.

(** What was written to a member is read from it. *)
Lemma get_set_member t v j : member t → has_type cur t v → get_member t (set_member t v j) = v.
Proof.
  intros Hm Hv. destruct t as [bits is_signed| | | | | |]; try done.
  - unfold get_member. rewrite <-(to_int_id cur bits is_signed v) at 2; [|cbn in Hm; set_unfold; lia|done].
    pose proof (wrap_set_member (Int bits is_signed) v j) as E. rewrite bits_of_int in E by done.
    unfold to_int. by rewrite E.
  - unfold get_member. rewrite wrap_set_member. by apply wrap_small.
  - unfold get_member. rewrite wrap_set_member. by apply wrap_small.
  - unfold get_member. rewrite wrap_set_member. apply wrap_small. apply Hv.
Qed.

(** Writing a member leaves the other bytes of the union. *)
Lemma set_member_above t v j n :
  0 <= bits_of t <= n → Z.testbit (set_member t v j) n = Z.testbit j n.
Proof.
  intros Hn. unfold set_member, wrap. set (w := bits_of t) in *.
  pose proof (Z.pow_pos_nonneg 2 w ltac:(lia) ltac:(lia)).
  replace (j - j mod 2 ^ w + v mod 2 ^ w) with (v mod 2 ^ w + (j / 2 ^ w) * 2 ^ w)
    by (rewrite (Z.div_mod j (2 ^ w)) at 2; lia).
  replace n with (n - w + w) by lia. rewrite <-!Z.div_pow2_bits by lia.
  rewrite Z.div_add, Z.div_small by (try apply Z.mod_pos_bound; lia). done.
Qed.

(** Every member of an untouched union is 0. *)
Lemma get_member_0 t : member t → get_member t 0 = 0.
Proof.
  destruct t as [bits is_signed| | | | | |]; try done; intros Hm; try by (unfold get_member; apply Zmod_0_l).
  unfold get_member, to_int, wrap. rewrite Zmod_0_l.
  cbn in Hm. destruct is_signed; [|done]. cbn [andb].
  rewrite (proj2 (Z.leb_gt _ _)); [done|]. set_unfold. destruct_or!; subst; done.
Qed.

(** ** The entry returns what the callback returned *)

(** The results of the boxes and the objects of the callback have their types. *)
Definition results_typed (return_type : ascii) : Prop :=
  ∀ t, member_type return_type = Some t → return_type ≠ "L"%char → ∀ o, has_type cur t (xxxValue return_type o).

Lemma load_store_result T return_type wrapped :
  registered_type return_type = Some T → results_typed return_type → 0 <= wrapped < 2 ^ kPointerBits cur →
  load_result T <$> store_result return_type wrapped 0 = native_result xxxValue return_type wrapped.
Proof.
  intros HT Hres Hw. unfold registered_type, native_entry_type in HT. case_bool_decide as Hin; [|done].
  injection HT as <-.
  assert (∀ t, member_type return_type = Some t → return_type ≠ "L"%char → load_result t = get_member t →
    load_result t <$> Some (if wrapped =? 0 then 0 else set_member t (xxxValue return_type wrapped) 0) =
      Some (if wrapped =? 0 then 0 else xxxValue return_type wrapped)) as Hval.
  { intros t Ht HL Hload. cbn [fmap option_fmap option_map]. rewrite Hload. f_equal. pose proof (member_type_member _ _ Ht).
    destruct (wrapped =? 0); [by apply get_member_0|]. apply get_set_member; [done|]. by apply Hres. }
  set_unfold in Hin. destruct_or! Hin; subst return_type; try (by apply (Hval _ eq_refl)); [|done].
  cbn. f_equal. change (get_member Reference (set_member Reference wrapped 0) = wrapped).
  by apply get_set_member.
Qed.

Lemma wrapped_result_reference d params field_object native java va o :
  wrapped_result valueOf d params field_object native java va = Some o →
  (∀ p receiver args object, 0 <= native p receiver args object < 2 ^ kPointerBits cur) →
  (∀ object id receiver args, 0 <= java object id receiver args < 2 ^ kPointerBits cur) →
  0 <= o < 2 ^ kPointerBits cur.
Proof.
  intros H Hnative Hjava. unfold wrapped_result in H. destruct (native_arguments _ _ _ _ _) as [[]|]; [|done].
  pose proof (Hnative 0 0 [] 0). repeat case_match; simplify_eq; eauto; lia.
Qed.

(** C40: the entry [BuildDex] registers returns the value [VNativeHookerEntry] leaves in
    the union, for every return type it registers one for; without data, and for
    a callback that returned null, it returns 0. *)
Theorem NativeHookerEntry_returns T d return_type params field_object native java va :
  registered_type return_type = Some T → results_typed return_type →
  (∀ p receiver args object, 0 <= native p receiver args object < 2 ^ kPointerBits cur) →
  (∀ object id receiver args, 0 <= java object id receiver args < 2 ^ kPointerBits cur) →
  NativeHookerEntry T d return_type params field_object native java va =
    VNativeHookerEntry valueOf xxxValue d return_type params field_object native java va.
Proof.
  intros HT Hres Hnative Hjava. unfold NativeHookerEntry, VNativeHookerEntry. destruct d as [d|].
  - destruct (wrapped_result _ _ _ _ _ _ _) as [o|] eqn:E; [|done]. cbn [mbind option_bind].
    rewrite <-(load_store_result T) by eauto using wrapped_result_reference.
    by destruct (store_result _ _ _).
  - f_equal. destruct T as [bits is_signed| | | | | |]; try done; try by apply get_member_0.
    unfold registered_type in HT. destruct (native_entry_type return_type) as [l|]; [|done].
    simplify_eq/=. destruct (member_type l) as [t|] eqn:E; simplify_eq/=.
    by apply (get_member_0 (Int _ _)), (member_type_member l).
Qed.
End entry.

(** A hook of a fast-native method that returns a [short], called with its data. *)
Definition sample_data : NativeHookerData := mkNativeHookerData false true 1 7 8 0x1000 0x200 "SI".

Example NativeHookerEntry_returns_witness :
  NativeHookerEntry kArm64 (λ _ _, -5) (λ _ v, v + 1000) jshort (Some sample_data) "S" ["I"%char] 9
    (λ _ _ _ _, 1) (λ _ _ _ _, 2) [3] = Some (-5).
Proof.
  rewrite (NativeHookerEntry_returns kArm64 (λ _ _, -5) (λ _ v, v + 1000) jshort (Some sample_data)); [done|done| | |].
  - intros t Ht _ _. injection Ht as <-. by vm_compute.
  - by vm_compute.
  - by vm_compute.
Defined.
