(* ===== verification/JniRefs.v ===== *)
(** * Scopes of local references, frames, monitors and strings

    [include/utils/jni_helper.hpp], 25 to 320: [ScopedLocalRef], [JNIScopeFrame],
    [JNIMonitor], [JUTFString] and [JString].  The local references that are
    live are a set; deleting one that is not live, or calling a function of a
    null environment, is undefined. *)

From S2P Require Import Prelude.

(** ** [ScopedLocalRef] *)

(** [DeleteLocalRef]; nothing is done for null. *)
Definition DeleteLocalRef (env ref : Z) (live : gset Z) : option (gset Z) :=
  if env =? 0 then None
  else if ref =? 0 then Some live
  else if bool_decide (ref ∈ live) then Some (live ∖ {[ref]}) else None.

Record Scope := MkScope { env_ : Z; local_ref_ : Z }.

(** [reset]. *)
Definition reset (ptr : Z) (s : Scope) (live : gset Z) : option (Scope * gset Z) :=
  if negb (ptr =? local_ref_ s) then
    live ← if negb (local_ref_ s =? 0) then DeleteLocalRef (env_ s) (local_ref_ s) live else Some live;
    Some (MkScope (env_ s) ptr, live)
  else Some (s, live).

(** The constructors, from a reference and by moving. *)
Definition ScopedLocalRef (env local_ref : Z) (live : gset Z) : option (Scope * gset Z) :=
  reset local_ref (MkScope env 0) live.
Definition release (s : Scope) : Z * Scope := (local_ref_ s, MkScope (env_ s) 0).
Definition move (s : Scope) (live : gset Z) : option (Scope * Scope * gset Z) :=
  let '(ref, s) := release s in
  '(new, live) ← ScopedLocalRef (env_ s) ref live;
  Some (new, s, live).

(** [clone]; [NewLocalRef] answers [fresh], and null for null. *)
Definition clone (fresh : Z) (s : Scope) (live : gset Z) : option (Scope * gset Z) :=
  if env_ s =? 0 then None
  else if local_ref_ s =? 0 then ScopedLocalRef (env_ s) 0 live
  else ScopedLocalRef (env_ s) fresh ({[fresh]} ∪ live).

(** [operator=] of two scopes, and of a scope and itself. *)
Definition assign (this s : Scope) (live : gset Z) : option (Scope * Scope * gset Z) :=
  let '(ref, s) := release s in
  '(this, live) ← reset ref this live;
  Some (MkScope (env_ s) (local_ref_ this), s, live).
Definition assign_self (this : Scope) (live : gset Z) : option (Scope * gset Z) :=
  let '(ref, this) := release this in reset ref this live.

(** The destructor. *)
Definition destroy (s : Scope) (live : gset Z) : option (gset Z) :=
  '(_, live) ← reset 0 s live; Some live.

(** ** Programs of scopes *)

(** Scopes by name, the references the program holds itself, and all that are live. *)
Record Refs := MkRefs { scopes : gmap nat Scope; raw : gset Z; live : gset Z }.

Inductive Op : Type :=
  | NewRef (r : Z)             (* JNI returns a new reference *)
  | DeleteRef (r : Z)
  | Construct (x : nat) (r : Z)
  | Reset (x : nat) (r : Z)
  | Release (x : nat)
  | Move (x y : nat)           (* [x] is constructed from [y] *)
  | Clone (x y : nat) (r : Z)
  | Assign (x y : nat)         (* [x = std::move(y)] *)
  | Destroy (x : nat).

(** What an operation does, with the environment [env]; [None] where it is
    undefined or a scope is missing. *)
Definition run_op (env : Z) (o : Op) (s : Refs) : option Refs :=
  match o with
  | NewRef r => Some (MkRefs (scopes s) ({[r]} ∪ raw s) ({[r]} ∪ live s))
  | DeleteRef r =>
      live' ← DeleteLocalRef env r (live s);
      Some (MkRefs (scopes s) (raw s ∖ {[r]}) live')
  | Construct x r =>
      '(sc, live') ← ScopedLocalRef env r (live s);
      Some (MkRefs (<[x := sc]> (scopes s)) (raw s ∖ {[r]}) live')
  | Reset x r =>
      sc ← scopes s !! x;
      '(sc, live') ← reset r sc (live s);
      Some (MkRefs (<[x := sc]> (scopes s)) (raw s ∖ {[r]}) live')
  | Release x =>
      sc ← scopes s !! x;
      let '(ref, sc) := release sc in
      Some (MkRefs (<[x := sc]> (scopes s)) (if ref =? 0 then raw s else {[ref]} ∪ raw s) (live s))
  | Move x y =>
      sc ← scopes s !! y;
      '(new, sc, live') ← move sc (live s);
      Some (MkRefs (<[x := new]> (<[y := sc]> (scopes s))) (raw s) live')
  | Clone x y r =>
      sc ← scopes s !! y;
      '(new, live') ← clone r sc (live s);
      Some (MkRefs (<[x := new]> (scopes s)) (raw s) live')
  | Assign x y =>
      this ← scopes s !! x;
      if bool_decide (x = y) then
        '(this, live') ← assign_self this (live s);
        Some (MkRefs (<[x := this]> (scopes s)) (raw s) live')
      else
        sc ← scopes s !! y;
        '(this, sc, live') ← assign this sc (live s);
        Some (MkRefs (<[x := this]> (<[y := sc]> (scopes s))) (raw s) live')
  | Destroy x =>
      sc ← scopes s !! x;
      live' ← destroy sc (live s);
      Some (MkRefs (delete x (scopes s)) (raw s) live')
  end.

(** What the language and the contract of the class allow: scopes that exist or
    do not yet, references the caller owns, and new references that are new. *)
Definition allowed (o : Op) (s : Refs) : Prop :=
  match o with
  | NewRef r => r ≠ 0 ∧ r ∉ live s
  | DeleteRef r => r = 0 ∨ r ∈ raw s
  | Construct x r => scopes s !! x = None ∧ (r = 0 ∨ r ∈ raw s)
  | Reset x r => ∃ sc, scopes s !! x = Some sc ∧ (r = 0 ∨ r ∈ raw s ∨ r = local_ref_ sc)
  | Release x => is_Some (scopes s !! x)
  | Move x y => scopes s !! x = None ∧ is_Some (scopes s !! y)
  | Clone x y r => scopes s !! x = None ∧ is_Some (scopes s !! y) ∧ r ≠ 0 ∧ r ∉ live s
  | Assign x y => is_Some (scopes s !! x) ∧ is_Some (scopes s !! y)
  | Destroy x => is_Some (scopes s !! x)
  end.

Definition refs_step (env : Z) (s s' : Refs) : Prop :=
  ∃ o, allowed o s ∧ run_op env o s = Some s'.

Definition no_refs : Refs := MkRefs ∅ ∅ ∅.

(** ** The invariant *)

(** Every live reference belongs to the program or to one scope. *)
Record refs_ok (env : Z) (s : Refs) : Prop := {
  ok_null : 0 ∉ live s;
  ok_env x sc : scopes s !! x = Some sc → env_ sc = env;
  ok_raw r : r ∈ raw s → r ≠ 0 ∧ r ∈ live s;
  ok_scope x sc : scopes s !! x = Some sc → local_ref_ sc ≠ 0 → local_ref_ sc ∈ live s ∧ local_ref_ sc ∉ raw s;
  ok_one x y sc sc' : scopes s !! x = Some sc → scopes s !! y = Some sc' → local_ref_ sc ≠ 0 →
    local_ref_ sc = local_ref_ sc' → x = y;
  ok_live r : r ∈ live s → r ∈ raw s ∨ ∃ x sc, scopes s !! x = Some sc ∧ local_ref_ sc = r
}.

Section scopes_ok.
Context (env : Z) (Henv : env ≠ 0).
Implicit Types (s : Refs) (sc : Scope).
Notation ok := (refs_ok env).

Lemma no_refs_ok : ok no_refs.
Proof. split; simpl; try set_solver; intros x sc; by rewrite lookup_empty. Qed.

(** The elementary moves of a reference: a new one, one the program deletes, one
    a scope takes over, one a scope gives up, and the end of an empty scope. *)
Lemma new_raw_ok s r :
  ok s → r ≠ 0 → r ∉ live s → ok (MkRefs (scopes s) ({[r]} ∪ raw s) ({[r]} ∪ live s)).
Proof.
  intros [Hz He Hr Hs Ho Hl] H0 Hn. split; simpl; try done; [set_solver|..].
  - intros k [->%elem_of_singleton|Hk]%elem_of_union; [set_solver|]. destruct (Hr k Hk). set_solver.
  - intros x sc Hx Hsc. destruct (Hs x sc Hx Hsc) as [H1 H2].
    assert (local_ref_ sc ≠ r) by (intros E; by rewrite E in H1). set_solver.
  - intros k [->%elem_of_singleton|Hk]%elem_of_union; [set_solver|]. destruct (Hl k Hk); [set_solver|by right].
Qed.

Lemma delete_raw_ok s r : ok s → r ∈ raw s → ok (MkRefs (scopes s) (raw s ∖ {[r]}) (live s ∖ {[r]})).
Proof.
  intros [Hz He Hr Hs Ho Hl] Hin. split; simpl; try done; [set_solver|..].
  - intros k [Hk Hkr]%elem_of_difference. destruct (Hr k Hk). set_solver.
  - intros x sc Hx Hsc. destruct (Hs x sc Hx Hsc) as [H1 H2].
    assert (local_ref_ sc ≠ r) by (intros E; by rewrite E in H2). set_solver.
  - intros k [Hk Hkr]%elem_of_difference. destruct (Hl k Hk); [set_solver|by right].
Qed.

Lemma take_ok s x sc :
  ok s → scopes s !! x = Some sc →
  ok (MkRefs (<[x := MkScope env 0]> (scopes s))
        (if local_ref_ sc =? 0 then raw s else {[local_ref_ sc]} ∪ raw s) (live s)).
Proof.
  intros [Hz He Hr Hs Ho Hl] Hx. split; simpl; [done|..].
  - intros y sc' [[<- <-]|[Hne Hy]]%lookup_insert_Some; [done|by eapply He].
  - intros r. destruct (Z.eqb_spec (local_ref_ sc) 0); [apply Hr|].
    intros [->%elem_of_singleton|Hk]%elem_of_union; [|by apply Hr]. by destruct (Hs x sc Hx).
  - intros y sc' [[<- <-]|[Hne Hy]]%lookup_insert_Some Hsc; [done|]. destruct (Hs y sc' Hy Hsc). split; [done|].
    destruct (Z.eqb_spec (local_ref_ sc) 0); [done|].
    assert (local_ref_ sc' ≠ local_ref_ sc) by (intros E; apply Hne; by eapply Ho, eq_sym). set_solver.
  - intros y z sc1 sc2 [[<- <-]|[Hy Hy']]%lookup_insert_Some [[<- <-]|[Hz1 Hz2]]%lookup_insert_Some Hsc E; try done.
    by eapply Ho.
  - intros r Hrl. destruct (Hl r Hrl) as [H|(y & sc' & Hy & E)].
    + left. destruct (_ =? 0); set_solver.
    + destruct (decide (y = x)) as [->|].
      * left. assert (sc' = sc) as -> by congruence. subst r. destruct (Z.eqb_spec (local_ref_ sc) 0); [|set_solver].
        congruence.
      * right. exists y, sc'. by rewrite lookup_insert_ne.
Qed.

Lemma scope_takes_ok s x sc r :
  ok s → scopes s !! x = Some sc → local_ref_ sc = 0 → r = 0 ∨ r ∈ raw s →
  ok (MkRefs (<[x := MkScope env r]> (scopes s)) (raw s ∖ {[r]}) (live s)).
Proof.
  intros [Hz He Hr Hs Ho Hl] Hx Hsc Hin. split; simpl; [done|..].
  - intros y sc' [[<- <-]|[Hne Hy]]%lookup_insert_Some; [done|by eapply He].
  - intros k [Hk _]%elem_of_difference. by apply Hr.
  - intros y sc' [[<- <-]|[Hne Hy]]%lookup_insert_Some H0.
    + simpl in *. destruct Hin as [?|Hin]; [done|]. destruct (Hr r Hin). set_solver.
    + destruct (Hs y sc' Hy H0). set_solver.
  - intros y z sc1 sc2 [[<- <-]|[Hy Hy']]%lookup_insert_Some [[<- <-]|[Hz1 Hz2]]%lookup_insert_Some H0 E; simpl in *; try done.
    + destruct Hin as [?|Hin]; [done|]. destruct (Hs z sc2 Hz2); [by rewrite <-E|]. congruence.
    + destruct Hin as [?|Hin]; [congruence|]. destruct (Hs y sc1 Hy' H0). congruence.
    + by eapply Ho.
  - intros k Hk. destruct (decide (k = r)) as [->|Hne].
    + right. exists x, (MkScope env r). by rewrite lookup_insert_eq.
    + destruct (Hl k Hk) as [H|(y & sc' & Hy & E)]; [left; set_solver|right]. exists y, sc'.
      rewrite lookup_insert_ne; [done|]. intros ->. congruence.
Qed.

(** A scope that holds nothing comes and goes. *)
Lemma empty_scope_ok s x : ok s → scopes s !! x = None → ok (MkRefs (<[x := MkScope env 0]> (scopes s)) (raw s) (live s)).
Proof.
  intros [Hz He Hr Hs Ho Hl] Hx. split; simpl; [done|..].
  - intros y sc' [[<- <-]|[Hne Hy]]%lookup_insert_Some; [done|by eapply He].
  - done.
  - intros y sc' [[<- <-]|[Hne Hy]]%lookup_insert_Some H0; [done|]. by apply (Hs y).
  - intros y z sc1 sc2 [[<- <-]|[Hy Hy']]%lookup_insert_Some [[<- <-]|[Hz1 Hz2]]%lookup_insert_Some H0 E; simpl in *; try done.
    by eapply Ho.
  - intros k Hk. destruct (Hl k Hk) as [H|(y & sc' & Hy & E)]; [by left|right]. exists y, sc'.
    rewrite lookup_insert_ne; [done|]. intros ->. congruence.
Qed.

Lemma drop_ok s x sc :
  ok s → scopes s !! x = Some sc → local_ref_ sc = 0 → ok (MkRefs (delete x (scopes s)) (raw s) (live s)).
Proof.
  intros [Hz He Hr Hs Ho Hl] Hx H0. split; simpl; [done|..].
  - intros y sc' [_ Hy]%lookup_delete_Some. by eapply He.
  - done.
  - intros y sc' [_ Hy]%lookup_delete_Some. by apply (Hs y).
  - intros y z sc1 sc2 [_ Hy]%lookup_delete_Some [_ Hz1]%lookup_delete_Some. by apply Ho.
  - intros k Hk. destruct (Hl k Hk) as [H|(y & sc' & Hy & E)]; [by left|right]. exists y, sc'.
    rewrite lookup_delete_ne; [done|]. intros ->. congruence.
Qed.

(** ** Operations on scopes *)

(** A scope that drops what it holds. *)
Lemma cleared_ok s x sc :
  ok s → scopes s !! x = Some sc →
  ok (MkRefs (<[x := MkScope env 0]> (scopes s)) (raw s) (live s ∖ {[local_ref_ sc]})).
Proof.
  intros Hok Hx. pose proof (take_ok s x sc Hok Hx) as Ht. destruct Hok as [Hz He Hr Hs Ho Hl].
  destruct (Z.eqb_spec (local_ref_ sc) 0) as [E|E].
  - rewrite E. replace (live s ∖ {[0]}) with (live s) by set_solver. done.
  - destruct (Hs x sc Hx E) as [H1 H2].
    apply (delete_raw_ok _ (local_ref_ sc)) in Ht; simpl in *; [|set_solver].
    replace (({[local_ref_ sc]} ∪ raw s) ∖ {[local_ref_ sc]}) with (raw s) in Ht by set_solver. done.
Qed.

Lemma DeleteLocalRef_held s x sc :
  ok s → scopes s !! x = Some sc →
  (if negb (local_ref_ sc =? 0) then DeleteLocalRef (env_ sc) (local_ref_ sc) (live s) else Some (live s)) =
  Some (live s ∖ {[local_ref_ sc]}).
Proof.
  intros [Hz He Hr Hs Ho Hl] Hx. destruct (Z.eqb_spec (local_ref_ sc) 0) as [E|E]; cbn [negb].
  - rewrite E. f_equal. set_solver.
  - unfold DeleteLocalRef. rewrite (He x sc Hx), (proj2 (Z.eqb_neq env 0)), (proj2 (Z.eqb_neq _ 0)) by done.
    by rewrite bool_decide_eq_true_2 by (by apply (Hs x sc)).
Qed.

Lemma reset_spec s x sc r :
  ok s → scopes s !! x = Some sc → r = 0 ∨ r ∈ raw s ∨ r = local_ref_ sc →
  ∃ live', reset r sc (live s) = Some (MkScope env r, live') ∧
    ok (MkRefs (<[x := MkScope env r]> (scopes s)) (raw s ∖ {[r]}) live').
Proof.
  intros Hok Hx Hr. unfold reset. pose proof Hok as [Hz He Hraw Hs _ _].
  destruct (Z.eqb_spec r (local_ref_ sc)) as [->|Hne]; cbn [negb].
  - exists (live s). destruct sc as [e l]. pose proof (He x _ Hx) as E. simpl in *. subst e. split; [done|].
    rewrite insert_id by done. replace (raw s ∖ {[l]}) with (raw s); [by destruct s|].
    destruct (decide (l = 0)) as [->|Hl]; [|pose proof (proj2 (Hs x _ Hx Hl)); simpl in *; set_solver].
    apply leibniz_equiv. assert (0 ∉ raw s) by (intros H; by destruct (Hraw 0 H)). set_solver.
  - rewrite (DeleteLocalRef_held s x sc Hok Hx). simpl. rewrite (He x sc Hx).
    eexists. split; [done|].
    pose proof (cleared_ok s x sc Hok Hx) as Hc.
    apply (scope_takes_ok _ x (MkScope env 0) r) in Hc; simpl in *; [|by rewrite lookup_insert_eq|done|destruct Hr as [|[|]]; [by left|by right|done]].
    by rewrite insert_insert_eq in Hc.
Qed.

(** What a scope gave up is taken over again. *)
Lemma retaken s x sc :
  ok s → scopes s !! x = Some sc →
  (if local_ref_ sc =? 0 then raw s else {[local_ref_ sc]} ∪ raw s) ∖ {[local_ref_ sc]} = raw s.
Proof.
  intros [Hz He Hraw Hs Ho Hl] Hx. destruct (Z.eqb_spec (local_ref_ sc) 0) as [E|E].
  - rewrite E. assert (0 ∉ raw s) by (intros H; by destruct (Hraw 0 H)). set_solver.
  - destruct (Hs x sc Hx E). set_solver.
Qed.

Lemma given_up r (X : gset Z) : r = 0 ∨ r ∈ (if r =? 0 then X else {[r]} ∪ X).
Proof. destruct (Z.eqb_spec r 0); [by left|right; set_solver]. Qed.

Lemma assign_ok s x y this sc :
  ok s → scopes s !! x = Some this → scopes s !! y = Some sc →
  ∃ s', run_op env (Assign x y) s = Some s' ∧ ok s'.
Proof.
  intros Hok Hx Hy. pose proof Hok as [Hz He Hraw Hs Ho Hl]. simpl. rewrite Hx. simpl. destruct (decide (x = y)) as [->|Hxy].
  - rewrite bool_decide_eq_true_2 by done. unfold assign_self. simpl. rewrite (He y this Hx).
    pose proof (take_ok s y this Hok Hx) as Ht.
    destruct (reset_spec _ y (MkScope env 0) (local_ref_ this) Ht) as (l & E & H); simpl in *;
      [by rewrite lookup_insert_eq|destruct (given_up (local_ref_ this) (raw s)); tauto|].
    rewrite E. simpl. eexists. split; [done|]. rewrite insert_insert_eq, (retaken s y this Hok Hx) in H. done.
  - rewrite bool_decide_eq_false_2 by done. rewrite Hy. simpl. unfold assign. simpl.
    rewrite (He y sc Hy). pose proof (take_ok s y sc Hok Hy) as Ht.
    destruct (reset_spec _ x this (local_ref_ sc) Ht) as (l & E & H); simpl in *;
      [by rewrite lookup_insert_ne|destruct (given_up (local_ref_ sc) (raw s)); tauto|].
    rewrite E. simpl. eexists. split; [done|]. rewrite (retaken s y sc Hok Hy) in H. done.
Qed.

(** Every allowed operation is defined and keeps the invariant. *)
Lemma run_op_ok o s : ok s → allowed o s → ∃ s', run_op env o s = Some s' ∧ ok s'.
Proof.
  intros Hok Ha. pose proof Hok as [Hz He Hraw Hs Ho Hl]. destruct o; simpl in *.
  - eexists. split; [done|]. destruct Ha. by apply new_raw_ok.
  - destruct Ha as [->|Hr].
    + unfold DeleteLocalRef. rewrite (proj2 (Z.eqb_neq env 0)) by done. simpl. eexists. split; [done|].
      replace (raw s ∖ {[0]}) with (raw s); [by destruct s|].
      assert (0 ∉ raw s) by (intros H; by destruct (Hraw 0 H)). set_solver.
    + destruct (Hraw r Hr). unfold DeleteLocalRef.
      rewrite (proj2 (Z.eqb_neq env 0)), (proj2 (Z.eqb_neq r 0)), bool_decide_eq_true_2 by done. simpl.
      eexists. split; [done|]. by apply delete_raw_ok.
  - destruct Ha as [Hx Hr].
    pose proof (empty_scope_ok s x Hok Hx) as He'.
    destruct (reset_spec _ x (MkScope env 0) r He') as (l & E & H); simpl; [by rewrite lookup_insert_eq|tauto|].
    simpl in E. unfold ScopedLocalRef. rewrite E. simpl. eexists. split; [done|].
    simpl in H. by rewrite insert_insert_eq in H.
  - destruct Ha as (sc & Hx & Hr). rewrite Hx. simpl.
    destruct (reset_spec s x sc r Hok Hx Hr) as (l & E & H). rewrite E. simpl. by eexists.
  - destruct Ha as [sc Hx]. rewrite Hx. simpl. eexists. split; [done|]. rewrite (He x sc Hx). by apply take_ok.
  - destruct Ha as [Hx [sc Hy]]. rewrite Hy. unfold move, ScopedLocalRef. simpl. rewrite (He y sc Hy).
    assert (x ≠ y) as Hxy by congruence.
    pose proof (take_ok s y sc Hok Hy) as Ht. apply (empty_scope_ok _ x) in Ht; simpl in *; [|by rewrite lookup_insert_ne].
    destruct (reset_spec _ x (MkScope env 0) (local_ref_ sc) Ht) as (l & E & H); simpl in *;
      [by rewrite lookup_insert_eq|destruct (given_up (local_ref_ sc) (raw s)); tauto|].
    rewrite E. simpl. eexists. split; [done|]. rewrite insert_insert_eq, (retaken s y sc Hok Hy) in H. done.
  - destruct Ha as (Hx & [sc Hy] & Hr & Hnew). rewrite Hy. unfold clone, ScopedLocalRef. simpl.
    rewrite (He y sc Hy), (proj2 (Z.eqb_neq env 0)) by done. destruct (Z.eqb_spec (local_ref_ sc) 0) as [E0|E0].
    + eexists. split; [done|]. by apply empty_scope_ok.
    + pose proof (new_raw_ok s r Hok Hr Hnew) as Hn. apply (empty_scope_ok _ x) in Hn; [|done].
      destruct (reset_spec _ x (MkScope env 0) r Hn) as (l & E & H); simpl in *; [by rewrite lookup_insert_eq|set_solver|].
      rewrite E. simpl. eexists. split; [done|]. rewrite insert_insert_eq in H.
      replace (({[r]} ∪ raw s) ∖ {[r]}) with (raw s) in H; [done|].
      assert (r ∉ raw s) by (intros Hin; by destruct (Hraw r Hin)). set_solver.
  - destruct Ha as [[this Hx] [sc Hy]]. by apply (assign_ok s x y this sc).
  - destruct Ha as [sc Hx]. rewrite Hx. simpl. unfold destroy.
    destruct (reset_spec s x sc 0 Hok Hx) as (l & E & H); [by left|]. rewrite E. simpl. eexists. split; [done|].
    apply (drop_ok _ x (MkScope env 0)) in H; simpl in *; [|by rewrite lookup_insert_eq|done].
    rewrite delete_insert_eq in H. replace (raw s ∖ {[0]}) with (raw s) in H; [done|].
    assert (0 ∉ raw s) by (intros H'; by destruct (Hraw 0 H')). set_solver.
Qed.

Lemma reachable_refs_ok s : rtc (refs_step env) no_refs s → ok s.
Proof.
  intros H. revert H. apply (rtc_invariant _ ok); [|exact no_refs_ok]. intros a b Hok (o & Ha & Hr).
  destruct (run_op_ok o a Hok Ha) as (s' & E & Hok'). congruence.
Qed.
End scopes_ok.

(** C29: however scopes are constructed, moved, assigned, reset, released, cloned and
    destroyed: no operation deletes a reference that is not live, or uses a null
    environment; every live reference belongs either to the program or to one
    scope; and when the scopes are gone only the references the program holds
    itself are live. *)
Theorem scoped_refs_balanced env s :
  env ≠ 0 → rtc (refs_step env) no_refs s →
  (∀ o, allowed o s → is_Some (run_op env o s)) ∧
  (∀ r, r ∈ live s → (r ∈ raw s ∧ ∀ x sc, scopes s !! x = Some sc → local_ref_ sc ≠ r) ∨
     (r ∉ raw s ∧ ∃ x sc, scopes s !! x = Some sc ∧ local_ref_ sc = r ∧
        ∀ y sc', scopes s !! y = Some sc' → local_ref_ sc' = r → y = x)) ∧
  (scopes s = ∅ → live s = raw s).
Proof.
  intros Henv Hs. pose proof (reachable_refs_ok env Henv s Hs) as Hok. split_and!.
  - intros o Ho. destruct (run_op_ok env Henv o s Hok Ho) as (s' & E & _). by rewrite E.
  - intros r Hr. destruct Hok as [Hz He Hraw Hsc Ho Hl].
    assert (r ≠ 0) as H0 by congruence.
    destruct (Hl r Hr) as [H|(x & sc & Hx & <-)]; [left|right].
    + split; [done|]. intros x sc Hx <-. by destruct (Hsc x sc Hx H0).
    + split; [by apply (Hsc x sc)|]. exists x, sc. split_and!; [done..|]. intros y sc' Hy E. symmetry.
      by eapply Ho.
  - intros E. destruct Hok as [Hz He Hraw Hsc Ho Hl]. apply leibniz_equiv. intros r. split.
    + intros Hr. destruct (Hl r Hr) as [|(x & sc & Hx & _)]; [done|]. by rewrite E, lookup_empty in Hx.
    + intros Hr. by apply Hraw.
Qed.

(** Two references, one moved from scope to scope and one cloned. *)
Definition sample_refs : Refs :=
  default no_refs (foldl (λ s o, s ← s; run_op 1 o s) (Some no_refs)
    [NewRef 5; Construct 0 5; Move 1 0; Clone 2 1 6; Assign 1 2; NewRef 7]).

Lemma sample_refs_reachable : rtc (refs_step 1) no_refs sample_refs.
Proof.
  assert (∀ o s s', allowed o s → run_op 1 o s = Some s' → rtc (refs_step 1) s' sample_refs →
    rtc (refs_step 1) s sample_refs) as step by (intros o s s' Ha Hr H; eapply rtc_l; [by exists o|done]).
  eapply (step (NewRef 5)); [by vm_compute|reflexivity|].
  eapply (step (Construct 0 5)); [split; [reflexivity|right; by vm_compute]|reflexivity|].
  eapply (step (Move 1 0)); [split; [reflexivity|by eexists]|reflexivity|].
  eapply (step (Clone 2 1 6)); [split_and!; [reflexivity|by eexists|done|by vm_compute]|reflexivity|].
  eapply (step (Assign 1 2)); [split; by eexists|reflexivity|].
  eapply (step (NewRef 7)); [split; [done|by vm_compute]|reflexivity|].
  apply rtc_refl.
Qed.

Example scoped_refs_balanced_witness : is_Some (run_op 1 (Destroy 1) sample_refs) ∧ live sample_refs = {[6; 7]}.
Proof.
  split; [|by vm_compute].
  apply (scoped_refs_balanced 1 sample_refs ltac:(done) sample_refs_reachable). by eexists.
Defined.


(** ** [JNIScopeFrame] *)

(** The frames of local references, the current one first.  [PushLocalFrame] may
    fail; [PopLocalFrame] frees the current frame and answers [fresh] for an
    object that is kept. *)
Definition PushLocalFrame (pushed : bool) (frames : list (gset Z)) : list (gset Z) :=
  if pushed then ∅ :: frames else frames.

Definition PopLocalFrame (obj fresh : Z) (frames : list (gset Z)) : option (Z * list (gset Z)) :=
  match frames with
  | _ :: frame :: frames =>
      Some (if obj =? 0 then (0, frame :: frames) else (fresh, ({[fresh]} ∪ frame) :: frames))
  | _ => None
  end.

(** The class is the environment, null after [pop]. *)
Definition JNIScopeFrame (env : Z) (pushed : bool) (frames : list (gset Z)) : Z * list (gset Z) :=
  (env, PushLocalFrame pushed frames).

Definition pop (obj fresh : Z) (frame : Z) (frames : list (gset Z)) : option (Z * Z * list (gset Z)) :=
  if negb (frame =? 0) then
    '(result, frames) ← PopLocalFrame obj fresh frames;
    Some (result, 0, frames)
  else Some (0, frame, frames).

Definition JNIScopeFrame_destroy (frame : Z) (frames : list (gset Z)) : option (list (gset Z)) :=
  if negb (frame =? 0) then '(_, frames) ← PopLocalFrame 0 0 frames; Some frames else Some frames.

(** A function that opens a frame, makes the references [body], and pops; the
    frame is destroyed at the end. *)
Fixpoint pops (l : list (Z * Z)) (frame : Z) (frames : list (gset Z)) : option (list Z * Z * list (gset Z)) :=
  match l with
  | [] => Some ([], frame, frames)
  | (obj, fresh) :: l =>
      '(result, frame, frames) ← pop obj fresh frame frames;
      '(results, frame, frames) ← pops l frame frames;
      Some (result :: results, frame, frames)
  end.

Definition with_frame (env : Z) (pushed : bool) (body : gset Z) (l : list (Z * Z)) (frames : list (gset Z)) :
    option (list Z * list (gset Z)) :=
  let '(frame, frames) := JNIScopeFrame env pushed frames in
  let frames := match frames with [] => [] | f :: frames => (body ∪ f) :: frames end in
  '(results, frame, frames) ← pops l frame frames;
  frames ← JNIScopeFrame_destroy frame frames;
  Some (results, frames).

(** ** [JNIMonitor] *)

(** How often each object is locked by the thread. *)
Definition MonitorEnter (obj : Z) (m : gmap Z Z) : gmap Z Z := <[obj := default 0 (m !! obj) + 1]> m.
Definition MonitorExit (obj : Z) (m : gmap Z Z) : gmap Z Z := <[obj := default 0 (m !! obj) - 1]> m.

Definition JNIMonitor (obj : Z) (m : gmap Z Z) : Z * gmap Z Z := (obj, MonitorEnter obj m).
Definition JNIMonitor_destroy (monitor : Z) (m : gmap Z Z) : gmap Z Z := MonitorExit monitor m.

(** ** [JUTFString] and [JString] *)

(** The characters JNI has handed out, and the calls that released some: the
    string and the pointer of each. *)
Record Pins := MkPins { pinned : gset Z; releases : list (Z * Z) }.

Definition GetChars (buf : Z) (p : Pins) : Pins := MkPins ({[buf]} ∪ pinned p) (releases p).
Definition ReleaseChars (jstr data : Z) (p : Pins) : Pins :=
  MkPins (pinned p ∖ {[data]}) (releases p ++ [(jstr, data)]).

(** [size_] is only used by [JString]. *)
Record JBasicString := MkString { string_env : Z; jstr_ : Z; data_ : Z; string_size : Z }.

Definition string_bool (s : JBasicString) : bool := negb (data_ s =? 0).

(** The constructors: JNI answers [buf]; [default_str] is a pointer and a size. *)
Definition JUTFString (env jstr : Z) (default_str : option (Z * Z)) (buf : Z) (p : Pins) : JBasicString * Pins :=
  if negb (env =? 0) && negb (jstr =? 0) then (MkString env jstr buf 0, GetChars buf p)
  else (MkString env jstr (match default_str with Some (d, _) => d | None => 0 end) 0, p).

Definition JString (env jstr : Z) (default_str : option (Z * Z)) (buf len : Z) (p : Pins) : JBasicString * Pins :=
  if negb (env =? 0) && negb (jstr =? 0) then (MkString env jstr buf len, GetChars buf p)
  else (match default_str with Some (d, n) => MkString env jstr d n | None => MkString env jstr 0 0 end, p).

(** The destructor of both. *)
Definition string_destroy (s : JBasicString) (p : Pins) : Pins :=
  if negb (string_env s =? 0) && negb (jstr_ s =? 0) then ReleaseChars (jstr_ s) (data_ s) p else p.

(** Moving out: [std::move] of the environment and of the string copies them. *)
Definition moved_from (s : JBasicString) : JBasicString := MkString (string_env s) (jstr_ s) 0 0.
Definition string_move (other : JBasicString) : JBasicString * JBasicString := (other, moved_from other).
Definition string_assign (this other : JBasicString) : JBasicString * JBasicString := (other, moved_from other).

(** ** Frames, monitors and strings are balanced *)

(** After the first [pop] the others do nothing. *)
Lemma pops_done l frames : pops l 0 frames = Some (map (λ _, 0) l, 0, frames).
Proof. induction l as [|[obj fresh] l IH]; simpl; [done|]. by rewrite IH. Qed.

(** A function with a [JNIScopeFrame] leaves the frames it was called with,
    with one more reference for the object its first [pop] kept; what it made
    inside is freed and further calls of [pop] return null.  When JNI could not
    push a frame, the constructor does not notice, and the frame of the caller
    is popped instead, with everything in it. *)
Theorem scope_frame env body l frame caller frames :
  env ≠ 0 →
  with_frame env true body l (frame :: frames) =
    Some (match l with
          | [] => ([], frame :: frames)
          | (obj, fresh) :: l =>
              if obj =? 0 then (0 :: map (λ _, 0) l, frame :: frames)
              else (fresh :: map (λ _, 0) l, ({[fresh]} ∪ frame) :: frames)
          end) ∧
  ∃ results kept, with_frame env false body l (frame :: caller :: frames) = Some (results, (kept ∪ caller) :: frames) ∧
    kept ⊆ list_to_set (map snd l).
Proof.
  intros Henv. unfold with_frame, JNIScopeFrame, PushLocalFrame. split.
  - destruct l as [|[obj fresh] l]; simpl.
    + unfold JNIScopeFrame_destroy. by rewrite (proj2 (Z.eqb_neq env 0)).
    + unfold pop. rewrite (proj2 (Z.eqb_neq env 0)) by done. simpl. destruct (obj =? 0); simpl; by rewrite pops_done.
  - destruct l as [|[obj fresh] l]; simpl.
    + unfold JNIScopeFrame_destroy. rewrite (proj2 (Z.eqb_neq env 0)) by done. simpl.
      exists [], ∅. rewrite union_empty_l_L. by split; [|set_solver].
    + unfold pop. rewrite (proj2 (Z.eqb_neq env 0)) by done. simpl. destruct (obj =? 0); simpl; rewrite pops_done; simpl.
      * eexists _, ∅. rewrite union_empty_l_L. by split; [|set_solver].
      * eexists _, {[fresh]}. split; [done|set_solver].
Qed.

Example scope_frame_witness :
  with_frame 1 true {[8; 9]} [(8, 20)] [{[5]}; ∅] = Some ([20], [{[20; 5]}; ∅]) ∧
  ∃ results kept, with_frame 1 false {[8; 9]} [(8, 20)] [{[5]}; {[3]}] = Some (results, [kept ∪ {[3]}]).
Proof.
  destruct (scope_frame 1 {[8; 9]} [(8, 20)] {[5]} ∅ [∅] ltac:(done)) as [H1 _].
  destruct (scope_frame 1 {[8; 9]} [(8, 20)] {[5]} {[3]} [] ltac:(done)) as [_ (r & k & H2 & _)].
  split; [exact H1|by exists r, k].
Defined.

Lemma monitor_balanced obj m k :
  let '(monitor, m1) := JNIMonitor obj m in
  default 0 (m1 !! obj) = default 0 (m !! obj) + 1 ∧
  default 0 (JNIMonitor_destroy monitor m1 !! k) = default 0 (m !! k).
Proof.
  simpl. unfold JNIMonitor_destroy, MonitorEnter, MonitorExit. rewrite lookup_insert_eq. split; [done|].
  rewrite insert_insert_eq. destruct (decide (k = obj)) as [->|].
  - rewrite lookup_insert_eq. simpl. lia.
  - by rewrite lookup_insert_ne.
Qed.

(** A string that is not moved releases what it was given, once. *)
Lemma string_released env jstr d buf p :
  buf ∉ pinned p →
  let '(s, p1) := JUTFString env jstr d buf p in
  pinned (string_destroy s p1) = pinned p ∧
  releases (string_destroy s p1) = releases p ++ (if (env =? 0) || (jstr =? 0) then [] else [(jstr, buf)]).
Proof.
  intros Hb. unfold JUTFString, string_destroy.
  destruct (Z.eqb_spec env 0), (Z.eqb_spec jstr 0); subst; simpl; rewrite ?app_nil_r; try done;
    repeat match goal with H : ?x ≠ 0 |- _ => rewrite (proj2 (Z.eqb_neq x 0)) by done; clear H end; simpl;
    rewrite ?andb_false_r, ?app_nil_r; try done.
  split; [|done]. set_solver.
Qed.

(** Moving a string leaves the environment and the Java string in the source:
    when both are destroyed JNI is asked to release the characters and then a
    null pointer of the same string; and a string that is assigned to never
    releases the characters it had. *)
Theorem moved_strings env a b buf_a buf_b :
  env ≠ 0 → a ≠ 0 → b ≠ 0 → buf_a ≠ buf_b →
  let '(sa, p1) := JUTFString env a None buf_a (MkPins ∅ []) in
  (let '(new, old) := string_move sa in
   let p := string_destroy old (string_destroy new p1) in
   pinned p = ∅ ∧ releases p = [(a, buf_a); (a, 0)]) ∧
  (let '(sb, p2) := JUTFString env b None buf_b p1 in
   let '(this, other) := string_assign sb sa in
   let p := string_destroy other (string_destroy this p2) in
   buf_b ≠ 0 → pinned p = {[buf_b]} ∧ releases p = [(a, buf_a); (a, 0)]).
Proof.
  intros He Ha Hb Hne. unfold JUTFString, string_move, string_assign, string_destroy, moved_from, GetChars, ReleaseChars.
  rewrite (proj2 (Z.eqb_neq env 0)), (proj2 (Z.eqb_neq a 0)), (proj2 (Z.eqb_neq b 0)) by done. simpl.
  rewrite (proj2 (Z.eqb_neq env 0)), (proj2 (Z.eqb_neq a 0)) by done. simpl.
  split; [split; [set_solver|done]|]. intros H0. split; [set_solver|done].
Qed.

Example moved_strings_witness :
  let '(sa, p1) := JUTFString 1 10 None 100 (MkPins ∅ []) in
  let '(sb, p2) := JUTFString 1 20 None 200 p1 in
  let '(this, other) := string_assign sb sa in
  pinned (string_destroy other (string_destroy this p2)) = {[200]}.
Proof. apply (moved_strings 1 10 20 100 200 ltac:(done) ltac:(done) ltac:(done) ltac:(done)). done. Defined.
