(* ===== verification/JniArrays.v ===== *)
(** * Scopes of primitive Java arrays

    [include/utils/jni_helper.hpp], 1240 to 1420: the [ScopedLocalRef] of a
    primitive array and its elements.  The Java heap is a record; JNI hands out
    the elements as a copy or as a pointer into the array.  The environment is
    not null. *)

From S2P Require Import Prelude.

(** ** Primitive arrays *)

(** The live local references and the arrays they refer to, the contents of the
    arrays, and the elements handed out: the array, and the copy if it is one. *)
Record Heap := MkHeap {
  refs : gmap Z Z;
  contents : gmap Z (list Z);
  buffers : gmap Z (Z * option (list Z))
}.

Definition contents_of (a : Z) (h : Heap) : list Z := default [] (contents h !! a).

Inductive Mode : Type := ModeZero | JNI_COMMIT | JNI_ABORT.

Definition DeleteLocalRef (ref : Z) (h : Heap) : option Heap :=
  if ref =? 0 then Some h
  else _ ← refs h !! ref; Some (MkHeap (delete ref (refs h)) (contents h) (buffers h)).

Definition GetArrayLength (ref : Z) (h : Heap) : option Z :=
  a ← refs h !! ref; Some (Z.of_nat (length (contents_of a h))).

(** [Get...ArrayElements] answers [buf], a copy when [copy]. *)
Definition GetArrayElements (buf : Z) (copy : bool) (ref : Z) (h : Heap) : option (Z * Heap) :=
  a ← refs h !! ref;
  let c := if copy then Some (contents_of a h) else None in
  Some (buf, MkHeap (refs h) (contents h) (<[buf := (a, c)]> (buffers h))).

(** [Release...ArrayElements]. *)
Definition ReleaseArrayElements (ref elems : Z) (mode : Mode) (h : Heap) : option Heap :=
  _ ← refs h !! ref;
  '(a, c) ← buffers h !! elems;
  let back := match mode, c with
              | JNI_ABORT, _ | _, None => contents h
              | _, Some l => <[a := l]> (contents h)
              end in
  let kept := match mode with JNI_COMMIT => buffers h | _ => delete elems (buffers h) end in
  Some (MkHeap (refs h) back kept).

(** Reading and writing through the pointer. *)
Definition elements_at (elems : Z) (h : Heap) : option (list Z) :=
  '(a, c) ← buffers h !! elems;
  Some (match c with Some l => l | None => contents_of a h end).

Definition write_at (elems : Z) (l : list Z) (h : Heap) : option Heap :=
  '(a, c) ← buffers h !! elems;
  Some (match c with
        | Some _ => MkHeap (refs h) (contents h) (<[elems := (a, Some l)]> (buffers h))
        | None => MkHeap (refs h) (<[a := l]> (contents h)) (buffers h)
        end).

(** The class; [size_] has no value before the first [reset] with an array. *)
Record ArrayRef := MkArrayRef {
  local_ref_ : Z;
  size_ : option Z;
  elements_ : Z;
  modified_ : bool
}.

Definition ReleaseElements (mode : Mode) (s : ArrayRef) (h : Heap) : option Heap :=
  if (local_ref_ s =? 0) || (elements_ s =? 0) then Some h
  else ReleaseArrayElements (local_ref_ s) (elements_ s) mode h.

Definition release_mode (s : ArrayRef) : Mode := if modified_ s then ModeZero else JNI_ABORT.

(** [reset]; JNI answers [buf]. *)
Definition reset (buf : Z) (copy : bool) (ptr : Z) (s : ArrayRef) (h : Heap) : option (ArrayRef * Heap) :=
  if negb (ptr =? local_ref_ s) then
    '(elems, h) ←
      if negb (local_ref_ s =? 0) then
        h ← ReleaseElements (release_mode s) s h;
        h ← DeleteLocalRef (local_ref_ s) h;
        Some (0, h)
      else Some (elements_ s, h);
    if ptr =? 0 then Some (MkArrayRef 0 (Some 0) elems (modified_ s), h)
    else
      n ← GetArrayLength ptr h;
      '(elems, h) ← GetArrayElements buf copy ptr h;
      Some (MkArrayRef ptr (Some n) elems (modified_ s), h)
  else Some (s, h).

(** The constructor from a reference. *)
Definition ScopedArrayRef (buf : Z) (copy : bool) (local_ref : Z) (h : Heap) : option (ArrayRef * Heap) :=
  reset buf copy local_ref (MkArrayRef 0 None 0 false) h.

(** [release]: the reference is null when the elements are released. *)
Definition release (s : ArrayRef) (h : Heap) : option (Z * ArrayRef * Heap) :=
  let localRef := local_ref_ s in
  let s := MkArrayRef 0 (Some 0) (elements_ s) (modified_ s) in
  h ← ReleaseElements (release_mode s) s h;
  Some (localRef, MkArrayRef 0 (Some 0) 0 (modified_ s), h).

(** [operator[]] of a mutable scope, for writing, and of a constant one. *)
Definition set_index (index : nat) (v : Z) (s : ArrayRef) (h : Heap) : option (ArrayRef * Heap) :=
  l ← elements_at (elements_ s) h;
  if bool_decide (index < length l)%nat then
    h ← write_at (elements_ s) (<[index := v]> l) h;
    Some (MkArrayRef (local_ref_ s) (size_ s) (elements_ s) true, h)
  else None.
Definition get_index (index : nat) (s : ArrayRef) (h : Heap) : option Z :=
  l ← elements_at (elements_ s) h; l !! index.

(** [begin] of a mutable scope. *)
Definition begin_ (s : ArrayRef) : ArrayRef := MkArrayRef (local_ref_ s) (size_ s) (elements_ s) true.

(** Iterators are pointers to elements of [width] bytes; [end]; the increments and
    decrements, written before and after the iterator. *)
Definition end_ (width : Z) (s : ArrayRef) : option Z := n ← size_ s; Some (elements_ s + n * width).
Definition increment (width e : Z) : Z := e + width.
Definition decrement (width e : Z) : Z := e - width.
Definition postfix_increment (width e : Z) : Z * Z := (e, increment width e).
Definition postfix_decrement (width e : Z) : Z * Z := (e, decrement width e).

Definition commit (s : ArrayRef) (h : Heap) : option (ArrayRef * Heap) :=
  h ← ReleaseElements JNI_COMMIT s h;
  Some (MkArrayRef (local_ref_ s) (size_ s) (elements_ s) false, h).

(** [operator=], which the move constructor calls, copies the fields and empties
    the source; what [this] held is overwritten. *)
Definition assign (this s : ArrayRef) : ArrayRef * ArrayRef := (s, MkArrayRef 0 (Some 0) 0 false).

(** The destructor: [DeleteLocalRef(release())]. *)
Definition destroy (s : ArrayRef) (h : Heap) : option Heap :=
  '(ref, _, h) ← release s h;
  DeleteLocalRef ref h.

(** Writes at several indices. *)
Fixpoint set_indices (ws : list (nat * Z)) (s : ArrayRef) (h : Heap) : option (ArrayRef * Heap) :=
  match ws with
  | [] => Some (s, h)
  | (i, v) :: ws => '(s, h) ← set_index i v s h; set_indices ws s h
  end.

Definition written (ws : list (nat * Z)) (l : list Z) : list Z :=
  foldl (λ l '(i, v), <[i := v]> l) l ws.

(** Stepping through the elements reaches the end, after as many steps as there
    are elements. *)
Lemma iterators_meet width s n k :
  0 < width → size_ s = Some (Z.of_nat n) →
  end_ width s = Some (Nat.iter k (increment width) (elements_ s)) ↔ k = n.
Proof.
  intros Hw Hn. unfold end_. rewrite Hn. simpl.
  assert (Nat.iter k (increment width) (elements_ s) = elements_ s + Z.of_nat k * width) as ->
    by (induction k as [|k IH]; simpl; [|rewrite IH; unfold increment]; lia).
  split; [intros [= E]; nia|by intros ->].
Qed.

(** *** What becomes of writes *)

Section writes.
(** A scope made of a live reference to the array [a] with contents [l]. *)
Context (ref a buf : Z) (copy : bool) (l : list Z) (h : Heap).
Context (Href : ref ≠ 0) (Hlive : refs h !! ref = Some a) (Hl : contents h !! a = Some l).
Context (Hbuf : buf ≠ 0) (Hfree : buffers h !! buf = None).

(** The heap while the scope is there and its elements are [k]. *)
Definition during (k : list Z) : Heap :=
  MkHeap (refs h) (if copy then contents h else <[a := k]> (contents h))
    (<[buf := (a, if copy then Some k else None)]> (buffers h)).

Lemma constructed :
  ScopedArrayRef buf copy ref h = Some (MkArrayRef ref (Some (Z.of_nat (length l))) buf false, during l).
Proof.
  unfold ScopedArrayRef, reset, GetArrayLength, GetArrayElements, during. simpl.
  rewrite (proj2 (Z.eqb_neq ref 0)) by done. cbn [negb]. rewrite !Hlive. simpl. unfold contents_of. rewrite Hl. simpl.
  destruct copy; [done|]. by rewrite (insert_id (contents h)) by done.
Qed.

Lemma elements_during k : elements_at buf (during k) = Some k.
Proof.
  unfold elements_at, during, contents_of. simpl. rewrite lookup_insert_eq. simpl.
  destruct copy; [done|]. by rewrite lookup_insert_eq.
Qed.

Lemma write_during k k' : write_at buf k' (during k) = Some (during k').
Proof.
  unfold write_at, during. simpl. rewrite lookup_insert_eq. simpl. destruct copy; simpl; by rewrite insert_insert_eq.
Qed.

Lemma set_indices_during ws n m k :
  Forall (λ w, w.1 < length k)%nat ws →
  set_indices ws (MkArrayRef ref n buf m) (during k) =
    Some (MkArrayRef ref n buf (m || negb (bool_decide (ws = []))), during (written ws k)).
Proof.
  revert m k. induction ws as [|[i v] ws IH]; intros m k; simpl; [by rewrite orb_false_r|].
  intros [Hi Hws]%Forall_cons. unfold set_index. simpl. rewrite elements_during. simpl.
  rewrite bool_decide_eq_true_2 by done. rewrite write_during. simpl.
  rewrite IH by (by rewrite length_insert). simpl. by rewrite orb_true_r.
Qed.
End writes.

Section ends.
Context (ref a buf : Z) (copy : bool) (l : list Z) (ws : list (nat * Z)) (h : Heap).

(** What the next theorems assume of the heap and of what JNI answers. *)
Record fresh_elements : Prop := {
  fresh_ref : ref ≠ 0;
  fresh_live : refs h !! ref = Some a;
  fresh_contents : contents h !! a = Some l;
  fresh_buf : buf ≠ 0;
  fresh_free : buffers h !! buf = None;
  fresh_indices : Forall (λ w, w.1 < length l)%nat ws
}.

Notation written := (written ws l).

(** Values written through a scope are in the Java array after [commit], and
    after [reset] of a scope that was written to; [reset] also gives the elements
    back to JNI and deletes the reference, [commit] keeps the elements. *)
Theorem array_writes_reach_java :
  fresh_elements →
  ∃ s h1, (s0h ← ScopedArrayRef buf copy ref h; set_indices ws s0h.1 s0h.2) = Some (s, h1) ∧
    (∃ s' h2, commit s h1 = Some (s', h2) ∧ contents_of a h2 = written ∧ refs h2 = refs h ∧
       elements_at buf h2 = Some written) ∧
    (ws ≠ [] → ∃ s' h2, reset 0 false 0 s h1 = Some (s', h2) ∧ contents_of a h2 = written ∧
       buffers h2 = buffers h ∧ refs h2 = delete ref (refs h)).
Proof.
  intros [Href Hlive Hl Hbuf Hfree Hws].
  rewrite (constructed ref a buf copy l h Href Hlive Hl). cbn [mbind option_bind fst snd].
  rewrite (set_indices_during ref a buf copy h) by done. eexists _, _. split; [done|].
  split.
  - unfold commit, ReleaseElements. simpl. rewrite (proj2 (Z.eqb_neq ref 0)), (proj2 (Z.eqb_neq buf 0)) by done.
    unfold ReleaseArrayElements, during. simpl. rewrite Hlive. simpl. rewrite lookup_insert_eq. simpl.
    eexists _, _. split; [done|]. unfold contents_of, elements_at. simpl. rewrite lookup_insert_eq. simpl.
    destruct copy; simpl; rewrite lookup_insert_eq; try done.
    unfold contents_of. simpl. by rewrite lookup_insert_eq.
  - intros Hne. unfold reset. cbn [local_ref_ elements_ modified_].
    rewrite (proj2 (Z.eqb_neq 0 ref)), (proj2 (Z.eqb_neq ref 0)) by congruence. cbn [negb].
    unfold ReleaseElements, release_mode. simpl. rewrite (proj2 (Z.eqb_neq ref 0)), (proj2 (Z.eqb_neq buf 0)) by done.
    rewrite bool_decide_eq_false_2 by done. simpl.
    unfold ReleaseArrayElements, DeleteLocalRef, during. simpl. rewrite Hlive. simpl. rewrite lookup_insert_eq. simpl.
    rewrite (proj2 (Z.eqb_neq ref 0)), Hlive by done. simpl. eexists _, _. split; [done|]. simpl.
    rewrite delete_insert_id by done. unfold contents_of. simpl.
    destruct copy; simpl; rewrite lookup_insert_eq; by split_and!.
Qed.

(** A scope that is destroyed without a [commit] loses what was written when
    JNI handed out a copy: [release] nulls the reference before it asks for the
    elements to be released, so nothing is copied back; and the elements are not
    given back to JNI, whether there was a [commit] or not. *)
Theorem array_destroyed_loses_writes :
  fresh_elements →
  ∃ s h1, (s0h ← ScopedArrayRef buf copy ref h; set_indices ws s0h.1 s0h.2) = Some (s, h1) ∧
    (∃ h2, destroy s h1 = Some h2 ∧ contents_of a h2 = (if copy then l else written) ∧
       is_Some (buffers h2 !! buf) ∧ refs h2 = delete ref (refs h)) ∧
    (∃ h2, ('(s, h2) ← commit s h1; destroy s h2) = Some h2 ∧ contents_of a h2 = written ∧
       is_Some (buffers h2 !! buf)).
Proof.
  intros [Href Hlive Hl Hbuf Hfree Hws].
  rewrite (constructed ref a buf copy l h Href Hlive Hl). cbn [mbind option_bind fst snd].
  rewrite (set_indices_during ref a buf copy h) by done. eexists _, _. split; [done|].
  assert (∀ n m h', refs h' = refs h → destroy (MkArrayRef ref n buf m) h' =
    Some (MkHeap (delete ref (refs h)) (contents h') (buffers h'))) as Hd.
  { intros n m h' Hr. unfold destroy, release, ReleaseElements. simpl. unfold DeleteLocalRef.
    rewrite (proj2 (Z.eqb_neq ref 0)) by done. by rewrite Hr, Hlive. }
  split.
  - rewrite Hd by done. eexists. split; [done|]. simpl. rewrite lookup_insert_eq. unfold contents_of. simpl.
    destruct copy; [by rewrite Hl|by rewrite lookup_insert_eq].
  - unfold commit, ReleaseElements. simpl. rewrite (proj2 (Z.eqb_neq ref 0)), (proj2 (Z.eqb_neq buf 0)) by done.
    unfold ReleaseArrayElements, during. simpl. rewrite Hlive. simpl. rewrite lookup_insert_eq. simpl.
    rewrite Hd by done. eexists. split; [done|]. unfold contents_of. simpl. rewrite lookup_insert_eq.
    destruct copy; simpl; by rewrite lookup_insert_eq.
Qed.

(** Assigning to a scope that holds an array forgets the array: when both scopes
    are destroyed its reference is live and its elements are with JNI. *)
Lemma array_assign_leaks :
  fresh_elements →
  (sh ← ScopedArrayRef buf copy ref h;
   let '(this, s) := assign sh.1 (MkArrayRef 0 (Some 0) 0 false) in
   h ← destroy this sh.2; destroy s h) = Some (during a buf copy h l).
Proof.
  intros [Href Hlive Hl Hbuf Hfree Hws]. by rewrite (constructed ref a buf copy l h Href Hlive Hl).
Qed.
End ends.

(** The array 9 with two elements, and JNI that hands out a copy at address 100. *)
Definition sample_heap : Heap := MkHeap {[5 := 9]} {[9 := [1; 2]]} ∅.
Definition sample_writes : list (nat * Z) := [(1%nat, 7)].

Lemma sample_elements : fresh_elements 5 9 100 [1; 2] sample_writes sample_heap.
Proof. split; try done. repeat constructor. Qed.

Example array_writes_reach_java_witness :
  ∃ s h1, (s0h ← ScopedArrayRef 100 true 5 sample_heap; set_indices sample_writes s0h.1 s0h.2) = Some (s, h1) ∧
    ∃ s' h2, reset 0 false 0 s h1 = Some (s', h2) ∧ contents_of 9 h2 = [1; 7].
Proof.
  destruct (array_writes_reach_java 5 9 100 true [1; 2] sample_writes sample_heap sample_elements)
    as (s & h1 & E & _ & Hreset).
  destruct Hreset as (s' & h2 & E' & Hc & _); [done|]. exists s, h1. split; [exact E|]. by exists s', h2.
Defined.

Example array_destroyed_loses_writes_witness :
  ∃ s h1 h2, (s0h ← ScopedArrayRef 100 true 5 sample_heap; set_indices sample_writes s0h.1 s0h.2) = Some (s, h1) ∧
    destroy s h1 = Some h2 ∧ contents_of 9 h2 = [1; 2].
Proof.
  destruct (array_destroyed_loses_writes 5 9 100 true [1; 2] sample_writes sample_heap sample_elements)
    as (s & h1 & E & (h2 & E' & Hc & _) & _).
  by exists s, h1, h2.
Defined.
