(* ===== verification/JniObjectArrays.v ===== *)
(** * Arrays of Java objects

    [include/utils/jni_helper.hpp], 1427 to 1680 and 1762 to 1810:
    [JObjectArrayElement], the [ScopedLocalRef] of an object array with its
    iterators, and [JDirectBuffer].  An element of an array is held by a
    [ScopedLocalRef] of [JniRefs.v]. *)

From S2P Require Import Prelude JniRefs.

(** ** The Java side *)

(** The local references that are live, the objects references denote (null, the
    object 0, is denoted by null), the arrays by object, and whether an exception
    is pending. *)
Record Java := MkJava {
  refs_ : gset Z;
  denotes : gmap Z Z;
  arrays : gmap Z (list Z);
  thrown : bool
}.

Definition object_of (ref : Z) (j : Java) : option Z :=
  if ref =? 0 then Some 0
  else if bool_decide (ref ∈ refs_ j) then denotes j !! ref else None.

Definition array_of (ref : Z) (j : Java) : option (Z * list Z) :=
  a ← object_of ref j; l ← arrays j !! a; Some (a, l).

Definition with_refs (live : gset Z) (j : Java) : Java := MkJava live (denotes j) (arrays j) (thrown j).

(** An operation of a scope. *)
Definition on_refs {A} (f : gset Z → option (A * gset Z)) (j : Java) : option (A * Java) :=
  '(x, live) ← f (refs_ j); Some (x, with_refs live j).

(** What JNI answers for the next new reference, and what an element of an array
    may refer to. *)
Section jni.
Context (new_ref : gset Z → Z).
Context (storable : Z → Z → bool).

(** A new reference to an object. *)
Definition NewLocalRef (o : Z) (j : Java) : Z * Java :=
  if o =? 0 then (0, j)
  else let r := new_ref (refs_ j) in
       (r, MkJava ({[r]} ∪ refs_ j) (<[r := o]> (denotes j)) (arrays j) (thrown j)).

Definition GetArrayLength (array : Z) (j : Java) : option Z :=
  '(_, l) ← array_of array j; Some (Z.of_nat (length l)).

(** [GetObjectArrayElement] and [SetObjectArrayElement] throw for an index out of
    range, and the latter for an object the array cannot hold. *)
Definition throw (j : Java) : Java := MkJava (refs_ j) (denotes j) (arrays j) true.

Definition GetObjectArrayElement (array i : Z) (j : Java) : option (Z * Java) :=
  '(_, l) ← array_of array j;
  if (0 <=? i) && (i <? Z.of_nat (length l)) then
    o ← l !! Z.to_nat i; Some (NewLocalRef o j)
  else Some (0, throw j).

Definition SetObjectArrayElement (array i ref : Z) (j : Java) : option Java :=
  '(a, l) ← array_of array j;
  o ← object_of ref j;
  if (0 <=? i) && (i <? Z.of_nat (length l)) && storable a o then
    Some (MkJava (refs_ j) (denotes j) (<[a := <[Z.to_nat i := o]> l]> (arrays j)) (thrown j))
  else Some (throw j).

(** ** [JObjectArrayElement] *)

Record Element := MkElement {
  e_env : Z;
  array_ : Z;
  i_ : Z;
  e_size : Z;
  item_ : Scope
}.

(** [obtain], of [JObjectArrayElement] and of [ConstIterator]. *)
Definition obtain (env array i size : Z) (j : Java) : option (Scope * Java) :=
  if (i <? 0) || (i >=? size) then Some (MkScope 0 0, j)
  else if env =? 0 then None
  else
    '(ref, j) ← GetObjectArrayElement array i j;
    on_refs (ScopedLocalRef env ref) j.

(** The constructor. *)
Definition JObjectArrayElement (env array i size : Z) (j : Java) : option (Element * Java) :=
  '(item, j) ← obtain env array i size j;
  Some (MkElement env array i size item, j).

(** [++] and [--] written before an element: the new item is assigned from a
    scope that is then destroyed. *)
Definition move_to (i : Z) (e : Element) (j : Java) : option (Element * Java) :=
  '(tmp, j) ← obtain (e_env e) (array_ e) i (e_size e) j;
  '((item, tmp), j) ← on_refs (assign (item_ e) tmp) j;
  '(_, j) ← on_refs (λ live, live ← destroy tmp live; Some ((), live)) j;
  Some (MkElement (e_env e) (array_ e) i (e_size e) item, j).
Definition increment (e : Element) (j : Java) : option (Element * Java) := move_to (i_ e + 1) e j.
Definition decrement (e : Element) (j : Java) : option (Element * Java) := move_to (i_ e - 1) e j.

(** [++] and [--] written after an element: a new element. *)
Definition postfix_increment (e : Element) (j : Java) : option (Element * Java) :=
  JObjectArrayElement (e_env e) (array_ e) (i_ e + 1) (e_size e) j.
Definition postfix_decrement (e : Element) (j : Java) : option (Element * Java) :=
  JObjectArrayElement (e_env e) (array_ e) (i_ e - 1) (e_size e) j.

(** The destructor. *)
Definition destroy_element (e : Element) (j : Java) : option Java :=
  '(_, j) ← on_refs (λ live, live ← destroy (item_ e) live; Some ((), live)) j; Some j.

(** [reset] and the assignments. *)
Definition reset_element (item : Z) (e : Element) (j : Java) : option (Element * Java) :=
  '(s, j) ← on_refs (reset item (item_ e)) j;
  if e_env e =? 0 then None
  else
    j ← SetObjectArrayElement (array_ e) (i_ e) (local_ref_ s) j;
    Some (MkElement (e_env e) (array_ e) (i_ e) (e_size e) s, j).

(** From a reference, which stays the caller's. *)
Definition assign_object (ref : Z) (e : Element) (j : Java) : option (Element * Java) :=
  if e_env e =? 0 then None
  else
    o ← object_of ref j;
    let '(r, j) := NewLocalRef o j in
    reset_element r e j.

(** From a scope that is moved. *)
Definition assign_scope (s : Scope) (e : Element) (j : Java) : option (Element * Scope * Java) :=
  let '(ref, s) := release s in
  '(e, j) ← reset_element ref e j;
  Some (e, s, j).

(** From another element, moved or copied. *)
Definition assign_moved (s e : Element) (j : Java) : option (Element * Element * Java) :=
  '(e, item, j) ← assign_scope (item_ s) e j;
  Some (e, MkElement (e_env s) (array_ s) (i_ s) (e_size s) item, j).
Definition assign_copied (s e : Element) (j : Java) : option (Element * Java) :=
  assign_object (local_ref_ (item_ s)) e j.

(** The move constructor, [release] and [clone]. *)
Definition with_item (item : Scope) (e : Element) : Element :=
  MkElement (e_env e) (array_ e) (i_ e) (e_size e) item.
Definition move_element (s : Element) (j : Java) : option (Element * Element * Java) :=
  '((item, old), j) ← on_refs (move (item_ s)) j;
  Some (with_item item s, with_item old s, j).
Definition release_element (e : Element) : Z * Element :=
  let '(ref, item) := release (item_ e) in (ref, with_item item e).
Definition clone_element (e : Element) (j : Java) : option (Scope * Java) :=
  if env_ (item_ e) =? 0 then None
  else
    o ← object_of (local_ref_ (item_ e)) j;
    let '(r, j) := NewLocalRef o j in
    on_refs (ScopedLocalRef (env_ (item_ e)) r) j.

(** ** The scope of an object array *)

Record ObjectArray := MkObjectArray { a_env : Z; a_ref : Z; a_size : Z }.

(** [reset]. *)
Definition reset_array (ptr : Z) (s : ObjectArray) (j : Java) : option (ObjectArray * Java) :=
  if negb (ptr =? a_ref s) then
    '(_, j) ← on_refs (λ live,
      live ← if negb (a_ref s =? 0) then DeleteLocalRef (a_env s) (a_ref s) live else Some live;
      Some ((), live)) j;
    n ← if negb (ptr =? 0) then GetArrayLength ptr j else Some 0;
    Some (MkObjectArray (a_env s) ptr n, j)
  else Some (s, j).

Definition release_array (s : ObjectArray) : Z * ObjectArray := (a_ref s, MkObjectArray (a_env s) 0 0).

(** The destructor. *)
Definition destroy_array (s : ObjectArray) (j : Java) : option Java :=
  let '(ref, s) := release_array s in
  '(_, j) ← on_refs (λ live, live ← DeleteLocalRef (a_env s) ref live; Some ((), live)) j;
  Some j.

(** [operator=]: the fields are copied and the source is emptied. *)
Definition assign_array (this s : ObjectArray) : ObjectArray * ObjectArray :=
  (s, MkObjectArray (a_env s) 0 0).

(** [begin] and [end]; the comparison looks at the indices only. *)
Definition begin_ (s : ObjectArray) (j : Java) : option (Element * Java) :=
  JObjectArrayElement (a_env s) (a_ref s) 0 (a_size s) j.
Definition end_ (s : ObjectArray) (j : Java) : option (Element * Java) :=
  JObjectArrayElement (a_env s) (a_ref s) (a_size s) (a_size s) j.
Definition not_equal (it other : Element) : bool := negb (i_ other =? i_ it).

(** [operator\[\]], of a mutable and of a constant scope. *)
Definition element_at (index : Z) (s : ObjectArray) (j : Java) : option (Element * Java) :=
  JObjectArrayElement (a_env s) (a_ref s) index (a_size s) j.
Definition object_at (index : Z) (s : ObjectArray) (j : Java) : option (Scope * Java) :=
  if a_env s =? 0 then None
  else
    '(ref, j) ← GetObjectArrayElement (a_ref s) index j;
    on_refs (ScopedLocalRef (a_env s) ref) j.

(** A loop over the scope, with a body that is given the object of each element;
    [next] is how the loop advances.  [None] is a loop that has not ended. *)
Section loop.
Context {S : Type} (body : Z → S → S).

Fixpoint loop (next : Element → Java → option (Element * Java)) (fuel : nat)
    (it stop : Element) (s : S) (j : Java) : option (option (S * Element * Java)) :=
  match fuel with
  | O => Some None
  | Datatypes.S fuel =>
      if not_equal it stop then
        o ← object_of (local_ref_ (item_ it)) j;
        '(it, j) ← next it j;
        loop next fuel it stop (body o s) j
      else Some (Some (s, it, j))
  end.

(** [for (auto &e : scope)], or with [it++] instead of [++it]. *)
Definition for_each (next : Element → Java → option (Element * Java)) (fuel : nat)
    (a : ObjectArray) (s : S) (j : Java) : option (option (S * Java)) :=
  '(it, j) ← begin_ a j;
  '(stop, j) ← end_ a j;
  r ← loop next fuel it stop s j;
  match r with
  | None => Some None
  | Some (s, it, j) => j ← destroy_element stop j; j ← destroy_element it j; Some (Some (s, j))
  end.
End loop.

(** [it++] as a statement: the iterator it returns is destroyed. *)
Definition advance_postfix (it : Element) (j : Java) : option (Element * Java) :=
  '(tmp, j) ← postfix_increment it j;
  j ← destroy_element tmp j;
  Some (it, j).

(** The constructor of the scope; [size_] holds [junk] before it is set. *)
Definition ScopedObjectArray (env junk local_ref : Z) (j : Java) : option (ObjectArray * Java) :=
  reset_array local_ref (MkObjectArray env 0 junk) j.

(** ** What an element holds *)

(** The object of an index; null out of range, as in [obtain]. *)
Definition elem (i : Z) (l : list Z) : Z :=
  if (0 <=? i) && (i <? Z.of_nat (length l)) then default 0 (l !! Z.to_nat i) else 0.

Context (env ref a : Z) (l : list Z).
Context (Henv : env ≠ 0).
Context (Hnew : ∀ live, new_ref live ≠ 0 ∧ new_ref live ∉ live).

(** Since [j0], the scope [s] has taken a reference to the object [o] and nothing
    else has changed. *)
Record held (j0 j : Java) (o : Z) (s : Scope) : Prop := {
  held_arrays : arrays j = arrays j0;
  held_thrown : thrown j = thrown j0;
  held_denotes r : r ∈ refs_ j0 → denotes j !! r = denotes j0 !! r;
  held_null : o = 0 → local_ref_ s = 0 ∧ refs_ j = refs_ j0;
  held_object : o ≠ 0 → env_ s = env ∧ local_ref_ s ≠ 0 ∧ local_ref_ s ∉ refs_ j0 ∧
    refs_ j = {[local_ref_ s]} ∪ refs_ j0 ∧ denotes j !! local_ref_ s = Some o
}.


Lemma object_of_held j0 j o s r v :
  held j0 j o s → object_of r j0 = Some v → object_of r j = Some v.
Proof.
  intros [_ _ Hd Hn Ho]. unfold object_of. destruct (Z.eqb_spec r 0); [done|].
  case_bool_decide as Hr; [|done]. intros E. rewrite bool_decide_eq_true_2; [by rewrite Hd|].
  destruct (decide (o = 0)) as [H0|H0]; [by rewrite (proj2 (Hn H0))|]. destruct (Ho H0) as (_ & _ & _ & -> & _). set_solver.
Qed.

Lemma array_of_held j0 j o s r x : held j0 j o s → array_of r j0 = Some x → array_of r j = Some x.
Proof.
  intros Hh. unfold array_of. rewrite (held_arrays _ _ _ _ Hh).
  destruct (object_of r j0) as [v|] eqn:E; [|done]. by rewrite (object_of_held _ _ _ _ _ _ Hh E).
Qed.

(** The item denotes the object. *)
Lemma item_held j0 j o s : held j0 j o s → object_of (local_ref_ s) j = Some o.
Proof.
  intros [_ _ _ Hn Ho]. unfold object_of. destruct (decide (o = 0)) as [->|H0]; [by rewrite (proj1 (Hn eq_refl))|].
  destruct (Ho H0) as (_ & Hr & _ & E & Hd). rewrite (proj2 (Z.eqb_neq _ 0)) by done.
  by rewrite E, bool_decide_eq_true_2 by set_solver.
Qed.

Lemma held_refl j e : held j j 0 (MkScope e 0).
Proof. by split. Qed.

(** What a new reference to an object, put into a scope, holds. *)
Lemma NewLocalRef_held o j :
  ∃ s, on_refs (ScopedLocalRef env (NewLocalRef o j).1) (NewLocalRef o j).2 = Some (s, (NewLocalRef o j).2) ∧
    s = MkScope env (NewLocalRef o j).1 ∧ held j (NewLocalRef o j).2 o s.
Proof.
  exists (MkScope env (NewLocalRef o j).1). unfold NewLocalRef. destruct (Z.eqb_spec o 0) as [->|Ho]; simpl.
  - split_and!; [|done|apply held_refl]. unfold on_refs, with_refs. simpl. by destruct j.
  - destruct (Hnew (refs_ j)) as [H0 Hn]. unfold on_refs, ScopedLocalRef, reset. simpl.
    rewrite (proj2 (Z.eqb_neq (new_ref _) 0)) by done. simpl. split_and!; [done..|].
    split; simpl; [done|done| |done|intros _; split_and!; [done..|by rewrite lookup_insert_eq]].
    intros r Hr. rewrite lookup_insert_ne; [done|]. by intros <-.
Qed.

Lemma obtain_held i j :
  array_of ref j = Some (a, l) →
  ∃ s j', obtain env ref i (Z.of_nat (length l)) j = Some (s, j') ∧ held j j' (elem i l) s ∧
    env_ s = if (0 <=? i) && (i <? Z.of_nat (length l)) then env else 0.
Proof.
  intros Ha. unfold obtain, elem, GetObjectArrayElement. rewrite (proj2 (Z.eqb_neq env 0)) by done.
  assert ((i <? 0) || (i >=? Z.of_nat (length l)) = negb ((0 <=? i) && (i <? Z.of_nat (length l)))) as ->
    by (rewrite Z.geb_leb; destruct (Z.ltb_spec i 0), (Z.leb_spec 0 i), (Z.leb_spec (Z.of_nat (length l)) i),
          (Z.ltb_spec i (Z.of_nat (length l))); done || lia).
  destruct (0 <=? i) eqn:H0; [|eexists _, _; split; [done|split; [apply held_refl|done]]].
  destruct (i <? Z.of_nat (length l)) eqn:Hi; [|eexists _, _; split; [done|split; [apply held_refl|done]]].
  rewrite Ha. simpl.
  destruct (lookup_lt_is_Some_2 l (Z.to_nat i)) as [o Ho]; [lia|]. rewrite Ho. simpl.
  destruct (NewLocalRef_held o j) as (s & E & -> & Hh). destruct (NewLocalRef o j) as [r j']. simpl in *. rewrite Hi. simpl. rewrite E.
  by eexists _, _.
Qed.

(** Dropping what is held. *)
Lemma drop_held j0 j o s :
  held j0 j o s →
  (if negb (local_ref_ s =? 0) then DeleteLocalRef (env_ s) (local_ref_ s) (refs_ j) else Some (refs_ j)) = Some (refs_ j0).
Proof.
  intros [_ _ _ Hn Ho]. destruct (decide (o = 0)) as [H0|H0].
  - destruct (Hn H0) as [-> ->]. done.
  - destruct (Ho H0) as (-> & Hr & Hni & -> & _). rewrite (proj2 (Z.eqb_neq _ 0)) by done. cbn [negb].
    unfold DeleteLocalRef. rewrite (proj2 (Z.eqb_neq env 0)), (proj2 (Z.eqb_neq _ 0)) by done.
    rewrite bool_decide_eq_true_2 by set_solver. f_equal. set_solver.
Qed.

(** A scope reset to what another one holds: what it held is given up. *)
Lemma reset_held j0 j j1 o o' this s :
  held j0 j o this → held j j1 o' s →
  ∃ live, reset (local_ref_ s) this (refs_ j1) = Some (MkScope (env_ this) (local_ref_ s), live) ∧
    held j0 (with_refs live j1) o' s.
Proof.
  intros Hh Hs. pose proof (drop_held _ _ _ _ Hh) as Hd.
  destruct Hh as [Ha Ht Hden Hn Ho], Hs as [Ha' Ht' Hden' Hn' Ho'].
  assert (refs_ j0 ⊆ refs_ j) as Hsub.
  { destruct (decide (o = 0)) as [H0|H0]; [by rewrite (proj2 (Hn H0))|]. destruct (Ho H0) as (_ & _ & _ & -> & _). set_solver. }
  assert (∀ live, (o' = 0 → live = refs_ j0) → (o' ≠ 0 → live = {[local_ref_ s]} ∪ refs_ j0) →
    held j0 (with_refs live j1) o' s) as Hend.
  { intros live H1 H2. split; simpl; [congruence|congruence| | |].
    - intros r Hr. rewrite Hden', Hden; [done..|]. by apply Hsub.
    - intros E. split; [by apply Hn'|auto].
    - intros E. destruct (Ho' E) as (? & ? & ? & ? & ?). split_and!; try done; [set_solver|auto]. }
  unfold reset. destruct (decide (o' = 0)) as [E'|E'].
  - destruct (Hn' E') as [Es Er]. rewrite Es, Er, (Z.eqb_sym 0).
    destruct (local_ref_ this =? 0) eqn:E; cbn [negb] in *.
    + apply Z.eqb_eq in E. destruct this as [e r]. simpl in *. rewrite E. eexists. split; [done|]. apply Hend; congruence.
    + rewrite Hd. simpl. eexists. split; [done|]. apply Hend; congruence.
  - destruct (Ho' E') as (He & H0 & Hni & Er & Hv).
    destruct (decide (o = 0)) as [E|E].
    + destruct (Hn E) as [-> Er0]. rewrite (proj2 (Z.eqb_neq _ 0)) by done. simpl.
      eexists. split; [done|]. apply Hend; congruence.
    + destruct (Ho E) as (-> & H1 & Hni1 & Er1 & _).
      assert (local_ref_ s ≠ local_ref_ this) by (intros Eq; rewrite Eq, Er1 in Hni; set_solver).
      rewrite (proj2 (Z.eqb_neq (local_ref_ s) _)), (proj2 (Z.eqb_neq _ 0)) by done. cbn [negb].
      unfold DeleteLocalRef. rewrite (proj2 (Z.eqb_neq env 0)), (proj2 (Z.eqb_neq _ 0)) by done.
      rewrite bool_decide_eq_true_2 by set_solver. simpl. eexists. split; [done|]. apply Hend; [done|].
      intros _. rewrite Er, Er1. set_solver.
Qed.

(** An element's destructor gives up what it holds. *)
Lemma destroy_item j0 j j' o e :
  held j0 j o (item_ e) → refs_ j' = refs_ j → destroy_element e j' = Some (with_refs (refs_ j0) j').
Proof.
  intros Hh E. unfold destroy_element, destroy, reset, on_refs. pose proof (drop_held _ _ _ _ Hh) as Hd.
  rewrite Z.eqb_sym, E. destruct (local_ref_ (item_ e) =? 0); cbn [negb] in *; [injection Hd as Hd|rewrite Hd]; simpl; congruence.
Qed.

Lemma move_to_held i e j0 j o :
  array_of ref j0 = Some (a, l) → e_env e = env → array_ e = ref → e_size e = Z.of_nat (length l) →
  held j0 j o (item_ e) →
  ∃ s j', move_to i e j = Some (MkElement env ref i (Z.of_nat (length l)) s, j') ∧ held j0 j' (elem i l) s.
Proof.
  intros Ha He1 He2 He3 Hh. unfold move_to. rewrite He1, He2, He3.
  destruct (obtain_held i j (array_of_held _ _ _ _ _ _ Hh Ha)) as (s & j1 & E & Hs & _). rewrite E. simpl.
  destruct (reset_held _ _ _ _ _ _ _ Hh Hs) as (live & Ea & Hl).
  unfold on_refs at 2, assign, release. simpl. rewrite Ea. simpl.
  unfold on_refs, destroy. simpl. eexists _, _. split; [done|]. by destruct Hl as [H1 H2 H3 H4 H5].
Qed.

(** ** Loops *)

Lemma elem_in_range i x : l !! i = Some x → elem (Z.of_nat i) l = x.
Proof.
  intros Hx. pose proof (lookup_lt_Some _ _ _ Hx). unfold elem.
  rewrite (proj2 (Z.leb_le 0 _)), (proj2 (Z.ltb_lt _ _)) by lia. simpl. by rewrite Nat2Z.id, Hx.
Qed.

Section loops.
Context {S : Type} (body : Z → S → S).
Notation at_ i s := (MkElement env ref (Z.of_nat i) (Z.of_nat (length l)) s).

Lemma loop_spec fuel i j0 j s stop acc :
  array_of ref j0 = Some (a, l) → (i ≤ length l)%nat → (length l - i < fuel)%nat →
  i_ stop = Z.of_nat (length l) → held j0 j (elem (Z.of_nat i) l) s →
  ∃ s' j', loop body increment fuel (at_ i s) stop acc j =
    Some (Some (foldl (λ acc o, body o acc) acc (drop i l), at_ (length l) s', j')) ∧ held j0 j' 0 s'.
Proof.
  intros Ha Hi Hf Hstop. revert i j s acc Hi Hf. induction fuel as [|fuel IH]; intros i j s acc Hi Hf Hh; [lia|].
  cbn [loop]. unfold not_equal at 1. cbn [i_]. rewrite Hstop. destruct (Z.eqb_spec (Z.of_nat (length l)) (Z.of_nat i)) as [E|E]; cbn [negb].
  - assert (i = length l) as -> by lia. rewrite drop_all. eexists s, j. split; [done|].
    unfold elem in Hh. by rewrite (proj2 (Z.ltb_ge _ _)), andb_false_r in Hh by lia.
  - destruct (lookup_lt_is_Some_2 l i) as [o Ho]; [lia|]. rewrite (elem_in_range i o Ho) in Hh.
    cbn [item_]. rewrite (item_held _ _ _ _ Hh). simpl.
    change (increment (at_ i s) j) with (move_to (Z.of_nat i + 1) (at_ i s) j).
    destruct (move_to_held (Z.of_nat i + 1) (at_ i s) j0 j o) as (s' & j' & E' & Hh'); [done..|].
    rewrite E'. simpl. replace (Z.of_nat i + 1) with (Z.of_nat (i + 1)) in * by lia.
    destruct (IH (i + 1)%nat j' s' (body o acc)) as (s2 & j2 & E2 & H2); [lia|lia|done|].
    rewrite E2. rewrite (drop_S l o i Ho). simpl. rewrite Nat.add_1_r. by eexists _, _.
Qed.
End loops.

(** [end] holds nothing and its destructor does nothing. *)
Lemma end_empty s j :
  end_ s j = if a_size s <? 0 then end_ s j else Some (MkElement (a_env s) (a_ref s) (a_size s) (a_size s) (MkScope 0 0), j).
Proof.
  unfold end_, JObjectArrayElement, obtain. destruct (_ <? 0); [done|].
  rewrite Z.geb_leb, Z.leb_refl. done.
Qed.

Lemma destroy_empty e j : local_ref_ (item_ e) = 0 → destroy_element e j = Some j.
Proof.
  intros E. unfold destroy_element, on_refs, destroy, reset. rewrite E. simpl. by destruct j.
Qed.

Definition scope_of : ObjectArray := MkObjectArray env ref (Z.of_nat (length l)).

Lemma begin_spec j :
  array_of ref j = Some (a, l) →
  ∃ s j', begin_ scope_of j = Some (MkElement env ref (Z.of_nat 0) (Z.of_nat (length l)) s, j') ∧
    end_ scope_of j' = Some (MkElement env ref (Z.of_nat (length l)) (Z.of_nat (length l)) (MkScope 0 0), j') ∧
    held j j' (elem 0 l) s.
Proof.
  intros Ha. destruct (obtain_held 0 j Ha) as (s & j' & E & Hh & _).
  exists s, j'. unfold begin_, JObjectArrayElement. cbn [a_env a_ref a_size scope_of]. rewrite E. split; [done|].
  split; [|done]. rewrite end_empty. cbn [a_size scope_of]. by rewrite (proj2 (Z.ltb_ge _ _)) by lia.
Qed.

(** *** Assigning an element *)

Lemma object_of_new o j : object_of (NewLocalRef o j).1 (NewLocalRef o j).2 = Some o.
Proof. destruct (NewLocalRef_held o j) as (s & _ & -> & Hh). exact (item_held _ _ _ _ Hh). Qed.

(** The element of an index; in range its scope has the environment of the array. *)
Lemma element_scope i j :
  array_of ref j = Some (a, l) →
  ∃ s j', element_at i scope_of j = Some (MkElement env ref i (Z.of_nat (length l)) s, j') ∧
    held j j' (elem i l) s ∧
    env_ s = if (0 <=? i) && (i <? Z.of_nat (length l)) then env else 0.
Proof.
  intros Ha. destruct (obtain_held i j Ha) as (s & j' & E & Hh & Hs).
  exists s, j'. unfold element_at, JObjectArrayElement. cbn [a_env a_ref a_size scope_of]. by rewrite E.
Qed.

(** What a reference denotes, after what was held has been given up. *)
Lemma object_of_after j j2 j3 o s r v :
  held j j2 o s → denotes j3 = denotes j2 → object_of r j = Some v → object_of r (with_refs (refs_ j) j3) = Some v.
Proof.
  intros Hh E. unfold object_of. simpl. destruct (r =? 0); [done|]. case_bool_decide as Hr; [|done].
  by rewrite E, (held_denotes _ _ _ _ Hh) by done.
Qed.

(** An assignment up to its end: the item holds a new reference to the object, and
    the array has been written to. *)
Lemma assign_object_spec i s r o j j1 :
  array_of ref j = Some (a, l) → object_of r j = Some o → held j j1 (elem i l) s →
  ∃ r' j2 j3, assign_object r (MkElement env ref i (Z.of_nat (length l)) s) j1 =
      Some (MkElement env ref i (Z.of_nat (length l)) (MkScope (env_ s) r'), j3) ∧
    held j j2 o (MkScope env r') ∧ refs_ j3 = refs_ j2 ∧ denotes j3 = denotes j2 ∧
    (if (0 <=? i) && (i <? Z.of_nat (length l)) && storable a o
     then arrays j3 = <[a := <[Z.to_nat i := o]> l]> (arrays j) ∧ thrown j3 = thrown j
     else arrays j3 = arrays j ∧ thrown j3 = true).
Proof.
  intros Ha Hr Hh. unfold assign_object. cbn [e_env]. rewrite (proj2 (Z.eqb_neq env 0)) by done.
  rewrite (object_of_held _ _ _ _ _ _ Hh Hr). simpl.
  destruct (NewLocalRef_held o j1) as (s' & _ & -> & Hs). destruct (NewLocalRef o j1) as [r' j1']. simpl in *.
  destruct (reset_held _ _ _ _ _ _ _ Hh Hs) as (live & E & Hl). simpl in E.
  unfold reset_element, on_refs. cbn [item_]. rewrite E. cbn [mbind option_bind e_env array_ i_].
  rewrite (proj2 (Z.eqb_neq env 0)) by done. unfold SetObjectArrayElement. cbn [local_ref_].
  rewrite (array_of_held _ _ _ _ _ _ Hl Ha). cbn [mbind option_bind].
  pose proof (item_held _ _ _ _ Hl) as Hi. cbn [local_ref_] in Hi. rewrite Hi. cbn [mbind option_bind].
  pose proof (held_arrays _ _ _ _ Hl) as E1. pose proof (held_thrown _ _ _ _ Hl) as E2. simpl in E1, E2.
  destruct ((0 <=? i) && (i <? Z.of_nat (length l)) && storable a o);
    eexists r', (with_refs live j1'), _; (split; [done|]); split_and!; simpl; congruence || done.
Qed.

(** An iterator that [it++] has been applied to is where it was. *)
Section postfix.
Context {S : Type} (body : Z → S → S).

Lemma advance_postfix_held i j0 j o s :
  array_of ref j0 = Some (a, l) → held j0 j o s →
  ∃ j', advance_postfix (MkElement env ref i (Z.of_nat (length l)) s) j = Some (MkElement env ref i (Z.of_nat (length l)) s, j') ∧
    held j0 j' o s.
Proof.
  intros Ha Hh. unfold advance_postfix, postfix_increment, JObjectArrayElement. cbn [e_env array_ i_ e_size].
  destruct (obtain_held (i + 1) j (array_of_held _ _ _ _ _ _ Hh Ha)) as (s' & j' & E & Hs & _). rewrite E. simpl.
  rewrite (destroy_item j j' j' (elem (i + 1) l)) by done. simpl. eexists. split; [done|].
  destruct Hh as [H1 H2 H3 H4 H5], Hs as [K1 K2 K3 K4 K5]. split; simpl; [congruence|congruence| |done|].
  - intros r Hr. rewrite K3; [by apply H3|]. destruct (decide (o = 0)) as [E0|E0]; [by rewrite (proj2 (H4 E0))|].
    destruct (H5 E0) as (_ & _ & _ & -> & _). set_solver.
  - intros E0. destruct (H5 E0) as (? & ? & ? & Er & ?). split_and!; try done. rewrite K3; [done|]. rewrite Er. set_solver.
Qed.

Lemma postfix_stays fuel j0 j s item acc :
  array_of ref j0 = Some (a, l) → held j0 j (elem 0 l) s → l ≠ [] →
  loop body advance_postfix fuel (MkElement env ref (Z.of_nat 0) (Z.of_nat (length l)) s)
    (MkElement env ref (Z.of_nat (length l)) (Z.of_nat (length l)) item) acc j = Some None.
Proof.
  intros Ha Hh Hl. revert j acc Hh. induction fuel as [|fuel IH]; intros j acc Hh; [done|].
  cbn [loop]. unfold not_equal at 1. cbn [i_]. destruct l as [|x l'] eqn:El; [done|]. rewrite <-El in *.
  rewrite (proj2 (Z.eqb_neq _ _)) by (rewrite El; simpl; lia). cbn [negb item_].
  rewrite (item_held _ _ _ _ Hh). cbn [mbind option_bind].
  destruct (advance_postfix_held (Z.of_nat 0) j0 j _ s Ha Hh) as (j' & E & Hh'). rewrite E. cbn [mbind option_bind]. by apply IH.
Qed.
End postfix.
End jni.

(** What the theorems assume: a scope of the array [a] with the objects [l], an
    environment, and that JNI's new references are new. *)
Record array_scope (new_ref : gset Z → Z) (env ref a : Z) (l : list Z) (j : Java) : Prop := {
  scope_env : env ≠ 0;
  scope_new live : new_ref live ≠ 0 ∧ new_ref live ∉ live;
  scope_array : array_of ref j = Some (a, l)
}.

(** C32: a loop [for (auto &e : scope)] gives the body every object of the array, in
    order and once, and ends; the references taken for the elements are deleted,
    and the array and the pending exception are as before.  A loop that advances
    with [it++] never ends unless the array is empty. *)
Theorem for_each_visits {S : Type} (body : Z → S → S) (acc : S) new_ref env ref a l j :
  array_scope new_ref env ref a l j →
  (∀ fuel, (length l < fuel)%nat → ∃ j',
     for_each new_ref body (increment new_ref) fuel (scope_of env ref l) acc j =
       Some (Some (foldl (λ acc o, body o acc) acc l, j')) ∧
     refs_ j' = refs_ j ∧ arrays j' = arrays j ∧ thrown j' = thrown j) ∧
  (l ≠ [] → ∀ fuel, for_each new_ref body (advance_postfix new_ref) fuel (scope_of env ref l) acc j = Some None).
Proof.
  intros [Henv Hnew Ha]. destruct (begin_spec new_ref env ref a l Henv Hnew j Ha) as (s & j1 & Eb & Ee & Hh).
  split.
  - intros fuel Hf. unfold for_each. rewrite Eb. simpl. rewrite Ee. simpl.
    destruct (loop_spec new_ref (λ _ _, true) env ref a l Henv Hnew body fuel 0 j j1 s
      (MkElement env ref (Z.of_nat (length l)) (Z.of_nat (length l)) (MkScope 0 0)) acc) as (s' & j2 & El & H2); [done|lia|lia|done|done|].
    rewrite El. cbn [mbind option_bind].
    rewrite (destroy_item new_ref (λ _ _, true) env Henv Hnew j j2 (with_refs (refs_ j2) j2) 0) by done. simpl. eexists. split; [done|]. simpl.
    split; [done|]. split; apply H2.
  - intros Hl fuel. unfold for_each. rewrite Eb. simpl. rewrite Ee. simpl.
    by rewrite (postfix_stays new_ref (λ _ _, true) env ref a l Henv Hnew body fuel j j1 s _ acc).
Qed.

(** An object assigned to an element of the array is in the array afterwards,
    with no reference left over; if the array cannot hold it, the array is
    unchanged and the exception is pending.  Assigned to an index out of range it
    leaves the array unchanged and the exception pending, and the element cannot
    be destroyed: it holds a reference and has no environment to delete it with. *)
Theorem element_assigned new_ref storable env ref a l j i r o :
  array_scope new_ref env ref a l j → object_of r j = Some o →
  ∃ e j1 e' j2, element_at new_ref i (scope_of env ref l) j = Some (e, j1) ∧
    assign_object new_ref storable r e j1 = Some (e', j2) ∧
    if (0 <=? i) && (i <? Z.of_nat (length l)) then
      ∃ j3, destroy_element e' j2 = Some j3 ∧ refs_ j3 = refs_ j ∧
        if storable a o then array_of ref j3 = Some (a, <[Z.to_nat i := o]> l) ∧ thrown j3 = thrown j
        else array_of ref j3 = Some (a, l) ∧ thrown j3 = true
    else arrays j2 = arrays j ∧ thrown j2 = true ∧ (o ≠ 0 → destroy_element e' j2 = None).
Proof.
  intros [Henv Hnew Ha] Hr.
  destruct (element_scope new_ref env ref a l Henv Hnew i j Ha) as (s & j1 & E1 & Hh & Hs).
  destruct (assign_object_spec new_ref storable env ref a l Henv Hnew i s r o j j1 Ha Hr Hh)
    as (r' & j2 & j3 & E2 & H2 & Er & Ed & Hw).
  do 4 eexists. split; [exact E1|]. split; [exact E2|].
  destruct ((0 <=? i) && (i <? Z.of_nat (length l))); cbn [andb] in *.
  - rewrite Hs. rewrite (destroy_item new_ref storable env Henv Hnew j j2 j3 o) by done. eexists. split; [done|]. split; [done|].
    assert (object_of ref (with_refs (refs_ j) j3) = Some a ∧ arrays j !! a = Some l) as [Ho Hl].
    { unfold array_of in Ha. destruct (object_of ref j) as [v|] eqn:Ev; [|done]. simpl in Ha.
      destruct (arrays j !! v) as [l'|] eqn:El; simplify_eq/=. split; [|done].
      by eapply object_of_after. }
    unfold array_of. rewrite Ho. simpl.
    destruct (storable a o); destruct Hw as [-> ->]; simpl; [by rewrite lookup_insert_eq|by rewrite Hl].
  - destruct Hw as [-> ->]. split_and!; [done..|]. intros H0. rewrite Hs.
    destruct (held_object _ _ _ _ _ H2 H0) as (_ & Hr' & _). simpl in Hr'.
    unfold destroy_element, on_refs, destroy, reset. cbn [item_ local_ref_ env_].
    by rewrite (proj2 (Z.eqb_neq 0 r')), (proj2 (Z.eqb_neq r' 0)) by done.
Qed.

(** The array 9 of the reference 5, with the object 20 (the reference 6), null and
    the object 21. *)
Definition sample_java : Java :=
  MkJava {[5; 6]} (<[5 := 9]> {[6 := 20]}) {[9 := [20; 0; 21]]} false.
Definition sample_new_ref (live : gset Z) : Z := fresh ({[0]} ∪ live).

Lemma sample_array_scope : array_scope sample_new_ref 1 5 9 [20; 0; 21] sample_java.
Proof.
  split; [done| |reflexivity]. intros live. pose proof (is_fresh ({[0]} ∪ live)) as H.
  unfold sample_new_ref. set_solver.
Qed.

Example for_each_visits_witness :
  ∃ j', for_each sample_new_ref (λ o s, s ++ [o]) (increment sample_new_ref) 4 (scope_of 1 5 [20; 0; 21]) [] sample_java =
    Some (Some ([20; 0; 21], j')) ∧ refs_ j' = {[5; 6]}.
Proof.
  destruct (for_each_visits (λ o s, s ++ [o]) [] sample_new_ref 1 5 9 [20; 0; 21] sample_java sample_array_scope) as [H _].
  destruct (H 4%nat ltac:(simpl; lia)) as (j' & E & Er & _). by exists j'.
Defined.

Example element_assigned_witness :
  ∃ e j1 e' j2 j3, element_at sample_new_ref 1 (scope_of 1 5 [20; 0; 21]) sample_java = Some (e, j1) ∧
    assign_object sample_new_ref (λ _ _, true) 6 e j1 = Some (e', j2) ∧
    destroy_element e' j2 = Some j3 ∧ array_of 5 j3 = Some (9, [20; 20; 21]).
Proof.
  destruct (element_assigned sample_new_ref (λ _ _, true) 1 5 9 [20; 0; 21] sample_java 1 6 20 sample_array_scope eq_refl)
    as (e & j1 & e' & j2 & E1 & E2 & j3 & E3 & _ & Ea & _).
  exists e, j1, e', j2, j3. split; [exact E1|]. split; [exact E2|]. split; [exact E3|exact Ea].
Defined.

(** ** [JDirectBuffer] *)

(** What JNI answers for a buffer; for one that is not direct, the address null
    and the capacity -1. *)
Section buffers.
Context (GetDirectBufferAddress GetDirectBufferCapacity : Z → Z).

(** The fields have no value when there is no environment or no buffer. *)
Record DirectBuffer := MkDirectBuffer { buffer_ : Z; address_ : option Z; b_size : option Z }.

Definition JDirectBuffer (env buffer : Z) : DirectBuffer :=
  if negb (env =? 0) && negb (buffer =? 0)
  then MkDirectBuffer buffer (Some (GetDirectBufferAddress buffer)) (Some (wrap 64 (GetDirectBufferCapacity buffer)))
  else MkDirectBuffer buffer None None.

Definition is_direct (b : DirectBuffer) : option bool := x ← address_ b; Some (negb (x =? 0)).

(** [length], with elements of [sizeof] bytes, and the address of an element. *)
Definition buffer_length (sizeof : Z) (b : DirectBuffer) : option Z := n ← b_size b; Some (n / sizeof).
Definition element_address (sizeof index : Z) (b : DirectBuffer) : option Z := x ← address_ b; Some (x + index * sizeof).

(** The elements below [length] lie in the buffer; a buffer that is not direct is
    null and has a size all the same, the largest there is. *)
Lemma buffer_elements env buffer sizeof n index x :
  env ≠ 0 → buffer ≠ 0 → 0 < sizeof →
  buffer_length sizeof (JDirectBuffer env buffer) = Some n → 0 ≤ index < n →
  element_address sizeof index (JDirectBuffer env buffer) = Some x →
  GetDirectBufferAddress buffer ≤ x ∧
  x + sizeof ≤ GetDirectBufferAddress buffer + wrap 64 (GetDirectBufferCapacity buffer).
Proof.
  intros He Hb Hs. unfold buffer_length, element_address, JDirectBuffer.
  rewrite (proj2 (Z.eqb_neq env 0)), (proj2 (Z.eqb_neq buffer 0)) by done. simpl. intros [= <-] Hi [= <-].
  pose proof (Z.mul_div_le (wrap 64 (GetDirectBufferCapacity buffer)) sizeof Hs). nia.
Qed.

Lemma indirect_buffer env buffer :
  env ≠ 0 → buffer ≠ 0 → GetDirectBufferAddress buffer = 0 → GetDirectBufferCapacity buffer = -1 →
  is_direct (JDirectBuffer env buffer) = Some false ∧ b_size (JDirectBuffer env buffer) = Some (2 ^ 64 - 1).
Proof.
  intros He Hb Ha Hc. unfold JDirectBuffer.
  rewrite (proj2 (Z.eqb_neq env 0)), (proj2 (Z.eqb_neq buffer 0)) by done. simpl. by rewrite Ha, Hc.
Qed.
End buffers.
