(* ===== verification/CollectionRefs.v ===== *)
(** * The references of the object collections

    [include/utils/jni_helper.hpp], [JBasicObjectCollection] and the parts of
    [JBasicObjectList] and [JBasicObjectMap] that make and delete references to
    their arrays; what the arrays hold is in [ObjectCollections.v].  The
    references to elements are deleted right after they are read. *)

From S2P Require Import Prelude.

Inductive RefKind : Set := LocalRef | GlobalRef | WeakRef.

#[global] Instance RefKind_eq_dec : EqDecision RefKind.
Proof. solve_decision. Defined.

(** The cached classes and method id, shared by all collections, and the live
    references with their kinds. *)
Record State := MkState {
  object_class_ : Z;
  system_class_ : Z;
  system_arraycopy_method_ : Z;
  live : gmap Z RefKind
}.

Definition with_live (l : gmap Z RefKind) (s : State) : State :=
  MkState (object_class_ s) (system_class_ s) (system_arraycopy_method_ s) l.

(** The reference a collection holds to its array, or to its two arrays. *)
Inductive Collection : Type := ObjectListOf (array_ : Z) | ObjectMapOf (keys_ values_ : Z).

Section collections.
(** The next new reference; whether the class of a weak reference was unloaded;
    and the id of [System.arraycopy]. *)
Context (fresh_ref : gmap Z RefKind → Z) (unloaded : Z → bool) (arraycopy_id : Z).
(** [kIsGlobalReference]. *)
Context (kIsGlobalReference : bool).
Implicit Types (s : State) (c : Collection).

Definition make (k : RefKind) s : Z * State :=
  (fresh_ref (live s), with_live (<[fresh_ref (live s) := k]> (live s)) s).

(** Deleting null does nothing; [None] is undefined. *)
Definition delete_ref (k : RefKind) (r : Z) s : option State :=
  if r =? 0 then Some s
  else if bool_decide (live s !! r = Some k) then Some (with_live (delete r (live s)) s) else None.

(** ** [JBasicObjectCollection] *)

Definition cached_class (cached : Z) s : option (Z * State) :=
  if (cached =? 0) || unloaded cached then
    let '(clazz, s) := make LocalRef s in
    let '(weak, s) := make WeakRef s in
    s ← delete_ref LocalRef clazz s;
    Some (weak, s)
  else Some (cached, s).

Definition get_object_class s : option (Z * State) :=
  '(r, s) ← cached_class (object_class_ s) s;
  Some (r, MkState r (system_class_ s) (system_arraycopy_method_ s) (live s)).
Definition get_system_class s : option (Z * State) :=
  '(r, s) ← cached_class (system_class_ s) s;
  Some (r, MkState (object_class_ s) r (system_arraycopy_method_ s) (live s)).

Definition get_system_arraycopy_method s : Z * State :=
  let id := if system_arraycopy_method_ s =? 0 then arraycopy_id else system_arraycopy_method_ s in
  (id, MkState (object_class_ s) (system_class_ s) id (live s)).

Definition arraycopy_refs s : option State :=
  '(_, s) ← get_system_class s; Some (get_system_arraycopy_method s).2.

Definition delete_weak_globals s : option State :=
  s ← delete_ref WeakRef (object_class_ s) s;
  let s := MkState 0 (system_class_ s) (system_arraycopy_method_ s) (live s) in
  s ← delete_ref WeakRef (system_class_ s) s;
  Some (MkState (object_class_ s) 0 (system_arraycopy_method_ s) (live s)).

(** ** Arrays *)

Definition array_kind : RefKind := if kIsGlobalReference then GlobalRef else LocalRef.

(** [NewObjectArray] of [java.lang.Object]. *)
Definition allocate_local s : option (Z * State) :=
  '(_, s) ← get_object_class s; Some (make LocalRef s).

(** What replaces the array of a list, in [grow_to], [allocate_array] and [finalize]. *)
Definition replace_array (array_ new_array : Z) s : option (Z * State) :=
  s ← delete_ref array_kind array_ s;
  if kIsGlobalReference then
    let '(r, s) := make GlobalRef s in
    s ← delete_ref LocalRef new_array s; Some (r, s)
  else Some (new_array, s).

(** [replace_arrays] of a map. *)
Definition replace_arrays (keys_ values_ new_keys new_values : Z) s : option (Z * Z * State) :=
  s ← delete_ref array_kind keys_ s;
  s ← delete_ref array_kind values_ s;
  if kIsGlobalReference then
    let '(k, s) := make GlobalRef s in
    let '(v, s) := make GlobalRef s in
    s ← delete_ref LocalRef new_keys s;
    s ← delete_ref LocalRef new_values s;
    Some (k, v, s)
  else Some (new_keys, new_values, s).

(** Two local arrays of a map. *)
Definition allocate_two s : option (Z * Z * State) :=
  '(_, s) ← get_object_class s;
  let '(k, s) := make LocalRef s in
  let '(v, s) := make LocalRef s in
  Some (k, v, s).

(** [grow_to], which is [allocate_array] or [allocate_arrays] at first. *)
Definition grow c s : option (Collection * State) :=
  match c with
  | ObjectListOf array_ =>
      '(new_array, s) ← allocate_local s;
      s ← if array_ =? 0 then Some s else arraycopy_refs s;
      '(r, s) ← replace_array array_ new_array s;
      Some (ObjectListOf r, s)
  | ObjectMapOf keys_ values_ =>
      '(new_keys, new_values, s) ← allocate_two s;
      s ← if keys_ =? 0 then Some s else (s ← arraycopy_refs s; arraycopy_refs s);
      '(k, v, s) ← replace_arrays keys_ values_ new_keys new_values s;
      Some (ObjectMapOf k v, s)
  end.

(** [finalize] where it makes smaller arrays; [copied]: a list has elements left. *)
Definition shrink (copied : bool) c s : option (Collection * State) :=
  '(c, s) ←
    match c with
    | ObjectListOf array_ =>
        '(new_array, s) ← allocate_local s;
        s ← if copied then arraycopy_refs s else Some s;
        '(r, s) ← replace_array array_ new_array s;
        Some (ObjectListOf r, s)
    | ObjectMapOf keys_ values_ =>
        '(new_keys, new_values, s) ← allocate_two s;
        '(k, v, s) ← replace_arrays keys_ values_ new_keys new_values s;
        Some (ObjectMapOf k v, s)
    end;
  s ← if kIsGlobalReference then delete_weak_globals s else Some s;
  Some (c, s).

Definition recycle c s : option (Collection * State) :=
  match c with
  | ObjectListOf array_ => s ← delete_ref array_kind array_ s; Some (ObjectListOf 0, s)
  | ObjectMapOf keys_ values_ =>
      if keys_ =? 0 then Some (ObjectMapOf 0 0, s)
      else
        s ← delete_ref array_kind keys_ s;
        s ← delete_ref array_kind values_ s;
        Some (ObjectMapOf 0 0, s)
  end.

(** [move_from]: what [this] held is overwritten. *)
Definition move_from (this other : Collection) : Collection * Collection :=
  (other, match other with ObjectListOf _ => ObjectListOf 0 | ObjectMapOf _ _ => ObjectMapOf 0 0 end).

(** What can be done with a collection. *)
Inductive CollectionOp : Type := Grow | Shrink (copied : bool) | Recycle.
Definition run_op (o : CollectionOp) c s : option (Collection * State) :=
  match o with Grow => grow c s | Shrink copied => shrink copied c s | Recycle => recycle c s end.

Fixpoint run_ops (l : list CollectionOp) c s : option (Collection * State) :=
  match l with [] => Some (c, s) | o :: l => '(c, s) ← run_op o c s; run_ops l c s end.

(** ** What a collection and the caches own *)

Definition owned (r : Z) (k : RefKind) : list (Z * RefKind) := if r =? 0 then [] else [(r, k)].

Definition held_refs c : list (Z * RefKind) :=
  match c with
  | ObjectListOf array_ => owned array_ array_kind
  | ObjectMapOf keys_ values_ => owned keys_ array_kind ++ owned values_ array_kind
  end.

Definition caches s : list (Z * RefKind) :=
  owned (object_class_ s) WeakRef ++ owned (system_class_ s) WeakRef.

(** A map has both arrays or none. *)
Definition both_or_none c : Prop :=
  match c with ObjectListOf _ => True | ObjectMapOf keys_ values_ => keys_ = 0 ↔ values_ = 0 end.

Context (Hfresh : ∀ l, fresh_ref l ≠ 0 ∧ l !! fresh_ref l = None).
(** [java.lang.Object] and [java.lang.System] are never unloaded. *)
Context (Hloaded : ∀ r, unloaded r = false).
(** The references of others. *)
Context (base : gmap Z RefKind).

(** The live references are those of [X], those of the caches, and those of others. *)
Definition owns (L : list (Z * RefKind)) (l : gmap Z RefKind) : Prop :=
  NoDup L.*1 ∧ (∀ r k, (r, k) ∈ L → r ≠ 0 ∧ base !! r = None) ∧ l = list_to_map L ∪ base.

Definition accounted (X : list (Z * RefKind)) s : Prop := owns (X ++ caches s) (live s).

Lemma owns_perm L L' l : L ≡ₚ L' → owns L l → owns L' l.
Proof.
  intros HL (Hn & Hb & ->). split_and!.
  - by rewrite <-HL.
  - intros r k. rewrite <-HL. apply Hb.
  - f_equal. by apply list_to_map_proper.
Qed.

Lemma owns_make L l k : owns L l → owns ((fresh_ref l, k) :: L) (<[fresh_ref l := k]> l).
Proof.
  intros (Hn & Hb & El). destruct (Hfresh l) as [H0 Hf].
  assert (list_to_map (M := gmap Z RefKind) L !! fresh_ref l = None ∧ base !! fresh_ref l = None) as [HL Hbase]
    by (apply lookup_union_None; by rewrite <-El).
  split_and!.
  - simpl. apply NoDup_cons. split; [by apply not_elem_of_list_to_map|done].
  - intros r k' [[= -> ->]|H]%elem_of_cons; [done|by apply (Hb r k')].
  - simpl. rewrite El at 2. by rewrite insert_union_l.
Qed.

Lemma owns_delete L l r k : owns ((r, k) :: L) l → l !! r = Some k ∧ owns L (delete r l).
Proof.
  intros (Hn & Hb & ->). simpl in Hn. apply NoDup_cons in Hn as [Hr Hn].
  destruct (Hb r k ltac:(by left)) as [_ Hbase]. apply not_elem_of_list_to_map in Hr. split.
  - simpl. by rewrite lookup_union, lookup_insert_eq, Hbase.
  - split_and!; [done|intros r' k' H; apply (Hb r' k'); by right|].
    simpl. rewrite delete_union, delete_insert_id by done. by rewrite (delete_id base).
Qed.

Lemma accounted_perm X Y s : X ≡ₚ Y → accounted X s → accounted Y s.
Proof. intros H. unfold accounted. apply owns_perm. by rewrite H. Qed.

Lemma make_accounted X s k r s' :
  make k s = (r, s') → accounted X s → r ≠ 0 ∧ accounted ((r, k) :: X) s' ∧ caches s' = caches s.
Proof. intros [= <- <-] H. split; [apply Hfresh|]. split; [|done]. by apply (owns_make _ _ k) in H. Qed.

Lemma delete_ref_owns L s k r :
  owns (owned r k ++ L) (live s) → ∃ l, delete_ref k r s = Some (with_live l s) ∧ owns L l.
Proof.
  unfold delete_ref, owned. destruct (r =? 0); [intros H; exists (live s); by destruct s|]. intros H.
  apply owns_delete in H as [Hr H]. rewrite bool_decide_eq_true_2 by done. by eexists.
Qed.

Lemma delete_accounted X s k r :
  accounted (owned r k ++ X) s → ∃ s', delete_ref k r s = Some s' ∧ accounted X s' ∧ caches s' = caches s.
Proof.
  unfold accounted. rewrite <-app_assoc. intros H. destruct (delete_ref_owns _ _ _ _ H) as (l & E & Hl). by eexists.
Qed.

Lemma owned_single r k : r ≠ 0 → owned r k = [(r, k)].
Proof. intros H. unfold owned. by rewrite (proj2 (Z.eqb_neq r 0)). Qed.

(** A cached class, with the rest of the caches in [X]. *)
Lemma cached_class_owns cached X s :
  owns (owned cached WeakRef ++ X) (live s) →
  ∃ r s', cached_class cached s = Some (r, s') ∧ owns (owned r WeakRef ++ X) (live s') ∧ r ≠ 0 ∧
    object_class_ s' = object_class_ s ∧ system_class_ s' = system_class_ s.
Proof.
  intros H. unfold cached_class. rewrite Hloaded, orb_false_r. destruct (Z.eqb_spec cached 0) as [->|H0]; [|by exists cached, s].
  simpl in H. unfold make, delete_ref. cbn [live with_live].
  set (clazz := fresh_ref (live s)). pose proof (owns_make _ _ LocalRef H) as H1. fold clazz in H1.
  set (l1 := <[clazz := LocalRef]> (live s)) in *. set (weak := fresh_ref l1).
  pose proof (owns_make _ _ WeakRef H1) as H2. fold weak in H2.
  apply (owns_perm _ ((clazz, LocalRef) :: (weak, WeakRef) :: X)) in H2; [|apply Permutation_swap].
  apply owns_delete in H2 as [E H2].
  rewrite (proj2 (Z.eqb_neq clazz 0)) by apply Hfresh. rewrite bool_decide_eq_true_2 by done. simpl.
  eexists _, _. split; [done|]. rewrite owned_single by apply Hfresh. split_and!; [done|apply Hfresh|done..].
Qed.

Lemma rotate (A : Type) (x y z : list A) : x ++ y ++ z ≡ₚ y ++ x ++ z.
Proof. apply Permutation_app_swap_app. Qed.

Lemma object_class_accounted X s :
  accounted X s → ∃ r s', get_object_class s = Some (r, s') ∧ accounted X s'.
Proof.
  intros H. unfold get_object_class.
  destruct (cached_class_owns (object_class_ s) (X ++ owned (system_class_ s) WeakRef) s) as (r & s' & E & Hs & _ & _ & Esys).
  { revert H. apply owns_perm, rotate. }
  rewrite E. simpl. eexists _, _. split; [done|]. unfold accounted, caches. simpl. rewrite Esys.
  revert Hs. apply owns_perm, rotate.
Qed.

Lemma arraycopy_accounted X s : accounted X s → ∃ s', arraycopy_refs s = Some s' ∧ accounted X s'.
Proof.
  intros H. unfold arraycopy_refs, get_system_class.
  destruct (cached_class_owns (system_class_ s) (X ++ owned (object_class_ s) WeakRef) s) as (r & s' & E & Hs & _ & Eobj & _).
  { revert H. apply owns_perm. unfold caches. by rewrite app_assoc, Permutation_app_comm. }
  rewrite E. simpl. eexists. split; [done|]. unfold accounted, caches. simpl. rewrite Eobj.
  revert Hs. apply owns_perm. by rewrite Permutation_app_comm, <-app_assoc.
Qed.

Lemma weak_accounted X s : accounted X s → ∃ s', delete_weak_globals s = Some s' ∧ accounted X s'.
Proof.
  intros H. unfold delete_weak_globals.
  destruct (delete_ref_owns (owned (system_class_ s) WeakRef ++ X) s WeakRef (object_class_ s)) as (l & E & Hl).
  { revert H. apply owns_perm. unfold caches. by rewrite (Permutation_app_comm X), <-app_assoc. }
  rewrite E. simpl.
  destruct (delete_ref_owns X (MkState 0 (system_class_ s) (system_arraycopy_method_ s) l) WeakRef (system_class_ s) Hl)
    as (l' & E' & Hl').
  rewrite E'. simpl. eexists. split; [done|]. unfold accounted, caches. simpl. by rewrite app_nil_r.
Qed.

(** ** Operations *)

Lemma make_new X s k : accounted X s → ∃ r s', make k s = (r, s') ∧ r ≠ 0 ∧ accounted ((r, k) :: X) s'.
Proof. intros H. destruct (make_accounted X s k _ _ eq_refl H) as (? & ? & _). by eexists _, _. Qed.

Lemma delete_owned X s k r : accounted (owned r k ++ X) s → ∃ s', delete_ref k r s = Some s' ∧ accounted X s'.
Proof. intros H. destruct (delete_accounted X s k r H) as (s' & ? & ? & _). by exists s'. Qed.

Lemma delete_made X s k r : r ≠ 0 → accounted ((r, k) :: X) s → ∃ s', delete_ref k r s = Some s' ∧ accounted X s'.
Proof. intros H0 H. apply delete_owned. by rewrite owned_single. Qed.

Lemma replace_array_accounted X s array_ new_array :
  new_array ≠ 0 → accounted ((new_array, LocalRef) :: owned array_ array_kind ++ X) s →
  ∃ r s', replace_array array_ new_array s = Some (r, s') ∧ r ≠ 0 ∧ accounted (owned r array_kind ++ X) s'.
Proof.
  intros H0 H. unfold replace_array.
  destruct (delete_owned ((new_array, LocalRef) :: X) s array_kind array_) as (s1 & E & H1);
    [revert H; apply accounted_perm; by rewrite Permutation_middle|].
  rewrite E. cbn [mbind option_bind]. unfold array_kind in *. destruct kIsGlobalReference.
  - destruct (make_new _ s1 GlobalRef H1) as (r & s2 & E2 & Hr & H2). rewrite E2. cbn beta iota.
    destruct (delete_made ((r, GlobalRef) :: X) s2 LocalRef new_array H0) as (s3 & E3 & H3);
      [revert H2; apply accounted_perm, Permutation_swap|].
    rewrite E3. cbn [mbind option_bind]. eexists _, _. split_and!; [done..|]. by rewrite owned_single.
  - eexists _, _. split_and!; [done..|]. by rewrite owned_single.
Qed.

Lemma replace_arrays_accounted X s keys_ values_ new_keys new_values :
  new_keys ≠ 0 → new_values ≠ 0 →
  accounted ((new_keys, LocalRef) :: (new_values, LocalRef) :: owned keys_ array_kind ++ owned values_ array_kind ++ X) s →
  ∃ k v s', replace_arrays keys_ values_ new_keys new_values s = Some (k, v, s') ∧ k ≠ 0 ∧ v ≠ 0 ∧
    accounted (owned k array_kind ++ owned v array_kind ++ X) s'.
Proof.
  intros Hk Hv H. unfold replace_arrays.
  destruct (delete_owned (owned values_ array_kind ++ (new_keys, LocalRef) :: (new_values, LocalRef) :: X) s array_kind keys_) as (s1 & E1 & H1);
    [revert H; apply accounted_perm; by rewrite <-!Permutation_middle|].
  rewrite E1. cbn [mbind option_bind].
  destruct (delete_owned _ _ _ _ H1) as (s2 & E2 & H2). rewrite E2. cbn [mbind option_bind].
  unfold array_kind in *. destruct kIsGlobalReference.
  - destruct (make_new _ s2 GlobalRef H2) as (k & s3 & E3 & Hk' & H3). rewrite E3. cbn beta iota.
    destruct (make_new _ s3 GlobalRef H3) as (v & s4 & E4 & Hv' & H4). rewrite E4. cbn beta iota.
    destruct (delete_made ((v, GlobalRef) :: (k, GlobalRef) :: (new_values, LocalRef) :: X) s4 LocalRef new_keys Hk) as (s5 & E5 & H5);
      [revert H4; apply accounted_perm; by rewrite !(Permutation_swap (new_keys, LocalRef))|].
    rewrite E5. cbn [mbind option_bind].
    destruct (delete_made ((v, GlobalRef) :: (k, GlobalRef) :: X) s5 LocalRef new_values Hv) as (s6 & E6 & H6);
      [revert H5; apply accounted_perm; by rewrite !(Permutation_swap (new_values, LocalRef))|].
    rewrite E6. cbn [mbind option_bind]. eexists _, _, _. split_and!; [done..|]. rewrite !owned_single by done.
    revert H6. apply accounted_perm, Permutation_swap.
  - eexists _, _, _. split_and!; [done..|]. by rewrite !owned_single.
Qed.

Lemma allocate_local_accounted X s :
  accounted X s → ∃ r s', allocate_local s = Some (r, s') ∧ r ≠ 0 ∧ accounted ((r, LocalRef) :: X) s'.
Proof.
  intros H. unfold allocate_local. destruct (object_class_accounted X s H) as (c & s1 & E & H1). rewrite E. cbn [mbind option_bind].
  destruct (make_new X s1 LocalRef H1) as (r & s2 & E2 & Hr & H2). rewrite E2. by eexists _, _.
Qed.

Lemma allocate_two_accounted X s :
  accounted X s → ∃ k v s', allocate_two s = Some (k, v, s') ∧ k ≠ 0 ∧ v ≠ 0 ∧
    accounted ((k, LocalRef) :: (v, LocalRef) :: X) s'.
Proof.
  intros H. unfold allocate_two. destruct (object_class_accounted X s H) as (c & s1 & E & H1). rewrite E. cbn [mbind option_bind].
  destruct (make_new X s1 LocalRef H1) as (k & s2 & E2 & Hk & H2). rewrite E2. cbn beta iota.
  destruct (make_new _ s2 LocalRef H2) as (v & s3 & E3 & Hv & H3). rewrite E3.
  eexists _, _, _. split_and!; [done..|]. revert H3. apply accounted_perm, Permutation_swap.
Qed.

(** The code between the allocation and the replacement of arrays. *)
Lemma copies_accounted (b : bool) X s :
  accounted X s →
  (∃ s', (if b then arraycopy_refs s else Some s) = Some s' ∧ accounted X s') ∧
  (∃ s', (if b then Some s else arraycopy_refs s) = Some s' ∧ accounted X s') ∧
  (∃ s', (if b then Some s else (s ← arraycopy_refs s; arraycopy_refs s)) = Some s' ∧ accounted X s').
Proof.
  intros H. destruct (arraycopy_accounted X s H) as (s1 & E1 & H1). destruct (arraycopy_accounted X s1 H1) as (s2 & E2 & H2).
  split_and!; destruct b; rewrite ?E1; cbn [mbind option_bind]; rewrite ?E2; eauto.
Qed.

(** Every operation is defined, and the collection and the caches own what they
    refer to afterwards. *)
Lemma grow_accounted c s :
  accounted (held_refs c) s →
  ∃ c' s', grow c s = Some (c', s') ∧ accounted (held_refs c') s' ∧ both_or_none c'.
Proof.
  intros H. unfold grow. destruct c as [array_|keys_ values_].
  - destruct (allocate_local_accounted _ _ H) as (n & s1 & E1 & Hn & H1). rewrite E1. cbn [mbind option_bind].
    destruct (copies_accounted (array_ =? 0) _ _ H1) as (_ & (s2 & E2 & H2) & _). rewrite E2. cbn [mbind option_bind].
    destruct (replace_array_accounted [] s2 array_ n Hn) as (r & s3 & E3 & Hr & H3); [by rewrite app_nil_r|].
    rewrite E3. rewrite app_nil_r in H3. by eexists _, _.
  - destruct (allocate_two_accounted _ _ H) as (k & v & s1 & E1 & Hk & Hv & H1). rewrite E1. cbn [mbind option_bind].
    destruct (copies_accounted (keys_ =? 0) _ _ H1) as (_ & _ & (s2 & E2 & H2)). rewrite E2. cbn [mbind option_bind].
    destruct (replace_arrays_accounted [] s2 keys_ values_ k v Hk Hv) as (k' & v' & s3 & E3 & Hk' & Hv' & H3); [by rewrite app_nil_r|].
    rewrite E3. rewrite app_nil_r in H3. eexists _, _. by split_and!.
Qed.

Lemma shrink_accounted copied c s :
  accounted (held_refs c) s →
  ∃ c' s', shrink copied c s = Some (c', s') ∧ accounted (held_refs c') s' ∧ both_or_none c'.
Proof.
  intros H.
  assert (∀ c1 s1, accounted (held_refs c1) s1 → both_or_none c1 → ∃ c' s',
    (s' ← (if kIsGlobalReference then delete_weak_globals s1 else Some s1); Some (c1, s')) = Some (c', s') ∧
    accounted (held_refs c') s' ∧ both_or_none c') as Hend.
  { intros c1 s1 H1 Hb. destruct (weak_accounted _ _ H1) as (s2 & E2 & H2).
    destruct kIsGlobalReference; [rewrite E2|]; by eexists _, _. }
  unfold shrink. destruct c as [array_|keys_ values_].
  - destruct (allocate_local_accounted _ _ H) as (n & s1 & E1 & Hn & H1). rewrite E1. cbn [mbind option_bind].
    destruct (copies_accounted copied _ _ H1) as ((s2 & E2 & H2) & _). rewrite E2. cbn [mbind option_bind].
    destruct (replace_array_accounted [] s2 array_ n Hn) as (r & s3 & E3 & Hr & H3); [by rewrite app_nil_r|].
    rewrite E3. rewrite app_nil_r in H3. by apply (Hend (ObjectListOf r)).
  - destruct (allocate_two_accounted _ _ H) as (k & v & s1 & E1 & Hk & Hv & H1). rewrite E1. cbn [mbind option_bind].
    destruct (replace_arrays_accounted [] s1 keys_ values_ k v Hk Hv) as (k' & v' & s3 & E3 & Hk' & Hv' & H3); [by rewrite app_nil_r|].
    rewrite E3. rewrite app_nil_r in H3. by apply (Hend (ObjectMapOf k' v')).
Qed.

Lemma recycle_accounted c s :
  accounted (held_refs c) s → both_or_none c →
  ∃ c' s', recycle c s = Some (c', s') ∧ held_refs c' = [] ∧ accounted [] s' ∧ both_or_none c'.
Proof.
  intros H Hb. unfold recycle. destruct c as [array_|keys_ values_].
  - destruct (delete_owned [] s array_kind array_) as (s1 & E & H1); [by rewrite app_nil_r|]. rewrite E. by eexists _, _.
  - simpl in H, Hb. destruct (Z.eqb_spec keys_ 0) as [->|Hk].
    + rewrite (proj1 Hb eq_refl) in H. by eexists _, _.
    + destruct (delete_owned _ _ _ _ H) as (s1 & E1 & H1). rewrite E1. cbn [mbind option_bind].
      destruct (delete_owned [] s1 array_kind values_) as (s2 & E2 & H2); [by rewrite app_nil_r|]. rewrite E2. by eexists _, _.
Qed.

Lemma run_ops_accounted l c s :
  accounted (held_refs c) s → both_or_none c →
  ∃ c' s', run_ops l c s = Some (c', s') ∧ accounted (held_refs c') s' ∧ both_or_none c'.
Proof.
  revert c s. induction l as [|o l IH]; intros c s H Hb; [by exists c, s|].
  assert (∃ c' s', run_op o c s = Some (c', s') ∧ accounted (held_refs c') s' ∧ both_or_none c') as (c1 & s1 & E & H1 & Hb1).
  { destruct o; simpl; [by apply grow_accounted|by apply shrink_accounted|].
    destruct (recycle_accounted c s H Hb) as (c' & s' & E & E0 & H0 & Hb'). exists c', s'. by rewrite E0. }
  simpl. rewrite E. cbn [mbind option_bind]. by apply IH.
Qed.
End collections.

(** A collection as it is declared, and the state before any is used. *)
Definition empty_collection (c : Collection) : Prop := c = ObjectListOf 0 ∨ c = ObjectMapOf 0 0.
Definition no_caches (base : gmap Z RefKind) : State := MkState 0 0 0 base.

(** C30: however a collection grows, shrinks and is recycled, it deletes only what it
    made, and what is live besides the references of others is one reference for
    each of its arrays, of its kind, and the weak ones of the cached classes; when
    it is recycled in the end, only the latter are left. *)
Theorem collection_refs_balanced fresh_ref unloaded arraycopy_id kIsGlobalReference base l c :
  (∀ l, fresh_ref l ≠ 0 ∧ l !! fresh_ref l = None) → (∀ r, unloaded r = false) → empty_collection c →
  ∃ c' s', run_ops fresh_ref unloaded arraycopy_id kIsGlobalReference l c (no_caches base) = Some (c', s') ∧
    NoDup (held_refs kIsGlobalReference c' ++ caches s').*1 ∧
    live s' = list_to_map (held_refs kIsGlobalReference c' ++ caches s') ∪ base ∧
    ∃ c'' s'', recycle kIsGlobalReference c' s' = Some (c'', s'') ∧ held_refs kIsGlobalReference c'' = [] ∧
      live s'' = list_to_map (caches s'') ∪ base.
Proof.
  intros Hf Hu Hc.
  destruct (run_ops_accounted fresh_ref unloaded arraycopy_id kIsGlobalReference Hf Hu base l c (no_caches base))
    as (c' & s' & E & H & Hb).
  - unfold accounted, owns. destruct Hc as [-> | ->]; simpl; (split_and!; [by apply NoDup_nil|by intros r k H%elem_of_nil|symmetry; apply (left_id_L ∅ (∪))]).
  - by destruct Hc as [-> | ->].
  - destruct (recycle_accounted kIsGlobalReference base c' s' H Hb) as (c'' & s'' & E' & E0 & H0 & _).
    exists c', s'. split; [done|]. split; [apply H|]. split; [apply H|]. exists c'', s''. split_and!; [done..|apply H0].
Qed.

(** Moving into a collection that holds arrays forgets them. *)
Lemma move_from_forgets kIsGlobalReference this other :
  let '(this', other') := move_from this other in
  held_refs kIsGlobalReference this' = held_refs kIsGlobalReference other ∧ held_refs kIsGlobalReference other' = [].
Proof. by destruct other. Qed.

(** A global map that grows twice and is finalized. *)
Definition sample_fresh_ref (l : gmap Z RefKind) : Z := fresh ({[0]} ∪ dom l).

Example collection_refs_balanced_witness :
  ∃ c' s', run_ops sample_fresh_ref (λ _, false) 77 true [Grow; Grow; Shrink false] (ObjectMapOf 0 0) (no_caches ∅) = Some (c', s') ∧
    live s' = list_to_map (held_refs true c' ++ caches s') ∪ ∅.
Proof.
  destruct (collection_refs_balanced sample_fresh_ref (λ _, false) 77 true ∅ [Grow; Grow; Shrink false] (ObjectMapOf 0 0))
    as (c' & s' & E & _ & Hl & _).
  - intros l. pose proof (is_fresh ({[0]} ∪ dom l)) as H. unfold sample_fresh_ref.
    split; [set_solver|]. apply not_elem_of_dom. set_solver.
  - done.
  - by right.
  - exists c', s'. by split.
Defined.
